(** * PageIndex code indexer: a shallow embedding and its properties

    The development follows the Python sources under [pageindex/]:

    - [page_index_kotlin.py]  the heuristic, line-oriented Kotlin scanner;
    - [page_index_python.py]  the extractor over Python's positioned AST;
    - [page_index_java.py]    the extractor over javalang's start-only AST;
    - [page_index_cpp.py]     the extractor over a tree-sitter CST;
    - [page_index_code.py]    dispatch, directory composition, thinning and
                              the summary stage.

    Python dictionaries that are mutated in place while other objects keep
    references to them (the scanner's scope stack) are modelled by a store
    of records addressed by position; stages that only rebuild a tree are
    modelled on an inductive tree. *)

From Stdlib Require Import ZArith Ascii String List Bool Lia Sorted.
From Stdlib Require OrdersEx.
From stdpp Require Import base list.
Import ListNotations.
Local Set Warnings "-register-all".
Local Open Scope string_scope.
Local Open Scope list_scope.

(** ** Python strings

    A Python [str] is modelled by [string]; a character is a code point
    below 256.  The helpers below are the [str] methods the sources use. *)

Definition chars (s : string) : list ascii := list_ascii_of_string s.
Definition str (l : list ascii) : string := string_of_list_ascii l.

Definition code (a : ascii) : nat := nat_of_ascii a.

(** [str.isspace] on one character, which is also what [\s] matches. *)
Definition is_space (a : ascii) : bool :=
  let n := code a in
  (((9 <=? n) && (n <=? 13)) || ((28 <=? n) && (n <=? 32))
   || (n =? 133) || (n =? 160))%nat.

Definition is_alnum_ (a : ascii) : bool :=
  let n := code a in
  (((97 <=? n) && (n <=? 122)) || ((65 <=? n) && (n <=? 90))
   || ((48 <=? n) && (n <=? 57)) || (n =? 95))%nat.

Definition newline : ascii := ascii_of_nat 10.
Definition dquote : ascii := ascii_of_nat 34.
Definition squote : ascii := ascii_of_nat 39.
Definition backtick : ascii := ascii_of_nat 96.
Definition nl : string := String newline EmptyString.

Fixpoint lstrip_chars (l : list ascii) : list ascii :=
  match l with
  | a :: l' => if is_space a then lstrip_chars l' else l
  | [] => []
  end.

Definition rstrip_chars (l : list ascii) : list ascii :=
  rev (lstrip_chars (rev l)).

(** [s.strip()] *)
Definition py_strip (s : string) : string :=
  str (rstrip_chars (lstrip_chars (chars s))).

Fixpoint starts_with (p l : list ascii) : bool :=
  match p, l with
  | [], _ => true
  | a :: p', b :: l' => Ascii.eqb a b && starts_with p' l'
  | _ :: _, [] => false
  end.

(** [s.startswith(p)] and [s.endswith(p)] *)
Definition py_startswith (s p : string) : bool := starts_with (chars p) (chars s).
Definition py_endswith (s p : string) : bool :=
  starts_with (rev (chars p)) (rev (chars s)).

Fixpoint contains_chars (p l : list ascii) : bool :=
  starts_with p l ||
  match l with
  | [] => false
  | _ :: l' => contains_chars p l'
  end.

(** [p in s] *)
Definition py_in (p s : string) : bool := contains_chars (chars p) (chars s).

(** [s.count(c)] for a one-character [c] *)
Definition count_char (c : ascii) (l : list ascii) : nat :=
  length (List.filter (Ascii.eqb c) l).

(** [s.split(c)] for a one-character separator: never empty. *)
Fixpoint split_chars (c : ascii) (l : list ascii) : list (list ascii) :=
  match l with
  | [] => [[]]
  | a :: l' =>
      if Ascii.eqb a c then [] :: split_chars c l'
      else match split_chars c l' with
           | w :: ws => (a :: w) :: ws
           | [] => [[a]]
           end
  end.

Definition py_split (s : string) (c : ascii) : list string :=
  List.map str (split_chars c (chars s)).

(** [s.split(c)[0]] *)
Definition py_split_head (s : string) (c : ascii) : string :=
  match py_split s c with
  | w :: _ => w
  | [] => EmptyString
  end.

(** [sep.join(parts)] *)
Fixpoint py_join (sep : string) (parts : list string) : string :=
  match parts with
  | [] => EmptyString
  | [p] => p
  | p :: ps => p ++ sep ++ py_join sep ps
  end.

(** [s[:n]] and [s[:-1]] *)
Definition py_prefix (n : nat) (s : string) : string := str (firstn n (chars s)).
Definition py_drop_last (s : string) : string := str (removelast (chars s)).

(** Truthiness of a string: non-empty. *)
Definition nonempty (s : string) : bool :=
  match s with EmptyString => false | _ => true end.

(** Truthiness of a value that may be [None] or a string. *)
Definition truthy (o : option string) : bool :=
  match o with Some s => nonempty s | None => false end.

(** ** Regular expressions

    A backtracking matcher with Python's priorities: alternatives are tried
    left to right, [*] is greedy, [*?] is lazy, and the first complete match
    wins.  Groups record the text they matched last. *)

Module Re.

Inductive regex : Type :=
| Eps
| Chr (p : ascii -> bool)
| Seq (r1 r2 : regex)
| Alt (r1 r2 : regex)
| Star (r : regex)
| LazyStar (r : regex)
| Group (i : nat) (r : regex).

Definition caps : Type := list (nat * list ascii).

Fixpoint group (c : caps) (i : nat) : option (list ascii) :=
  match c with
  | [] => None
  | (j, w) :: c' => if Nat.eqb i j then Some w else group c' i
  end.

Fixpoint rmatch {A : Type} (r : regex) (s : list ascii) (c : caps)
    (k : list ascii -> caps -> option A) {struct r} : option A :=
  match r with
  | Eps => k s c
  | Chr p =>
      match s with
      | a :: s' => if p a then k s' c else None
      | [] => None
      end
  | Seq r1 r2 => rmatch r1 s c (fun s' c' => rmatch r2 s' c' k)
  | Alt r1 r2 =>
      match rmatch r1 s c k with
      | Some x => Some x
      | None => rmatch r2 s c k
      end
  | Star r1 =>
      (fix loop (n : nat) (s : list ascii) (c : caps) {struct n} : option A :=
         match n with
         | O => k s c
         | S n' =>
             match rmatch r1 s c
                     (fun s' c' => if (length s' <? length s)%nat
                                   then loop n' s' c' else None) with
             | Some x => Some x
             | None => k s c
             end
         end) (length s) s c
  | LazyStar r1 =>
      (fix loop (n : nat) (s : list ascii) (c : caps) {struct n} : option A :=
         match n with
         | O => k s c
         | S n' =>
             match k s c with
             | Some x => Some x
             | None =>
                 rmatch r1 s c
                   (fun s' c' => if (length s' <? length s)%nat
                                 then loop n' s' c' else None)
             end
         end) (length s) s c
  | Group i r1 =>
      rmatch r1 s c
        (fun s' c' => k s' ((i, firstn (length s - length s') s) :: c'))
  end.

(** Derived forms. *)
Definition Opt (r : regex) : regex := Alt r Eps.
Definition Plus (r : regex) : regex := Seq r (Star r).
Definition Dot : regex := Chr (fun a => negb (Ascii.eqb a newline)).
Definition Space : regex := Chr is_space.

Fixpoint LitChars (l : list ascii) : regex :=
  match l with
  | [] => Eps
  | a :: l' => Seq (Chr (Ascii.eqb a)) (LitChars l')
  end.
Definition Lit (s : string) : regex := LitChars (chars s).

Fixpoint Seqs (rs : list regex) : regex :=
  match rs with
  | [] => Eps
  | [r] => r
  | r :: rs' => Seq r (Seqs rs')
  end.

(** [a|b|c] over literal words, leftmost first. *)
Fixpoint Words (ws : list string) : regex :=
  match ws with
  | [] => Chr (fun _ => false)
  | [w] => Lit w
  | w :: ws' => Alt (Lit w) (Words ws')
  end.

(** [pattern.match(s)]; also [pattern.search(s)] for a pattern that opens
    with [^] (no MULTILINE flag), which can only match at position 0.
    The result is the captures and the unmatched rest. *)
Definition match_ (r : regex) (s : string) : option (caps * list ascii) :=
  rmatch r (chars s) [] (fun s' c' => Some (c', s')).

(** [re.sub(pattern, repl, s)] for a pattern that never matches the empty
    string: leftmost non-overlapping matches are replaced. *)
Fixpoint sub_chars (fuel : nat) (r : regex) (repl s : list ascii) : list ascii :=
  match fuel, s with
  | S fuel', a :: s' =>
      match rmatch r s [] (fun rest _ => Some rest) with
      | Some rest =>
          if (length rest <? length s)%nat
          then repl ++ sub_chars fuel' r repl rest
          else a :: sub_chars fuel' r repl s'
      | None => a :: sub_chars fuel' r repl s'
      end
  | _, _ => s
  end.

Definition sub (r : regex) (repl s : string) : string :=
  str (sub_chars (String.length s) r (chars repl) (chars s)).

End Re.

(** ** The canonical node

    A node is a Python dict.  The keys other than ['nodes'] are gathered in
    [fields]; a key that a dict may lack is an [option].  ['nodes'] is kept
    apart: [None] is a dict without the key, [Some []] an empty child list. *)

Inductive kind : Type :=
| directory | file | class | struct | namespace | interface | enum | object
| function | method | import | imports.

Definition kind_eqb (a b : kind) : bool :=
  match a, b with
  | directory, directory | file, file | class, class | struct, struct
  | namespace, namespace | interface, interface | enum, enum
  | object, object | function, function | method, method
  | import, import | imports, imports => true
  | _, _ => false
  end.

(** The string stored under ['type']. *)
Definition kind_name (k : kind) : string :=
  match k with
  | directory => "directory" | file => "file" | class => "class"
  | struct => "struct" | namespace => "namespace" | interface => "interface"
  | enum => "enum" | object => "object" | function => "function"
  | method => "method" | import => "import" | imports => "imports"
  end.

(** [k in ks] for a list of kinds. *)
Definition kind_in (k : kind) (ks : list kind) : bool := existsb (kind_eqb k) ks.

Record fields : Type := mkFields {
  title : string;
  node_id : option string;
  type : kind;
  signature : option string;
  docstring : option string;
  decorators : option (list string);
  start_line : option nat;
  end_line : option nat;
  summary : option string;
  prefix_summary : option string;
  text : option string;
  path : option string
}.

Inductive node : Type :=
| Node (attrs : fields) (nodes : option (list node)).

Definition attrs (n : node) : fields := match n with Node f _ => f end.
Definition nodes (n : node) : option (list node) := match n with Node _ ns => ns end.

(** [node.get('nodes', [])] *)
Definition get_nodes (n : node) : list node := default [] (nodes n).

(** A dict as an extractor creates it: title, type, a line range, and the
    optional signature, docstring and decorators. *)
Definition code_fields (t : string) (k : kind) (s e : nat)
    (sig doc : option string) (decs : option (list string)) : fields :=
  {| title := t; node_id := None; type := k; signature := sig;
     docstring := doc; decorators := decs;
     start_line := Some s; end_line := Some e;
     summary := None; prefix_summary := None; text := None; path := None |}.

Definition set_text (f : fields) (t : option string) : fields :=
  {| title := title f; node_id := node_id f; type := type f;
     signature := signature f; docstring := docstring f;
     decorators := decorators f; start_line := start_line f;
     end_line := end_line f; summary := summary f;
     prefix_summary := prefix_summary f; text := t; path := path f |}.

Definition set_summary (f : fields) (s : option string) : fields :=
  {| title := title f; node_id := node_id f; type := type f;
     signature := signature f; docstring := docstring f;
     decorators := decorators f; start_line := start_line f;
     end_line := end_line f; summary := s;
     prefix_summary := prefix_summary f; text := text f; path := path f |}.

Definition set_prefix_summary (f : fields) (s : option string) : fields :=
  {| title := title f; node_id := node_id f; type := type f;
     signature := signature f; docstring := docstring f;
     decorators := decorators f; start_line := start_line f;
     end_line := end_line f; summary := summary f;
     prefix_summary := s; text := text f; path := path f |}.

(** All the nodes of a forest, parents before children, in source order. *)
Fixpoint walk (n : node) : list node :=
  match n with
  | Node _ ns =>
      n :: match ns with
           | Some l => (fix walk_list (l : list node) : list node :=
                          match l with
                          | [] => []
                          | c :: l' => walk c ++ walk_list l'
                          end) l
           | None => []
           end
  end.

Definition walk_forest (l : list node) : list node := flat_map walk l.

(** [lines[start - 1 : end]] joined by newlines: the slice every
    [extract_node_text_content] takes. *)
Definition slice_lines (lines : list string) (s e : nat) : string :=
  py_join nl (firstn (e - (s - 1)) (skipn (s - 1) lines)).

(** ** [page_index_kotlin.py]: the heuristic scanner *)

Module Kotlin.
Import Re.

(** [^\s*(private|public|protected|internal)?\s*(open|data|sealed|annotation|inner)?\s*(class|interface|object|enum\s+class)\s+([a-zA-Z0-9_]+)] *)
Definition class_pattern : regex :=
  Seqs [ Star Space;
         Opt (Group 1 (Words ["private"; "public"; "protected"; "internal"]));
         Star Space;
         Opt (Group 2 (Words ["open"; "data"; "sealed"; "annotation"; "inner"]));
         Star Space;
         Group 3 (Alt (Lit "class")
                 (Alt (Lit "interface")
                 (Alt (Lit "object")
                      (Seqs [Lit "enum"; Plus Space; Lit "class"]))));
         Plus Space;
         Group 4 (Plus (Chr is_alnum_)) ].

(** [^\s*(private|public|protected|internal|override|suspend|abstract|open|inline)*\s*fun\s+([a-zA-Z0-9_`]+)] *)
Definition fun_pattern : regex :=
  Seqs [ Star Space;
         Star (Group 1 (Words ["private"; "public"; "protected"; "internal";
                               "override"; "suspend"; "abstract"; "open";
                               "inline"]));
         Star Space;
         Lit "fun";
         Plus Space;
         Group 2 (Plus (Chr (fun a => is_alnum_ a || Ascii.eqb a backtick))) ].

(** [^\s*import\s+] *)
Definition import_pattern : regex :=
  Seqs [Star Space; Lit "import"; Plus Space].

(** [count_braces]: comments and the inside of quoted literals are removed,
    then the braces are counted. *)
Definition strip_literals (line : string) : string :=
  let line := sub (Seq (Lit "//") (Star Dot)) EmptyString line in
  let line := sub (Seqs [Chr (Ascii.eqb dquote); LazyStar Dot; Chr (Ascii.eqb dquote)])
                  (str [dquote; dquote]) line in
  sub (Seqs [Chr (Ascii.eqb squote); LazyStar Dot; Chr (Ascii.eqb squote)])
      (str [squote; squote]) line.

Definition count_braces (line : string) : Z :=
  let line := strip_literals line in
  (Z.of_nat (count_char "{"%char (chars line))
   - Z.of_nat (count_char "}"%char (chars line)))%Z.

(** What the code reads off a successful [class_pattern] match. *)
Record class_match : Type := {
  kind_modifiers : option string;   (* group(2) *)
  kind_type : string;               (* group(3) *)
  class_name : string               (* group(4) *)
}.

Definition search_class (line : string) : option class_match :=
  match match_ class_pattern line with
  | Some (c, _) =>
      match group c 3, group c 4 with
      | Some k, Some n =>
          Some {| kind_modifiers := option_map str (group c 2);
                  kind_type := str k; class_name := str n |}
      | _, _ => None
      end
  | None => None
  end.

(** [match_fun.group(2)] of a successful [fun_pattern] match. *)
Definition search_fun (line : string) : option string :=
  match match_ fun_pattern line with
  | Some (c, _) => option_map str (group c 2)
  | None => None
  end.

Definition is_import (stripped_line : string) : bool :=
  match match_ import_pattern stripped_line with
  | Some _ => true
  | None => false
  end.

(** The dicts the scanner creates live in a store: the scope stack and the
    result list both refer to them by address, and [end_line] and the child
    list of a dict are updated through either. *)
Record hnode : Type := {
  h_title : string;
  h_type : kind;
  h_start_line : nat;
  h_end_line : nat;
  h_signature : option string;
  h_nodes : list nat
}.

Record frame : Type := {
  f_node : nat;
  start_balance : Z
}.

(** The scanner's variables.  [stack] has the innermost frame ([stack[-1]])
    first.  [import_start_line] and [import_end_line] are [None] together
    or set together, so one optional pair stands for both. *)
Record state : Type := {
  heap : list hnode;
  st_nodes : list nat;
  stack : list frame;
  current_brace_balance : Z;
  import_lines : option (nat * nat)
}.

Definition set_end_line (n : hnode) (l : nat) : hnode :=
  {| h_title := h_title n; h_type := h_type n;
     h_start_line := h_start_line n; h_end_line := l;
     h_signature := h_signature n; h_nodes := h_nodes n |}.

Definition add_child (n : hnode) (c : nat) : hnode :=
  {| h_title := h_title n; h_type := h_type n;
     h_start_line := h_start_line n; h_end_line := h_end_line n;
     h_signature := h_signature n; h_nodes := h_nodes n ++ [c] |}.

Definition initial : state :=
  {| heap := []; st_nodes := []; stack := [];
     current_brace_balance := 0%Z; import_lines := None |}.

(** An import line: open the run if none is open, extend it to this line. *)
Definition note_import (st : state) (line_num : nat) : state :=
  {| heap := heap st; st_nodes := st_nodes st; stack := stack st;
     current_brace_balance := current_brace_balance st;
     import_lines :=
       match import_lines st with
       | Some (s, _) => Some (s, line_num)
       | None => Some (line_num, line_num)
       end |}.

(** Append the pending ['imports'] dict to [nodes], if a run is open. *)
Definition flush_imports (st : state) : state :=
  match import_lines st with
  | Some (s, e) =>
      {| heap := heap st ++ [ {| h_title := "Imports"; h_type := imports;
                                 h_start_line := s; h_end_line := e;
                                 h_signature := None; h_nodes := [] |} ];
         st_nodes := st_nodes st ++ [length (heap st)];
         stack := stack st;
         current_brace_balance := current_brace_balance st;
         import_lines := None |}
  | None => st
  end.

(** The [while stack:] loop: frames whose baseline the balance has reached
    are closed at this line. *)
Fixpoint close_scopes (h : list hnode) (stk : list frame) (balance : Z)
    (line_num : nat) : list hnode * list frame :=
  match stk with
  | top :: rest =>
      if (balance <=? start_balance top)%Z
      then close_scopes (alter (fun n => set_end_line n line_num) (f_node top) h)
                        rest balance line_num
      else (h, stk)
  | [] => (h, [])
  end.

Definition node_type_of (kind_type : string) : kind :=
  if py_in "interface" kind_type then interface
  else if py_in "enum" kind_type then enum
  else if py_in "object" kind_type then object
  else class.

Definition fun_signature (line : string) : string :=
  let signature := py_strip (py_split_head line "{"%char) in
  if py_endswith signature "=" then py_strip (py_drop_last signature)
  else signature.

(** The [if match_class: ... elif match_fun: ...] block: the dict created
    for this line, if any.  [top_type] is the type of [stack[-1]]'s node. *)
Definition new_node (match_class : option class_match) (match_fun : option string)
    (line : string) (line_num : nat) (top_type : option kind) : option hnode :=
  match match_class with
  | Some m =>
      Some {| h_title := class_name m; h_type := node_type_of (kind_type m);
              h_start_line := line_num; h_end_line := line_num;
              h_signature := None; h_nodes := [] |}
  | None =>
      match match_fun with
      | Some name =>
          Some {| h_title := name ++ "()";
                  h_type :=
                    match top_type with
                    | Some k =>
                        if kind_in k [class; interface; object; enum]
                        then method else function
                    | None => function
                    end;
                  h_start_line := line_num; h_end_line := line_num;
                  h_signature := Some (fun_signature line); h_nodes := [] |}
      | None => None
      end
  end.

Definition top_type (h : list hnode) (stk : list frame) : option kind :=
  match stk with
  | top :: _ => option_map h_type (h !! f_node top)
  | [] => None
  end.

(** [if new_node: ...]: the dict gets the next address, is attached to the
    innermost open dict or to [nodes], and a frame with its baseline is
    pushed.  The result is the store, [nodes] and the stack. *)
Definition push_node (h : list hnode) (roots : list nat) (stk : list frame)
    (balance : Z) (line : string) (n : hnode)
    : list hnode * list nat * list frame :=
  let a := length h in
  let start_balance := (balance - (if py_in "{" line then 1 else 0))%Z in
  let new_frame := {| f_node := a; start_balance := start_balance |} in
  match stk with
  | top :: _ =>
      (alter (fun p => add_child p a) (f_node top) h ++ [n], roots,
       new_frame :: stk)
  | [] => (h ++ [n], roots ++ [a], new_frame :: stk)
  end.

(** One iteration of [for i, line in enumerate(lines)], [line_num = i + 1]. *)
Definition step (st : state) (line_num : nat) (line : string) : state :=
  let stripped_line := py_strip line in
  if is_import stripped_line then note_import st line_num
  else
    let st :=
      if nonempty stripped_line
         && negb (py_startswith stripped_line "//")
         && negb (py_startswith stripped_line "package")
      then flush_imports st else st in
    let balance := (current_brace_balance st + count_braces line)%Z in
    let '(h, stk) := close_scopes (heap st) (stack st) balance line_num in
    let '(h, roots, stk) :=
      match new_node (search_class line) (search_fun line) line line_num
                     (top_type h stk) with
      | Some n => push_node h (st_nodes st) stk balance line n
      | None => (h, st_nodes st, stk)
      end in
    {| heap := h; st_nodes := roots; stack := stk;
       current_brace_balance := balance;
       import_lines := import_lines st |}.

Fixpoint scan_from (st : state) (line_num : nat) (lines : list string) : state :=
  match lines with
  | [] => st
  | line :: rest => scan_from (step st line_num line) (S line_num) rest
  end.

(** The whole loop and the final flush. *)
Definition scan (lines : list string) : state :=
  flush_imports (scan_from initial 1 lines).

(** The dict at an address as a tree; the fuel bounds the depth. *)
Fixpoint build (fuel : nat) (h : list hnode) (a : nat) : list node :=
  match fuel with
  | O => []
  | S fuel' =>
      match h !! a with
      | Some n =>
          [Node (code_fields (h_title n) (h_type n) (h_start_line n)
                             (h_end_line n) (h_signature n) None None)
                (Some (flat_map (build fuel' h) (h_nodes n)))]
      | None => []
      end
  end.

Definition forest (st : state) : list node :=
  flat_map (build (length (heap st)) (heap st)) (st_nodes st).

(** [extract_nodes_from_kotlin]; [code_content] is not used by the code. *)
Definition extract_nodes_from_kotlin (code_content : string)
    (lines : list string) : list node :=
  forest (scan lines).

End Kotlin.

(** [add_text_to_node] of [extract_node_text_content]: the four source files
    define the same function (three of them clamp [end] to [len(lines)],
    which slicing does anyway). *)
Fixpoint add_text_to_node (lines : list string) (n : node) : node :=
  match n with
  | Node f ns =>
      Node (set_text f (Some (slice_lines lines (default 0 (start_line f))
                                          (default 0 (end_line f)))))
           (option_map (List.map (add_text_to_node lines)) ns)
  end.

Definition extract_node_text_content (nodes : list node) (lines : list string)
    : list node :=
  List.map (add_text_to_node lines) nodes.

(** [os.path.basename] *)
Definition basename (p : string) : string :=
  List.last (py_split p "/"%char) EmptyString.

(** The ['file'] dict every [build_*_file_tree] returns. *)
Definition file_node (file_path code_content : string) (lines : list string)
    (nodes : list node) : node :=
  Node {| title := basename file_path; node_id := None; type := file;
          signature := None; docstring := None; decorators := None;
          start_line := Some 1; end_line := Some (length lines);
          summary := None; prefix_summary := None;
          text := Some code_content; path := Some file_path |}
       (Some nodes).

(** A truthy result is appended, [None] is dropped. *)
Definition option_list {A : Type} (o : option A) : list A :=
  match o with Some x => [x] | None => [] end.

(** ** [page_index_python.py]: the exact-position AST *)

Module Python.

(** An [ast.arg]: the name and the unparsed annotation. *)
Record arg : Type := { arg_name : string; annotation : option string }.

(** [ast.arguments], with defaults and annotations already unparsed. *)
Record arguments : Type := {
  posonlyargs : list arg;
  args : list arg;
  defaults : list string;
  vararg : option arg;
  kwonlyargs : list arg;
  kw_defaults : list (option string);
  kwarg : option arg
}.

(** A decorator expression: [ast.Name], [ast.Attribute] and [ast.Call] carry
    their identifier or unparsed text. *)
Inductive decorator : Type :=
| DName (id : string)
| DAttribute (unparsed : string)
| DCall (unparsed : string)
| DOther.

(** The statements the extractor tells apart.  [Import] stands for both
    [ast.Import] and [ast.ImportFrom]; its [end_lineno] is optional because
    the code tests for it.  [Expr] carries the string constant when the
    expression is one. *)
Inductive stmt : Type :=
| ClassDef (name : string) (lineno end_lineno : nat)
           (decorator_list : list decorator) (body : list stmt)
| FunctionDef (is_async : bool) (name : string) (lineno end_lineno : nat)
              (args : arguments) (returns : option string)
              (decorator_list : list decorator) (body : list stmt)
| Import (unparsed : string) (lineno : nat) (end_lineno : option nat)
| Expr (lineno end_lineno : nat) (constant : option string)
| OtherStmt (lineno end_lineno : nat).

Definition arg_str (a : arg) : string :=
  match annotation a with
  | Some t => arg_name a ++ ": " ++ t
  | None => arg_name a
  end.

(** The loop over [args.args]: argument [i] takes default
    [i - defaults_offset] when that index is in range. *)
Fixpoint regular_args (i : Z) (defaults_offset : Z) (defaults : list string)
    (l : list arg) : list string :=
  match l with
  | [] => []
  | a :: l' =>
      let default_idx := (i - defaults_offset)%Z in
      (if ((0 <=? default_idx) && (default_idx <? Z.of_nat (length defaults)))%Z
       then match nth_error defaults (Z.to_nat default_idx) with
            | Some d => (arg_str a ++ " = " ++ d)%string
            | None => arg_str a
            end
       else arg_str a) :: regular_args (i + 1) defaults_offset defaults l'
  end.

Fixpoint kwonly_args (kw_defaults : list (option string)) (l : list arg)
    : list string :=
  match l with
  | [] => []
  | a :: l' =>
      match kw_defaults with
      | Some d :: ds => (arg_str a ++ " = " ++ d)%string :: kwonly_args ds l'
      | None :: ds => arg_str a :: kwonly_args ds l'
      | [] => arg_str a :: kwonly_args [] l'
      end
  end.

Definition extract_signature (is_async : bool) (name : string)
    (a : arguments) (returns : option string) : string :=
  let parts :=
    List.map arg_str (posonlyargs a)
    ++ (match posonlyargs a with [] => [] | _ => ["/"] end)
    ++ regular_args 0 (Z.of_nat (length (args a)) - Z.of_nat (length (defaults a)))
                    (defaults a) (args a)
    ++ (match vararg a with
        | Some v => [("*" ++ arg_str v)%string]
        | None => match kwonlyargs a with [] => [] | _ => ["*"] end
        end)
    ++ kwonly_args (kw_defaults a) (kwonlyargs a)
    ++ (match kwarg a with Some k => [("**" ++ arg_str k)%string] | None => [] end) in
  let func_keyword := if is_async then "async def" else "def" in
  let signature :=
    (func_keyword ++ " " ++ name ++ "(" ++ py_join ", " parts ++ ")")%string in
  match returns with
  | Some r => (signature ++ " -> " ++ r)%string
  | None => signature
  end.

Definition extract_docstring (body : list stmt) : option string :=
  match body with
  | Expr _ _ (Some s) :: _ => Some s
  | _ => None
  end.

Definition extract_decorators (decorator_list : list decorator) : list string :=
  flat_map (fun d => match d with
                     | DName id => [("@" ++ id)%string]
                     | DAttribute u => [("@" ++ u)%string]
                     | DCall u => [("@" ++ u)%string]
                     | DOther => []
                     end) decorator_list.

(** The nested [process_node]: a dict for a class or a function, [None] for
    anything else. *)
Fixpoint process_node (ast_node : stmt) (parent_type : option kind)
    : option node :=
  match ast_node with
  | ClassDef name lineno end_lineno decorator_list body =>
      Some (Node (code_fields name class lineno end_lineno None
                              (extract_docstring body)
                              (Some (extract_decorators decorator_list)))
                 (Some (flat_map (fun child =>
                                    option_list (process_node child (Some class)))
                                 body)))
  | FunctionDef is_async name lineno end_lineno a returns decorator_list body =>
      let node_type :=
        match parent_type with Some class => method | _ => function end in
      Some (Node (code_fields (name ++ "()")%string node_type lineno end_lineno
                              (Some (extract_signature is_async name a returns))
                              (extract_docstring body)
                              (Some (extract_decorators decorator_list)))
                 (Some (flat_map (fun child =>
                                    option_list (process_node child (Some function)))
                                 body)))
  | _ => None
  end.

Definition is_import (s : stmt) : bool :=
  match s with Import _ _ _ => true | _ => false end.

Definition lineno (s : stmt) : nat :=
  match s with
  | ClassDef _ l _ _ _ | FunctionDef _ _ l _ _ _ _ _ | Import _ l _
  | Expr l _ _ | OtherStmt l _ => l
  end.

(** [imp.end_lineno if hasattr(imp, 'end_lineno') else imp.lineno] *)
Definition import_end (s : stmt) : nat :=
  match s with
  | Import _ l e => default l e
  | ClassDef _ _ e _ _ | FunctionDef _ _ _ e _ _ _ _ | Expr _ e _
  | OtherStmt _ e => e
  end.

Definition import_title (s : stmt) : string :=
  match s with Import u _ _ => u | _ => EmptyString end.

(** The ['imports'] dict for a non-empty batch, with one ['import'] child
    per statement. *)
Definition imports_node (current_imports : list stmt) : list node :=
  match current_imports with
  | [] => []
  | first :: _ =>
      [Node (code_fields "Imports" imports (lineno first)
                         (import_end (List.last current_imports first))
                         None None None)
            (Some (List.map (fun imp =>
                               Node (code_fields (import_title imp) import
                                                 (lineno imp) (import_end imp)
                                                 None None None)
                                    (Some []))
                            current_imports))]
  end.

(** The loop over [tree.body] and the trailing flush. *)
Fixpoint top_level (body : list stmt) (current_imports : list stmt)
    (nodes : list node) : list node :=
  match body with
  | [] => nodes ++ imports_node current_imports
  | s :: rest =>
      if is_import s then top_level rest (current_imports ++ [s]) nodes
      else top_level rest []
             (nodes ++ imports_node current_imports
                    ++ option_list (process_node s None))
  end.

Section Extractor.
(** [ast.parse]: the module body, or [None] on a [SyntaxError]. *)
Variable ast_parse : string -> option (list stmt).

Definition extract_nodes_from_python (code_content : string)
    (lines : list string) : list node :=
  match ast_parse code_content with
  | None => []
  | Some body => top_level body [] []
  end.

(** The file has been read; [build_python_file_tree] returns [None] before
    this point when it cannot be. *)
Definition build_python_file_tree (file_path code_content : string) : node :=
  let lines := py_split code_content newline in
  let nodes := extract_nodes_from_python code_content lines in
  file_node file_path code_content lines (extract_node_text_content nodes lines).
End Extractor.

End Python.

(** ** [page_index_java.py]: the start-only AST

    javalang gives a declaration an optional [position] with a [line], and
    no end position. *)

Module Java.

Inductive decl_kind : Type :=
| ClassDeclaration | InterfaceDeclaration | EnumDeclaration.

(** A formal parameter: [param.type.name] and [param.name]. *)
Record parameter : Type := { param_type : string; param_name : string }.

(** What iterating a declaration's [body] yields.  A method or constructor
    has a [body] of statements ([None] when it has none), each with its
    optional [position]; a statement is its optional [position.line].
    [OtherMember] is any item that is neither a type nor a method
    declaration (a field, an initializer, and the items that iterating an
    enum body yields). *)
Inductive member : Type :=
| TypeDeclaration (k : decl_kind) (name : string) (position : option nat)
                  (documentation : option string) (annotations : list string)
                  (body : list member)
| MethodDeclaration (is_constructor : bool) (name : string)
                    (position : option nat) (parameters : list parameter)
                    (return_type : option string)
                    (documentation : option string) (annotations : list string)
                    (body : option (list (option nat)))
| OtherMember.

(** [get_line_range]: [node.position.line if node.position else 1] *)
Definition get_line_range (position : option nat) : nat := default 1 position.

Definition node_type_of (k : decl_kind) : kind :=
  match k with
  | ClassDeclaration => class
  | InterfaceDeclaration => interface
  | EnumDeclaration => enum
  end.

(** The loop that raises [max_child_end] over the children's [end_line]. *)
Definition max_child_end (start_line : nat) (children : list node) : nat :=
  fold_left (fun m child =>
               let e := default 0 (end_line (attrs child)) in
               if (m <? e)%nat then e else m)
            children start_line.

Definition method_signature (is_constructor : bool) (name : string)
    (parameters : list parameter) (return_type : option string) : string :=
  let params :=
    List.map (fun p => (param_type p ++ " " ++ param_name p)%string) parameters in
  let signature := (name ++ "(" ++ py_join ", " params ++ ")")%string in
  match is_constructor, return_type with
  | false, Some r => (r ++ " " ++ signature)%string
  | _, _ => signature
  end.

(** The end line estimated from the statements of a method body. *)
Definition method_end_line (start_line : nat)
    (body : option (list (option nat))) : nat :=
  match body with
  | Some (s :: l) =>
      match List.last (s :: l) None with
      | Some line => line + 1
      | None => start_line
      end
  | Some [] | None => start_line
  end.

Fixpoint process_node (ast_node : member) (parent_type : option kind)
    : option node :=
  match ast_node with
  | TypeDeclaration k name position documentation annotations body =>
      let node_type := node_type_of k in
      let start_line := get_line_range position in
      let children :=
        flat_map (fun child => option_list (process_node child (Some node_type)))
                 body in
      let end_line := Nat.max start_line (max_child_end start_line children) in
      Some (Node (code_fields name node_type start_line end_line None
                              documentation (Some annotations))
                 (Some children))
  | MethodDeclaration is_constructor name position parameters return_type
                      documentation annotations body =>
      let start_line := get_line_range position in
      Some (Node (code_fields (name ++ "()")%string method start_line
                              (method_end_line start_line body)
                              (Some (method_signature is_constructor name
                                                      parameters return_type))
                              documentation (Some annotations))
                 (Some []))
  | OtherMember => None
  end.

(** A compilation unit: the positions of its imports and its types. *)
Record compilation_unit : Type := {
  cu_imports : list (option nat);
  cu_types : list member
}.

Definition imports_node (cu_imports : list (option nat)) : list node :=
  match cu_imports with
  | [] => []
  | first_import :: _ =>
      [Node (code_fields "Imports" imports (get_line_range first_import)
                         (get_line_range (List.last cu_imports first_import))
                         None None None)
            (Some [])]
  end.

Definition nodes_of_unit (tree : compilation_unit) : list node :=
  imports_node (cu_imports tree)
  ++ flat_map (fun t => option_list (process_node t None)) (cu_types tree).

Section Extractor.
(** [javalang.parse.parse]: [None] when it raises one of the caught errors. *)
Variable javalang_parse : string -> option compilation_unit.

Definition extract_nodes_from_java (code_content : string)
    (lines : list string) : list node :=
  match javalang_parse code_content with
  | None => []
  | Some tree => nodes_of_unit tree
  end.

Definition build_java_file_tree (file_path code_content : string) : node :=
  let lines := py_split code_content newline in
  let nodes := extract_nodes_from_java code_content lines in
  file_node file_path code_content lines (extract_node_text_content nodes lines).
End Extractor.

End Java.

(** ** [page_index_cpp.py]: the tree-sitter CST *)

Module Cpp.

(** A tree-sitter node: its [type], the rows of [start_point] and
    [end_point], the text of the children named [declarator] and [name]
    when it has them, and its children. *)
Inductive ts_node : Type :=
| TsNode (ts_type : string) (start_row end_row : nat)
         (declarator name : option string) (children : list ts_node).

Definition ts_type (n : ts_node) : string :=
  match n with TsNode t _ _ _ _ _ => t end.
Definition ts_children (n : ts_node) : list ts_node :=
  match n with TsNode _ _ _ _ _ c => c end.

(** [process_node] returns a dict for a mapped node and a list otherwise. *)
Inductive result : Type :=
| RDict (n : node)
| RList (l : list node).

(** [r if isinstance(r, list) else [r]] *)
Definition as_list (r : result) : list node :=
  match r with RDict n => [n] | RList l => l end.

Definition type_in (t : string) (ts : list string) : bool :=
  existsb (String.eqb t) ts.

(** The chain of [if]s that sets [mapped_type]. *)
Definition mapped_type (node_type : string) (parent_type : option kind)
    : option kind :=
  if type_in node_type ["function_definition"; "template_function"] then
    match parent_type with
    | Some class | Some struct => Some method
    | _ => Some function
    end
  else if type_in node_type ["class_specifier"; "struct_specifier"] then
    if String.eqb node_type "struct_specifier" then Some struct else Some class
  else if String.eqb node_type "namespace_definition" then Some namespace
  else None.

(** The [title] the same chain sets, [None] when it leaves it unset. *)
Definition mapped_title (node_type : string) (declarator name : option string)
    : option string :=
  if type_in node_type ["function_definition"; "template_function"] then
    option_map (fun d => (d ++ "()")%string) declarator
  else if type_in node_type ["class_specifier"; "struct_specifier"] then
    Some (default "<anonymous>" name)
  else name.

Definition get_line_range (start_row end_row : nat) : nat * nat :=
  (start_row + 1, end_row + 1).

Fixpoint process_node (ts : ts_node) (parent_type : option kind) : result :=
  match ts with
  | TsNode node_type start_row end_row declarator name children =>
      match mapped_type node_type parent_type with
      | Some mapped =>
          let title := mapped_title node_type declarator name in
          let '(start_line, end_line) := get_line_range start_row end_row in
          RDict (Node (code_fields
                         (if truthy title then default EmptyString title
                          else kind_name mapped)
                         mapped start_line end_line None None None)
                      (Some (flat_map (fun child =>
                                         as_list (process_node child (Some mapped)))
                                      children)))
      | None =>
          RList (flat_map (fun child => as_list (process_node child parent_type))
                          children)
      end
  end.

Section Extractor.
(** [get_parser(lang)] and [parser.parse]: the root node, or [None] when
    either raises. *)
Variable ts_parse : string -> string -> option ts_node.

Definition extract_nodes_from_cpp (code_content : string)
    (lines : list string) (lang : string) : list node :=
  if negb (type_in lang ["c"; "cpp"]) then []
  else match ts_parse lang code_content with
       | None => []
       | Some root_node => as_list (process_node root_node None)
       end.

(** [os.path.splitext(file_path)[1]]: the text from the last dot of the
    last path component, leading dots of the component apart. *)
Fixpoint drop_dots (l : list ascii) : list ascii :=
  match l with
  | a :: l' => if Ascii.eqb a "."%char then drop_dots l' else l
  | [] => []
  end.

Definition splitext_ext (file_path : string) : string :=
  match split_chars "."%char (drop_dots (chars (basename file_path))) with
  | w :: w' :: ws => String "."%char (str (List.last (w' :: ws) w))
  | _ => EmptyString
  end.

(** [ext.lower() in ['.c', '.h']] *)
Definition is_c_file (file_path : string) : bool :=
  type_in (splitext_ext file_path) [".c"; ".h"; ".C"; ".H"].

Definition build_cpp_file_tree (file_path code_content : string) : node :=
  let lines := py_split code_content newline in
  let lang := if is_c_file file_path then "c" else "cpp" in
  let nodes := extract_nodes_from_cpp code_content lines lang in
  file_node file_path code_content lines (extract_node_text_content nodes lines).
End Extractor.

End Cpp.

(** ** [page_index_code.py]: dispatch, directories, thinning, summaries *)

(** What a call raises. *)
Inductive exn : Type :=
| ValueError (msg : string)
| RequestFailure.

Inductive result (A : Type) : Type :=
| Ok (x : A)
| Raise (e : exn).
Arguments Ok {A} x.
Arguments Raise {A} e.

(** The file system as the code observes it: a file with its content
    ([None] when reading or decoding fails), or a directory with its
    listing ([None] when [os.listdir] raises [PermissionError]). *)
Inductive fs_entry : Type :=
| FsFile (content : option string)
| FsDir (listing : option (list (string * fs_entry))).

Definition is_dir (e : fs_entry) : bool :=
  match e with FsDir _ => true | FsFile _ => false end.

(** [s.endswith((e1, e2, ...))] *)
Definition endswith_any (s : string) (exts : list string) : bool :=
  existsb (py_endswith s) exts.

Definition cpp_extensions : list string :=
  [".c"; ".h"; ".cpp"; ".hpp"; ".cc"; ".cxx"].

Definition supported_extensions : list string :=
  [".py"; ".java"; ".kt"; ".c"; ".h"; ".cpp"; ".hpp"; ".cc"; ".cxx"].

Definition skipped_names : list string :=
  ["__pycache__"; "node_modules"; "venv"; ".venv"; "env"; ".env"; ".git";
   "target"; "build"; "out"].

(** [item.startswith('.') or item in [...]] *)
Definition skipped (item : string) : bool :=
  py_startswith item "." || existsb (String.eqb item) skipped_names.

(** [os.path.join(dir_path, item)] for an [item] that is a file name. *)
Definition path_join (dir_path item : string) : string :=
  if negb (nonempty dir_path) || py_endswith dir_path "/"
  then (dir_path ++ item)%string
  else (dir_path ++ "/" ++ item)%string.

(** [sorted] on names: insertion into an ordered list, by code points. *)
Fixpoint insert_sorted {A : Type} (x : string * A) (l : list (string * A))
    : list (string * A) :=
  match l with
  | [] => [x]
  | y :: l' =>
      if String.leb (fst x) (fst y) then x :: l else y :: insert_sorted x l'
  end.

Definition sorted {A : Type} (l : list (string * A)) : list (string * A) :=
  fold_right insert_sorted [] l.

Fixpoint has_code_content (n : node) : bool :=
  match n with
  | Node f ns =>
      kind_eqb (type f) file
      || match ns with
         | Some l => existsb has_code_content l
         | None => false
         end
  end.

Fixpoint clean_empty_nodes (n : node) : node :=
  match n with
  | Node f (Some l) =>
      match List.map clean_empty_nodes l with
      | [] => Node f None
      | l' => Node f (Some l')
      end
  | Node f None => n
  end.

(** [preserve_imports_text] on a dict. *)
Fixpoint preserve_imports_text (n : node) : node :=
  match n with
  | Node f ns =>
      Node (if kind_eqb (type f) imports
            then set_summary f (Some (py_strip (default EmptyString (text f))))
            else f)
           (option_map (List.map preserve_imports_text) ns)
  end.

Definition directory_fields (dir_name dir_path : string) : fields :=
  {| title := dir_name; node_id := None; type := directory;
     signature := None; docstring := None; decorators := None;
     start_line := None; end_line := None; summary := None;
     prefix_summary := None; text := None; path := Some dir_path |}.

(** Modelled from the spec: [utils.structure_to_list] is not among the
    sources; it flattens the tree, each node before its children, in order. *)
Definition structure_to_list (structure : list node) : list node :=
  walk_forest structure.

Section Pipeline.

(** The collaborators: [utils.count_tokens(text, model)], the model call
    ([None] when the request fails), the three parsers and
    [os.path.normpath]. *)
Variable count_tokens : string -> string -> Z.
Variable ChatGPT_API_async : string -> string -> option string.
Variable ast_parse : string -> option (list Python.stmt).
Variable javalang_parse : string -> option Java.compilation_unit.
Variable ts_parse : string -> string -> option Cpp.ts_node.
Variable normpath : string -> string.

(** [build_kotlin_file_tree] once the file is read. *)
Definition build_kotlin_file_tree (file_path code_content : string) : node :=
  let lines := py_split code_content newline in
  let nodes := Kotlin.extract_nodes_from_kotlin code_content lines in
  file_node file_path code_content lines (extract_node_text_content nodes lines).

(** [build_file_tree]; each builder returns [None] for an unreadable file. *)
Definition build_file_tree (file_path : string) (content : option string)
    : option node :=
  if py_endswith file_path ".java" then
    option_map (Java.build_java_file_tree javalang_parse file_path) content
  else if py_endswith file_path ".kt" then
    option_map (build_kotlin_file_tree file_path) content
  else if endswith_any file_path cpp_extensions then
    option_map (Cpp.build_cpp_file_tree ts_parse file_path) content
  else if py_endswith file_path ".py" then
    option_map (Python.build_python_file_tree ast_parse file_path) content
  else None.

(** The paths appended to [subdirs], with the dict the recursive call
    builds for each, and the paths appended to [files], with what reading
    each gives. *)
Definition subdirs_of (dir_path : string) (items : list (string * (fs_entry * node)))
    : list (string * node) :=
  flat_map (fun '(item, (e, built)) =>
              if skipped item then []
              else if is_dir e then [(path_join dir_path item, built)]
              else []) items.

Definition files_of (dir_path : string) (items : list (string * (fs_entry * node)))
    : list (string * option string) :=
  flat_map (fun '(item, (e, _)) =>
              if skipped item then []
              else match e with
                   | FsDir _ => []
                   | FsFile content =>
                       if endswith_any item supported_extensions
                       then [(path_join dir_path item, content)] else []
                   end) items.

(** The body of [build_directory_tree] once the listing is known together
    with the dict that the recursive call builds for each subdirectory. *)
Definition directory_node (dir_path : string)
    (listing : option (list (string * (fs_entry * node)))) : node :=
  let dir_name := basename (normpath dir_path) in
  match listing with
  | None => Node (directory_fields dir_name dir_path) (Some [])
  | Some visited =>
      let items := sorted visited in
      Node (directory_fields dir_name dir_path)
           (Some (flat_map (fun '(_, subdir_node) =>
                              if has_code_content subdir_node
                              then [subdir_node] else [])
                           (subdirs_of dir_path items)
                  ++ flat_map (fun '(file_path, content) =>
                                 option_list (build_file_tree file_path content))
                              (files_of dir_path items)))
  end.

(** [build_directory_tree] on the directory [d] found at [dir_path].  The
    recursive calls are taken on the listing before it is sorted; they are
    independent of one another, so each subdirectory gets the dict that the
    loop over [subdirs] builds for it.  The value paired with a file entry
    is never read ([subdirs_of] keeps directories only). *)
Fixpoint build_directory_tree (dir_path : string) (d : fs_entry) : node :=
  directory_node dir_path
    match d with
    | FsDir (Some entries) =>
        Some (List.map (fun '(item, e) =>
                          (item, (e, build_directory_tree
                                       (path_join dir_path item) e)))
                       entries)
    | _ => None
    end.

(** The first block of [code_to_tree]: [target] is what [path] names
    ([None] when it is neither a file nor a directory). *)
Definition build_structure (path : string) (target : option fs_entry)
    : result node :=
  match target with
  | Some (FsFile content) =>
      if negb (endswith_any path supported_extensions)
      then Raise (ValueError "File extension not supported")
      else match build_file_tree path content with
           | Some structure => Ok structure
           | None => Raise (ValueError ("Failed to process path: " ++ path))
           end
  | Some (FsDir listing) => Ok (build_directory_tree path (FsDir listing))
  | None => Raise (ValueError ("Path does not exist: " ++ path))
  end.

(** *** Thinning *)

Section Thinning.
Variable min_token_threshold : Z.
Variable model : string.

Fixpoint get_node_tokens (n : node) : Z :=
  match n with
  | Node f ns =>
      let total :=
        match text f with
        | Some t => if nonempty t then count_tokens t model else 0%Z
        | None => 0%Z
        end in
      match ns with
      | Some l => fold_left (fun total child => (total + get_node_tokens child)%Z)
                            l total
      | None => total
      end
  end.

(** The loop that builds [merged_text] from the children's texts. *)
Definition merge_text (merged_text : string) (child : node) : string :=
  let child_text := default EmptyString (text (attrs child)) in
  if nonempty child_text then
    ((if nonempty merged_text && negb (py_endswith merged_text nl)
      then merged_text ++ nl else merged_text) ++ child_text)%string
  else merged_text.

Fixpoint thin_node (n : node) : node :=
  match n with
  | Node f None => n
  | Node f (Some []) => n
  | Node f (Some l) =>
      let l' := List.map thin_node l in
      let total_tokens := get_node_tokens (Node f (Some l')) in
      if (total_tokens <? min_token_threshold)%Z
         && kind_in (type f) [class; function; method]
      then Node (set_text f (Some (fold_left merge_text l'
                                             (default EmptyString (text f)))))
                None
      else Node f (Some l')
  end.

Definition tree_thinning_for_code (structure : node) : node :=
  thin_node structure.

End Thinning.

(** *** Summaries *)

Section Summaries.
Variable summary_token_threshold : Z.
Variable model : string.

Definition summary_prompt (f : fields) : string :=
  let node_text := default EmptyString (text f) in
  ("You are given a Python " ++ kind_name (type f)
   ++ ". Generate a concise one-sentence summary of what it does." ++ nl ++ nl
   ++ (if truthy (signature f)
       then "Signature: " ++ default EmptyString (signature f) else EmptyString)
   ++ nl
   ++ (if truthy (docstring f)
       then "Docstring: " ++ default EmptyString (docstring f) else EmptyString)
   ++ nl ++ nl ++ "Code:" ++ nl
   ++ py_prefix 3000 node_text
   ++ (if (3000 <? String.length node_text)%nat then "..." else EmptyString)
   ++ nl ++ nl
   ++ "Directly return the summary, do not include any other text.")%string.

(** [get_code_node_summary]: [None] when the request fails. *)
Definition get_code_node_summary (n : node) : option string :=
  let f := attrs n in
  let node_text := default EmptyString (text f) in
  if (count_tokens node_text model <? summary_token_threshold)%Z then
    if truthy (docstring f)
    then Some (py_split_head (py_strip (default EmptyString (docstring f))) newline)
    else Some (if nonempty node_text then py_prefix 200 node_text
               else EmptyString)
  else ChatGPT_API_async model (summary_prompt f).

Definition is_code_node (n : node) : bool :=
  kind_in (type (attrs n)) [class; function; method; interface; enum; file].

(** [asyncio.gather]: all the results in order, or the failure. *)
Fixpoint gather (tasks : list (option string)) : option (list string) :=
  match tasks with
  | [] => Some []
  | t :: rest =>
      match t, gather rest with
      | Some s, Some l => Some (s :: l)
      | _, _ => None
      end
  end.

(** One iteration of [for node, summary in zip(code_nodes, summaries)]. *)
Definition assign (f : fields) (has_children : bool) (summary : string) : fields :=
  if has_children then set_prefix_summary f (Some summary)
  else set_summary f (Some summary).

Definition has_children (ns : option (list node)) : bool :=
  match ns with Some (_ :: _) => true | _ => false end.

(** The loop over [zip(code_nodes, summaries)].  [code_nodes] holds the
    dicts of the tree themselves, each before its children, so the loop is
    a walk of the tree in that order that hands the next summary to each
    code node; the summaries left over are returned. *)
Fixpoint assign_summaries (n : node) (summaries : list string)
    : node * list string :=
  match n with
  | Node f ns =>
      let '(f', rest) :=
        if is_code_node n then
          match summaries with
          | s :: rest => (assign f (has_children ns) s, rest)
          | [] => (f, [])
          end
        else (f, summaries) in
      match ns with
      | None => (Node f' None, rest)
      | Some l =>
          let '(l', rest') :=
            (fix assign_list (l : list node) (ss : list string)
               : list node * list string :=
               match l with
               | [] => ([], ss)
               | c :: l0 =>
                   let '(c', ss1) := assign_summaries c ss in
                   let '(l0', ss2) := assign_list l0 ss1 in
                   (c' :: l0', ss2)
               end) l rest in
          (Node f' (Some l'), rest')
      end
  end.

(** [generate_summaries_for_code_structure].  The first component is the
    [structure] object after the call, the second what the call returns or
    raises. *)
Definition generate_summaries_for_code_structure (structure : node)
    : node * result node :=
  let nodes := structure_to_list [structure] in
  let code_nodes := List.filter is_code_node nodes in
  let tasks := List.map get_code_node_summary code_nodes in
  match gather tasks with
  | None => (structure, Raise RequestFailure)
  | Some summaries =>
      let structure' := fst (assign_summaries structure summaries) in
      (structure', Ok structure')
  end.

(** The two steps of [code_to_tree] that write summaries: the optional
    summary generation and [preserve_imports_text]. *)
Definition summary_stage (if_add_node_summary : bool) (structure : node)
    : node * result node :=
  let '(structure, r) :=
    if if_add_node_summary
    then generate_summaries_for_code_structure structure
    else (structure, Ok structure) in
  match r with
  | Ok s => let s' := preserve_imports_text s in (s', Ok s')
  | Raise e => (structure, Raise e)
  end.

End Summaries.
End Pipeline.

(** ** [page_index_code.py]: the output stages and the entry point *)

Definition set_path (f : fields) (p : option string) : fields :=
  {| title := title f; node_id := node_id f; type := type f;
     signature := signature f; docstring := docstring f;
     decorators := decorators f; start_line := start_line f;
     end_line := end_line f; summary := summary f;
     prefix_summary := prefix_summary f; text := text f; path := p |}.

(** [remove_text_from_structure] on a dict: ['text'] is popped, then the
    function is applied to each child when the dict has ['nodes']. *)
Fixpoint remove_text_from_structure (n : node) : node :=
  match n with
  | Node f ns =>
      Node (set_text f None)
           (option_map (List.map remove_text_from_structure) ns)
  end.

(** [remove_path_from_structure] on a dict. *)
Fixpoint remove_path_from_structure (n : node) : node :=
  match n with
  | Node f ns =>
      Node (set_path f None)
           (option_map (List.map remove_path_from_structure) ns)
  end.

(** The variants of [add_text_to_node] in [page_index_java.py],
    [page_index_kotlin.py] and [page_index_cpp.py], which set
    [end = min(end, len(lines))] before slicing. *)
Fixpoint add_text_to_node_clamped (lines : list string) (n : node) : node :=
  match n with
  | Node f ns =>
      let start := default 0 (start_line f) in
      let end_ := Nat.min (default 0 (end_line f)) (length lines) in
      Node (set_text f (Some (slice_lines lines start end_)))
           (option_map (List.map (add_text_to_node_clamped lines)) ns)
  end.

(** [get_python_files].  [os.walk] visits a directory before its
    subdirectories, yields nothing for a directory it cannot list (or for a
    path that is not a directory), and descends only into the names left in
    [dirs]. *)
Definition pruned_dir (d : string) : bool :=
  py_startswith d "."
  || existsb (String.eqb d)
       ["__pycache__"; "node_modules"; "venv"; ".venv"; "env"; ".env"].

Fixpoint walk_python_files (root : string) (d : fs_entry) : list string :=
  match d with
  | FsDir (Some entries) =>
      flat_map (fun '(file_name, e) =>
                  if negb (is_dir e) && py_endswith file_name ".py"
                  then [path_join root file_name] else []) entries
      ++ flat_map (fun '(name, e) =>
                     if is_dir e && negb (pruned_dir name)
                     then walk_python_files (path_join root name) e
                     else []) entries
  | _ => []
  end.

(** [sorted] on a list of strings. *)
Definition sorted_strings (l : list string) : list string :=
  List.map fst (sorted (List.map (fun s => (s, tt)) l)).

Definition get_python_files (directory : string) (d : fs_entry) : list string :=
  sorted_strings (walk_python_files directory d).

(** [os.path.splitext(p)[0]]: the path without its extension. *)
Definition splitext_root (p : string) : string :=
  py_prefix (String.length p - String.length (Cpp.splitext_ext p)) p.

(** What [code_to_tree] returns: ['doc_name'], ['doc_description'] when it
    was asked for, and ['structure']. *)
Record tree_output : Type := {
  doc_name : string;
  doc_description : option string;
  structure : list node
}.

Definition base_order : list string :=
  ["title"; "node_id"; "type"; "signature"; "docstring"; "decorators";
   "start_line"; "end_line"; "summary"; "prefix_summary"; "text"; "path";
   "nodes"].

Section EntryPoint.

(** The collaborators of [Pipeline], and besides: [os.path.abspath]; what a
    path names in the file system ([None] when it names nothing);
    [utils.write_node_id] as the state of the tree after the call;
    [utils.format_structure]; [utils.create_clean_structure_for_description]
    and [utils.generate_doc_description] ([None] when its request fails). *)
Variable count_tokens : string -> string -> Z.
Variable ChatGPT_API_async : string -> string -> option string.
Variable ast_parse : string -> option (list Python.stmt).
Variable javalang_parse : string -> option Java.compilation_unit.
Variable ts_parse : string -> string -> option Cpp.ts_node.
Variable normpath : string -> string.
Variable abspath : string -> string.
Variable fs : string -> option fs_entry.
Variable write_node_id : node -> node.
Variable format_structure : node -> list string -> node.
Variable description_input : Type.
Variable create_clean_structure_for_description : node -> description_input.
Variable generate_doc_description : description_input -> string -> option string.

Definition code_to_tree (path : string) (if_thinning : bool)
    (min_token_threshold : Z) (if_add_node_summary : string)
    (summary_token_threshold : Z) (model : string)
    (if_add_doc_description if_add_node_text if_add_node_id : string)
    : result tree_output :=
  let path := abspath path in
  match build_structure ast_parse javalang_parse ts_parse normpath path (fs path) with
  | Raise e => Raise e
  | Ok structure =>
      let doc_name :=
        match fs path with
        | Some (FsFile _) => splitext_root (basename path)
        | _ => basename (normpath path)
        end in
      let structure :=
        if if_thinning
        then tree_thinning_for_code count_tokens min_token_threshold model structure
        else structure in
      let structure := clean_empty_nodes structure in
      let structure :=
        if String.eqb if_add_node_id "yes" then write_node_id structure
        else structure in
      match snd (summary_stage count_tokens ChatGPT_API_async
                               summary_token_threshold model
                               (String.eqb if_add_node_summary "yes") structure) with
      | Raise e => Raise e
      | Ok structure =>
          let structure := format_structure structure base_order in
          let structure :=
            if String.eqb if_add_node_text "no"
            then remove_text_from_structure structure else structure in
          let structure := remove_path_from_structure structure in
          if String.eqb if_add_doc_description "yes" then
            match generate_doc_description
                    (create_clean_structure_for_description structure) model with
            | Some d => Ok {| doc_name := doc_name; doc_description := Some d;
                              structure := [structure] |}
            | None => Raise RequestFailure
            end
          else Ok {| doc_name := doc_name; doc_description := None;
                     structure := [structure] |}
      end
  end.

End EntryPoint.

(** ** [run_pageindex.py]: the checks on the command line *)

Module Cli.

(** [str.lower()] on one character (a code point below 256). *)
Definition lower_char (a : ascii) : ascii :=
  let n := code a in
  if (((65 <=? n) && (n <=? 90))
      || ((192 <=? n) && (n <=? 222) && negb (n =? 215)))%nat
  then ascii_of_nat (n + 32) else a.

Definition py_lower (s : string) : string := str (List.map lower_char (chars s)).

(** The work the script goes on to do once the arguments are accepted. *)
Inductive job : Type :=
| PdfJob (pdf_path : string)
| MarkdownJob (md_path : string)
| CodeJob (code_path : string)
| NoJob.

Definition is_given (p : option string) : bool :=
  match p with Some _ => true | None => false end.

Section Checks.
(** What a path names in the file system: [os.path.isfile] and
    [os.path.exists] are read off it. *)
Variable fs : string -> option fs_entry.

Definition isfile (p : string) : bool :=
  match fs p with Some (FsFile _) => true | _ => false end.

Definition exists_ (p : string) : bool :=
  match fs p with Some _ => true | None => false end.

(** The [__main__] block up to the call of the processing function: the
    count of the paths given, then the [if]/[elif] chain on their
    truthiness, with the checks of the branch taken. *)
Definition check_arguments (pdf_path md_path code_path : option string)
    : result job :=
  let specified_paths := [pdf_path; md_path; code_path] in
  let num_specified := length (List.filter is_given specified_paths) in
  if (num_specified =? 0)%nat then
    Raise (ValueError
             "One of --pdf_path, --md_path, or --code_path must be specified")
  else if (1 <? num_specified)%nat then
    Raise (ValueError
             "Only one of --pdf_path, --md_path, or --code_path can be specified")
  else if truthy pdf_path then
    let p := default EmptyString pdf_path in
    if negb (py_endswith (py_lower p) ".pdf") then
      Raise (ValueError "PDF file must have .pdf extension")
    else if negb (isfile p) then
      Raise (ValueError ("PDF file not found: " ++ p))
    else Ok (PdfJob p)
  else if truthy md_path then
    let p := default EmptyString md_path in
    if negb (endswith_any (py_lower p) [".md"; ".markdown"]) then
      Raise (ValueError "Markdown file must have .md or .markdown extension")
    else if negb (isfile p) then
      Raise (ValueError ("Markdown file not found: " ++ p))
    else Ok (MarkdownJob p)
  else if truthy code_path then
    let p := default EmptyString code_path in
    if negb (exists_ p) then
      Raise (ValueError ("Path not found: " ++ p))
    else if isfile p && negb (endswith_any (py_lower p) supported_extensions) then
      Raise (ValueError "File extension not supported")
    else Ok (CodeJob p)
  else Ok NoJob.

End Checks.

End Cli.

(** ** Errors that no [except] clause names

    [extract_nodes_from_python] catches [SyntaxError] and nothing else, and
    [extract_nodes_from_java] catches [JavaSyntaxError], [IndexError] and
    [TypeError].  A parser can raise another error ([ast.parse] a
    [ValueError] on a null byte, javalang a [LexerError]), and nothing
    between the parser and the caller of [code_to_tree] catches it.  The
    functions above take each parser on the outcomes its extractor handles;
    the ones of this module take it with the third outcome and pass the
    error on.  The C/C++ extractor catches [Exception], and the Kotlin
    scanner calls no parser. *)

Module Raising.

(** A call of a parser: it returns a tree, raises an error that the
    [except] clause of the extractor names, or raises another error. *)
Inductive parsing (T E : Type) : Type :=
| Parsed (t : T)
| Caught
| Uncaught (e : E).
Arguments Parsed {T E} t.
Arguments Caught {T E}.
Arguments Uncaught {T E} e.

(** What leaves a call: an error of a [raise] statement of the pipeline or
    a failed request, or the error of a parser. *)
Inductive error (E : Type) : Type :=
| Own (e : exn)
| OfParser (e : E).
Arguments Own {E} e.
Arguments OfParser {E} e.

Inductive outcome (E A : Type) : Type :=
| Returns (x : A)
| Raises (e : error E).
Arguments Returns {E A} x.
Arguments Raises {E A} e.

(** The statements after a call that may raise. *)
Definition bind {E A B : Type} (m : outcome E A) (k : A -> outcome E B)
    : outcome E B :=
  match m with
  | Returns x => k x
  | Raises e => Raises e
  end.

(** A loop of calls: the results in order, up to the first call that
    raises. *)
Fixpoint in_turn {E A : Type} (calls : list (outcome E A)) : outcome E (list A) :=
  match calls with
  | [] => Returns []
  | call :: rest =>
      bind call (fun x => bind (in_turn rest) (fun xs => Returns (x :: xs)))
  end.

(** The parser as the extractor sees it once the caught errors are
    handled: the view the functions outside this module take. *)
Definition handled {T E : Type} (p : parsing T E) : option T :=
  match p with
  | Parsed t => Some t
  | _ => None
  end.

Section Pipeline.
Variable E : Type.
Variable count_tokens : string -> string -> Z.
Variable ChatGPT_API_async : string -> string -> option string.
Variable ast_parse : string -> parsing (list Python.stmt) E.
Variable javalang_parse : string -> parsing Java.compilation_unit E.
Variable ts_parse : string -> string -> option Cpp.ts_node.
Variable normpath : string -> string.
Variable abspath : string -> string.
Variable fs : string -> option fs_entry.
Variable write_node_id : node -> node.
Variable format_structure : node -> list string -> node.
Variable description_input : Type.
Variable create_clean_structure_for_description : node -> description_input.
Variable generate_doc_description : description_input -> string -> option string.

Definition extract_nodes_from_python (code_content : string)
    (lines : list string) : outcome E (list node) :=
  match ast_parse code_content with
  | Parsed body => Returns (Python.top_level body [] [])
  | Caught => Returns []
  | Uncaught e => Raises (OfParser e)
  end.

Definition build_python_file_tree (file_path code_content : string)
    : outcome E node :=
  let lines := py_split code_content newline in
  bind (extract_nodes_from_python code_content lines) (fun nodes =>
  Returns (file_node file_path code_content lines
             (extract_node_text_content nodes lines))).

Definition extract_nodes_from_java (code_content : string)
    (lines : list string) : outcome E (list node) :=
  match javalang_parse code_content with
  | Parsed tree => Returns (Java.nodes_of_unit tree)
  | Caught => Returns []
  | Uncaught e => Raises (OfParser e)
  end.

Definition build_java_file_tree (file_path code_content : string)
    : outcome E node :=
  let lines := py_split code_content newline in
  bind (extract_nodes_from_java code_content lines) (fun nodes =>
  Returns (file_node file_path code_content lines
             (extract_node_text_content nodes lines))).

(** [build_file_tree]; a builder returns [None] for a file it cannot read,
    before it parses anything. *)
Definition build_file_tree (file_path : string) (content : option string)
    : outcome E (option node) :=
  if py_endswith file_path ".java" then
    match content with
    | Some code_content =>
        bind (build_java_file_tree file_path code_content) (fun n =>
        Returns (Some n))
    | None => Returns None
    end
  else if py_endswith file_path ".kt" then
    Returns (option_map (build_kotlin_file_tree file_path) content)
  else if endswith_any file_path cpp_extensions then
    Returns (option_map (Cpp.build_cpp_file_tree ts_parse file_path) content)
  else if py_endswith file_path ".py" then
    match content with
    | Some code_content =>
        bind (build_python_file_tree file_path code_content) (fun n =>
        Returns (Some n))
    | None => Returns None
    end
  else Returns None.

(** The paths appended to [subdirs], each with the call of
    [build_directory_tree] on it, and the paths appended to [files], each
    with what reading it gives. *)
Definition subdirs_of (dir_path : string)
    (items : list (string * (fs_entry * outcome E node)))
    : list (string * outcome E node) :=
  flat_map (fun '(item, (e, call)) =>
              if skipped item then []
              else if is_dir e then [(path_join dir_path item, call)]
              else []) items.

Definition files_of (dir_path : string)
    (items : list (string * (fs_entry * outcome E node)))
    : list (string * option string) :=
  flat_map (fun '(item, (e, _)) =>
              if skipped item then []
              else match e with
                   | FsDir _ => []
                   | FsFile content =>
                       if endswith_any item supported_extensions
                       then [(path_join dir_path item, content)] else []
                   end) items.

(** The body of [build_directory_tree]: the loop over [subdirs] runs
    first, then the loop over [files]; the first call that raises ends
    it. *)
Definition directory_node (dir_path : string)
    (listing : option (list (string * (fs_entry * outcome E node))))
    : outcome E node :=
  let dir_name := basename (normpath dir_path) in
  match listing with
  | None => Returns (Node (directory_fields dir_name dir_path) (Some []))
  | Some visited =>
      let items := sorted visited in
      bind (in_turn (List.map snd (subdirs_of dir_path items)))
        (fun subdir_nodes =>
      bind (in_turn (List.map (fun '(file_path, content) =>
                                 build_file_tree file_path content)
                              (files_of dir_path items)))
        (fun file_nodes =>
      Returns (Node (directory_fields dir_name dir_path)
                 (Some (List.filter has_code_content subdir_nodes
                        ++ flat_map option_list file_nodes)))))
  end.

(** [build_directory_tree].  Each entry of the listing is paired with the
    call on it before the listing is sorted; only the calls on the
    subdirectories that are not skipped are made, in the sorted order. *)
Fixpoint build_directory_tree (dir_path : string) (d : fs_entry)
    : outcome E node :=
  directory_node dir_path
    match d with
    | FsDir (Some entries) =>
        Some (List.map (fun '(item, e) =>
                          (item, (e, build_directory_tree
                                       (path_join dir_path item) e)))
                       entries)
    | _ => None
    end.

(** The first block of [code_to_tree]. *)
Definition build_structure (path : string) (target : option fs_entry)
    : outcome E node :=
  match target with
  | Some (FsFile content) =>
      if negb (endswith_any path supported_extensions)
      then Raises (Own (ValueError "File extension not supported"))
      else bind (build_file_tree path content) (fun structure =>
           match structure with
           | Some structure => Returns structure
           | None => Raises (Own (ValueError ("Failed to process path: " ++ path)))
           end)
  | Some (FsDir listing) => build_directory_tree path (FsDir listing)
  | None => Raises (Own (ValueError ("Path does not exist: " ++ path)))
  end.

(** [code_to_tree]: the stages after the first block are those of
    [code_to_tree] above; what they raise is the pipeline's own. *)
Definition code_to_tree (path : string) (if_thinning : bool)
    (min_token_threshold : Z) (if_add_node_summary : string)
    (summary_token_threshold : Z) (model : string)
    (if_add_doc_description if_add_node_text if_add_node_id : string)
    : outcome E tree_output :=
  let path := abspath path in
  bind (build_structure path (fs path)) (fun structure =>
  let doc_name :=
    match fs path with
    | Some (FsFile _) => splitext_root (basename path)
    | _ => basename (normpath path)
    end in
  let structure :=
    if if_thinning
    then tree_thinning_for_code count_tokens min_token_threshold model structure
    else structure in
  let structure := clean_empty_nodes structure in
  let structure :=
    if String.eqb if_add_node_id "yes" then write_node_id structure
    else structure in
  match snd (summary_stage count_tokens ChatGPT_API_async
                           summary_token_threshold model
                           (String.eqb if_add_node_summary "yes") structure) with
  | Raise e => Raises (Own e)
  | Ok structure =>
      let structure := format_structure structure base_order in
      let structure :=
        if String.eqb if_add_node_text "no"
        then remove_text_from_structure structure else structure in
      let structure := remove_path_from_structure structure in
      if String.eqb if_add_doc_description "yes" then
        match generate_doc_description
                (create_clean_structure_for_description structure) model with
        | Some d => Returns {| doc_name := doc_name; doc_description := Some d;
                               structure := [structure] |}
        | None => Raises (Own RequestFailure)
        end
      else Returns {| doc_name := doc_name; doc_description := None;
                      structure := [structure] |}
  end).

End Pipeline.

End Raising.

(** * Vocabulary of the statements *)

(** The [end_line] of a dict, [0] when it has none. *)
Definition end_of (n : node) : nat := default 0 (end_line (attrs n)).
Definition start_of (n : node) : nat := default 0 (start_line (attrs n)).

(** The dicts that the children of a CST node contribute, in order. *)
Definition cpp_results (children : list Cpp.ts_node) (parent_type : option kind)
    : list node :=
  flat_map (fun child => Cpp.as_list (Cpp.process_node child parent_type))
           children.

(** The reading of the claim for a type declaration: the maximum
    [end_line] among the children, [start_line] when there are none. *)
Definition claimed_class_end (start_line : nat) (children : list node) : nat :=
  match children with
  | [] => start_line
  | _ => list_max (List.map end_of children)
  end.

(** A class on line 5 whose only member is a method without a position and
    without statements. *)
Definition late_class : Java.member :=
  Java.TypeDeclaration Java.ClassDeclaration "A" (Some 5) None []
    [Java.MethodDeclaration false "m" None [] None None [] None].

(** A namespace whose body is a declaration list holding one function. *)
Definition sample_namespace : Cpp.ts_node :=
  Cpp.TsNode "namespace_definition" 0 4 None (Some "geo")
    [ Cpp.TsNode "declaration_list" 0 4 None None
        [ Cpp.TsNode "function_definition" 1 3 (Some "area(int w, int h)") None
            [] ] ].

(** The addresses on the scope stack, innermost first. *)
Definition addrs (stk : list Kotlin.frame) : list nat :=
  List.map Kotlin.f_node stk.

(** The invariant of the scan.  [la] bounds every recorded line, [lo] the
    start line of the dicts that are still open. *)
Record Inv (la lo : nat) (h : list Kotlin.hnode) (roots : list nat)
    (stk : list Kotlin.frame) (imp : option (nat * nat)) : Prop := mkInv {
  inv_lines : forall a n, h !! a = Some n ->
    Kotlin.h_start_line n <= Kotlin.h_end_line n /\ Kotlin.h_end_line n <= la;
  inv_open : forall a, In a (addrs stk) ->
    exists n, h !! a = Some n /\ Kotlin.h_end_line n = Kotlin.h_start_line n
              /\ Kotlin.h_start_line n <= lo;
  inv_child : forall p n c, h !! p = Some n -> In c (Kotlin.h_nodes n) ->
    p < c /\ exists m, h !! c = Some m
      /\ Kotlin.h_start_line n < Kotlin.h_start_line m
      /\ (Kotlin.h_end_line n <> Kotlin.h_start_line n ->
          Kotlin.h_end_line m <= Kotlin.h_end_line n)
      /\ (In c (addrs stk) -> In p (addrs stk));
  inv_sorted : StronglySorted gt (addrs stk);
  inv_roots : Forall (fun r => r < length h) roots;
  inv_imports : forall s e, imp = Some (s, e) -> s <= e /\ e <= la
}.


(** The fields of the tree node read back from a dict of the store. *)
Definition kfields (n : Kotlin.hnode) : fields :=
  code_fields (Kotlin.h_title n) (Kotlin.h_type n) (Kotlin.h_start_line n)
              (Kotlin.h_end_line n) (Kotlin.h_signature n) None None.

(** A dict has a line range, and it is the right way round. *)
Definition well_ranged (n : node) : Prop :=
  exists s e, start_line (attrs n) = Some s /\ end_line (attrs n) = Some e
              /\ s <= e.

(** The range of [c] lies within the range of [p]. *)
Definition within (c p : node) : Prop :=
  start_of p <= start_of c /\ end_of c <= end_of p.

(** Every dict of the forest is well ranged. *)
Definition ranges_ordered (forest : list node) : Prop :=
  forall p, In p (walk_forest forest) -> well_ranged p.

(** Every dict of the forest is well ranged and its range holds the range
    of each of its children. *)
Definition ranges_nested (forest : list node) : Prop :=
  forall p, In p (walk_forest forest) ->
    well_ranged p /\ forall c, In c (get_nodes p) -> within c p.

(** The same with the containment asked only of a parent whose [end_line]
    was moved past its [start_line]; a child always starts below the line
    of its parent. *)
Definition ranges_nested_when_closed (forest : list node) : Prop :=
  forall p, In p (walk_forest forest) ->
    well_ranged p
    /\ forall c, In c (get_nodes p) ->
         start_of p < start_of c /\ (start_of p < end_of p -> within c p).

(** Positions as the parsers report them.  A Python definition spans from
    [lineno] to [end_lineno] and the statements of its body lie within. *)
Fixpoint py_positions_ok (s : Python.stmt) : bool :=
  match s with
  | Python.ClassDef _ l e _ body =>
      (l <=? e)%nat
      && forallb (fun c => (l <=? Python.lineno c)%nat
                           && (Python.import_end c <=? e)%nat
                           && py_positions_ok c) body
  | Python.FunctionDef _ _ l e _ _ _ body =>
      (l <=? e)%nat
      && forallb (fun c => (l <=? Python.lineno c)%nat
                           && (Python.import_end c <=? e)%nat
                           && py_positions_ok c) body
  | Python.Import _ l e => (l <=? default l e)%nat
  | Python.Expr l e _ => (l <=? e)%nat
  | Python.OtherStmt l e => (l <=? e)%nat
  end.

(** The statements of a module body follow one another in the file. *)
Fixpoint py_in_source_order (body : list Python.stmt) : bool :=
  match body with
  | [] => true
  | s :: rest =>
      match rest with
      | s' :: _ => (Python.import_end s <=? Python.lineno s')%nat
      | [] => true
      end && py_in_source_order rest
  end.

Definition py_module_ok (body : list Python.stmt) : bool :=
  forallb py_positions_ok body && py_in_source_order body.

(** In a Java tree, the last statement of a method body is not above the
    line of the method, and the last import is not above the first. *)
Fixpoint java_positions_ok (m : Java.member) : bool :=
  match m with
  | Java.TypeDeclaration _ _ _ _ _ body => forallb java_positions_ok body
  | Java.MethodDeclaration _ _ position _ _ _ _ (Some statements) =>
      match List.last statements None with
      | Some line => (Java.get_line_range position <=? line)%nat
      | None => true
      end
  | _ => true
  end.

Definition java_unit_ok (tree : Java.compilation_unit) : bool :=
  forallb java_positions_ok (Java.cu_types tree)
  && match Java.cu_imports tree with
     | [] => true
     | first_import :: _ =>
         (Java.get_line_range first_import
          <=? Java.get_line_range (List.last (Java.cu_imports tree) first_import))%nat
     end.

Definition ts_start_row (n : Cpp.ts_node) : nat :=
  match n with Cpp.TsNode _ s _ _ _ _ => s end.
Definition ts_end_row (n : Cpp.ts_node) : nat :=
  match n with Cpp.TsNode _ _ e _ _ _ => e end.

(** In a CST, a span ends no earlier than it starts and holds the spans of
    the children. *)
Fixpoint cst_spans_ok (n : Cpp.ts_node) : bool :=
  match n with
  | Cpp.TsNode _ s e _ _ children =>
      (s <=? e)%nat
      && forallb (fun c => (s <=? ts_start_row c)%nat
                           && (ts_end_row c <=? e)%nat
                           && cst_spans_ok c) children
  end.

(** A class header and a method header, neither scope closed. *)
Definition unclosed_kotlin : list string :=
  ["class Foo {"; "  fun bar() {"].

(** Sample trees for the three parsers: an import and a function with one
    statement; a class with a one-statement method; a namespace holding a
    function. *)
Definition no_arguments : Python.arguments :=
  {| Python.posonlyargs := []; Python.args := []; Python.defaults := [];
     Python.vararg := None; Python.kwonlyargs := []; Python.kw_defaults := [];
     Python.kwarg := None |}.

Definition sample_python : list Python.stmt :=
  [ Python.Import "import os" 1 (Some 1);
    Python.FunctionDef false "main" 3 5 no_arguments None []
      [Python.OtherStmt 4 5] ].

Definition sample_java : Java.compilation_unit :=
  {| Java.cu_imports := [Some 1; Some 2];
     Java.cu_types :=
       [ Java.TypeDeclaration Java.ClassDeclaration "A" (Some 4) None []
           [ Java.MethodDeclaration false "run" (Some 5) [] None None []
               (Some [Some 6]) ] ] |}.

(** The types of the dicts in the store, in order of creation. *)
Definition store_types (h : list Kotlin.hnode) : list kind :=
  List.map Kotlin.h_type h.

(** A class header with a function declared on the same line. *)
Definition class_and_fun_line : string := "class Foo { fun bar() {} }".

(** The dicts of type ['imports'] anywhere in a forest. *)
Definition imports_of (forest : list node) : list node :=
  List.filter (fun n => kind_eqb (type (attrs n)) imports) (walk_forest forest).

(** A line of white space only. *)
Definition blank (s : list ascii) : Prop := Forall (fun a => is_space a = true) s.

(** Four lines: an import, an empty line, an import, a class header. *)
Definition import_run_lines : list string :=
  ["import a.b"; EmptyString; "import c.d"; "class Foo"].

Definition import_run_module : list Python.stmt :=
  [ Python.Import "import os" 1 (Some 1);
    Python.Import "import sys" 3 (Some 3);
    Python.OtherStmt 4 4 ].

(** A one-character string holding a double quote. *)
Definition dq : string := String dquote EmptyString.

(** A single-expression function whose body is the string literal ["{"],
    an empty line, and a function with a braced body. *)
Definition literal_brace_lines : list string :=
  [ ("fun f() = " ++ dq ++ "{" ++ dq)%string; EmptyString; "fun g() {"; "}" ].

(** A class header with a brace in its trailing comment, and the word
    [import] followed by a comment. *)
Definition comment_brace_line : string := "class Foo // {".
Definition import_comment_line : string := "import // x".

(** The same lines with another character in the literal. *)
Definition literal_plain_lines : list string :=
  [ ("fun f() = " ++ dq ++ "x" ++ dq)%string; EmptyString; "fun g() {"; "}" ].

(** Neither summary key is set: the state of every dict the extractors and
    the directory builder create. *)
Definition fresh (n : node) : Prop :=
  summary (attrs n) = None /\ prefix_summary (attrs n) = None.

(** The reading of the claim for one dict: exactly one of the two keys is
    set, ['prefix_summary'] when the dict has children and ['summary'] when
    it has none. *)
Definition one_summary_by_children (n : node) : Prop :=
  if has_children (nodes n)
  then is_Some (prefix_summary (attrs n)) /\ summary (attrs n) = None
  else is_Some (summary (attrs n)) /\ prefix_summary (attrs n) = None.

(** Sample collaborators: one token per character, a model that answers,
    and a model whose requests fail. *)
Definition tokens_by_length (text model : string) : Z :=
  Z.of_nat (String.length text).
Definition model_answers (model prompt : string) : option string :=
  Some "A summary.".
Definition model_fails (model prompt : string) : option string := None.

(** A directory with one Python file: an imports dict with one import
    child, and a function. *)
Definition sample_file : node :=
  Node {| title := "a.py"; node_id := Some "0001"; type := file;
          signature := None; docstring := None; decorators := None;
          start_line := Some 1; end_line := Some 3;
          summary := None; prefix_summary := None;
          text := Some "import os"; path := Some "src/a.py" |}
       (Some [ Node (set_text (code_fields "Imports" imports 1 1 None None None)
                              (Some "import os"))
                    (Some [Node (set_text (code_fields "import os" import 1 1
                                                       None None None)
                                          (Some "import os"))
                                None]);
               Node (set_text (code_fields "f()" function 3 3 (Some "def f()")
                                           None (Some []))
                              (Some "def f(): pass"))
                    None ]).

Definition sample_directory : node :=
  Node (directory_fields "src" "src") (Some [sample_file]).

(** The loop over the children inside [assign_summaries]. *)
Fixpoint assign_list (l : list node) (ss : list string)
    : list node * list string :=
  match l with
  | [] => ([], ss)
  | c :: l0 =>
      let '(c', ss1) := assign_summaries c ss in
      let '(l0', ss2) := assign_list l0 ss1 in
      (c' :: l0', ss2)
  end.

(** How a dict [p] of the result of [assign_summaries] relates to the dict
    [q] it was. *)
Definition assigned (q p : node) : Prop :=
  has_children (nodes p) = has_children (nodes q)
  /\ type (attrs p) = type (attrs q)
  /\ if is_code_node q
     then exists s, attrs p = assign (attrs q) (has_children (nodes q)) s
     else attrs p = attrs q.

(** The number of dicts in a forest that get a summary request. *)
Definition code_count (l : list node) : nat :=
  length (List.filter is_code_node (walk_forest l)).

(** A directory with a Kotlin file and a text file; no parser is needed
    for either. *)
Definition no_python (code : string) : option (list Python.stmt) := None.
Definition no_java (code : string) : option Java.compilation_unit := None.
Definition no_cst (lang code : string) : option Cpp.ts_node := None.

Definition sample_listing : list (string * fs_entry) :=
  [ ("notes.txt", FsFile (Some "to do"));
    ("Main.kt", FsFile (Some "class Main")) ].

(** A dict of type class, function or method: the types that thinning
    merges. *)
Definition mergeable_type (n : node) : bool :=
  kind_in (type (attrs n)) [class; function; method].

(** What [preserve_imports_text] does to the fields of one dict. *)
Definition with_imports_summary (f : fields) : fields :=
  if kind_eqb (type f) imports
  then set_summary f (Some (py_strip (default EmptyString (text f))))
  else f.

(** The length of the child list of a dict, [None] without ['nodes']. *)
Definition child_count (n : node) : option nat := option_map (@length node) (nodes n).

(** A class of three lines with one method. *)
Definition sample_class : node :=
  Node (set_text (code_fields "A" class 1 3 None None (Some []))
                 (Some ("class A:" ++ nl ++ "  def m(self):" ++ nl ++ "    pass")%string))
       (Some [ Node (set_text (code_fields "m()" method 2 3 (Some "def m(self)")
                                           None (Some []))
                              (Some ("  def m(self):" ++ nl ++ "    pass")%string))
                    (Some []) ]).

(** The types each extractor gives its dicts. *)
Definition python_kinds : list kind := [class; function; method; imports; import].
Definition java_kinds : list kind := [class; interface; enum; method; imports].
Definition kotlin_kinds : list kind :=
  [class; interface; enum; object; function; method; imports].
Definition cpp_kinds : list kind := [class; struct; namespace; function; method].

(** Every dict of the forest has one of the types [ks]. *)
Definition kinds_within (ks : list kind) (forest : list node) : Prop :=
  Forall (fun p => kind_in (type (attrs p)) ks = true) (walk_forest forest).

(** A child that is a method has a parent of one of the types [owners];
    a child that is a function has a parent of another type. *)
Definition child_typed (owners : list kind) (parent : kind) (c : node) : Prop :=
  (type (attrs c) = method -> kind_in parent owners = true)
  /\ (type (attrs c) = function -> kind_in parent owners = false).

(** No dict at the top of the forest is a method, and at every depth the
    children that are methods or functions are typed by their parent. *)
Definition methods_belong_to (owners : list kind) (forest : list node) : Prop :=
  Forall (fun r => type (attrs r) <> method) forest
  /\ Forall (fun p => Forall (child_typed owners (type (attrs p))) (get_nodes p))
            (walk_forest forest).

(** The dicts of a tree have types among [ks], and methods and functions
    are typed by their parents. *)
Definition typed_tree (ks owners : list kind) (n : node) : Prop :=
  Forall (fun p => kind_in (type (attrs p)) ks = true
                   /\ Forall (child_typed owners (type (attrs p))) (get_nodes p))
         (walk n).


(** The types of Kotlin declarations that own methods. *)
Definition kotlin_owners : list kind := [class; interface; object; enum].

(** The typing discipline of the scanner's store: the types are the
    scanner's own, no root is a method, and a child that is a method or a
    function is typed by the dict that has it as a child. *)
Record Typed (h : list Kotlin.hnode) (roots : list nat) : Prop := mkTyped {
  typed_kinds : forall a n, h !! a = Some n ->
    kind_in (Kotlin.h_type n) kotlin_kinds = true;
  typed_roots : forall r n, In r roots -> h !! r = Some n ->
    Kotlin.h_type n <> method;
  typed_child : forall p n c m,
    h !! p = Some n -> In c (Kotlin.h_nodes n) -> h !! c = Some m ->
    (Kotlin.h_type m = method -> kind_in (Kotlin.h_type n) kotlin_owners = true)
    /\ (Kotlin.h_type m = function ->
        kind_in (Kotlin.h_type n) kotlin_owners = false)
}.

(** A child [c] of the dict of the directory at [dir_path] stands for a
    subdirectory of the listing whose name is not skipped. *)
Definition listed_dir (dir_path : string) (entries : list (string * fs_entry))
    (c : node) : Prop :=
  exists item e,
    In (item, e) entries /\ is_dir e = true /\ skipped item = false
    /\ path (attrs c) = Some (path_join dir_path item).

(** A child [c] stands for a file of the listing that was read, whose name
    is not skipped and has a supported extension. *)
Definition listed_file (dir_path : string) (entries : list (string * fs_entry))
    (c : node) : Prop :=
  exists item code_content,
    In (item, FsFile (Some code_content)) entries /\ skipped item = false
    /\ endswith_any item supported_extensions = true
    /\ path (attrs c) = Some (path_join dir_path item)
    /\ text (attrs c) = Some code_content.

(** The listing of a directory, each entry paired with the dict that
    [build_directory_tree] builds for it: what [directory_node] is given. *)
Definition visited_entries
    (ast_parse : string -> option (list Python.stmt))
    (javalang_parse : string -> option Java.compilation_unit)
    (ts_parse : string -> string -> option Cpp.ts_node)
    (normpath : string -> string)
    (dir_path : string) (entries : list (string * fs_entry))
    : list (string * (fs_entry * node)) :=
  List.map (fun '(item, e) =>
              (item, (e, build_directory_tree ast_parse javalang_parse ts_parse
                           normpath (path_join dir_path item) e)))
           entries.

(** [a <= b] on strings, as [sorted] compares them. *)
Definition str_le (a b : string) : Prop := String.leb a b = true.

(** The paths [get_python_files] is to return: the files named [*.py]
    that are reached from the directory through subdirectories whose names
    are not pruned. *)
Inductive python_file_under : string -> fs_entry -> string -> Prop :=
| python_file_here (root : string) (entries : list (string * fs_entry))
    (name : string) (content : option string) :
    In (name, FsFile content) entries ->
    py_endswith name ".py" = true ->
    python_file_under root (FsDir (Some entries)) (path_join root name)
| python_file_below (root : string) (entries : list (string * fs_entry))
    (name : string) (e : fs_entry) (p : string) :
    In (name, e) entries -> is_dir e = true -> pruned_dir name = false ->
    python_file_under (path_join root name) e p ->
    python_file_under root (FsDir (Some entries)) p.

(** A file system with one Kotlin file, named with an upper-case
    extension, wherever it is looked up. *)
Definition upper_case_file (p : string) : option fs_entry :=
  Some (FsFile (Some "class Main")).

(** Sample collaborators of the entry point: node ids and formatting that
    change nothing, and a description that is the constant text. *)
Definition keep_structure (n : node) : node := n.
Definition keep_order (n : node) (order : list string) : node := n.
Definition describe (n : node) (model : string) : option string :=
  Some "A code base.".

(** An [ast.arguments] with positional parameters only. *)
Definition positional (args : list Python.arg) (defaults : list string)
    : Python.arguments :=
  {| Python.posonlyargs := []; Python.args := args;
     Python.defaults := defaults; Python.vararg := None;
     Python.kwonlyargs := []; Python.kw_defaults := [];
     Python.kwarg := None |}.

(** A parameter rendered with its default. *)
Definition with_default (a : Python.arg) (d : string) : string :=
  (Python.arg_str a ++ " = " ++ d)%string.

(** Two parameters, the second annotated. *)
Definition sample_args : list Python.arg :=
  [ {| Python.arg_name := "x"; Python.annotation := None |};
    {| Python.arg_name := "y"; Python.annotation := Some "int" |} ].

(** What a dict of the store is created with and keeps: its title, type,
    start line and signature. *)
Definition declared (n : Kotlin.hnode) : string * kind * nat * option string :=
  (Kotlin.h_title n, Kotlin.h_type n, Kotlin.h_start_line n,
   Kotlin.h_signature n).

(** The store [h'] holds every dict of [h], at the same address and as it
    was declared. *)
Definition extends (h h' : list Kotlin.hnode) : Prop :=
  forall a n, h !! a = Some n ->
    exists n', h' !! a = Some n' /\ declared n' = declared n.

(** Every dict of the store is in [nodes] or in the child list of a dict
    of the store. *)
Definition Parented (h : list Kotlin.hnode) (roots : list nat) : Prop :=
  forall a, a < length h ->
    In a roots \/ exists p n, h !! p = Some n /\ In a (Kotlin.h_nodes n).

(** The dict a declaration line is to give: for a class-like match the
    name, the type of the keyword and no signature; for a function match
    the name with parentheses, function or method, and the signature. *)
Definition declares (line : string) (line_num : nat) (f : fields) : Prop :=
  match Kotlin.search_class line, Kotlin.search_fun line with
  | Some m, _ =>
      title f = Kotlin.class_name m
      /\ type f = Kotlin.node_type_of (Kotlin.kind_type m)
      /\ start_line f = Some line_num /\ signature f = None
  | None, Some name =>
      title f = (name ++ "()")%string
      /\ (type f = function \/ type f = method)
      /\ start_line f = Some line_num
      /\ signature f = Some (Kotlin.fun_signature line)
  | None, None => True
  end.

(** Whether a line is a declaration line: one of the two patterns matches. *)
Definition is_declaration (line : string) : bool :=
  match Kotlin.search_class line, Kotlin.search_fun line with
  | None, None => false
  | _, _ => true
  end.

(** A function and a class, the class with a method. *)
Definition kotlin_sample : list string :=
  [ "fun main() {"; "}"; "class Foo {"; "  fun bar() = 1"; "}" ].

(** A text that opens, after white space, with a slash or with [pa]: how
    a comment line and a package line open. *)
Definition quiet (s : list ascii) : bool :=
  match lstrip_chars s with
  | "/"%char :: _ => true
  | "p"%char :: "a"%char :: _ => true
  | _ => false
  end.

(** A line that is no import and does not flush a pending import run:
    it is blank, a comment, or a package declaration. *)
Definition keeps_imports_pending (line : string) : bool :=
  negb (Kotlin.is_import (py_strip line))
  && negb (nonempty (py_strip line)
           && negb (py_startswith (py_strip line) "//")
           && negb (py_startswith (py_strip line) "package")).

(** Addresses are given out in line order: a dict with a higher address
    starts on a later line, no dict starts after line [L], children and
    roots are listed by ascending address, and every dict starts before a
    pending run of imports. *)
Record Ordered (L : nat) (h : list Kotlin.hnode) (roots : list nat)
    (imp : option (nat * nat)) : Prop := {
  ord_heap : forall a b na nb, a < b -> h !! a = Some na -> h !! b = Some nb ->
    Kotlin.h_start_line na < Kotlin.h_start_line nb;
  ord_bound : forall a n, h !! a = Some n -> Kotlin.h_start_line n <= L;
  ord_children : forall a n, h !! a = Some n ->
    StronglySorted lt (Kotlin.h_nodes n);
  ord_roots : StronglySorted lt roots;
  ord_pending : forall s e, imp = Some (s, e) ->
    forall a n, h !! a = Some n -> Kotlin.h_start_line n < s
}.

(** Dicts listed by strictly ascending start line. *)
Definition ascending_lines (l : list node) : Prop :=
  StronglySorted lt (List.map start_of l).

(** At every level of the forest, the roots included, the dicts are listed
    by strictly ascending start line. *)
Definition in_line_order (forest : list node) : Prop :=
  ascending_lines forest
  /\ Forall (fun p => ascending_lines (get_nodes p)) (walk_forest forest).

(** What a pattern can consume: [consumes r s s'] when [r] matches a
    prefix of [s] that leaves [s'], whatever the priorities. *)
Inductive consumes : Re.regex -> list ascii -> list ascii -> Prop :=
| consumes_eps s : consumes Re.Eps s s
| consumes_chr (p : ascii -> bool) a s :
    p a = true -> consumes (Re.Chr p) (a :: s) s
| consumes_seq r1 r2 s s1 s2 :
    consumes r1 s s1 -> consumes r2 s1 s2 -> consumes (Re.Seq r1 r2) s s2
| consumes_alt_l r1 r2 s s' : consumes r1 s s' -> consumes (Re.Alt r1 r2) s s'
| consumes_alt_r r1 r2 s s' : consumes r2 s s' -> consumes (Re.Alt r1 r2) s s'
| consumes_star_stop r s : consumes (Re.Star r) s s
| consumes_star_step r s s1 s2 :
    consumes r s s1 -> consumes (Re.Star r) s1 s2 -> consumes (Re.Star r) s s2
| consumes_lazy_stop r s : consumes (Re.LazyStar r) s s
| consumes_lazy_step r s s1 s2 :
    consumes r s s1 -> consumes (Re.LazyStar r) s1 s2 ->
    consumes (Re.LazyStar r) s s2
| consumes_group i r s s' : consumes r s s' -> consumes (Re.Group i r) s s'.

(** The words of the two patterns. *)
Definition visibility_words : list string :=
  ["private"; "public"; "protected"; "internal"].
Definition class_modifier_words : list string :=
  ["open"; "data"; "sealed"; "annotation"; "inner"].
Definition class_keywords : list string :=
  ["class"; "interface"; "object"; "enum"].
Definition fun_modifier_words : list string :=
  ["private"; "public"; "protected"; "internal"; "override"; "suspend";
   "abstract"; "open"; "inline"].

(** The parser of the file at [file_path] raises [e] on its content, and
    no [except] clause names [e]: only the Java and the Python extractor
    let an error through. *)
Definition escapes {E : Type}
    (ast_parse : string -> Raising.parsing (list Python.stmt) E)
    (javalang_parse : string -> Raising.parsing Java.compilation_unit E)
    (file_path code_content : string) (e : E) : Prop :=
  (py_endswith file_path ".java" = true
   /\ javalang_parse code_content = Raising.Uncaught e)
  \/ (py_endswith file_path ".py" = true
      /\ ast_parse code_content = Raising.Uncaught e).

(** Sample parsers: each raises an error that its extractor catches on
    the text ["def f(:"], and an error that it does not catch on every
    other text. *)
Definition sample_ast_parse (code : string)
    : Raising.parsing (list Python.stmt) string :=
  if String.eqb code "def f(:" then Raising.Caught
  else Raising.Uncaught "ValueError".
Definition sample_javalang_parse (code : string)
    : Raising.parsing Java.compilation_unit string :=
  if String.eqb code "def f(:" then Raising.Caught
  else Raising.Uncaught "LexerError".

(** The files that [build_directory_tree] builds below [dir_path]: the
    files that can be read and have a supported extension, in the
    directory or below it, with no skipped name on the way.  Each comes
    with its path and its content. *)
Inductive built_file : string -> fs_entry -> string -> string -> Prop :=
| built_file_here (dir_path : string) (entries : list (string * fs_entry))
    (item code_content : string) :
    In (item, FsFile (Some code_content)) entries ->
    skipped item = false ->
    endswith_any item supported_extensions = true ->
    built_file dir_path (FsDir (Some entries)) (path_join dir_path item)
      code_content
| built_file_below (dir_path : string) (entries : list (string * fs_entry))
    (item : string) (e : fs_entry) (file_path code_content : string) :
    In (item, e) entries -> is_dir e = true -> skipped item = false ->
    built_file (path_join dir_path item) e file_path code_content ->
    built_file dir_path (FsDir (Some entries)) file_path code_content.

(** The files that [code_to_tree] builds for what [path] names: the file
    itself when it can be read and has a supported extension, or the files
    built below the directory. *)
Definition built_from (path : string) (target : option fs_entry)
    (file_path code_content : string) : Prop :=
  match target with
  | Some (FsFile content) =>
      content = Some code_content /\ file_path = path
      /\ endswith_any path supported_extensions = true
  | Some (FsDir listing) => built_file path (FsDir listing) file_path code_content
  | None => False
  end.

(** A result of the functions on the handled outcomes, as an outcome. *)
Definition as_outcome {E A : Type} (r : result A) : Raising.outcome E A :=
  match r with
  | Ok x => Raising.Returns x
  | Raise e => Raising.Raises (Raising.Own e)
  end.

(** A file system in which every path names a readable file with the
    text ["def f(:"]. *)
Definition broken_file (p : string) : option fs_entry :=
  Some (FsFile (Some "def f(:")).

(** A path as it is. *)
Definition same_path (p : string) : string := p.

(** A small function with a docstring of two lines, the first indented. *)
Definition documented_function : node :=
  Node (set_text (code_fields "f()" function 1 2 (Some "def f()")
                    (Some ("  Adds two numbers." ++ nl ++ "Returns the sum.  ")%string)
                    (Some []))
                 (Some "def f(): pass"))
       (Some []).

(** * Properties *)

(** ** Induction over trees *)

Lemma node_ind' (P : node -> Prop) :
  (forall f, P (Node f None)) ->
  (forall f l, Forall P l -> P (Node f (Some l))) ->
  forall n, P n.
Proof.
  intros Hleaf Hnode. fix IH 1. intros [f [l|]].
  - apply Hnode. induction l as [|c l IHl]; constructor.
    + apply IH.
    + exact IHl.
  - apply Hleaf.
Qed.

Lemma map_map_fixed {A : Type} (g : A -> A) (l : list A) :
  Forall (fun x => g (g x) = g x) l ->
  List.map g (List.map g l) = List.map g l.
Proof.
  induction 1 as [|x l Hx _ IH]; simpl; [reflexivity|].
  now rewrite Hx, IH.
Qed.

(** ** Thinning *)

Section ThinningFacts.
Variable count_tokens : string -> string -> Z.
Variable min_token_threshold : Z.
Variable model : string.

Local Abbreviation thin := (thin_node count_tokens min_token_threshold model).

Lemma thin_node_cons (f : fields) (c : node) (l : list node) :
  thin (Node f (Some (c :: l))) =
  let l' := List.map thin (c :: l) in
  if (get_node_tokens count_tokens model (Node f (Some l')) <? min_token_threshold)%Z
     && kind_in (type f) [class; function; method]
  then Node (set_text f (Some (fold_left merge_text l'
                                         (default EmptyString (text f)))))
            None
  else Node f (Some l').
Proof. reflexivity. Qed.

(** A node that keeps its children, all of them already thinned, is left
    as it is. *)
Lemma thin_node_kept (f : fields) (l : list node) :
  List.map thin l = l ->
  (get_node_tokens count_tokens model (Node f (Some l)) <? min_token_threshold)%Z
  && kind_in (type f) [class; function; method] = false ->
  thin (Node f (Some l)) = Node f (Some l).
Proof.
  intros Hmap Hkeep. destruct l as [|c l]; [reflexivity|].
  rewrite thin_node_cons. cbv zeta. rewrite Hmap, Hkeep. reflexivity.
Qed.

Lemma thin_node_fixed (n : node) : thin (thin n) = thin n.
Proof.
  induction n as [f | f l IH] using node_ind'; [reflexivity|].
  destruct l as [|c l]; [reflexivity|].
  rewrite thin_node_cons. cbv zeta.
  destruct ((_ <? _)%Z && _) eqn:Hmerge; [reflexivity|].
  apply thin_node_kept; [|exact Hmerge].
  apply map_map_fixed. exact IH.
Qed.

End ThinningFacts.

(** C3.  Thinning is idempotent: for every token counter, threshold and
    tree, thinning the thinned tree again with the same threshold gives the
    same tree (nodes, children and every field, text included). *)
Theorem thinning_idempotent (count_tokens : string -> string -> Z)
    (min_token_threshold : Z) (model : string) (structure : node) :
  tree_thinning_for_code count_tokens min_token_threshold model
    (tree_thinning_for_code count_tokens min_token_threshold model structure)
  = tree_thinning_for_code count_tokens min_token_threshold model structure.
Proof.
  unfold tree_thinning_for_code. apply thin_node_fixed.
Qed.

(** ** The Java extractor's end lines *)

Lemma max_child_end_spec (children : list node) (start_line : nat) :
  Java.max_child_end start_line children
  = Nat.max start_line (list_max (List.map end_of children)).
Proof.
  unfold Java.max_child_end. revert start_line.
  induction children as [|c l IH]; intros s; simpl.
  - lia.
  - rewrite IH. fold (end_of c).
    destruct (Nat.ltb_spec s (end_of c)); lia.
Qed.

Lemma method_end_line_last (start_line : nat) (statements : list (option nat))
    (last_stmt : option nat) :
  Java.method_end_line start_line (Some (statements ++ [last_stmt]))
  = match last_stmt with Some line => line + 1 | None => start_line end.
Proof.
  unfold Java.method_end_line.
  destruct (statements ++ [last_stmt]) as [|s l] eqn:E.
  - destruct statements; discriminate.
  - rewrite <- E, last_last. reflexivity.
Qed.

(** C6, counterexample.  For [late_class] the method child is reported on
    line 1 (no position), so the maximum [end_line] among the children is 1,
    while the class gets [end_line = 5], its own [start_line]. *)
Lemma java_class_end_line_counterexample :
  exists f child,
    Java.process_node late_class None = Some (Node f (Some [child]))
    /\ start_line f = Some 5
    /\ end_line f = Some 5
    /\ end_of child = 1
    /\ claimed_class_end 5 [child] = 1.
Proof. do 2 eexists. repeat split. Qed.

(** C6, amended.  A class, interface or enum gets as [end_line] the larger
    of its [start_line] and the maximum [end_line] among its processed
    children, hence its [start_line] when it has no children, and the
    maximum among the children as soon as one of them ends at or after the
    declaration's line.  A method or
    constructor gets the line of the last statement of its body plus one,
    and its [start_line] when the body is missing or empty or the last
    statement has no position. *)
Theorem java_end_line_estimates :
  (forall k name position documentation annotations body parent_type,
     exists f children,
       Java.process_node
         (Java.TypeDeclaration k name position documentation annotations body)
         parent_type = Some (Node f (Some children))
       /\ children = flat_map (fun child =>
                                 option_list (Java.process_node child
                                                (Some (Java.node_type_of k))))
                              body
       /\ start_line f = Some (Java.get_line_range position)
       /\ end_line f = Some (Nat.max (Java.get_line_range position)
                                     (list_max (List.map end_of children)))
       /\ (children = [] -> end_line f = start_line f)
       /\ ((exists c, In c children
                      /\ Java.get_line_range position <= end_of c) ->
           end_line f
           = Some (claimed_class_end (Java.get_line_range position) children)))
  /\
  (forall is_constructor name position parameters return_type documentation
          annotations body parent_type,
     exists f,
       Java.process_node
         (Java.MethodDeclaration is_constructor name position parameters
                                 return_type documentation annotations body)
         parent_type = Some (Node f (Some []))
       /\ start_line f = Some (Java.get_line_range position)
       /\ (forall statements line,
             body = Some (statements ++ [Some line]) ->
             end_line f = Some (line + 1))
       /\ (forall statements,
             body = Some (statements ++ [None]) -> end_line f = start_line f)
       /\ (body = Some [] \/ body = None -> end_line f = start_line f)).
Proof.
  split.
  - intros. do 2 eexists. cbn [Java.process_node].
    split; [reflexivity|]. split; [reflexivity|]. split; [reflexivity|].
    split; [|split].
    + cbn. rewrite max_child_end_spec. f_equal. lia.
    + intros Hnone. cbn. rewrite Hnone. cbn. f_equal. lia.
    + intros (c & Hc & Hle). cbn [end_line code_fields].
      rewrite max_child_end_spec. f_equal.
      set (children := flat_map _ body) in *.
      assert (Hmax : end_of c <= list_max (List.map end_of children)).
      { pose proof (proj1 (list_max_le (List.map end_of children)
                             (list_max (List.map end_of children)))
                          (Nat.le_refl _)) as Hall.
        rewrite List.Forall_forall in Hall. apply Hall.
        apply in_map. exact Hc. }
      unfold claimed_class_end. destruct children; [destruct Hc|]. lia.
  - intros. eexists. cbn [Java.process_node].
    split; [reflexivity|]. split; [reflexivity|].
    split; [|split].
    + intros statements line ->. cbn [end_line code_fields].
      rewrite method_end_line_last. reflexivity.
    + intros statements ->. cbn [end_line start_line code_fields].
      rewrite method_end_line_last. reflexivity.
    + intros [-> | ->]; reflexivity.
Qed.

Lemma java_end_line_estimates_witness :
  exists f children,
    Java.process_node
      (Java.TypeDeclaration Java.ClassDeclaration "A" (Some 4) None []
         [ Java.MethodDeclaration false "run" (Some 5) [] None None []
             (Some [Some 6]) ]) None
    = Some (Node f (Some children))
    /\ List.map end_of children = [7]
    /\ end_line f = Some 7.
Proof.
  destruct (proj1 java_end_line_estimates Java.ClassDeclaration "A" (Some 4)
              None []
              [ Java.MethodDeclaration false "run" (Some 5) [] None None []
                  (Some [Some 6]) ] None)
    as (f & children & Hnode & Hchildren & _ & _ & _ & Hmax).
  exists f, children. split; [exact Hnode|].
  subst children. split; [reflexivity|].
  rewrite Hmax; [reflexivity|].
  eexists. split; [left; reflexivity|]. cbn. lia.
Defined.

(** ** Flattening in the C/C++ extractor *)

(** A CST node whose type is not mapped yields no dict of its own: its
    result is the list of what its children yield, under the same parent
    type. *)
Lemma cpp_unmapped_spliced (ts : Cpp.ts_node) (parent_type : option kind) :
  Cpp.mapped_type (Cpp.ts_type ts) parent_type = None ->
  Cpp.process_node ts parent_type
  = Cpp.RList (cpp_results (Cpp.ts_children ts) parent_type).
Proof.
  destruct ts as [t s e d n c]. cbn [Cpp.ts_type Cpp.ts_children].
  intros H. cbn [Cpp.process_node]. rewrite H. reflexivity.
Qed.

(** A mapped CST node yields one dict, whose children are what the CST
    children yield under the node's own mapped type. *)
Lemma cpp_mapped_dict (ts : Cpp.ts_node) (parent_type : option kind) (k : kind) :
  Cpp.mapped_type (Cpp.ts_type ts) parent_type = Some k ->
  exists f,
    Cpp.process_node ts parent_type
    = Cpp.RDict (Node f (Some (cpp_results (Cpp.ts_children ts) (Some k))))
    /\ type f = k.
Proof.
  destruct ts as [t s e d n c]. cbn [Cpp.ts_type Cpp.ts_children].
  intros H. cbn [Cpp.process_node]. rewrite H. cbn.
  eexists. split; reflexivity.
Qed.

Lemma cpp_results_app (l1 l2 : list Cpp.ts_node) (parent_type : option kind) :
  cpp_results (l1 ++ l2) parent_type
  = cpp_results l1 parent_type ++ cpp_results l2 parent_type.
Proof. unfold cpp_results. apply flat_map_app. Qed.

(** C7.  A namespace definition with, among its children, a node of an
    unmapped type that has a function definition among its own children:
    the function's dict is a child of the namespace's dict.  The unmapped
    node yields a plain list, with no dict of its own, and that list sits
    in the namespace's child list between what the namespace's other
    children yield. *)
Theorem cpp_wrapper_is_flattened
    (ns wrapper fn : Cpp.ts_node) (parent_type : option kind)
    (before after before' after' : list Cpp.ts_node) :
  Cpp.ts_type ns = "namespace_definition" ->
  Cpp.mapped_type (Cpp.ts_type wrapper) (Some namespace) = None ->
  Cpp.ts_type fn = "function_definition" ->
  Cpp.ts_children ns = before ++ wrapper :: after ->
  Cpp.ts_children wrapper = before' ++ fn :: after' ->
  exists ns_node fn_node,
    Cpp.process_node ns parent_type = Cpp.RDict ns_node
    /\ type (attrs ns_node) = namespace
    /\ Cpp.process_node fn (Some namespace) = Cpp.RDict fn_node
    /\ type (attrs fn_node) = function
    /\ In fn_node (get_nodes ns_node)
    /\ Cpp.process_node wrapper (Some namespace)
       = Cpp.RList (cpp_results before' (Some namespace)
                    ++ fn_node :: cpp_results after' (Some namespace))
    /\ get_nodes ns_node
       = cpp_results before (Some namespace)
         ++ (cpp_results before' (Some namespace)
             ++ fn_node :: cpp_results after' (Some namespace))
         ++ cpp_results after (Some namespace).
Proof.
  intros Hns Hwrap Hfn Hchildren Hinner.
  assert (Hmap : Cpp.mapped_type (Cpp.ts_type ns) parent_type = Some namespace).
  { rewrite Hns. reflexivity. }
  destruct (cpp_mapped_dict ns parent_type namespace Hmap) as (f & Hf & Hk).
  assert (Hfmap : Cpp.mapped_type (Cpp.ts_type fn) (Some namespace)
                  = Some function).
  { rewrite Hfn. reflexivity. }
  destruct (cpp_mapped_dict fn (Some namespace) function Hfmap)
    as (ff & Hff & Hfk).
  set (fn_node := Node ff (Some (cpp_results (Cpp.ts_children fn) (Some function)))) in *.
  assert (Hw : Cpp.process_node wrapper (Some namespace)
               = Cpp.RList (cpp_results before' (Some namespace)
                            ++ fn_node :: cpp_results after' (Some namespace))).
  { rewrite (cpp_unmapped_spliced _ _ Hwrap), Hinner, cpp_results_app.
    unfold cpp_results at 2. cbn [flat_map]. rewrite Hff. reflexivity. }
  assert (Hall : cpp_results (Cpp.ts_children ns) (Some namespace)
                 = cpp_results before (Some namespace)
                   ++ (cpp_results before' (Some namespace)
                       ++ fn_node :: cpp_results after' (Some namespace))
                   ++ cpp_results after (Some namespace)).
  { rewrite Hchildren, cpp_results_app. unfold cpp_results at 2.
    cbn [flat_map]. rewrite Hw. reflexivity. }
  exists (Node f (Some (cpp_results (Cpp.ts_children ns) (Some namespace)))), fn_node.
  unfold get_nodes. cbn [nodes attrs default].
  repeat split; try assumption.
  rewrite Hall.
  apply in_or_app. right. apply in_or_app. left.
  apply in_or_app. right. left. reflexivity.
Qed.

Lemma cpp_wrapper_is_flattened_witness :
  exists ns_node fn_node,
    Cpp.process_node sample_namespace None = Cpp.RDict ns_node
    /\ title (attrs ns_node) = "geo"
    /\ type (attrs ns_node) = namespace
    /\ get_nodes ns_node = [fn_node]
    /\ title (attrs fn_node) = "area(int w, int h)()"
    /\ type (attrs fn_node) = function.
Proof.
  destruct (cpp_wrapper_is_flattened
              sample_namespace
              (Cpp.TsNode "declaration_list" 0 4 None None
                 [ Cpp.TsNode "function_definition" 1 3
                     (Some "area(int w, int h)") None [] ])
              (Cpp.TsNode "function_definition" 1 3
                 (Some "area(int w, int h)") None [])
              None [] [] [] []
              eq_refl eq_refl eq_refl eq_refl eq_refl)
    as (ns_node & fn_node & Hns & Hk & Hfn & Hfk & _ & _ & Hall).
  exists ns_node, fn_node. cbn in Hns, Hfn, Hall.
  injection Hfn as <-. injection Hns as <-.
  repeat split.
Defined.

(** ** The scanner's store *)

Section KotlinStore.
Import Kotlin.

Lemma Inv_initial : Inv 0 0 [] [] [] None.
Proof.
  split.
  - intros a n H. rewrite lookup_nil in H. discriminate.
  - intros a [].
  - intros p n c H. rewrite lookup_nil in H. discriminate.
  - constructor.
  - constructor.
  - discriminate.
Qed.

Lemma Inv_mono la lo la' lo' h roots stk imp :
  Inv la lo h roots stk imp -> la <= la' -> lo <= lo' ->
  Inv la' lo' h roots stk imp.
Proof.
  intros [Hl Ho Hc Hs Hr Hi] Hla Hlo. split; auto.
  - intros a n H. destruct (Hl a n H). lia.
  - intros a H. destruct (Ho a H) as (n & ? & ? & ?). exists n. repeat split; auto. lia.
  - intros s e H. destruct (Hi s e H). lia.
Qed.

Lemma sorted_head_not_in (a : nat) (l : list nat) :
  StronglySorted gt (a :: l) -> ~ In a l.
Proof.
  intros H Hin. apply StronglySorted_inv in H as [_ H].
  rewrite List.Forall_forall in H. specialize (H a Hin). lia.
Qed.

Lemma sorted_head_gt (a b : nat) (l : list nat) :
  StronglySorted gt (a :: l) -> In b l -> b < a.
Proof.
  intros H Hin. apply StronglySorted_inv in H as [_ H].
  rewrite List.Forall_forall in H. specialize (H b Hin). lia.
Qed.

(** Closing the innermost frame at line [L]. *)
Lemma Inv_pop la lo L h roots top rest imp :
  Inv la lo h roots (top :: rest) imp -> lo < L -> la <= L ->
  Inv L lo (alter (fun n => set_end_line n L) (f_node top) h) roots rest imp.
Proof.
  intros [Hl Ho Hc Hs Hr Hi] HloL HlaL. cbn [addrs List.map] in *.
  fold (addrs rest) in *.
  pose proof (sorted_head_not_in _ _ Hs) as Hnotin.
  split.
  - intros a n H.
    destruct (decide (a = f_node top)) as [->|Hne].
    + rewrite list_lookup_alter_eq in H.
      destruct (h !! f_node top) as [n0|] eqn:E; [|cbn in H; discriminate].
      cbn in H. injection H as <-. cbn.
      destruct (Ho (f_node top) (or_introl eq_refl)) as (n1 & E1 & He & Hs1).
      rewrite E in E1. injection E1 as <-. lia.
    + rewrite list_lookup_alter_ne in H by congruence.
      destruct (Hl a n H). lia.
  - intros a Ha.
    destruct (Ho a (or_intror Ha)) as (n & E & He & Hs1).
    exists n. rewrite list_lookup_alter_ne; [auto|].
    intros <-. contradiction.
  - intros p n c Hp Hin.
    destruct (decide (p = f_node top)) as [->|Hne].
    + rewrite list_lookup_alter_eq in Hp.
      destruct (h !! f_node top) as [n0|] eqn:E; [|cbn in Hp; discriminate].
      cbn in Hp. injection Hp as <-. cbn in Hin.
      destruct (Hc _ _ _ E Hin) as (Hlt & m & Em & Hsm & Hem & Hstk).
      split; [exact Hlt|]. exists m.
      rewrite list_lookup_alter_ne by lia.
      split; [exact Em|]. split; [exact Hsm|]. split.
      * intros _. cbn. destruct (Hl _ _ Em). lia.
      * intros Hcr. pose proof (sorted_head_gt _ _ _ Hs Hcr). lia.
    + rewrite list_lookup_alter_ne in Hp by congruence.
      destruct (Hc _ _ _ Hp Hin) as (Hlt & m & Em & Hsm & Hem & Hstk).
      split; [exact Hlt|].
      destruct (decide (c = f_node top)) as [->|Hnc].
      * exists (set_end_line m L). rewrite list_lookup_alter_eq, Em.
        split; [reflexivity|]. split; [exact Hsm|]. split.
        -- intros Hopen. exfalso. apply Hopen.
           destruct (Hstk (or_introl eq_refl)) as [Heq|Hin'].
           ++ congruence.
           ++ destruct (Ho p (or_intror Hin')) as (n' & En' & He' & _).
              rewrite Hp in En'. injection En' as <-. exact He'.
        -- intros Hcr. contradiction.
      * exists m. rewrite list_lookup_alter_ne by congruence.
        split; [exact Em|]. split; [exact Hsm|]. split; [exact Hem|].
        intros Hcr.
        destruct (Hstk (or_intror Hcr)) as [Heq|Hin']; [congruence|exact Hin'].
  - apply StronglySorted_inv in Hs as [Hs _]. exact Hs.
  - rewrite length_alter. exact Hr.
  - intros s e H. destruct (Hi s e H). lia.
Qed.

Lemma Inv_close_scopes L b : forall stk la lo h roots imp,
  Inv la lo h roots stk imp -> lo < L -> la <= L ->
  Inv L lo (fst (close_scopes h stk b L)) roots
           (snd (close_scopes h stk b L)) imp.
Proof.
  induction stk as [|top rest IH]; intros la lo h roots imp HI HloL HlaL.
  - cbn. eapply Inv_mono; eauto.
  - cbn [close_scopes]. destruct (_ <=? _)%Z.
    + eapply IH; [eapply Inv_pop; eauto | exact HloL | lia].
    + cbn. eapply Inv_mono; eauto.
Qed.


Lemma stack_in_range la lo h roots stk imp a :
  Inv la lo h roots stk imp -> In a (addrs stk) -> a < length h.
Proof.
  intros HI Ha. destruct (inv_open _ _ _ _ _ _ HI a Ha) as (n & E & _).
  eapply lookup_lt_Some; eauto.
Qed.

(** Appending a dict without children that nothing refers to yet. *)
Lemma Inv_alloc la lo h roots stk imp n :
  Inv la lo h roots stk imp ->
  h_start_line n <= h_end_line n -> h_end_line n <= la -> h_nodes n = [] ->
  Inv la lo (h ++ [n]) roots stk None.
Proof.
  intros HI Hse Hla Hnil. pose proof HI as [Hl Ho Hc Hs Hr Hi]. split.
  - intros a m H. apply lookup_snoc_Some in H as [[_ H]|[_ <-]]; eauto.
  - intros a Ha. destruct (Ho a Ha) as (m & E & ?). exists m.
    split; [|assumption]. rewrite lookup_app_l; [exact E|].
    eapply lookup_lt_Some; eauto.
  - intros p m c H Hin. apply lookup_snoc_Some in H as [[_ H]|[_ <-]].
    + destruct (Hc _ _ _ H Hin) as (Hlt & m' & Em & Hrest).
      split; [exact Hlt|]. exists m'. split; [|exact Hrest].
      rewrite lookup_app_l; [exact Em|]. eapply lookup_lt_Some; eauto.
    + rewrite Hnil in Hin. destruct Hin.
  - exact Hs.
  - eapply Forall_impl; [exact Hr|]. intros r Hlt. cbn in Hlt.
    rewrite length_app. cbn. lia.
  - discriminate.
Qed.

(** Forgetting the pending import run. *)
Lemma Inv_no_imports la lo h roots stk imp :
  Inv la lo h roots stk imp -> Inv la lo h roots stk None.
Proof. intros [Hl Ho Hc Hs Hr Hi]. split; auto. discriminate. Qed.

Lemma Inv_imports la lo h roots stk imp imp' :
  Inv la lo h roots stk imp ->
  (forall s e, imp' = Some (s, e) -> s <= e /\ e <= la) ->
  Inv la lo h roots stk imp'.
Proof. intros [Hl Ho Hc Hs Hr Hi] H. split; auto. Qed.

Lemma Inv_add_root la lo h roots stk imp r :
  Inv la lo h roots stk imp -> r < length h ->
  Inv la lo h (roots ++ [r]) stk imp.
Proof.
  intros [Hl Ho Hc Hs Hr Hi] H. split; auto.
  apply Forall_app. split; [exact Hr|]. constructor; [exact H|constructor].
Qed.

Lemma Inv_flush la lo st :
  Inv la lo (heap st) (st_nodes st) (stack st) (import_lines st) ->
  Inv la lo (heap (flush_imports st)) (st_nodes (flush_imports st))
            (stack (flush_imports st)) (import_lines (flush_imports st)).
Proof.
  intros HI. unfold flush_imports.
  destruct (import_lines st) as [[s e]|] eqn:E; [|rewrite E; exact HI].
  cbn. destruct (inv_imports _ _ _ _ _ _ HI s e eq_refl).
  apply Inv_add_root.
  - apply (Inv_alloc _ _ _ _ _ (Some (s, e))); auto.
  - rewrite length_app. cbn. lia.
Qed.

Lemma child_in_range la lo h roots stk imp p m c :
  Inv la lo h roots stk imp -> h !! p = Some m -> In c (h_nodes m) ->
  c < length h.
Proof.
  intros HI Hp Hin.
  destruct (inv_child _ _ _ _ _ _ HI p m c Hp Hin) as (_ & m' & E & _).
  eapply lookup_lt_Some; eauto.
Qed.

(** Recording [a] as the last child of the open dict at [p]. *)
Lemma Inv_add_child la lo h roots stk imp p a n :
  Inv la lo h roots stk imp -> In p (addrs stk) -> p < a ->
  h !! a = Some n ->
  (forall m, h !! p = Some m -> h_start_line m < h_start_line n) ->
  Inv la lo (alter (fun m => add_child m a) p h) roots stk imp.
Proof.
  intros HI Hp Hpa Ha Hstart. pose proof HI as [Hl Ho Hc Hs Hr Hi].
  assert (Hlook : forall i x, alter (fun m => add_child m a) p h !! i = Some x ->
            exists y, h !! i = Some y /\ h_start_line x = h_start_line y
                      /\ h_end_line x = h_end_line y
                      /\ (i <> p -> x = y)
                      /\ (i = p -> h_nodes x = h_nodes y ++ [a])).
  { intros i x H. destruct (decide (i = p)) as [->|Hne].
    - rewrite list_lookup_alter_eq in H.
      destruct (h !! p) as [y|]; cbn in H; [|discriminate].
      injection H as <-. exists y. repeat split; auto. congruence.
    - rewrite list_lookup_alter_ne in H by congruence.
      exists x. repeat split; auto. congruence. }
  assert (Hlook' : forall i y, h !! i = Some y ->
            exists x, alter (fun m => add_child m a) p h !! i = Some x
                      /\ h_start_line x = h_start_line y
                      /\ h_end_line x = h_end_line y).
  { intros i y H. destruct (decide (i = p)) as [->|Hne].
    - rewrite list_lookup_alter_eq, H. cbn. eexists. repeat split.
    - rewrite list_lookup_alter_ne by congruence. exists y. repeat split; auto. }
  split.
  - intros i x H. destruct (Hlook i x H) as (y & Hy & -> & -> & _). eauto.
  - intros i Hin. destruct (Ho i Hin) as (y & Hy & He & Hlo).
    destruct (Hlook' i y Hy) as (x & Hx & Hsx & Hex).
    exists x. repeat split; auto; lia.
  - intros i x c H Hin.
    destruct (Hlook i x H) as (y & Hy & Hsx & Hex & Hne & Heq).
    assert (Hcases : In c (h_nodes y) \/ (i = p /\ c = a)).
    { destruct (decide (i = p)) as [->|Hip].
      - rewrite (Heq eq_refl) in Hin. apply in_app_or in Hin as [Hin|[<-|[]]]; auto.
      - rewrite (Hne Hip) in Hin. auto. }
    destruct Hcases as [Hold|[-> ->]].
    + destruct (Hc i y c Hy Hold) as (Hlt & m & Em & H1 & H2 & H3).
      split; [exact Hlt|].
      destruct (Hlook' c m Em) as (m' & Em' & Hsm & Hem).
      exists m'. split; [exact Em'|]. rewrite Hsx, Hex, Hsm, Hem.
      repeat split; auto.
    + split; [exact Hpa|].
      destruct (Hlook' a n Ha) as (n' & En' & Hsn & Hen).
      exists n'. split; [exact En'|]. rewrite Hsx, Hex, Hsn, Hen.
      split; [exact (Hstart y Hy)|]. split; [|auto].
      intros Hopen. exfalso. apply Hopen.
      destruct (Ho p Hp) as (y' & Hy' & He' & _).
      rewrite Hy in Hy'. injection Hy' as <-. exact He'.
  - exact Hs.
  - rewrite length_alter. exact Hr.
  - exact Hi.
Qed.

(** Pushing the frame of the dict at [a], which is open, newer than every
    frame on the stack, and the child of open dicts only. *)
Lemma Inv_push_frame la lo h roots stk imp a n sb :
  Inv la lo h roots stk imp ->
  h !! a = Some n -> h_end_line n = h_start_line n -> h_start_line n <= lo ->
  Forall (fun x => x < a) (addrs stk) ->
  (forall p m, h !! p = Some m -> In a (h_nodes m) -> In p (addrs stk)) ->
  Inv la lo h roots ({| f_node := a; start_balance := sb |} :: stk) imp.
Proof.
  intros [Hl Ho Hc Hs Hr Hi] Ha He Hlo Hgt Hparent. split; auto.
  - intros i [<-|Hin]; [exists n; auto | auto].
  - intros p m c Hp Hin.
    destruct (Hc p m c Hp Hin) as (Hlt & m' & Em & H1 & H2 & H3).
    split; [exact Hlt|]. exists m'. repeat split; auto.
    intros [<-|Hcs]; right; [eapply Hparent; eauto | auto].
  - cbn. constructor; [exact Hs|].
    eapply Forall_impl; [exact Hgt|]. intros x Hx. cbn in Hx. lia.
Qed.

(** Attaching a new dict, created on line [L], to the innermost open dict
    (or to the roots) and pushing its frame. *)
Lemma Inv_push la lo L h roots stk imp b line n :
  Inv la lo h roots stk imp -> lo < L -> la <= L ->
  h_start_line n = L -> h_end_line n = L -> h_nodes n = [] ->
  Inv L L (push_node h roots stk b line n).1.1
          (push_node h roots stk b line n).1.2
          (push_node h roots stk b line n).2 imp.
Proof.
  intros HI HloL HlaL Hs He Hnil.
  assert (Hgt : Forall (fun x => x < length h) (addrs stk)).
  { rewrite List.Forall_forall. intros a Ha.
    exact (stack_in_range _ _ _ _ _ _ a HI Ha). }
  assert (HI1 : Inv L lo (h ++ [n]) roots stk imp).
  { apply (Inv_imports _ _ _ _ _ None).
    - apply Inv_alloc with (imp := imp);
        [eapply Inv_mono; eauto | lia | lia | exact Hnil].
    - intros s e H. destruct (inv_imports _ _ _ _ _ _ HI s e H). lia. }
  assert (Hnew : (h ++ [n]) !! length h = Some n).
  { apply list_lookup_middle. reflexivity. }
  assert (Hnochild : forall p m, (h ++ [n]) !! p = Some m ->
                                 ~ In (length h) (h_nodes m)).
  { intros p m Hp Hin. apply lookup_snoc_Some in Hp as [[_ Hp]|[_ <-]].
    - pose proof (child_in_range _ _ _ _ _ _ _ _ _ HI Hp Hin). lia.
    - rewrite Hnil in Hin. destruct Hin. }
  unfold push_node. destruct stk as [|top rest]; cbn [fst snd].
  - apply Inv_mono with (la := L) (lo := L); [|lia|lia].
    apply Inv_push_frame with (n := n).
    + apply Inv_add_root.
      * eapply Inv_mono; [exact HI1|lia|lia].
      * rewrite length_app. cbn. lia.
    + exact Hnew.
    + lia.
    + lia.
    + constructor.
    + intros p m Hp Hin. exfalso. eapply Hnochild; eauto.
  - assert (Htop : f_node top < length h).
    { apply (stack_in_range _ _ _ _ _ _ _ HI). left. reflexivity. }
    assert (HI2 : Inv L lo (alter (fun m => add_child m (length h))
                                  (f_node top) (h ++ [n]))
                      roots (top :: rest) imp).
    { apply Inv_add_child with (n := n).
      - exact HI1.
      - left. reflexivity.
      - exact Htop.
      - exact Hnew.
      - intros m Hm. rewrite lookup_app_l in Hm by exact Htop.
        destruct (inv_open _ _ _ _ _ _ HI (f_node top) (or_introl eq_refl))
          as (m' & Em' & _ & Hlo).
        rewrite Hm in Em'. injection Em' as <-. lia. }
    rewrite alter_app_l in HI2 by exact Htop.
    apply Inv_mono with (la := L) (lo := L); [|lia|lia].
    apply Inv_push_frame with (n := n).
    + eapply Inv_mono; [exact HI2|lia|lia].
    + rewrite lookup_app_r by (rewrite length_alter; lia).
      rewrite length_alter, Nat.sub_diag. reflexivity.
    + lia.
    + lia.
    + exact Hgt.
    + intros p m Hp Hin.
      destruct (decide (p = f_node top)) as [->|Hne]; [left; reflexivity|].
      exfalso. rewrite <- alter_app_l in Hp by exact Htop.
      rewrite list_lookup_alter_ne in Hp by congruence.
      eapply Hnochild; eauto.
Qed.

Lemma Inv_note_import L st :
  Inv L L (heap st) (st_nodes st) (stack st) (import_lines st) ->
  Inv (S L) (S L) (heap (note_import st (S L))) (st_nodes (note_import st (S L)))
      (stack (note_import st (S L))) (import_lines (note_import st (S L))).
Proof.
  intros HI. cbn. apply (Inv_imports _ _ _ _ _ None).
  - apply Inv_no_imports with (imp := import_lines st).
    eapply Inv_mono; [exact HI|lia|lia].
  - intros s e H. destruct (import_lines st) as [[s0 e0]|] eqn:E.
    + injection H as <- <-.
      destruct (inv_imports _ _ _ _ _ _ HI s0 e0 eq_refl). lia.
    + injection H as <- <-. lia.
Qed.

(** One line of the scan keeps the invariant. *)
Lemma Inv_step L st line :
  Inv L L (heap st) (st_nodes st) (stack st) (import_lines st) ->
  let st' := step st (S L) line in
  Inv (S L) (S L) (heap st') (st_nodes st') (stack st') (import_lines st').
Proof.
  intros HI. unfold step. cbv zeta.
  destruct (is_import (py_strip line)); [apply Inv_note_import; exact HI|].
  match goal with
  | |- context [if ?c then flush_imports st else st] =>
      set (st1 := if c then flush_imports st else st)
  end.
  assert (HI1 : Inv L L (heap st1) (st_nodes st1) (stack st1) (import_lines st1)).
  { unfold st1. destruct (_ && _); [apply Inv_flush|]; exact HI. }
  clearbody st1.
  set (b := (current_brace_balance st1 + count_braces line)%Z).
  pose proof (Inv_close_scopes (S L) b _ _ _ _ _ _ HI1 ltac:(lia) ltac:(lia)) as HI2.
  destruct (close_scopes (heap st1) (stack st1) b (S L)) as [h stk].
  cbn [fst snd] in HI2.
  destruct (new_node _ _ _ _ _) as [n|] eqn:En.
  - pose proof (Inv_push _ _ (S L) _ _ _ _ b line n HI2 ltac:(lia) ltac:(lia)) as HI3.
    destruct (push_node h (st_nodes st1) stk b line n) as [[h' roots'] stk'].
    cbn. apply HI3.
    all: unfold new_node in En;
      destruct (search_class line); [injection En as <-; reflexivity|];
      destruct (search_fun line); [injection En as <-; reflexivity|discriminate].
  - cbn. eapply Inv_mono; eauto.
Qed.

Lemma Inv_scan_from lines : forall L st,
  Inv L L (heap st) (st_nodes st) (stack st) (import_lines st) ->
  let st' := scan_from st (S L) lines in
  exists L', Inv L' L' (heap st') (st_nodes st') (stack st') (import_lines st').
Proof.
  induction lines as [|line rest IH]; intros L st HI; cbn.
  - exists L. exact HI.
  - apply IH. apply Inv_step. exact HI.
Qed.

Lemma Inv_scan lines :
  exists L, Inv L L (heap (scan lines)) (st_nodes (scan lines))
                (stack (scan lines)) (import_lines (scan lines)).
Proof.
  unfold scan.
  destruct (Inv_scan_from lines 0 initial Inv_initial) as (L & HI).
  exists L. apply Inv_flush. exact HI.
Qed.

End KotlinStore.

(** ** Reading the trees back from the store *)

Lemma walk_eq (f : fields) (ns : option (list node)) :
  walk (Node f ns) = Node f ns :: flat_map walk (default [] ns).
Proof.
  destruct ns as [l|]; reflexivity.
Qed.

Lemma get_nodes_some (f : fields) (l : list node) :
  get_nodes (Node f (Some l)) = l.
Proof. reflexivity. Qed.

Lemma in_walk (p n : node) :
  In p (walk n) <-> p = n \/ exists c, In c (get_nodes n) /\ In p (walk c).
Proof.
  destruct n as [f ns]. rewrite walk_eq. unfold get_nodes. cbn [nodes In].
  rewrite in_flat_map. split; intros [H|H]; auto.
Qed.

Lemma flat_map_ext_in {A B : Type} (f g : A -> list B) (l : list A) :
  (forall a, In a l -> f a = g a) -> flat_map f l = flat_map g l.
Proof.
  induction l as [|x l IH]; intros H; [reflexivity|].
  cbn. rewrite (H x (or_introl eq_refl)), IH; [reflexivity|].
  intros a Ha. apply H. right. exact Ha.
Qed.

Lemma in_walk_self (n : node) : In n (walk n).
Proof. apply in_walk. left. reflexivity. Qed.

Lemma in_walk_forest (p : node) (l : list node) :
  In p (walk_forest l) <-> exists n, In n l /\ In p (walk n).
Proof. unfold walk_forest. apply in_flat_map. Qed.

Lemma walk_forest_app (l1 l2 : list node) :
  walk_forest (l1 ++ l2) = walk_forest l1 ++ walk_forest l2.
Proof. unfold walk_forest. apply flat_map_app. Qed.

Section KotlinTrees.
Import Kotlin.

Lemma build_S (fuel : nat) (h : list hnode) (a : nat) :
  build (S fuel) h a
  = match h !! a with
    | Some n => [Node (kfields n) (Some (flat_map (build fuel h) (h_nodes n)))]
    | None => []
    end.
Proof. reflexivity. Qed.

(** What [build] returns is the dict at that address, with the trees of
    its children. *)
Lemma in_build (fuel : nat) (h : list hnode) (a : nat) (t : node) :
  In t (build fuel h a) ->
  exists n fuel', h !! a = Some n /\ fuel = S fuel'
    /\ t = Node (kfields n) (Some (flat_map (build fuel' h) (h_nodes n))).
Proof.
  destruct fuel as [|fuel]; [intros []|]. rewrite build_S.
  destruct (h !! a) as [n|]; [|intros []].
  intros [<-|[]]. exists n, fuel. auto.
Qed.

(** Enough fuel: more of it builds the same trees. *)
Lemma build_fuel (h : list hnode) :
  (forall p n c, h !! p = Some n -> In c (h_nodes n) -> p < c) ->
  forall fuel a k, length h <= a + fuel ->
    build (fuel + k) h a = build fuel h a.
Proof.
  intros Hchild. induction fuel as [|fuel IH]; intros a k Hlen.
  - assert (Hnone : h !! a = None) by (apply lookup_ge_None; lia).
    destruct k; cbn; [reflexivity|]. rewrite Hnone. reflexivity.
  - cbn [Nat.add]. rewrite !build_S.
    destruct (h !! a) as [n|] eqn:E; [|reflexivity].
    do 3 f_equal. apply flat_map_ext_in. intros c Hc.
    apply IH. pose proof (Hchild a n c E Hc). lia.
Qed.

Lemma forest_fuel_enough (st : state) (la lo : nat) (k : nat) :
  Inv la lo (heap st) (st_nodes st) (stack st) (import_lines st) ->
  flat_map (build (length (heap st) + k) (heap st)) (st_nodes st) = forest st.
Proof.
  intros HI. unfold forest. apply flat_map_ext_in. intros a _.
  apply build_fuel; [|lia].
  intros p n c Hp Hc.
  destruct (inv_child _ _ _ _ _ _ HI p n c Hp Hc) as [Hlt _]. exact Hlt.
Qed.

(** The ranges in the trees are those in the store. *)
Lemma build_ranges la lo (h : list hnode) roots stk imp :
  Inv la lo h roots stk imp ->
  forall fuel a t, In t (build fuel h a) ->
  forall p, In p (walk t) ->
    well_ranged p
    /\ forall c, In c (get_nodes p) ->
         start_of p < start_of c /\ (start_of p < end_of p -> within c p).
Proof.
  intros HI. induction fuel as [|fuel IH]; intros a t Ht p Hp; [destruct Ht|].
  destruct (in_build _ _ _ _ Ht) as (n & fuel' & En & Hf & ->).
  injection Hf as <-.
  apply in_walk in Hp as [->|(c & Hc & Hp)].
  - split.
    + exists (h_start_line n), (h_end_line n).
      destruct (inv_lines _ _ _ _ _ _ HI a n En). auto.
    + intros c. rewrite get_nodes_some, in_flat_map. intros (a' & Ha' & Hc).
      destruct (in_build _ _ _ _ Hc) as (m & fuel' & Em & _ & ->).
      destruct (inv_child _ _ _ _ _ _ HI a n a' En Ha')
        as (_ & m' & Em' & Hs & He & _).
      rewrite Em in Em'. injection Em' as <-.
      unfold within, start_of, end_of. cbn. split; [exact Hs|].
      intros Hclosed. split; [lia|]. apply He. lia.
  - rewrite get_nodes_some, in_flat_map in Hc. destruct Hc as (a' & _ & Hc).
    eapply IH; eauto.
Qed.

(** The forest that the scanner returns, for any input. *)
Lemma kotlin_ranges (code_content : string) (lines : list string) :
  ranges_nested_when_closed (extract_nodes_from_kotlin code_content lines).
Proof.
  intros p Hp. unfold extract_nodes_from_kotlin, forest in Hp.
  apply in_walk_forest in Hp as (t & Ht & Hp).
  apply in_flat_map in Ht as (a & _ & Ht).
  destruct (Inv_scan lines) as (L & HI).
  eapply build_ranges; eauto.
Qed.

End KotlinTrees.

(** ** Line ranges of the parser-based extractors *)

Lemma ranges_nested_app (l1 l2 : list node) :
  ranges_nested l1 -> ranges_nested l2 -> ranges_nested (l1 ++ l2).
Proof.
  intros H1 H2 p Hp. rewrite walk_forest_app in Hp.
  apply in_app_or in Hp as [Hp|Hp]; auto.
Qed.

Lemma ranges_nested_nil : ranges_nested [].
Proof. intros p []. Qed.

Lemma ranges_nested_flat_map {A : Type} (g : A -> list node) (l : list A) :
  (forall x, In x l -> ranges_nested (g x)) -> ranges_nested (flat_map g l).
Proof.
  intros H p Hp. apply in_walk_forest in Hp as (n & Hn & Hp).
  apply in_flat_map in Hn as (x & Hx & Hn).
  apply (H x Hx). apply in_walk_forest. eauto.
Qed.

(** A dict with a good range, whose children lie within it and are roots
    of nested forests. *)
Lemma ranges_nested_node (f : fields) (children : list node) (s e : nat) :
  start_line f = Some s -> end_line f = Some e -> s <= e ->
  (forall c, In c children -> s <= start_of c /\ end_of c <= e) ->
  ranges_nested children ->
  ranges_nested [Node f (Some children)].
Proof.
  intros Hs He Hle Hin Hnest p Hp.
  apply in_walk_forest in Hp as (n & [<-|[]] & Hp).
  apply in_walk in Hp as [->|(c & Hc & Hp)].
  - split; [exists s, e; auto|].
    intros c Hc. rewrite get_nodes_some in Hc.
    unfold within, start_of, end_of. cbn [attrs]. rewrite Hs, He. cbn.
    apply Hin. exact Hc.
  - rewrite get_nodes_some in Hc. apply Hnest.
    apply in_walk_forest. eauto.
Qed.

Section PythonRanges.
Import Python.

Lemma stmt_ind' (P : stmt -> Prop) :
  (forall name l e d body, Forall P body -> P (ClassDef name l e d body)) ->
  (forall a name l e ar r d body, Forall P body ->
     P (FunctionDef a name l e ar r d body)) ->
  (forall u l e, P (Import u l e)) ->
  (forall l e c, P (Expr l e c)) ->
  (forall l e, P (OtherStmt l e)) ->
  forall s, P s.
Proof.
  intros Hc Hf Hi He Ho. fix IH 1.
  intros [name l e d body|a name l e ar r d body|u l e|l e c|l e].
  - apply Hc. induction body as [|x body IHb]; constructor; [apply IH|exact IHb].
  - apply Hf. induction body as [|x body IHb]; constructor; [apply IH|exact IHb].
  - apply Hi.
  - apply He.
  - apply Ho.
Qed.

(** The dict of a statement carries the statement's own positions. *)
Lemma py_node_range (s : stmt) (pt : option kind) (n : node) :
  process_node s pt = Some n ->
  start_of n = lineno s /\ end_of n = import_end s.
Proof.
  destruct s; cbn; intros H; try discriminate; injection H as <-; auto.
Qed.

Lemma py_children_nested (l e : nat) (pt : option kind) (body : list stmt) :
  Forall (fun s => forall pt n, py_positions_ok s = true ->
                     process_node s pt = Some n -> ranges_nested [n]) body ->
  forallb (fun c => (l <=? lineno c)%nat && (import_end c <=? e)%nat
                    && py_positions_ok c) body = true ->
  (forall c, In c (flat_map (fun child => option_list (process_node child pt)) body) ->
     l <= start_of c /\ end_of c <= e)
  /\ ranges_nested (flat_map (fun child => option_list (process_node child pt)) body).
Proof.
  intros IH Hok. rewrite forallb_forall in Hok. rewrite List.Forall_forall in IH.
  split.
  - intros c Hc. apply in_flat_map in Hc as (s & Hs & Hc).
    destruct (process_node s pt) as [n|] eqn:En; [|destruct Hc].
    destruct Hc as [<-|[]].
    destruct (py_node_range _ _ _ En) as [-> ->].
    specialize (Hok s Hs). apply andb_prop in Hok as [Hok _].
    apply andb_prop in Hok as [H1 H2].
    apply Nat.leb_le in H1, H2. lia.
  - apply ranges_nested_flat_map. intros s Hs.
    destruct (process_node s pt) as [n|] eqn:En; [|apply ranges_nested_nil].
    apply (IH s Hs pt n); [|exact En].
    specialize (Hok s Hs). apply andb_prop in Hok as [_ Hok]. exact Hok.
Qed.

Lemma py_process_ranges (s : stmt) : forall pt n,
  py_positions_ok s = true -> process_node s pt = Some n -> ranges_nested [n].
Proof.
  induction s as [name l e d body IH|a name l e ar r d body IH|u l e|l e c|l e]
    using stmt_ind'; intros pt n Hok Hn; cbn in Hn; try discriminate.
  - injection Hn as <-. cbn [py_positions_ok] in Hok.
    apply andb_prop in Hok as [Hle Hbody]. apply Nat.leb_le in Hle.
    destruct (py_children_nested l e (Some class) body IH Hbody) as [Hin Hnest].
    eapply ranges_nested_node; eauto; reflexivity.
  - injection Hn as <-. cbn [py_positions_ok] in Hok.
    apply andb_prop in Hok as [Hle Hbody]. apply Nat.leb_le in Hle.
    destruct (py_children_nested l e (Some function) body IH Hbody) as [Hin Hnest].
    eapply ranges_nested_node; eauto; reflexivity.
Qed.

Lemma py_positions_le (s : stmt) :
  py_positions_ok s = true -> lineno s <= import_end s.
Proof.
  destruct s; cbn; intros H; try (apply andb_prop in H as [H _]);
    apply Nat.leb_le in H; exact H.
Qed.

Lemma last_default_irrelevant {A : Type} (l : list A) : forall (x d d' : A),
  List.last (x :: l) d = List.last (x :: l) d'.
Proof.
  induction l as [|y l IH]; intros x d d'; [reflexivity|].
  change (List.last (y :: l) d = List.last (y :: l) d'). apply IH.
Qed.

Lemma last_cons_nonempty {A : Type} (x y d : A) (l : list A) :
  List.last (x :: y :: l) d = List.last (y :: l) y.
Proof.
  change (List.last (y :: l) d = List.last (y :: l) y).
  apply last_default_irrelevant.
Qed.

(** In a run of statements in source order, every statement lies between
    the first line of the first and the last line of the last. *)
Lemma py_run_bounds (run : list stmt) : forall first,
  py_in_source_order (first :: run) = true ->
  (forall x, In x (first :: run) -> lineno x <= import_end x) ->
  forall x, In x (first :: run) ->
    lineno first <= lineno x
    /\ import_end x <= import_end (List.last (first :: run) first).
Proof.
  induction run as [|s run IH]; intros first Hord Hle x Hx.
  - destruct Hx as [<-|[]]. cbn. split; lia.
  - rewrite last_cons_nonempty.
    cbn [py_in_source_order] in Hord. apply andb_prop in Hord as [H1 Hord].
    apply Nat.leb_le in H1.
    assert (Hle' : forall x, In x (s :: run) -> lineno x <= import_end x).
    { intros y Hy. apply Hle. right. exact Hy. }
    pose proof (Hle first (or_introl eq_refl)) as Hf.
    pose proof (IH s Hord Hle' s (or_introl eq_refl)) as [_ Hs].
    pose proof (Hle' s (or_introl eq_refl)) as Hss.
    destruct Hx as [<-|Hx].
    + split; lia.
    + destruct (IH s Hord Hle' x Hx) as [Hx1 Hx2]. split; lia.
Qed.

Lemma py_imports_node_ranges (current_imports : list stmt) :
  forallb py_positions_ok current_imports = true ->
  py_in_source_order current_imports = true ->
  ranges_nested (imports_node current_imports).
Proof.
  intros Hok Hord. destruct current_imports as [|first run];
    [apply ranges_nested_nil|].
  rewrite forallb_forall in Hok.
  assert (Hle : forall x, In x (first :: run) -> lineno x <= import_end x).
  { intros x Hx. apply py_positions_le. apply Hok. exact Hx. }
  pose proof (py_run_bounds run first Hord Hle) as Hb.
  cbn [imports_node].
  eapply ranges_nested_node; try reflexivity.
  - destruct (Hb first (or_introl eq_refl)) as [_ H].
    pose proof (Hle first (or_introl eq_refl)). lia.
  - intros c Hc. apply in_map_iff in Hc as (imp & <- & Himp).
    unfold start_of, end_of. cbn. apply Hb. exact Himp.
  - intros p Hp. apply in_walk_forest in Hp as (c & Hc & Hp).
    apply in_map_iff in Hc as (imp & <- & Himp).
    apply in_walk in Hp as [->|(c' & Hc' & _)]; [|destruct Hc'].
    split; [|intros c' []].
    exists (lineno imp), (import_end imp). repeat split. apply Hle. exact Himp.
Qed.

Lemma py_in_source_order_app (l1 l2 : list stmt) :
  py_in_source_order (l1 ++ l2) = true ->
  py_in_source_order l1 = true /\ py_in_source_order l2 = true.
Proof.
  induction l1 as [|s l1 IH]; intros H; [auto|].
  cbn [app py_in_source_order] in H. apply andb_prop in H as [H1 H2].
  destruct (IH H2) as [Ha Hb]. split; [|exact Hb].
  cbn [py_in_source_order]. rewrite Ha, andb_true_r.
  destruct l1 as [|s' l1]; [reflexivity|exact H1].
Qed.

Lemma py_top_level_ranges (body : list stmt) : forall current_imports nodes,
  ranges_nested nodes ->
  forallb py_positions_ok current_imports = true ->
  forallb py_positions_ok body = true ->
  py_in_source_order (current_imports ++ body) = true ->
  ranges_nested (top_level body current_imports nodes).
Proof.
  induction body as [|s rest IH]; intros ci nodes Hn Hci Hbody Hord.
  - cbn. rewrite app_nil_r in Hord.
    apply ranges_nested_app; [exact Hn|].
    apply py_imports_node_ranges; assumption.
  - cbn [forallb] in Hbody. apply andb_prop in Hbody as [Hs Hrest].
    cbn [top_level]. destruct (is_import s).
    + apply IH; auto.
      * rewrite forallb_app, Hci. cbn. rewrite Hs. reflexivity.
      * rewrite <- app_assoc. exact Hord.
    + destruct (py_in_source_order_app _ _ Hord) as [Ho1 Ho2].
      apply IH; auto.
      * apply ranges_nested_app; [exact Hn|].
        apply ranges_nested_app; [apply py_imports_node_ranges; assumption|].
        destruct (process_node s None) as [n|] eqn:En; [|apply ranges_nested_nil].
        eapply py_process_ranges; eauto.
      * cbn [py_in_source_order] in Ho2. apply andb_prop in Ho2 as [_ Ho2].
        exact Ho2.
Qed.

Lemma python_ranges (ast_parse : string -> option (list stmt))
    (code_content : string) (lines : list string) :
  (forall body, ast_parse code_content = Some body -> py_module_ok body = true) ->
  ranges_nested (extract_nodes_from_python ast_parse code_content lines).
Proof.
  intros Hok. unfold extract_nodes_from_python.
  destruct (ast_parse code_content) as [body|]; [|apply ranges_nested_nil].
  specialize (Hok body eq_refl). apply andb_prop in Hok as [H1 H2].
  apply py_top_level_ranges; auto. apply ranges_nested_nil.
Qed.

End PythonRanges.

Lemma ranges_ordered_app (l1 l2 : list node) :
  ranges_ordered l1 -> ranges_ordered l2 -> ranges_ordered (l1 ++ l2).
Proof.
  intros H1 H2 p Hp. rewrite walk_forest_app in Hp.
  apply in_app_or in Hp as [Hp|Hp]; auto.
Qed.

Lemma ranges_ordered_flat_map {A : Type} (g : A -> list node) (l : list A) :
  (forall x, In x l -> ranges_ordered (g x)) -> ranges_ordered (flat_map g l).
Proof.
  intros H p Hp. apply in_walk_forest in Hp as (n & Hn & Hp).
  apply in_flat_map in Hn as (x & Hx & Hn).
  apply (H x Hx). apply in_walk_forest. eauto.
Qed.

Lemma ranges_ordered_node (f : fields) (children : list node) (s e : nat) :
  start_line f = Some s -> end_line f = Some e -> s <= e ->
  ranges_ordered children ->
  ranges_ordered [Node f (Some children)].
Proof.
  intros Hs He Hle Hnest p Hp.
  apply in_walk_forest in Hp as (n & [<-|[]] & Hp).
  apply in_walk in Hp as [->|(c & Hc & Hp)].
  - exists s, e. auto.
  - rewrite get_nodes_some in Hc. apply Hnest.
    apply in_walk_forest. eauto.
Qed.

Section JavaRanges.
Import Java.

Lemma member_ind' (P : member -> Prop) :
  (forall k name pos doc ann body, Forall P body ->
     P (TypeDeclaration k name pos doc ann body)) ->
  (forall c name pos ps r doc ann body,
     P (MethodDeclaration c name pos ps r doc ann body)) ->
  P OtherMember ->
  forall m, P m.
Proof.
  intros Ht Hm Ho. fix IH 1.
  intros [k name pos doc ann body|c name pos ps r doc ann body|].
  - apply Ht. induction body as [|x body IHb]; constructor; [apply IH|exact IHb].
  - apply Hm.
  - apply Ho.
Qed.

Lemma java_method_end (position : option nat) (body : option (list (option nat))) :
  match body with
  | Some statements =>
      match List.last statements None with
      | Some line => (get_line_range position <=? line)%nat
      | None => true
      end
  | None => true
  end = true ->
  get_line_range position <= method_end_line (get_line_range position) body.
Proof.
  unfold method_end_line. destruct body as [[|s l]|]; intros H; try lia.
  destruct (List.last (s :: l) None) as [line|]; [|lia].
  apply Nat.leb_le in H. lia.
Qed.

Lemma java_process_ordered (m : member) : forall pt n,
  java_positions_ok m = true -> process_node m pt = Some n ->
  ranges_ordered [n].
Proof.
  induction m as [k name pos doc ann body IH|c name pos ps r doc ann body|]
    using member_ind'; intros pt n Hok Hn; cbn in Hn; try discriminate.
  - injection Hn as <-. cbn [java_positions_ok] in Hok.
    rewrite forallb_forall in Hok. rewrite List.Forall_forall in IH.
    eapply ranges_ordered_node; try reflexivity.
    + lia.
    + apply ranges_ordered_flat_map. intros x Hx.
      destruct (process_node x (Some (node_type_of k))) as [c|] eqn:Ec;
        [|intros p []].
      eapply IH; eauto.
  - injection Hn as <-.
    eapply ranges_ordered_node; try reflexivity.
    + apply java_method_end. destruct body; exact Hok.
    + intros p [].
Qed.

Lemma java_ranges (javalang_parse : string -> option compilation_unit)
    (code_content : string) (lines : list string) :
  (forall tree, javalang_parse code_content = Some tree ->
     java_unit_ok tree = true) ->
  ranges_ordered (extract_nodes_from_java javalang_parse code_content lines).
Proof.
  intros Hok. unfold extract_nodes_from_java.
  destruct (javalang_parse code_content) as [tree|]; [|intros p []].
  specialize (Hok tree eq_refl). apply andb_prop in Hok as [Htypes Himports].
  unfold nodes_of_unit. apply ranges_ordered_app.
  - unfold imports_node. destruct (cu_imports tree) as [|first rest];
      [intros p []|].
    apply Nat.leb_le in Himports.
    eapply ranges_ordered_node; try reflexivity; [exact Himports|intros p []].
  - rewrite forallb_forall in Htypes.
    apply ranges_ordered_flat_map. intros t Ht.
    destruct (process_node t None) as [c|] eqn:Ec; [|intros p []].
    eapply java_process_ordered; eauto.
Qed.

End JavaRanges.

Section CppRanges.
Import Cpp.

Lemma ts_node_ind' (P : ts_node -> Prop) :
  (forall t s e d n children, Forall P children ->
     P (TsNode t s e d n children)) ->
  forall ts, P ts.
Proof.
  intros H. fix IH 1. intros [t s e d n children]. apply H.
  induction children as [|x l IHl]; constructor; [apply IH|exact IHl].
Qed.

(** What a CST node yields is nested and stays within the node's span. *)
Lemma cpp_process_ranges (ts : ts_node) : forall pt,
  cst_spans_ok ts = true ->
  ranges_nested (as_list (process_node ts pt))
  /\ forall r, In r (as_list (process_node ts pt)) ->
       ts_start_row ts + 1 <= start_of r /\ end_of r <= ts_end_row ts + 1.
Proof.
  induction ts as [t s e d n children IH] using ts_node_ind'.
  intros pt Hok. cbn [cst_spans_ok] in Hok.
  apply andb_prop in Hok as [Hle Hchildren]. apply Nat.leb_le in Hle.
  rewrite forallb_forall in Hchildren. rewrite List.Forall_forall in IH.
  assert (Hsub : forall pt',
            ranges_nested (cpp_results children pt')
            /\ forall r, In r (cpp_results children pt') ->
                 s + 1 <= start_of r /\ end_of r <= e + 1).
  { intros pt'. split.
    - apply ranges_nested_flat_map. intros c Hc.
      specialize (Hchildren c Hc). apply andb_prop in Hchildren as [_ Hc'].
      apply (IH c Hc pt' Hc').
    - intros r Hr. apply in_flat_map in Hr as (c & Hc & Hr).
      specialize (Hchildren c Hc). apply andb_prop in Hchildren as [Hspan Hc'].
      apply andb_prop in Hspan as [H1 H2]. apply Nat.leb_le in H1, H2.
      destruct (IH c Hc pt' Hc') as [_ Hin]. specialize (Hin r Hr). lia. }
  cbn [process_node ts_start_row ts_end_row].
  destruct (mapped_type t pt) as [mapped|].
  - destruct (Hsub (Some mapped)) as [Hnest Hin].
    cbn [get_line_range as_list]. split.
    + eapply ranges_nested_node; try reflexivity; [lia|exact Hin|exact Hnest].
    + intros r [<-|[]]. unfold start_of, end_of. cbn. lia.
  - cbn [as_list]. apply Hsub.
Qed.

Lemma cpp_ranges (ts_parse : string -> string -> option ts_node)
    (code_content : string) (lines : list string) (lang : string) :
  (forall root_node, ts_parse lang code_content = Some root_node ->
     cst_spans_ok root_node = true) ->
  ranges_nested (extract_nodes_from_cpp ts_parse code_content lines lang).
Proof.
  intros Hok. unfold extract_nodes_from_cpp.
  destruct (negb _); [apply ranges_nested_nil|].
  destruct (ts_parse lang code_content) as [root|]; [|apply ranges_nested_nil].
  apply cpp_process_ranges. apply Hok. reflexivity.
Qed.

End CppRanges.

(** ** C2: line ranges *)

(** C2, counterexample.  On the two lines [class Foo {] and [fun bar() {]
    the scanner returns the class with the range 1..1 and, as its child, the
    method with the range 2..2: neither scope is closed before the input
    ends, so both keep the [end_line] they were created with, and the
    child's range is not within the parent's. *)
Lemma kotlin_unclosed_scope_counterexample :
  exists p c,
    Kotlin.extract_nodes_from_kotlin EmptyString unclosed_kotlin = [p]
    /\ get_nodes p = [c]
    /\ (type (attrs p), start_of p, end_of p) = (class, 1, 1)
    /\ (type (attrs c), start_of c, end_of c) = (method, 2, 2)
    /\ ~ within c p
    /\ ~ ranges_nested (Kotlin.extract_nodes_from_kotlin EmptyString unclosed_kotlin).
Proof.
  do 2 eexists.
  split; [vm_compute; reflexivity|].
  split; [reflexivity|]. split; [reflexivity|]. split; [reflexivity|].
  split.
  - unfold within, start_of, end_of. cbn. lia.
  - intros H.
    match type of H with
    | ranges_nested ?forest =>
        assert (E : forest
                    = [Node (code_fields "Foo" class 1 1 None None None)
                            (Some [Node (code_fields "bar()" method 2 2
                                                     (Some "fun bar()") None None)
                                        (Some [])])])
          by (vm_compute; reflexivity);
        rewrite E in H
    end.
    destruct (H _ (or_introl eq_refl)) as [_ Hc].
    specialize (Hc _ (or_introl eq_refl)).
    unfold within, start_of, end_of in Hc. cbn in Hc. lia.
Qed.

(** C2, amended.  Every dict an extractor returns has
    [start_line <= end_line], and for the Python and C/C++ extractors the
    range of every child lies within the range of its parent, provided the
    positions the parser reports are the right way round and nested (and,
    for Java, the last statement of a method and the last import are not
    above the method and the first import).  For the Kotlin scanner, on
    every input, a child starts below the line of its parent, and its range
    lies within the parent's whenever the parent's scope was closed, which
    shows as the parent's [end_line] being past its [start_line]. *)
Theorem extractor_line_ranges
    (ast_parse : string -> option (list Python.stmt))
    (javalang_parse : string -> option Java.compilation_unit)
    (ts_parse : string -> string -> option Cpp.ts_node) :
  (forall code body, ast_parse code = Some body -> py_module_ok body = true) ->
  (forall code tree, javalang_parse code = Some tree -> java_unit_ok tree = true) ->
  (forall lang code root, ts_parse lang code = Some root ->
     cst_spans_ok root = true) ->
  forall (code_content : string) (lines : list string) (lang : string),
    ranges_nested (Python.extract_nodes_from_python ast_parse code_content lines)
    /\ ranges_ordered (Java.extract_nodes_from_java javalang_parse code_content lines)
    /\ ranges_nested (Cpp.extract_nodes_from_cpp ts_parse code_content lines lang)
    /\ ranges_nested_when_closed
         (Kotlin.extract_nodes_from_kotlin code_content lines).
Proof.
  intros Hpy Hjava Hcpp code_content lines lang.
  split; [|split; [|split]].
  - apply python_ranges. apply Hpy.
  - apply java_ranges. apply Hjava.
  - apply cpp_ranges. apply Hcpp.
  - apply kotlin_ranges.
Qed.

Lemma extractor_line_ranges_witness :
  ranges_nested
    (Python.extract_nodes_from_python (fun _ => Some sample_python)
       EmptyString ["class Foo {"; "}"])
  /\ ranges_ordered
       (Java.extract_nodes_from_java (fun _ => Some sample_java)
          EmptyString ["class Foo {"; "}"])
  /\ ranges_nested
       (Cpp.extract_nodes_from_cpp (fun _ _ => Some sample_namespace)
          EmptyString ["class Foo {"; "}"] "cpp")
  /\ ranges_nested_when_closed
       (Kotlin.extract_nodes_from_kotlin EmptyString ["class Foo {"; "}"]).
Proof.
  apply (extractor_line_ranges (fun _ => Some sample_python)
           (fun _ => Some sample_java) (fun _ _ => Some sample_namespace)).
  - intros code body H. injection H as <-. reflexivity.
  - intros code tree H. injection H as <-. reflexivity.
  - intros lang code root H. injection H as <-. reflexivity.
Defined.

(** ** C10: one dict per line, the class-like match first *)

Section KotlinTypes.
Import Kotlin.

Lemma store_types_alter (g : hnode -> hnode) (a : nat) (h : list hnode) :
  (forall n, h_type (g n) = h_type n) ->
  store_types (alter g a h) = store_types h.
Proof.
  intros Hg. unfold store_types. revert a.
  induction h as [|n h IH]; intros [|a]; cbn; try reflexivity.
  - rewrite Hg. reflexivity.
  - f_equal. apply IH.
Qed.

Lemma store_types_close_scopes (balance : Z) (line_num : nat) :
  forall stk h,
    store_types (fst (close_scopes h stk balance line_num)) = store_types h.
Proof.
  induction stk as [|top rest IH]; intros h; cbn; [reflexivity|].
  destruct (_ <=? _)%Z; [|reflexivity].
  rewrite IH. apply store_types_alter. reflexivity.
Qed.

Lemma store_types_push (h : list hnode) (roots : list nat) (stk : list frame)
    (balance : Z) (line : string) (n : hnode) :
  store_types (push_node h roots stk balance line n).1.1
  = store_types h ++ [h_type n].
Proof.
  unfold push_node. destruct stk as [|top rest]; cbn [fst].
  - unfold store_types. rewrite map_app. reflexivity.
  - unfold store_types. rewrite map_app. cbn. f_equal.
    apply store_types_alter. reflexivity.
Qed.

Lemma store_types_flush (st : state) :
  store_types (heap (flush_imports st))
  = store_types (heap st)
    ++ match import_lines st with Some _ => [imports] | None => [] end.
Proof.
  unfold flush_imports. destruct (import_lines st) as [[s e]|]; cbn.
  - unfold store_types. rewrite map_app. reflexivity.
  - rewrite app_nil_r. reflexivity.
Qed.

(** The dicts created by a line that is no import: the pending imports
    dict when the line flushes it, then the dict of the declaration. *)
Lemma store_types_step (st : state) (line_num : nat) (line : string) :
  is_import (py_strip line) = false ->
  exists (created_imports : list kind) (top : option kind),
    (created_imports = [] \/ created_imports = [imports])
    /\ store_types (heap (step st line_num line))
       = store_types (heap st) ++ created_imports
         ++ match new_node (search_class line) (search_fun line) line
                           line_num top with
            | Some n => [h_type n]
            | None => []
            end.
Proof.
  intros Himport. unfold step. rewrite Himport. cbv zeta.
  match goal with
  | |- context [if ?c then flush_imports st else st] =>
      set (st1 := if c then flush_imports st else st)
  end.
  assert (H1 : exists created, (created = [] \/ created = [imports])
                 /\ store_types (heap st1) = store_types (heap st) ++ created).
  { unfold st1. destruct (_ && _).
    - rewrite store_types_flush. destruct (import_lines st); eauto.
    - exists []. rewrite app_nil_r. auto. }
  destruct H1 as (created & Hcreated & H1). clearbody st1.
  set (b := (current_brace_balance st1 + count_braces line)%Z).
  pose proof (store_types_close_scopes b line_num (stack st1) (heap st1)) as H2.
  destruct (close_scopes (heap st1) (stack st1) b line_num) as [h stk].
  cbn [fst] in H2.
  exists created, (top_type h stk). split; [exact Hcreated|].
  destruct (new_node _ _ _ _ _) as [n|].
  - pose proof (store_types_push h (st_nodes st1) stk b line n) as H3.
    destruct (push_node h (st_nodes st1) stk b line n) as [[h' roots'] stk'].
    cbn [fst] in H3. cbn [heap]. rewrite H3, H2, H1, <- app_assoc. reflexivity.
  - cbn [heap]. rewrite H2, H1, app_nil_r. reflexivity.
Qed.

Lemma node_type_of_class_like (kind_type : string) :
  kind_in (node_type_of kind_type) [class; interface; object; enum] = true.
Proof.
  unfold node_type_of.
  destruct (py_in "interface" kind_type); [reflexivity|].
  destruct (py_in "enum" kind_type); [reflexivity|].
  destruct (py_in "object" kind_type); reflexivity.
Qed.

End KotlinTypes.

(** The whole scan of that line: one class, no function. *)
Example class_and_fun_line_scan :
  Kotlin.extract_nodes_from_kotlin EmptyString [class_and_fun_line]
  = [Node (code_fields "Foo" class 1 1 None None None) (Some [])].
Proof. vm_compute. reflexivity. Qed.

(** ** Blank lines and the patterns *)

Section BlankLines.
Import Re.

(** However a pattern is matched against a blank text, what is left for the
    continuation is blank; a continuation that fails on every blank text
    makes the match fail. *)
Lemma rmatch_blank {A : Type} (r : regex) :
  forall (s : list ascii) (c : caps) (k : list ascii -> caps -> option A),
    blank s ->
    (forall s' c', blank s' -> k s' c' = None) ->
    rmatch r s c k = None.
Proof.
  induction r as [|p|r1 IH1 r2 IH2|r1 IH1 r2 IH2|r1 IH1|r1 IH1|i r1 IH1];
    intros s c k Hs Hk; cbn [rmatch].
  - apply Hk. exact Hs.
  - destruct s as [|a s']; [reflexivity|].
    destruct (p a); [|reflexivity]. apply Hk.
    apply Forall_inv_tail in Hs. exact Hs.
  - apply IH1; [exact Hs|]. intros s' c' Hs'. apply IH2; assumption.
  - rewrite IH1 by assumption. apply IH2; assumption.
  - generalize (length s) at 1. intros n. revert s c Hs.
    induction n as [|n IHn]; intros s c Hs; [apply Hk; exact Hs|].
    rewrite IH1; [apply Hk; exact Hs|exact Hs|].
    intros s' c' Hs'. destruct (_ <? _)%nat; [|reflexivity].
    apply IHn. exact Hs'.
  - generalize (length s) at 1. intros n. revert s c Hs.
    induction n as [|n IHn]; intros s c Hs; [apply Hk; exact Hs|].
    rewrite (Hk s c Hs). apply IH1; [exact Hs|].
    intros s' c' Hs'. destruct (_ <? _)%nat; [|reflexivity].
    apply IHn. exact Hs'.
  - apply IH1; [exact Hs|]. intros s' c' Hs'. apply Hk. exact Hs'.
Qed.

(** A literal that opens with a visible character does not match a blank
    text, whatever follows. *)
Lemma rmatch_lit_blank {A : Type} (a : ascii) (w : list ascii)
    (s : list ascii) (c : caps) (k : list ascii -> caps -> option A) :
  is_space a = false -> blank s -> rmatch (LitChars (a :: w)) s c k = None.
Proof.
  intros Ha Hs. cbn [LitChars rmatch]. destruct s as [|b s']; [reflexivity|].
  destruct (Ascii.eqb a b) eqn:E; [|reflexivity].
  apply Ascii.eqb_eq in E. subst b.
  apply Forall_inv in Hs. congruence.
Qed.

Lemma rmatch_Lit_blank {A : Type} (a : ascii) (w : string)
    (s : list ascii) (c : caps) (k : list ascii -> caps -> option A) :
  is_space a = false -> blank s -> rmatch (Lit (String a w)) s c k = None.
Proof. apply rmatch_lit_blank. Qed.

Lemma rmatch_seq {A : Type} (r1 r2 : regex) (s : list ascii) (c : caps)
    (k : list ascii -> caps -> option A) :
  rmatch (Seq r1 r2) s c k = rmatch r1 s c (fun s' c' => rmatch r2 s' c' k).
Proof. reflexivity. Qed.

Lemma rmatch_alt {A : Type} (r1 r2 : regex) (s : list ascii) (c : caps)
    (k : list ascii -> caps -> option A) :
  rmatch (Alt r1 r2) s c k
  = match rmatch r1 s c k with
    | Some x => Some x
    | None => rmatch r2 s c k
    end.
Proof. reflexivity. Qed.

Lemma rmatch_group {A : Type} (i : nat) (r : regex) (s : list ascii) (c : caps)
    (k : list ascii -> caps -> option A) :
  rmatch (Group i r) s c k
  = rmatch r s c (fun s' c' => k s' ((i, firstn (length s - length s') s) :: c')).
Proof. reflexivity. Qed.

Lemma lstrip_chars_head (l : list ascii) (a : ascii) (r : list ascii) :
  lstrip_chars l = a :: r -> is_space a = false.
Proof.
  induction l as [|b l IH]; cbn; [discriminate|].
  destruct (is_space b) eqn:E; [exact IH|].
  intros H. injection H as <- _. exact E.
Qed.

Lemma lstrip_chars_nil (l : list ascii) : lstrip_chars l = [] -> blank l.
Proof.
  induction l as [|b l IH]; cbn; [constructor|].
  destruct (is_space b) eqn:E; [|discriminate].
  intros H. constructor; [exact E|apply IH; exact H].
Qed.

Lemma str_nil (l : list ascii) : str l = EmptyString -> l = [].
Proof. destruct l; [reflexivity|discriminate]. Qed.

(** A line that strips to the empty string is blank. *)
Lemma strip_empty_blank (line : string) :
  py_strip line = EmptyString -> blank (chars line).
Proof.
  unfold py_strip, rstrip_chars. intros H. apply str_nil in H.
  apply lstrip_chars_nil.
  destruct (lstrip_chars (chars line)) as [|a r] eqn:E; [reflexivity|].
  exfalso. pose proof (lstrip_chars_head _ _ _ E) as Ha.
  assert (Hrev : lstrip_chars (rev (a :: r)) = []).
  { destruct (lstrip_chars (rev (a :: r))); [reflexivity|].
    cbn in H. destruct (rev _); discriminate. }
  apply lstrip_chars_nil in Hrev.
  unfold blank in Hrev. rewrite List.Forall_forall in Hrev.
  specialize (Hrev a). rewrite <- in_rev in Hrev.
  specialize (Hrev (or_introl eq_refl)). congruence.
Qed.

Lemma search_class_blank (line : string) :
  py_strip line = EmptyString -> Kotlin.search_class line = None.
Proof.
  intros H. apply strip_empty_blank in H.
  unfold Kotlin.search_class, match_.
  assert (E : rmatch Kotlin.class_pattern (chars line) []
                (fun s' c' => Some (c', s')) = None).
  { unfold Kotlin.class_pattern. cbn [Seqs].
    rewrite rmatch_seq. apply rmatch_blank; [exact H|]. intros s1 c1 H1.
    rewrite rmatch_seq. apply rmatch_blank; [exact H1|]. intros s2 c2 H2.
    rewrite rmatch_seq. apply rmatch_blank; [exact H2|]. intros s3 c3 H3.
    rewrite rmatch_seq. apply rmatch_blank; [exact H3|]. intros s4 c4 H4.
    rewrite rmatch_seq. apply rmatch_blank; [exact H4|]. intros s5 c5 H5.
    rewrite rmatch_seq, rmatch_group, !rmatch_alt, rmatch_seq.
    rewrite !rmatch_Lit_blank by (reflexivity || assumption).
    reflexivity. }
  rewrite E. reflexivity.
Qed.

Lemma search_fun_blank (line : string) :
  py_strip line = EmptyString -> Kotlin.search_fun line = None.
Proof.
  intros H. apply strip_empty_blank in H.
  unfold Kotlin.search_fun, match_.
  assert (E : rmatch Kotlin.fun_pattern (chars line) []
                (fun s' c' => Some (c', s')) = None).
  { unfold Kotlin.fun_pattern. cbn [Seqs].
    rewrite rmatch_seq. apply rmatch_blank; [exact H|]. intros s1 c1 H1.
    rewrite rmatch_seq. apply rmatch_blank; [exact H1|]. intros s2 c2 H2.
    rewrite rmatch_seq. apply rmatch_blank; [exact H2|]. intros s3 c3 H3.
    rewrite rmatch_seq. apply rmatch_Lit_blank; [reflexivity|exact H3]. }
  rewrite E. reflexivity.
Qed.

End BlankLines.

(** ** C5: one imports dict for a run of imports *)

Lemma filter_none {A : Type} (f : A -> bool) (l : list A) :
  (forall x, In x l -> f x = false) -> List.filter f l = [].
Proof.
  induction l as [|x l IH]; intros H; [reflexivity|].
  cbn. rewrite (H x (or_introl eq_refl)). apply IH.
  intros y Hy. apply H. right. exact Hy.
Qed.

Lemma imports_of_app (l1 l2 : list node) :
  imports_of (l1 ++ l2) = imports_of l1 ++ imports_of l2.
Proof. unfold imports_of. rewrite walk_forest_app. apply List.filter_app. Qed.

Lemma imports_of_cons (n : node) (l : list node) :
  imports_of (n :: l) = imports_of [n] ++ imports_of l.
Proof. apply (imports_of_app [n] l). Qed.

Section PythonImports.
Import Python.

(** The dicts of classes and functions are never of type ['imports']. *)
Lemma py_process_no_imports (s : stmt) : forall pt n,
  process_node s pt = Some n ->
  forall p, In p (walk n) -> kind_eqb (type (attrs p)) imports = false.
Proof.
  induction s as [name l e d body IH|a name l e ar r d body IH|u l e|l e c|l e]
    using stmt_ind'; intros pt n Hn p Hp; cbn in Hn; try discriminate;
    injection Hn as <-; rewrite List.Forall_forall in IH;
    apply in_walk in Hp as [->|(c & Hc & Hp)].
  - reflexivity.
  - rewrite get_nodes_some, in_flat_map in Hc. destruct Hc as (x & Hx & Hc).
    destruct (process_node x (Some class)) as [m|] eqn:Em; [|destruct Hc].
    destruct Hc as [<-|[]]. eapply IH; eauto.
  - destruct pt as [[]|]; reflexivity.
  - rewrite get_nodes_some, in_flat_map in Hc. destruct Hc as (x & Hx & Hc).
    destruct (process_node x (Some function)) as [m|] eqn:Em; [|destruct Hc].
    destruct Hc as [<-|[]]. eapply IH; eauto.
Qed.

Lemma python_import_run (ast_parse : string -> option (list stmt))
    (code_content : string) (lines : list string) (u1 u3 : string)
    (l1 l3 : nat) (s : stmt) :
  ast_parse code_content
  = Some [Import u1 l1 (Some l1); Import u3 l3 (Some l3); s] ->
  is_import s = false ->
  imports_of (extract_nodes_from_python ast_parse code_content lines)
  = [Node (code_fields "Imports" imports l1 l3 None None None)
          (Some [Node (code_fields u1 import l1 l1 None None None) (Some []);
                 Node (code_fields u3 import l3 l3 None None None) (Some [])])].
Proof.
  intros Hparse Hs. unfold extract_nodes_from_python. rewrite Hparse.
  cbn [top_level is_import app]. rewrite Hs. cbn [top_level app imports_node].
  rewrite app_nil_r, imports_of_cons.
  replace (imports_of (option_list (process_node s None))) with (@nil node);
    [reflexivity|].
  symmetry. apply filter_none. intros p Hp.
  destruct (process_node s None) as [n|] eqn:En; [|destruct Hp].
  unfold walk_forest in Hp. cbn in Hp. rewrite app_nil_r in Hp.
  eapply py_process_no_imports; eauto.
Qed.

End PythonImports.

Section KotlinImports.
Import Kotlin.

Lemma node_type_of_not_imports (kind_type : string) :
  kind_eqb (node_type_of kind_type) imports = false.
Proof.
  unfold node_type_of.
  destruct (py_in "interface" kind_type); [reflexivity|].
  destruct (py_in "enum" kind_type); [reflexivity|].
  destruct (py_in "object" kind_type); reflexivity.
Qed.

(** The dict of a declaration found on a line is never of type
    ['imports']. *)
Lemma new_node_not_imports mc mf line line_num top n :
  new_node mc mf line line_num top = Some n ->
  kind_eqb (h_type n) imports = false.
Proof.
  unfold new_node. destruct mc as [m|].
  - intros H. injection H as <-. apply node_type_of_not_imports.
  - destruct mf as [name|]; [|discriminate].
    intros H. injection H as <-. cbn [h_type].
    destruct top as [k|]; [|reflexivity].
    destruct k; reflexivity.
Qed.

Lemma new_node_fresh mc mf line line_num top n :
  new_node mc mf line line_num top = Some n -> h_nodes n = [].
Proof.
  unfold new_node. destruct mc as [m|].
  - intros H. injection H as <-. reflexivity.
  - destruct mf as [name|]; [|discriminate].
    intros H. injection H as <-. reflexivity.
Qed.

(** The state after an import line, a blank line and another import line:
    nothing is in the store, and the run 1..3 is pending. *)
Lemma scan_import_blank_import (k1 k2 k3 : string) :
  is_import (py_strip k1) = true ->
  py_strip k2 = EmptyString ->
  is_import (py_strip k3) = true ->
  exists balance,
    step (step (step initial 1 k1) 2 k2) 3 k3
    = {| heap := []; st_nodes := []; stack := [];
         current_brace_balance := balance; import_lines := Some (1, 3) |}.
Proof.
  intros H1 H2 H3. exists (0 + count_braces k2)%Z.
  assert (E1 : step initial 1 k1
               = {| heap := []; st_nodes := []; stack := [];
                    current_brace_balance := 0; import_lines := Some (1, 1) |}).
  { unfold step. rewrite H1. reflexivity. }
  rewrite E1.
  assert (E2 : step {| heap := []; st_nodes := []; stack := [];
                       current_brace_balance := 0; import_lines := Some (1, 1) |}
                    2 k2
               = {| heap := []; st_nodes := []; stack := [];
                    current_brace_balance := 0 + count_braces k2;
                    import_lines := Some (1, 1) |}).
  { unfold step. rewrite H2, (search_class_blank k2 H2), (search_fun_blank k2 H2).
    reflexivity. }
  rewrite E2. unfold step. rewrite H3. reflexivity.
Qed.

(** The fourth line and the end of input: whether the line flushes the
    run or the end of input does, one imports dict 1..3 comes out. *)
Lemma scan_import_run_flushed (balance : Z) (k4 : string) :
  is_import (py_strip k4) = false ->
  imports_of
    (forest (flush_imports
               (step {| heap := []; st_nodes := []; stack := [];
                        current_brace_balance := balance;
                        import_lines := Some (1, 3) |} 4 k4)))
  = [Node (code_fields "Imports" imports 1 3 None None None) (Some [])].
Proof.
  intros H4. unfold step. rewrite H4. cbv zeta.
  destruct (new_node (search_class k4) (search_fun k4) k4 4 None) as [n|] eqn:En.
  - pose proof (new_node_not_imports _ _ _ _ _ _ En) as Hk.
    pose proof (new_node_fresh _ _ _ _ _ _ En) as Hf.
    destruct (_ && _); cbn; rewrite En; cbn; rewrite Hf; cbn;
      unfold imports_of; cbn; rewrite Hk; reflexivity.
  - destruct (_ && _); cbn; rewrite En; reflexivity.
Qed.

Lemma kotlin_import_run (code_content k1 k2 k3 k4 : string) :
  is_import (py_strip k1) = true ->
  py_strip k2 = EmptyString ->
  is_import (py_strip k3) = true ->
  is_import (py_strip k4) = false ->
  imports_of (extract_nodes_from_kotlin code_content [k1; k2; k3; k4])
  = [Node (code_fields "Imports" imports 1 3 None None None) (Some [])].
Proof.
  intros H1 H2 H3 H4. unfold extract_nodes_from_kotlin, scan.
  cbn [scan_from].
  destruct (scan_import_blank_import k1 k2 k3 H1 H2 H3) as (balance & ->).
  apply scan_import_run_flushed. exact H4.
Qed.

End KotlinImports.

(** C5.  An import, a blank line, another import and a statement that is
    no import: the Python extractor and the Kotlin scanner each return
    exactly one dict of type ['imports'], from the line of the first import
    to the line of the last.  (The Python dict holds one ['import'] child
    per statement; the Kotlin one has none.) *)
Theorem import_run_gives_one_imports_node
    (ast_parse : string -> option (list Python.stmt))
    (code_content : string) (lines : list string)
    (u1 u3 : string) (l1 l3 : nat) (s : Python.stmt)
    (kotlin_content k1 k2 k3 k4 : string) :
  ast_parse code_content
  = Some [Python.Import u1 l1 (Some l1); Python.Import u3 l3 (Some l3); s] ->
  Python.is_import s = false ->
  Kotlin.is_import (py_strip k1) = true ->
  py_strip k2 = EmptyString ->
  Kotlin.is_import (py_strip k3) = true ->
  Kotlin.is_import (py_strip k4) = false ->
  (exists children,
     imports_of (Python.extract_nodes_from_python ast_parse code_content lines)
     = [Node (code_fields "Imports" imports l1 l3 None None None)
             (Some children)])
  /\ imports_of (Kotlin.extract_nodes_from_kotlin kotlin_content [k1; k2; k3; k4])
     = [Node (code_fields "Imports" imports 1 3 None None None) (Some [])].
Proof.
  intros Hparse Hs H1 H2 H3 H4. split.
  - eexists. eapply python_import_run; eauto.
  - apply kotlin_import_run; assumption.
Qed.

Lemma import_run_gives_one_imports_node_witness :
  (exists children,
     imports_of (Python.extract_nodes_from_python
                   (fun _ => Some import_run_module) EmptyString
                   import_run_lines)
     = [Node (code_fields "Imports" imports 1 3 None None None) (Some children)])
  /\ imports_of (Kotlin.extract_nodes_from_kotlin EmptyString import_run_lines)
     = [Node (code_fields "Imports" imports 1 3 None None None) (Some [])].
Proof.
  apply (import_run_gives_one_imports_node
           (fun _ => Some import_run_module) EmptyString import_run_lines
           "import os" "import sys" 1 3 (Python.OtherStmt 4 4)
           EmptyString "import a.b" EmptyString "import c.d" "class Foo");
    vm_compute; reflexivity.
Defined.

(** ** C4: what the scanner reads off the raw line *)

(** C4.  The brace count of a line is taken after literals and comments
    are removed, but the baseline of a new frame is lowered when the raw
    line holds an opening brace, and the patterns are matched against the
    raw line.  On [literal_brace_lines] the first line counts no brace, yet
    the frame of [f] gets the baseline -1; [f] is then never closed and
    [g] is attached to it.  With any other character in the literal, [f]
    is closed on line 2 and [g] is a root.  A brace in a trailing comment
    lowers the baseline in the same way, and a comment after the word
    [import] makes the line an import line, which it is not once the
    comment is removed. *)
Example literal_brace_moves_baseline :
  Kotlin.count_braces (List.hd EmptyString literal_brace_lines) = 0%Z
  /\ py_in "{" (List.hd EmptyString literal_brace_lines) = true
  /\ List.map Kotlin.start_balance
       (Kotlin.stack (Kotlin.step Kotlin.initial 1
                        (List.hd EmptyString literal_brace_lines)))
     = [(-1)%Z]
  /\ List.map Kotlin.start_balance
       (Kotlin.stack (Kotlin.step Kotlin.initial 1
                        (List.hd EmptyString literal_plain_lines)))
     = [0%Z]
  /\ List.map (fun n => (title (attrs n), start_of n, end_of n,
                         List.map (fun c => (title (attrs c), start_of c, end_of c))
                                  (get_nodes n)))
       (Kotlin.extract_nodes_from_kotlin EmptyString literal_brace_lines)
     = [("f()", 1, 1, [("g()", 3, 4)])]
  /\ List.map (fun n => (title (attrs n), start_of n, end_of n,
                         List.map (fun c => (title (attrs c), start_of c, end_of c))
                                  (get_nodes n)))
       (Kotlin.extract_nodes_from_kotlin EmptyString literal_plain_lines)
     = [("f()", 1, 2, []); ("g()", 3, 4, [])]
  /\ (Kotlin.count_braces comment_brace_line,
      List.map Kotlin.start_balance
        (Kotlin.stack (Kotlin.step Kotlin.initial 1 comment_brace_line)))
     = (0%Z, [(-1)%Z])
  /\ (Kotlin.is_import (py_strip import_comment_line),
      Kotlin.is_import (py_strip (Kotlin.strip_literals import_comment_line)))
     = (true, false).
Proof. repeat split; vm_compute; reflexivity. Qed.

(** ** The summary stage *)

Lemma assign_summaries_eq (f : fields) (ns : option (list node))
    (ss : list string) :
  assign_summaries (Node f ns) ss
  = let '(f', rest) :=
      if is_code_node (Node f ns) then
        match ss with
        | s :: rest => (assign f (has_children ns) s, rest)
        | [] => (f, [])
        end
      else (f, ss) in
    match ns with
    | None => (Node f' None, rest)
    | Some l => let '(l', rest') := assign_list l rest in
                (Node f' (Some l'), rest')
    end.
Proof. reflexivity. Qed.

Lemma gather_length (tasks : list (option string)) (l : list string) :
  gather tasks = Some l -> length l = length tasks.
Proof.
  revert l. induction tasks as [|t tasks IH]; intros l; cbn.
  - intros H. injection H as <-. reflexivity.
  - destruct t as [s|]; [|discriminate].
    destruct (gather tasks) as [l0|]; [|discriminate].
    intros H. injection H as <-. cbn. f_equal. apply IH. reflexivity.
Qed.

Lemma gather_all (tasks : list (option string)) :
  Forall is_Some tasks -> exists l, gather tasks = Some l.
Proof.
  induction 1 as [|t tasks [s ->] _ [l IH]]; cbn.
  - eauto.
  - rewrite IH. eauto.
Qed.

Lemma gather_failure (tasks : list (option string)) :
  In None tasks -> gather tasks = None.
Proof.
  induction tasks as [|t tasks IH]; intros []; cbn.
  - subst t. reflexivity.
  - destruct t; [|reflexivity]. rewrite IH by assumption. reflexivity.
Qed.

Lemma code_count_cons (n : node) (l : list node) :
  code_count (n :: l) = code_count [n] + code_count l.
Proof.
  unfold code_count. change (n :: l) with ([n] ++ l).
  rewrite walk_forest_app, List.filter_app, length_app. reflexivity.
Qed.

Lemma code_count_node (f : fields) (ns : option (list node)) :
  code_count [Node f ns]
  = (if is_code_node (Node f ns) then 1 else 0) + code_count (default [] ns).
Proof.
  unfold code_count, walk_forest. cbn [flat_map]. rewrite app_nil_r, walk_eq.
  cbn [List.filter]. destruct (is_code_node (Node f ns)); reflexivity.
Qed.

Lemma has_children_map (l : list node) (l' : list node) :
  length l' = length l -> has_children (Some l') = has_children (Some l).
Proof. destruct l, l'; cbn; intros H; try reflexivity; discriminate. Qed.

(** With a summary for every code dict, [assign_summaries] uses up exactly
    those, and every dict of the result is the dict of the input with its
    summary assigned. *)
Lemma assign_summaries_spec (n : node) : forall ss n' rest,
  assign_summaries n ss = (n', rest) ->
  code_count [n] <= length ss ->
  length rest = length ss - code_count [n]
  /\ has_children (nodes n') = has_children (nodes n)
  /\ forall p, In p (walk n') -> exists q, In q (walk n) /\ assigned q p.
Proof.
  induction n as [f|f l IH] using node_ind'; intros ss n' rest Hn Hlen.
  - rewrite assign_summaries_eq in Hn. rewrite code_count_node in Hlen |- *.
    cbn [default] in *. change (code_count []) with 0 in *.
    destruct (is_code_node (Node f None)) eqn:Ecode.
    + destruct ss as [|s ss]; [cbn [length] in Hlen; lia|].
      injection Hn as <- <-. cbn. split; [lia|]. split; [reflexivity|].
      intros p [<-|[]]. exists (Node f None). split; [left; reflexivity|].
      unfold assigned. rewrite Ecode. cbn. repeat split. eauto.
    + injection Hn as <- <-. split; [lia|]. split; [reflexivity|].
      intros p [<-|[]]. exists (Node f None). split; [left; reflexivity|].
      unfold assigned. rewrite Ecode. repeat split.
  - rewrite assign_summaries_eq in Hn. rewrite code_count_node in Hlen |- *.
    cbn [default] in *. unfold id in *.
    set (code := is_code_node (Node f (Some l))) in *.
    assert (Hlist : forall ss l' rest,
              assign_list l ss = (l', rest) -> code_count l <= length ss ->
              length rest = length ss - code_count l
              /\ length l' = length l
              /\ forall p, In p (walk_forest l') ->
                   exists q, In q (walk_forest l) /\ assigned q p).
    { clear Hn Hlen ss n' rest. induction IH as [|c l Hc _ IHl];
        intros ss l' rest Hl Hlen; cbn [assign_list] in Hl.
      - injection Hl as <- <-. change (code_count []) with 0.
        split; [lia|]. split; [reflexivity|]. intros p [].
      - rewrite code_count_cons in Hlen |- *.
        destruct (assign_summaries c ss) as [c' ss1] eqn:Ec.
        destruct (assign_list l ss1) as [l0' ss2] eqn:El.
        injection Hl as <- <-.
        destruct (Hc ss c' ss1 Ec ltac:(lia)) as (Hlen1 & _ & Hc').
        destruct (IHl ss1 l0' ss2 El ltac:(lia)) as (Hlen2 & Hll & Hl').
        split; [lia|]. split; [cbn; lia|].
        intros p Hp. change (c' :: l0') with ([c'] ++ l0') in Hp.
        rewrite walk_forest_app in Hp. apply in_app_or in Hp as [Hp|Hp].
        + unfold walk_forest in Hp. cbn in Hp. rewrite app_nil_r in Hp.
          destruct (Hc' p Hp) as (q & Hq & Ha). exists q. split; [|exact Ha].
          change (c :: l) with ([c] ++ l). rewrite walk_forest_app.
          apply in_or_app. left. unfold walk_forest. cbn. rewrite app_nil_r.
          exact Hq.
        + destruct (Hl' p Hp) as (q & Hq & Ha). exists q. split; [|exact Ha].
          change (c :: l) with ([c] ++ l). rewrite walk_forest_app.
          apply in_or_app. right. exact Hq. }
    assert (Hroot : forall f', 
              (if code then exists s, f' = assign f (has_children (Some l)) s
               else f' = f) ->
              forall l', length l' = length l ->
              assigned (Node f (Some l)) (Node f' (Some l'))).
    { intros f' Hf' l' Hll. unfold assigned. fold code. cbn [nodes attrs].
      split; [apply has_children_map; exact Hll|].
      destruct code.
      - destruct Hf' as (s & ->). split; [|eauto].
        unfold assign. destruct (has_children (Some l)); reflexivity.
      - subst f'. split; reflexivity. }
    destruct code eqn:Ecode.
    + destruct ss as [|s ss]; [cbn [length] in Hlen; lia|].
      destruct (assign_list l ss) as [l' rest'] eqn:El.
      injection Hn as <- <-. cbn [length] in Hlen.
      destruct (Hlist ss l' rest' El ltac:(lia)) as (Hlen' & Hll & Hl').
      split; [cbn [length]; lia|].
      split; [cbn [nodes]; apply has_children_map; exact Hll|].
      intros p Hp. apply in_walk in Hp as [->|(c & Hc & Hp)].
      * exists (Node f (Some l)). split; [apply in_walk_self|].
        apply Hroot; [eauto|exact Hll].
      * rewrite get_nodes_some in Hc.
        destruct (Hl' p) as (q & Hq & Ha).
        { apply in_walk_forest. eauto. }
        exists q. split; [|exact Ha].
        apply in_walk_forest in Hq as (c0 & Hc0 & Hq).
        apply in_walk. right. exists c0. rewrite get_nodes_some. auto.
    + destruct (assign_list l ss) as [l' rest'] eqn:El.
      injection Hn as <- <-.
      destruct (Hlist ss l' rest' El ltac:(lia)) as (Hlen' & Hll & Hl').
      split; [lia|].
      split; [cbn [nodes]; apply has_children_map; exact Hll|].
      intros p Hp. apply in_walk in Hp as [->|(c & Hc & Hp)].
      * exists (Node f (Some l)). split; [apply in_walk_self|].
        apply Hroot; [reflexivity|exact Hll].
      * rewrite get_nodes_some in Hc.
        destruct (Hl' p) as (q & Hq & Ha).
        { apply in_walk_forest. eauto. }
        exists q. split; [|exact Ha].
        apply in_walk_forest in Hq as (c0 & Hc0 & Hq).
        apply in_walk. right. exists c0. rewrite get_nodes_some. auto.
Qed.

(** Every dict of the result of [preserve_imports_text] is a dict of the
    input, with its text copied to ['summary'] when it is an imports dict. *)
Lemma preserve_imports_text_spec (n : node) :
  forall p, In p (walk (preserve_imports_text n)) ->
  exists q, In q (walk n)
    /\ has_children (nodes p) = has_children (nodes q)
    /\ attrs p = if kind_eqb (type (attrs q)) imports
                 then set_summary (attrs q)
                        (Some (py_strip (default EmptyString (text (attrs q)))))
                 else attrs q.
Proof.
  induction n as [f|f l IH] using node_ind'; intros p Hp; cbn in Hp.
  - destruct Hp as [<-|[]]. exists (Node f None).
    split; [left; reflexivity|]. split; reflexivity.
  - change (In p (walk (Node (if kind_eqb (type f) imports
                              then set_summary f
                                     (Some (py_strip (default EmptyString (text f))))
                              else f)
                             (Some (List.map preserve_imports_text l))))) in Hp.
    apply in_walk in Hp as [->|(c & Hc & Hp)].
    + exists (Node f (Some l)). split; [apply in_walk_self|].
      split; [|reflexivity]. cbn [nodes].
      apply has_children_map. apply length_map.
    + rewrite get_nodes_some in Hc. apply in_map_iff in Hc as (c0 & <- & Hc0).
      rewrite List.Forall_forall in IH.
      destruct (IH c0 Hc0 p Hp) as (q & Hq & Hrel).
      exists q. split; [|exact Hrel].
      apply in_walk. right. exists c0. rewrite get_nodes_some. auto.
Qed.

Lemma is_code_node_type (p q : node) :
  type (attrs p) = type (attrs q) -> is_code_node p = is_code_node q.
Proof. unfold is_code_node. intros ->. reflexivity. Qed.

Lemma code_not_imports (q : node) :
  is_code_node q = true -> kind_eqb (type (attrs q)) imports = false.
Proof. unfold is_code_node. destruct (type (attrs q)); cbn; congruence. Qed.

(** C1, counterexample.  For a directory holding one Python file, with
    every request answered: the directory dict has children and gets neither
    key; the imports dict has a child and gets ['summary'], not
    ['prefix_summary']; the import dict gets neither. *)
Lemma summary_stage_counterexample :
  exists s,
    summary_stage tokens_by_length model_answers 200 "gpt-4o" true
      sample_directory = (s, Ok s)
    /\ List.map (fun n => (type (attrs n), has_children (nodes n),
                           summary (attrs n), prefix_summary (attrs n)))
                (walk s)
       = [ (directory, true, None, None);
           (file, true, None, Some "import os");
           (imports, true, Some "import os", None);
           (import, false, None, None);
           (function, false, Some "def f(): pass", None) ]
    /\ ~ one_summary_by_children s.
Proof.
  eexists. split; [vm_compute; reflexivity|]. split; [reflexivity|].
  unfold one_summary_by_children. cbn. intros [[x Hx] _]. discriminate.
Qed.

(** C1, amended.  When the summary stage runs on a tree whose dicts have
    no summary yet and every request is answered, the stage returns, and in
    the result every dict of type class, function, method, interface, enum
    or file has exactly one of the two keys, ['prefix_summary'] if it has
    children and ['summary'] if it has none; every imports dict has
    ['summary'] only, with or without children; every other dict
    (directory, struct, namespace, object, import) has neither. *)
Theorem summary_stage_assigns
    (count_tokens : string -> string -> Z)
    (ChatGPT_API_async : string -> string -> option string)
    (summary_token_threshold : Z) (model : string) (structure : node) :
  (forall n, In n (walk structure) -> fresh n) ->
  (forall n, In n (walk structure) -> is_code_node n = true ->
     is_Some (get_code_node_summary count_tokens ChatGPT_API_async
                summary_token_threshold model n)) ->
  exists structure',
    summary_stage count_tokens ChatGPT_API_async summary_token_threshold
      model true structure = (structure', Ok structure')
    /\ forall p, In p (walk structure') ->
         if is_code_node p then one_summary_by_children p
         else if kind_eqb (type (attrs p)) imports
              then is_Some (summary (attrs p)) /\ prefix_summary (attrs p) = None
              else fresh p.
Proof.
  intros Hfresh Hanswered.
  unfold summary_stage, generate_summaries_for_code_structure.
  set (code_nodes := List.filter is_code_node (structure_to_list [structure])).
  destruct (gather_all (List.map (get_code_node_summary count_tokens
                                    ChatGPT_API_async summary_token_threshold
                                    model) code_nodes))
    as (summaries & Hgather).
  { rewrite List.Forall_forall. intros t Ht.
    apply in_map_iff in Ht as (n & <- & Hn).
    unfold code_nodes in Hn. apply filter_In in Hn as [Hn Hcode].
    unfold structure_to_list, walk_forest in Hn. cbn in Hn.
    rewrite app_nil_r in Hn. apply Hanswered; assumption. }
  rewrite Hgather.
  destruct (assign_summaries structure summaries) as [s1 rest] eqn:Eassign.
  cbn [fst]. eexists. split; [reflexivity|].
  assert (Hlen : code_count [structure] <= length summaries).
  { apply gather_length in Hgather. rewrite length_map in Hgather.
    unfold code_count. fold (structure_to_list [structure]). fold code_nodes.
    lia. }
  destruct (assign_summaries_spec structure summaries s1 rest Eassign Hlen)
    as (_ & _ & Hassigned).
  intros p Hp.
  destruct (preserve_imports_text_spec s1 p Hp) as (p1 & Hp1 & Hhc & Hattrs).
  destruct (Hassigned p1 Hp1) as (q & Hq & Hhc1 & Htype & Hrel).
  destruct (Hfresh q Hq) as [Hs Hps].
  assert (Htp : type (attrs p) = type (attrs q)).
  { rewrite Hattrs, <- Htype. destruct (kind_eqb _ _); reflexivity. }
  rewrite (is_code_node_type p q Htp), Htp.
  destruct (is_code_node q) eqn:Ecode.
  - destruct Hrel as (s & Hrel).
    rewrite Htype, (code_not_imports q Ecode) in Hattrs.
    unfold one_summary_by_children. rewrite Hhc, Hhc1, Hattrs, Hrel.
    unfold assign. destruct (has_children (nodes q)); cbn; rewrite ?Hs, ?Hps;
      split; eauto.
  - rewrite Htype in Hattrs. unfold fresh. rewrite Hattrs, Hrel.
    destruct (kind_eqb (type (attrs q)) imports).
    + cbn. split; eauto.
    + split; assumption.
Qed.

Lemma summary_stage_assigns_witness :
  exists structure',
    summary_stage tokens_by_length model_answers 200 "gpt-4o" true
      sample_directory = (structure', Ok structure')
    /\ forall p, In p (walk structure') ->
         if is_code_node p then one_summary_by_children p
         else if kind_eqb (type (attrs p)) imports
              then is_Some (summary (attrs p)) /\ prefix_summary (attrs p) = None
              else fresh p.
Proof.
  apply (summary_stage_assigns tokens_by_length model_answers 200 "gpt-4o"
           sample_directory).
  - intros n Hn. cbn in Hn.
    repeat (destruct Hn as [<-|Hn]; [split; reflexivity|]). destruct Hn.
  - intros n Hn _. cbn in Hn.
    repeat (destruct Hn as [<-|Hn]; [vm_compute; eauto|]). destruct Hn.
Defined.

(** ** C9: a failed request *)

(** C9.  When the request for one of the code dicts fails, the call raises
    and the tree is the tree that went in: no dict has received a summary,
    and what the earlier stages built is as it was. *)
Theorem failed_request_aborts_batch
    (count_tokens : string -> string -> Z)
    (ChatGPT_API_async : string -> string -> option string)
    (summary_token_threshold : Z) (model : string) (structure n : node) :
  In n (List.filter is_code_node (structure_to_list [structure])) ->
  (count_tokens (default EmptyString (text (attrs n))) model
   <? summary_token_threshold)%Z = false ->
  ChatGPT_API_async model (summary_prompt (attrs n)) = None ->
  generate_summaries_for_code_structure count_tokens ChatGPT_API_async
    summary_token_threshold model structure
  = (structure, Raise RequestFailure)
  /\ summary_stage count_tokens ChatGPT_API_async summary_token_threshold
       model true structure
     = (structure, Raise RequestFailure).
Proof.
  intros Hn Hbig Hfail.
  assert (E : generate_summaries_for_code_structure count_tokens
                ChatGPT_API_async summary_token_threshold model structure
              = (structure, Raise RequestFailure)).
  { unfold generate_summaries_for_code_structure.
    rewrite gather_failure; [reflexivity|].
    apply in_map_iff. exists n. split; [|exact Hn].
    unfold get_code_node_summary. rewrite Hbig. exact Hfail. }
  split; [exact E|]. unfold summary_stage. rewrite E. reflexivity.
Qed.

Lemma failed_request_aborts_batch_witness :
  generate_summaries_for_code_structure tokens_by_length model_fails 5
    "gpt-4o" sample_directory
  = (sample_directory, Raise RequestFailure)
  /\ summary_stage tokens_by_length model_fails 5 "gpt-4o" true
       sample_directory
     = (sample_directory, Raise RequestFailure).
Proof.
  apply (failed_request_aborts_batch tokens_by_length model_fails 5 "gpt-4o"
           sample_directory sample_file).
  - left. reflexivity.
  - reflexivity.
  - reflexivity.
Defined.

(** ** C8: unsupported extensions *)

Lemma in_insert_sorted {A : Type} (x y : string * A) (l : list (string * A)) :
  In x (insert_sorted y l) -> x = y \/ In x l.
Proof.
  induction l as [|z l IH]; cbn.
  - intros [<-|[]]. left. reflexivity.
  - destruct (String.leb (fst y) (fst z)).
    + intros [<-|H]; auto.
    + intros [<-|H]; [right; left; reflexivity|].
      destruct (IH H); auto.
Qed.

Lemma in_sorted {A : Type} (x : string * A) (l : list (string * A)) :
  In x (sorted l) -> In x l.
Proof.
  induction l as [|y l IH]; cbn; [auto|].
  intros H. apply in_insert_sorted in H as [->|H]; auto.
Qed.

Lemma chars_app (s1 s2 : string) :
  chars (s1 ++ s2)%string = chars s1 ++ chars s2.
Proof.
  induction s1 as [|a s1 IH]; cbn; [reflexivity|].
  unfold chars in IH. rewrite IH. reflexivity.
Qed.

(** A prefix test with a pattern that holds no slash does not look past a
    slash. *)
Lemma starts_with_before_slash (p l1 l2 : list ascii) :
  ~ In "/"%char p ->
  starts_with p (l1 ++ "/"%char :: l2) = starts_with p l1.
Proof.
  revert l1. induction p as [|a p IH]; intros l1 Hp; [destruct l1; reflexivity|].
  destruct l1 as [|b l1]; cbn.
  - destruct (Ascii.eqb a "/") eqn:E; [|reflexivity].
    apply Ascii.eqb_eq in E. exfalso. apply Hp. left. exact E.
  - rewrite IH; [reflexivity|]. intros H. apply Hp. right. exact H.
Qed.

Lemma endswith_path_join (dir_path item ext : string) :
  ~ In "/"%char (chars ext) -> nonempty ext = true ->
  py_endswith (path_join dir_path item) ext = py_endswith item ext.
Proof.
  intros Hext Hne. unfold path_join.
  assert (Hrev : ~ In "/"%char (rev (chars ext))).
  { intros H. apply Hext. apply in_rev. exact H. }
  destruct (nonempty dir_path) eqn:Ed; cbn [negb orb].
  - destruct (py_endswith dir_path "/") eqn:Es.
    + unfold py_endswith in *. rewrite chars_app, rev_app_distr.
      change (rev (chars "/")) with ["/"%char] in Es.
      destruct (rev (chars dir_path)) as [|c r]; [cbn in Es; discriminate|].
      cbn [starts_with] in Es.
      destruct (Ascii.eqb "/" c) eqn:Ec; [|cbn in Es; discriminate].
      apply Ascii.eqb_eq in Ec. subst c.
      apply starts_with_before_slash. exact Hrev.
    + unfold py_endswith. rewrite !chars_app, !rev_app_distr.
      cbn [chars list_ascii_of_string rev app].
      rewrite <- app_assoc. cbn [app].
      apply starts_with_before_slash. exact Hrev.
  - destruct dir_path; [reflexivity|discriminate].
Qed.

Lemma endswith_any_path_join (dir_path item : string) :
  endswith_any (path_join dir_path item) supported_extensions
  = endswith_any item supported_extensions.
Proof.
  unfold endswith_any, supported_extensions. cbn [existsb].
  rewrite !endswith_path_join; try reflexivity;
    cbn; intros H; repeat (destruct H as [H|H]; [discriminate|]); exact H.
Qed.

Section Directories.
Variable ast_parse : string -> option (list Python.stmt).
Variable javalang_parse : string -> option Java.compilation_unit.
Variable ts_parse : string -> string -> option Cpp.ts_node.
Variable normpath : string -> string.

(** A dict that [build_file_tree] returns is a file dict with the path it
    was asked for. *)
Lemma build_file_tree_path (file_path : string) (content : option string)
    (n : node) :
  build_file_tree ast_parse javalang_parse ts_parse file_path content = Some n ->
  type (attrs n) = file /\ path (attrs n) = Some file_path.
Proof.
  unfold build_file_tree.
  destruct (py_endswith file_path ".java");
    [|destruct (py_endswith file_path ".kt");
      [|destruct (endswith_any file_path cpp_extensions);
        [|destruct (py_endswith file_path ".py"); [|discriminate]]]];
    destruct content as [c|]; cbn; intros H; try discriminate;
    injection H as <-; split; reflexivity.
Qed.

Lemma in_files_of (dir_path : string)
    (items : list (string * (fs_entry * node)))
    (file_path : string) (content : option string) :
  In (file_path, content) (files_of dir_path items) ->
  exists item, file_path = path_join dir_path item
               /\ endswith_any item supported_extensions = true.
Proof.
  unfold files_of. rewrite in_flat_map.
  intros ([item [e built]] & _ & H).
  destruct (skipped item); [destruct H|].
  destruct e as [c|l]; [|destruct H].
  destruct (endswith_any item supported_extensions) eqn:E; [|destruct H].
  destruct H as [H|[]]. injection H as <- _. eauto.
Qed.

Lemma in_subdirs_of (dir_path : string)
    (items : list (string * (fs_entry * node)))
    (subdir_path : string) (subdir_node : node) :
  In (subdir_path, subdir_node) (subdirs_of dir_path items) ->
  exists item e, In (item, (e, subdir_node)) items /\ is_dir e = true.
Proof.
  unfold subdirs_of. rewrite in_flat_map.
  intros ([item [e built]] & Hin & H).
  destruct (skipped item); [destruct H|].
  destruct (is_dir e) eqn:E; [|destruct H].
  destruct H as [H|[]]. injection H as _ <-. eauto.
Qed.

Lemma directory_node_type (dir_path : string)
    (listing : option (list (string * (fs_entry * node)))) :
  type (attrs (directory_node ast_parse javalang_parse ts_parse normpath
                 dir_path listing)) = directory.
Proof. unfold directory_node. destruct listing; reflexivity. Qed.

(** The file dicts among the children of a directory dict come from files
    with a supported extension. *)
Lemma directory_node_files (dir_path : string)
    (visited : list (string * (fs_entry * node))) (child : node) :
  (forall item e built, In (item, (e, built)) visited -> is_dir e = true ->
     type (attrs built) = directory) ->
  In child (get_nodes (directory_node ast_parse javalang_parse ts_parse
                         normpath dir_path (Some visited))) ->
  type (attrs child) = file ->
  exists item, path (attrs child) = Some (path_join dir_path item)
               /\ endswith_any item supported_extensions = true.
Proof.
  intros Hdirs Hin Hfile. unfold directory_node in Hin.
  rewrite get_nodes_some in Hin. apply in_app_or in Hin as [Hin|Hin].
  - exfalso. apply in_flat_map in Hin as ([p sub] & Hsub & Hin).
    destruct (has_code_content sub); [|destruct Hin].
    destruct Hin as [<-|[]].
    apply in_subdirs_of in Hsub as (item & e & Hitem & He).
    apply in_sorted in Hitem.
    rewrite (Hdirs item e sub Hitem He) in Hfile. discriminate.
  - apply in_flat_map in Hin as ([p content] & Hf & Hin).
    destruct (build_file_tree ast_parse javalang_parse ts_parse p content)
      as [n|] eqn:En; [|destruct Hin].
    destruct Hin as [<-|[]].
    destruct (build_file_tree_path p content n En) as [_ Hpath].
    apply in_files_of in Hf as (item & -> & Hext).
    exists item. auto.
Qed.

Lemma build_directory_tree_type (dir_path : string) (d : fs_entry) :
  type (attrs (build_directory_tree ast_parse javalang_parse ts_parse normpath
                 dir_path d)) = directory.
Proof.
  destruct d as [c|[l|]]; cbn [build_directory_tree];
    apply directory_node_type.
Qed.

End Directories.



(** The directory of the witness: the Kotlin file is its only child. *)
Example sample_listing_children :
  exists dir_node,
    build_structure no_python no_java no_cst (fun p => p)
      "src" (Some (FsDir (Some sample_listing))) = Ok dir_node
    /\ List.map (fun n => (title (attrs n), type (attrs n), path (attrs n)))
                (get_nodes dir_node)
       = [("Main.kt", file, Some "src/Main.kt")].
Proof. eexists. split; [reflexivity|]. vm_compute. reflexivity. Qed.

(** * Further properties of the code *)

(** ** Stages that rewrite the fields of every dict *)

(** A stage that rewrites the fields of each dict and keeps the tree: the
    dicts come in the same order, each with its fields rewritten, and each
    with as many children as before. *)
Lemma walk_fieldwise (g : node -> node) (h : fields -> fields) :
  (forall f ns, g (Node f ns) = Node (h f) (option_map (List.map g) ns)) ->
  forall n,
    List.map attrs (walk (g n)) = List.map (fun p => h (attrs p)) (walk n)
    /\ List.map child_count (walk (g n)) = List.map child_count (walk n).
Proof.
  intros Hg. induction n as [f|f l IH] using node_ind'.
  - rewrite Hg. cbn. auto.
  - rewrite Hg. cbn [option_map]. rewrite !walk_eq. cbn [default List.map attrs].
    unfold child_count at 1 3. cbn [nodes option_map]. rewrite length_map.
    assert (H : List.map attrs (flat_map walk (List.map g l))
                = List.map (fun p => h (attrs p)) (flat_map walk l)
                /\ List.map child_count (flat_map walk (List.map g l))
                   = List.map child_count (flat_map walk l)).
    { induction IH as [|c l [Hc1 Hc2] _ [IH1 IH2]]; [auto|].
      cbn [List.map flat_map]. rewrite !map_app, Hc1, Hc2, IH1, IH2. auto. }
    destruct H as [H1 H2]. unfold id. rewrite H1, H2. auto.
Qed.

Lemma remove_text_eq (f : fields) (ns : option (list node)) :
  remove_text_from_structure (Node f ns)
  = Node (set_text f None) (option_map (List.map remove_text_from_structure) ns).
Proof. reflexivity. Qed.

Lemma remove_path_eq (f : fields) (ns : option (list node)) :
  remove_path_from_structure (Node f ns)
  = Node (set_path f None) (option_map (List.map remove_path_from_structure) ns).
Proof. reflexivity. Qed.

Lemma preserve_imports_text_eq (f : fields) (ns : option (list node)) :
  preserve_imports_text (Node f ns)
  = Node (with_imports_summary f)
         (option_map (List.map preserve_imports_text) ns).
Proof. reflexivity. Qed.

Lemma Forall_map_attrs (P : fields -> Prop) (h : fields -> fields)
    (l l' : list node) :
  List.map attrs l' = List.map (fun p => h (attrs p)) l ->
  (forall f, P (h f)) ->
  Forall (fun p => P (attrs p)) l'.
Proof.
  revert l. induction l' as [|p l' IH]; intros [|q l] Heq HP; try discriminate.
  - constructor.
  - cbn in Heq. injection Heq as Hp Hl. constructor.
    + rewrite Hp. apply HP.
    + eapply IH; eauto.
Qed.

(** X1.  After [remove_text_from_structure] no dict of the tree has
    ['text'], and after [remove_path_from_structure] none has ['path']; in
    both cases the dicts come in the same order with every other field as it
    was, and each keeps the number of its children. *)
Theorem removal_deletes_one_key_everywhere (structure : node) :
  let without_text := remove_text_from_structure structure in
  let without_path := remove_path_from_structure structure in
  Forall (fun p => text (attrs p) = None) (walk without_text)
  /\ List.map attrs (walk without_text)
     = List.map (fun p => set_text (attrs p) None) (walk structure)
  /\ List.map child_count (walk without_text)
     = List.map child_count (walk structure)
  /\ Forall (fun p => path (attrs p) = None) (walk without_path)
  /\ List.map attrs (walk without_path)
     = List.map (fun p => set_path (attrs p) None) (walk structure)
  /\ List.map child_count (walk without_path)
     = List.map child_count (walk structure).
Proof.
  cbv zeta.
  destruct (walk_fieldwise remove_text_from_structure (fun f => set_text f None)
              remove_text_eq structure) as [Ht Hts].
  destruct (walk_fieldwise remove_path_from_structure (fun f => set_path f None)
              remove_path_eq structure) as [Hp Hps].
  split; [|split; [exact Ht|split; [exact Hts|split; [|split; [exact Hp|exact Hps]]]]].
  - apply (Forall_map_attrs (fun f => text f = None)
             (fun f => set_text f None) _ _ Ht). reflexivity.
  - apply (Forall_map_attrs (fun f => path f = None)
             (fun f => set_path f None) _ _ Hp). reflexivity.
Qed.

Lemma map_commute {A : Type} (g h : A -> A) (l : list A) :
  Forall (fun x => g (h x) = h (g x)) l ->
  List.map g (List.map h l) = List.map h (List.map g l).
Proof.
  induction 1 as [|x l Hx _ IH]; cbn; [reflexivity|].
  now rewrite Hx, IH.
Qed.

(** X2.  The two removals commute, and each is idempotent: applying
    [remove_text_from_structure] and [remove_path_from_structure] in either
    order gives the same tree, and a second application of either changes
    nothing. *)
Theorem removals_commute_and_are_idempotent (structure : node) :
  remove_text_from_structure (remove_path_from_structure structure)
  = remove_path_from_structure (remove_text_from_structure structure)
  /\ remove_text_from_structure (remove_text_from_structure structure)
     = remove_text_from_structure structure
  /\ remove_path_from_structure (remove_path_from_structure structure)
     = remove_path_from_structure structure.
Proof.
  induction structure as [f|f l IH] using node_ind'.
  - repeat split.
  - rewrite !remove_text_eq, !remove_path_eq, !remove_text_eq. cbn [option_map].
    split; [|split]; do 2 f_equal.
    + apply map_commute. eapply Forall_impl; [exact IH|].
      intros c (H & _ & _). exact H.
    + apply map_map_fixed. eapply Forall_impl; [exact IH|].
      intros c (_ & H & _). exact H.
    + apply map_map_fixed. eapply Forall_impl; [exact IH|].
      intros c (_ & _ & H). exact H.
Qed.

(** X3.  The order of the two last stages matters for imports dicts.  With
    [preserve_imports_text] first, as [code_to_tree] has it, every imports
    dict leaves [remove_text_from_structure] with its stripped text under
    ['summary']; with the removal first, every imports dict would get the
    empty string.  Other dicts lose their text and nothing else either
    way. *)
Theorem imports_text_survives_text_removal (structure : node) :
  List.map attrs
    (walk (remove_text_from_structure (preserve_imports_text structure)))
  = List.map (fun p =>
                if kind_eqb (type (attrs p)) imports
                then set_text
                       (set_summary (attrs p)
                          (Some (py_strip (default EmptyString (text (attrs p))))))
                       None
                else set_text (attrs p) None)
             (walk structure)
  /\ List.map attrs
       (walk (preserve_imports_text (remove_text_from_structure structure)))
     = List.map (fun p =>
                   if kind_eqb (type (attrs p)) imports
                   then set_text (set_summary (attrs p) (Some EmptyString)) None
                   else set_text (attrs p) None)
                (walk structure).
Proof.
  split.
  - destruct (walk_fieldwise remove_text_from_structure
                (fun f => set_text f None) remove_text_eq
                (preserve_imports_text structure)) as [-> _].
    rewrite <- (List.map_map attrs (fun f => set_text f None)).
    destruct (walk_fieldwise preserve_imports_text with_imports_summary
                preserve_imports_text_eq structure) as [-> _].
    rewrite List.map_map. apply List.map_ext. intros p.
    unfold with_imports_summary. destruct (kind_eqb _ _); reflexivity.
  - destruct (walk_fieldwise preserve_imports_text with_imports_summary
                preserve_imports_text_eq
                (remove_text_from_structure structure)) as [-> _].
    rewrite <- (List.map_map attrs with_imports_summary).
    destruct (walk_fieldwise remove_text_from_structure
                (fun f => set_text f None) remove_text_eq structure) as [-> _].
    rewrite List.map_map. apply List.map_ext. intros p.
    unfold with_imports_summary. cbn [type set_text text default].
    destruct (kind_eqb _ _); reflexivity.
Qed.

(** ** [clean_empty_nodes] *)

Lemma clean_empty_nodes_eq (f : fields) (l : list node) :
  clean_empty_nodes (Node f (Some l))
  = match List.map clean_empty_nodes l with
    | [] => Node f None
    | l' => Node f (Some l')
    end.
Proof. reflexivity. Qed.

Lemma Forall_flat_map_walk (P : node -> Prop) (l : list node) :
  Forall (fun c => Forall P (walk c)) l -> Forall P (flat_map walk l).
Proof.
  induction 1 as [|c l Hc _ IH]; cbn; [constructor|].
  apply Forall_app. auto.
Qed.

(** X4.  After [clean_empty_nodes] no dict of the tree has an empty
    ['nodes'] list; the dicts come in the same order with the same fields
    and the same children counted; and cleaning a cleaned tree changes
    nothing. *)
Theorem clean_empty_nodes_leaves_no_empty_list (structure : node) :
  Forall (fun p => nodes p <> Some []) (walk (clean_empty_nodes structure))
  /\ List.map attrs (walk (clean_empty_nodes structure))
     = List.map attrs (walk structure)
  /\ List.map (fun p => length (get_nodes p)) (walk (clean_empty_nodes structure))
     = List.map (fun p => length (get_nodes p)) (walk structure)
  /\ clean_empty_nodes (clean_empty_nodes structure)
     = clean_empty_nodes structure.
Proof.
  induction structure as [f|f l IH] using node_ind'.
  - cbn. repeat split. constructor; [discriminate|constructor].
  - rewrite clean_empty_nodes_eq.
    assert (Hall : Forall (fun p => nodes p <> Some [])
                     (flat_map walk (List.map clean_empty_nodes l))).
    { apply Forall_flat_map_walk. apply Forall_map.
      eapply Forall_impl; [exact IH|]. intros c (H & _). exact H. }
    assert (Hattrs : List.map attrs (flat_map walk (List.map clean_empty_nodes l))
                     = List.map attrs (flat_map walk l)).
    { clear Hall. induction IH as [|c l (_ & Hc & _) _ IHl]; [reflexivity|].
      cbn [List.map flat_map]. rewrite !map_app, Hc, IHl. reflexivity. }
    assert (Hcount : List.map (fun p => length (get_nodes p))
                       (flat_map walk (List.map clean_empty_nodes l))
                     = List.map (fun p => length (get_nodes p)) (flat_map walk l)).
    { clear Hall Hattrs.
      induction IH as [|c l (_ & _ & Hc & _) _ IHl]; [reflexivity|].
      cbn [List.map flat_map]. rewrite !map_app, Hc, IHl. reflexivity. }
    assert (Hfix : List.map clean_empty_nodes (List.map clean_empty_nodes l)
                   = List.map clean_empty_nodes l).
    { apply map_map_fixed. eapply Forall_impl; [exact IH|].
      intros c (_ & _ & _ & H). exact H. }
    assert (Hlen : length (List.map clean_empty_nodes l) = length l)
      by apply length_map.
    destruct (List.map clean_empty_nodes l) as [|c' l'] eqn:El.
    + destruct l; [|discriminate]. cbn. repeat split.
      constructor; [discriminate|constructor].
    + rewrite !walk_eq. cbn [default List.map attrs get_nodes nodes].
      unfold id. split; [|split; [|split]].
      * constructor; [discriminate|exact Hall].
      * rewrite Hattrs. reflexivity.
      * rewrite Hcount, Hlen. reflexivity.
      * rewrite clean_empty_nodes_eq, Hfix. reflexivity.
Qed.

(** ** What thinning leaves behind *)

Section ThinningResult.
Variable count_tokens : string -> string -> Z.
Variable min_token_threshold : Z.
Variable model : string.

Lemma thinned_nodes_reach_threshold_at (n : node) :
  Forall (fun p => mergeable_type p = true -> has_children (nodes p) = true ->
                   (min_token_threshold <= get_node_tokens count_tokens model p)%Z)
         (walk (thin_node count_tokens min_token_threshold model n)).
Proof.
  induction n as [f|f l IH] using node_ind'.
  - cbn. constructor; [discriminate|constructor].
  - destruct l as [|c l].
    + cbn. constructor; [discriminate|constructor].
    + rewrite thin_node_cons. cbv zeta.
      destruct ((_ <? _)%Z && _) eqn:Hmerge.
      * cbn. constructor; [discriminate|constructor].
      * rewrite walk_eq. cbn [default]. constructor.
        -- intros Htype _. unfold mergeable_type in Htype. cbn [attrs] in Htype.
           rewrite Htype, andb_true_r in Hmerge.
           apply Z.ltb_ge in Hmerge. exact Hmerge.
        -- apply Forall_flat_map_walk. apply Forall_map. exact IH.
Qed.

Lemma get_node_tokens_nonneg (n : node) :
  (forall t m, 0 <= count_tokens t m)%Z ->
  (0 <= get_node_tokens count_tokens model n)%Z.
Proof.
  intros Hpos. induction n as [f|f l IH] using node_ind'.
  - cbn. destruct (text f) as [t|]; [|lia].
    destruct (nonempty t); [apply Hpos|lia].
  - cbn [get_node_tokens].
    set (total := match text f with
                  | Some t => if nonempty t then count_tokens t model else 0%Z
                  | None => 0%Z
                  end).
    assert (H0 : (0 <= total)%Z).
    { unfold total. destruct (text f) as [t|]; [|lia].
      destruct (nonempty t); [apply Hpos|lia]. }
    clearbody total. revert total H0.
    induction IH as [|c l Hc _ IHl]; intros total H0; cbn; [exact H0|].
    apply IHl. lia.
Qed.

Lemma thin_node_identity (n : node) :
  (forall t m, 0 <= count_tokens t m)%Z -> (min_token_threshold <= 0)%Z ->
  thin_node count_tokens min_token_threshold model n = n.
Proof.
  intros Hpos Hthr. induction n as [f|f l IH] using node_ind'; [reflexivity|].
  apply thin_node_kept.
  - induction IH as [|c l Hc _ IHl]; cbn; [reflexivity|]. now rewrite Hc, IHl.
  - apply andb_false_intro1. apply Z.ltb_ge.
    pose proof (get_node_tokens_nonneg (Node f (Some l)) Hpos). lia.
Qed.

End ThinningResult.

(** X5.  In a thinned tree, every dict of type class, function or method
    that still has children carries at least [min_token_threshold] tokens,
    its descendants counted: no smaller one is left unmerged, at any
    depth. *)
Theorem thinned_nodes_reach_threshold (count_tokens : string -> string -> Z)
    (min_token_threshold : Z) (model : string) (structure : node) :
  Forall (fun p => mergeable_type p = true -> has_children (nodes p) = true ->
                   (min_token_threshold <= get_node_tokens count_tokens model p)%Z)
         (walk (tree_thinning_for_code count_tokens min_token_threshold model
                  structure)).
Proof.
  unfold tree_thinning_for_code. apply thinned_nodes_reach_threshold_at.
Qed.

(** X6.  With a token counter that never returns a negative count, a
    threshold of zero or less makes thinning the identity: nothing is
    merged, whatever the tree. *)
Theorem thinning_without_threshold_is_identity
    (count_tokens : string -> string -> Z) (min_token_threshold : Z)
    (model : string) (structure : node) :
  (forall t m, 0 <= count_tokens t m)%Z -> (min_token_threshold <= 0)%Z ->
  tree_thinning_for_code count_tokens min_token_threshold model structure
  = structure.
Proof.
  intros Hpos Hthr. unfold tree_thinning_for_code.
  apply thin_node_identity; assumption.
Qed.

Lemma thinning_without_threshold_is_identity_witness :
  tree_thinning_for_code tokens_by_length 0 "gpt-4o" sample_class
  = sample_class.
Proof.
  apply (thinning_without_threshold_is_identity tokens_by_length 0 "gpt-4o"
           sample_class).
  - intros t m. unfold tokens_by_length. lia.
  - lia.
Defined.

(** The same class under the default threshold: the method is merged into
    it, and its text is appended to the text of the class. *)
Example sample_class_merged :
  tree_thinning_for_code tokens_by_length 5000 "gpt-4o" sample_class
  = Node (set_text (attrs sample_class)
            (Some ("class A:" ++ nl ++ "  def m(self):" ++ nl ++ "    pass" ++ nl
                   ++ "  def m(self):" ++ nl ++ "    pass")%string))
         None.
Proof. vm_compute. reflexivity. Qed.

(** ** Strings *)

Lemma chars_str (l : list ascii) : chars (str l) = l.
Proof. apply list_ascii_of_string_of_list_ascii. Qed.

Lemma str_chars (s : string) : str (chars s) = s.
Proof. apply string_of_list_ascii_of_string. Qed.

Lemma length_chars (s : string) : length (chars s) = String.length s.
Proof. induction s as [|a s IH]; cbn; [reflexivity|]. now rewrite <- IH. Qed.

Lemma starts_with_firstn (n : nat) (l : list ascii) :
  starts_with (firstn n l) l = true.
Proof.
  revert n. induction l as [|a l IH]; intros [|n]; cbn; try reflexivity.
  rewrite Ascii.eqb_refl. apply IH.
Qed.

(** The first piece of a split holds no separator. *)
Lemma split_chars_head (c : ascii) (l : list ascii) :
  exists w ws, split_chars c l = w :: ws /\ ~ In c w /\ starts_with w l = true.
Proof.
  induction l as [|a l (w & ws & E & Hw & Hp)]; cbn.
  - exists [], []. repeat split. intros [].
  - destruct (Ascii.eqb a c) eqn:Eac.
    + exists [], (split_chars c l). repeat split. intros [].
    + rewrite E. exists (a :: w), ws. split; [reflexivity|]. split.
      * intros [->|H]; [|contradiction].
        rewrite Ascii.eqb_refl in Eac. discriminate.
      * cbn. rewrite Ascii.eqb_refl. exact Hp.
Qed.

Lemma count_char_absent (c : ascii) (l : list ascii) :
  ~ In c l -> count_char c l = 0.
Proof.
  unfold count_char. induction l as [|a l IH]; intros H; [reflexivity|].
  cbn. destruct (Ascii.eqb c a) eqn:E.
  - apply Ascii.eqb_eq in E. subst a. exfalso. apply H. left. reflexivity.
  - apply IH. intros Hin. apply H. right. exact Hin.
Qed.

Lemma py_split_head_spec (s : string) (c : ascii) :
  count_char c (chars (py_split_head s c)) = 0
  /\ py_startswith s (py_split_head s c) = true.
Proof.
  unfold py_split_head, py_split, py_startswith.
  destruct (split_chars_head c (chars s)) as (w & ws & E & Hw & Hp).
  rewrite E. cbn [List.map]. rewrite chars_str.
  split; [apply count_char_absent; exact Hw|exact Hp].
Qed.

(** ** Summaries of small dicts *)

(** The first piece of a split is the text up to the first separator:
    the whole text when it holds none. *)
Lemma split_chars_first (c : ascii) (l : list ascii) :
  exists w ws,
    split_chars c l = w :: ws /\ ~ In c w
    /\ (l = w \/ exists rest, l = w ++ c :: rest).
Proof.
  induction l as [|a l (w & ws & E & Hw & Hl)]; cbn.
  - exists [], []. repeat split; auto.
  - destruct (Ascii.eqb a c) eqn:Eac.
    + apply Ascii.eqb_eq in Eac. subst a.
      exists [], (split_chars c l). repeat split; auto.
      right. exists l. reflexivity.
    + rewrite E. exists (a :: w), ws. split; [reflexivity|]. split.
      * intros [->|H]; [|contradiction].
        rewrite Ascii.eqb_refl in Eac. discriminate.
      * destruct Hl as [->|(rest & ->)]; [left; reflexivity|].
        right. exists rest. reflexivity.
Qed.

Lemma str_app (l1 l2 : list ascii) : str (l1 ++ l2) = (str l1 ++ str l2)%string.
Proof. induction l1 as [|a l1 IH]; cbn; [reflexivity|]. f_equal. exact IH. Qed.

Lemma append_empty (s : string) : (s ++ EmptyString)%string = s.
Proof. induction s as [|a s IH]; cbn; [reflexivity|]. f_equal. exact IH. Qed.

(** [s.split(c)[0]] is the first line of [s]: [s] without what follows
    its first [c], that [c] included. *)
Lemma py_split_head_first (s : string) (c : ascii) :
  exists rest,
    s = (py_split_head s c ++ rest)%string
    /\ count_char c (chars (py_split_head s c)) = 0
    /\ (rest = EmptyString \/ exists r, rest = String c r).
Proof.
  unfold py_split_head, py_split.
  destruct (split_chars_first c (chars s)) as (w & ws & E & Hw & Hl).
  rewrite E. cbn [List.map]. rewrite chars_str.
  destruct Hl as [Hl|(rest & Hl)].
  - exists EmptyString. rewrite append_empty, <- Hl, str_chars.
    split; [reflexivity|]. split; [apply count_char_absent; rewrite Hl; exact Hw|].
    left. reflexivity.
  - exists (String c (str rest)).
    split; [rewrite <- (str_chars s), Hl, str_app; reflexivity|].
    split; [apply count_char_absent; exact Hw|]. right. eauto.
Qed.

(** X7.  A dict whose text counts fewer tokens than
    [summary_token_threshold] gets its summary without any request: the
    result is the same whatever the model call would return.  With a
    non-empty docstring it is the first line of the stripped docstring:
    it holds no newline, and what follows it in the stripped docstring is
    nothing or opens with a newline.  Otherwise it is the first 200
    characters of the text, or the whole text when that is shorter. *)
Theorem small_node_summary_needs_no_request
    (count_tokens : string -> string -> Z) (summary_token_threshold : Z)
    (model : string) (n : node) :
  (count_tokens (default EmptyString (text (attrs n))) model
   <? summary_token_threshold)%Z = true ->
  exists s,
    (forall ChatGPT_API_async : string -> string -> option string,
       get_code_node_summary count_tokens ChatGPT_API_async
         summary_token_threshold model n = Some s)
    /\ if truthy (docstring (attrs n))
       then exists rest,
              py_strip (default EmptyString (docstring (attrs n)))
              = (s ++ rest)%string
              /\ count_char newline (chars s) = 0
              /\ (rest = EmptyString \/ exists r, rest = String newline r)
       else String.length s
            = Nat.min 200 (String.length (default EmptyString (text (attrs n))))
            /\ py_startswith (default EmptyString (text (attrs n))) s = true.
Proof.
  intros Hsmall. unfold get_code_node_summary. rewrite Hsmall.
  destruct (truthy (docstring (attrs n))) eqn:Edoc.
  - eexists. split; [reflexivity|]. apply py_split_head_first.
  - set (node_text := default EmptyString (text (attrs n))).
    exists (py_prefix 200 node_text). split.
    + intros _. destruct node_text; reflexivity.
    + unfold py_prefix, py_startswith. rewrite chars_str. split.
      * rewrite <- !length_chars, chars_str. apply length_firstn.
      * apply starts_with_firstn.
Qed.

Lemma small_node_summary_needs_no_request_witness :
  exists s,
    (forall ChatGPT_API_async : string -> string -> option string,
       get_code_node_summary tokens_by_length ChatGPT_API_async 200 "gpt-4o"
         documented_function = Some s)
    /\ if truthy (docstring (attrs documented_function))
       then exists rest,
              py_strip (default EmptyString (docstring (attrs documented_function)))
              = (s ++ rest)%string
              /\ count_char newline (chars s) = 0
              /\ (rest = EmptyString \/ exists r, rest = String newline r)
       else String.length s
            = Nat.min 200
                (String.length (default EmptyString (text (attrs documented_function))))
            /\ py_startswith (default EmptyString (text (attrs documented_function))) s
               = true.
Proof.
  apply (small_node_summary_needs_no_request tokens_by_length 200 "gpt-4o"
           documented_function).
  reflexivity.
Defined.

(** ** Dispatch on the extension *)

Section Dispatch.
Variable ast_parse : string -> option (list Python.stmt).
Variable javalang_parse : string -> option Java.compilation_unit.
Variable ts_parse : string -> string -> option Cpp.ts_node.

Lemma supported_extensions_split (file_path : string) :
  endswith_any file_path supported_extensions
  = py_endswith file_path ".java" || py_endswith file_path ".kt"
    || endswith_any file_path cpp_extensions || py_endswith file_path ".py".
Proof.
  unfold endswith_any, supported_extensions, cpp_extensions. cbn [existsb].
  destruct (py_endswith file_path ".py"), (py_endswith file_path ".java"),
    (py_endswith file_path ".kt"), (py_endswith file_path ".c"),
    (py_endswith file_path ".h"), (py_endswith file_path ".cpp"),
    (py_endswith file_path ".hpp"), (py_endswith file_path ".cc"),
    (py_endswith file_path ".cxx"); reflexivity.
Qed.

(** The dict of a file that was read, whichever builder made it. *)
Lemma build_file_tree_some (file_path code_content : string) :
  endswith_any file_path supported_extensions = true ->
  exists children,
    build_file_tree ast_parse javalang_parse ts_parse file_path (Some code_content)
    = Some (file_node file_path code_content (py_split code_content newline)
              children).
Proof.
  rewrite supported_extensions_split. unfold build_file_tree.
  destruct (py_endswith file_path ".java"); [intros _; eexists; reflexivity|].
  destruct (py_endswith file_path ".kt"); [intros _; eexists; reflexivity|].
  destruct (endswith_any file_path cpp_extensions);
    [intros _; eexists; reflexivity|].
  destruct (py_endswith file_path ".py"); [intros _; eexists; reflexivity|].
  discriminate.
Qed.

Lemma build_file_tree_none (file_path : string) (content : option string) :
  build_file_tree ast_parse javalang_parse ts_parse file_path content = None
  <-> content = None \/ endswith_any file_path supported_extensions = false.
Proof.
  split.
  - intros H. destruct content as [c|]; [right|left; reflexivity].
    destruct (endswith_any file_path supported_extensions) eqn:E; [|reflexivity].
    destruct (build_file_tree_some file_path c E) as (children & E').
    rewrite E' in H. discriminate.
  - rewrite supported_extensions_split. unfold build_file_tree.
    intros [->|H].
    + destruct (py_endswith file_path ".java"); [reflexivity|].
      destruct (py_endswith file_path ".kt"); [reflexivity|].
      destruct (endswith_any file_path cpp_extensions); [reflexivity|].
      destruct (py_endswith file_path ".py"); reflexivity.
    + destruct (py_endswith file_path ".java"); [discriminate|].
      destruct (py_endswith file_path ".kt"); [discriminate|].
      destruct (endswith_any file_path cpp_extensions); [discriminate|].
      destruct (py_endswith file_path ".py"); [discriminate|reflexivity].
Qed.

End Dispatch.

(** ** The types of the dicts an extractor returns *)

Lemma typed_tree_node (ks owners : list kind) (f : fields) (children : list node) :
  kind_in (type f) ks = true ->
  Forall (child_typed owners (type f)) children ->
  Forall (typed_tree ks owners) children ->
  typed_tree ks owners (Node f (Some children)).
Proof.
  intros Hk Hc Ht. unfold typed_tree. rewrite walk_eq. cbn [default].
  constructor; [split; assumption|].
  apply Forall_flat_map_walk. exact Ht.
Qed.

Lemma typed_forest (ks owners : list kind) (forest : list node) :
  Forall (fun r => type (attrs r) <> method /\ typed_tree ks owners r) forest ->
  kinds_within ks forest /\ methods_belong_to owners forest.
Proof.
  intros H. unfold kinds_within, methods_belong_to, walk_forest.
  split; [|split].
  - apply Forall_flat_map_walk. eapply Forall_impl; [exact H|].
    intros r [_ Hr]. eapply Forall_impl; [exact Hr|]. intros p [Hp _]. exact Hp.
  - eapply Forall_impl; [exact H|]. intros r [Hr _]. exact Hr.
  - apply Forall_flat_map_walk. eapply Forall_impl; [exact H|].
    intros r [_ Hr]. eapply Forall_impl; [exact Hr|]. intros p [_ Hp]. exact Hp.
Qed.

Lemma Forall_flat_map_option_list {A B : Type} (P : B -> Prop)
    (g : A -> option B) (l : list A) :
  (forall x y, In x l -> g x = Some y -> P y) ->
  Forall P (flat_map (fun x => option_list (g x)) l).
Proof.
  intros H. apply List.Forall_forall. intros y Hy.
  apply in_flat_map in Hy as (x & Hx & Hy).
  destruct (g x) as [y'|] eqn:E; [|destruct Hy].
  destruct Hy as [<-|[]]. eauto.
Qed.

Section PythonTypes.
Import Python.

(** What [process_node] returns under a parent type: a method only below
    a class, a function only elsewhere. *)
Lemma py_process_typed (s : stmt) : forall pt n,
  process_node s pt = Some n ->
  (type (attrs n) = method -> pt = Some class)
  /\ (type (attrs n) = function -> pt <> Some class)
  /\ typed_tree python_kinds [class] n.
Proof.
  induction s as [name l e d body IH|a name l e ar r d body IH|u l e|l e c|l e]
    using stmt_ind'; intros pt n Hn; cbn in Hn; try discriminate.
  - injection Hn as <-. cbn [attrs type code_fields].
    split; [discriminate|]. split; [discriminate|].
    rewrite List.Forall_forall in IH.
    apply typed_tree_node; [reflexivity| |].
    + apply Forall_flat_map_option_list. intros x y Hx Hy.
      destruct (IH x Hx _ _ Hy) as (Hm & Hf & _). split.
      * reflexivity.
      * intros Hfun. exfalso. apply (Hf Hfun). reflexivity.
    + apply Forall_flat_map_option_list. intros x y Hx Hy.
      apply (IH x Hx _ _ Hy).
  - injection Hn as <-. cbn [attrs type code_fields].
    rewrite List.Forall_forall in IH.
    assert (Hkind : forall k : kind,
              (match pt with Some class => method | _ => function end) = k ->
              k = method \/ k = function).
    { intros k <-. destruct pt as [[]|]; auto. }
    split; [|split].
    + destruct pt as [[]|]; congruence.
    + destruct pt as [[]|]; congruence.
    + apply typed_tree_node.
      * destruct (Hkind _ eq_refl) as [->| ->]; reflexivity.
      * apply Forall_flat_map_option_list. intros x y Hx Hy.
        destruct (IH x Hx _ _ Hy) as (Hm & Hf & _). split.
        -- intros Hmeth. specialize (Hm Hmeth). discriminate.
        -- intros _. destruct (Hkind _ eq_refl) as [->| ->]; reflexivity.
      * apply Forall_flat_map_option_list. intros x y Hx Hy.
        apply (IH x Hx _ _ Hy).
Qed.

Lemma py_imports_node_typed (current_imports : list stmt) :
  Forall (fun r => type (attrs r) <> method /\ typed_tree python_kinds [class] r)
         (imports_node current_imports).
Proof.
  destruct current_imports as [|first rest]; [constructor|].
  cbn [imports_node]. constructor; [|constructor].
  split; [discriminate|].
  apply typed_tree_node; [reflexivity| |].
  - apply Forall_map. apply List.Forall_forall. intros imp _.
    split; discriminate.
  - apply Forall_map. apply List.Forall_forall. intros imp _.
    apply typed_tree_node; [reflexivity|constructor|constructor].
Qed.

Lemma py_top_level_typed (body : list stmt) : forall current_imports nodes,
  Forall (fun r => type (attrs r) <> method /\ typed_tree python_kinds [class] r)
         nodes ->
  Forall (fun r => type (attrs r) <> method /\ typed_tree python_kinds [class] r)
         (top_level body current_imports nodes).
Proof.
  induction body as [|s body IH]; intros current_imports nodes Hn;
    cbn [top_level].
  - apply Forall_app. split; [exact Hn|apply py_imports_node_typed].
  - destruct (is_import s); [apply IH; exact Hn|].
    apply IH. apply Forall_app. split; [exact Hn|].
    apply Forall_app. split; [apply py_imports_node_typed|].
    destruct (process_node s None) as [n|] eqn:En; [|constructor].
    constructor; [|constructor].
    destruct (py_process_typed s None n En) as (Hm & _ & Ht).
    split; [|exact Ht]. intros H. specialize (Hm H). discriminate.
Qed.

Lemma python_typed (ast_parse : string -> option (list stmt))
    (code_content : string) (lines : list string) :
  Forall (fun r => type (attrs r) <> method /\ typed_tree python_kinds [class] r)
         (extract_nodes_from_python ast_parse code_content lines).
Proof.
  unfold extract_nodes_from_python.
  destruct (ast_parse code_content) as [body|]; [|constructor].
  apply py_top_level_typed. constructor.
Qed.

End PythonTypes.

Section CppTypes.
Import Cpp.

Lemma cpp_process_typed (ts : ts_node) : forall pt,
  Forall (fun n => (type (attrs n) = method ->
                      pt = Some class \/ pt = Some struct)
                   /\ (type (attrs n) = function ->
                         pt <> Some class /\ pt <> Some struct)
                   /\ typed_tree cpp_kinds [class; struct] n)
         (as_list (process_node ts pt)).
Proof.
  induction ts as [t s e d n children IH] using ts_node_ind'.
  intros pt. cbn [process_node]. rewrite List.Forall_forall in IH.
  destruct (mapped_type t pt) as [mapped|] eqn:Em.
  - cbn [get_line_range as_list]. constructor; [|constructor].
    cbn [attrs type code_fields].
    assert (Hmapped : (mapped = method -> pt = Some class \/ pt = Some struct)
                      /\ (mapped = function -> pt <> Some class /\ pt <> Some struct)
                      /\ kind_in mapped cpp_kinds = true).
    { unfold mapped_type in Em.
      destruct (type_in t ["function_definition"; "template_function"]).
      - destruct pt as [[]|]; injection Em as <-;
          (split; [|split]); try discriminate; try reflexivity; auto;
          intros _; split; discriminate.
      - destruct (type_in t ["class_specifier"; "struct_specifier"]).
        + destruct (String.eqb t "struct_specifier"); injection Em as <-;
            (split; [|split]); try discriminate; reflexivity.
        + destruct (String.eqb t "namespace_definition"); [|discriminate].
          injection Em as <-. (split; [|split]); try discriminate; reflexivity. }
    destruct Hmapped as (Hm & Hf & Hk).
    split; [exact Hm|]. split; [exact Hf|].
    apply typed_tree_node; [exact Hk| |].
    + apply List.Forall_forall. intros c Hc.
      apply in_flat_map in Hc as (x & Hx & Hc).
      pose proof (IH x Hx (Some mapped)) as Hall.
      rewrite List.Forall_forall in Hall.
      destruct (Hall c Hc) as (Hcm & Hcf & _). split.
      * intros H. destruct (Hcm H) as [E|E]; injection E as E; rewrite E;
          reflexivity.
      * intros H. destruct (Hcf H) as [H1 H2].
        destruct mapped; try reflexivity; congruence.
    + apply List.Forall_forall. intros c Hc.
      apply in_flat_map in Hc as (x & Hx & Hc).
      pose proof (IH x Hx (Some mapped)) as Hall.
      rewrite List.Forall_forall in Hall. apply (Hall c Hc).
  - cbn [as_list]. apply List.Forall_forall. intros c Hc.
    apply in_flat_map in Hc as (x & Hx & Hc).
    pose proof (IH x Hx pt) as Hall.
    rewrite List.Forall_forall in Hall. apply (Hall c Hc).
Qed.

Lemma cpp_typed (ts_parse : string -> string -> option ts_node)
    (code_content : string) (lines : list string) (lang : string) :
  Forall (fun r => type (attrs r) <> method /\ typed_tree cpp_kinds [class; struct] r)
         (extract_nodes_from_cpp ts_parse code_content lines lang).
Proof.
  unfold extract_nodes_from_cpp.
  destruct (negb _); [constructor|].
  destruct (ts_parse lang code_content) as [root|]; [|constructor].
  eapply Forall_impl; [apply cpp_process_typed|].
  intros r (Hm & _ & Ht). split; [|exact Ht].
  intros H. destruct (Hm H); discriminate.
Qed.

End CppTypes.

Section KotlinTyping.
Import Kotlin.

Lemma lookup_alter_Some (g : hnode -> hnode) (a : nat) (h : list hnode)
    (p : nat) (x : hnode) :
  alter g a h !! p = Some x ->
  exists y, h !! p = Some y /\ ((p <> a /\ x = y) \/ (p = a /\ x = g y)).
Proof.
  intros H. destruct (decide (p = a)) as [->|Hne].
  - rewrite list_lookup_alter_eq in H.
    destruct (h !! a) as [y|]; cbn in H; [|discriminate].
    injection H as <-. eauto.
  - rewrite list_lookup_alter_ne in H by congruence. eauto.
Qed.

(** An update that keeps types and child lists keeps the discipline. *)
Lemma Typed_alter (g : hnode -> hnode) (a : nat) (h : list hnode)
    (roots : list nat) :
  (forall n, h_type (g n) = h_type n /\ h_nodes (g n) = h_nodes n) ->
  Typed h roots -> Typed (alter g a h) roots.
Proof.
  intros Hg [Hk Hr Hc].
  assert (Hlook : forall p x, alter g a h !! p = Some x ->
            exists y, h !! p = Some y /\ h_type x = h_type y
                      /\ h_nodes x = h_nodes y).
  { intros p x H. apply lookup_alter_Some in H as (y & Hy & [[_ ->]|[_ ->]]);
      exists y; [auto|]. destruct (Hg y). auto. }
  split.
  - intros p x H. destruct (Hlook p x H) as (y & Hy & -> & _). eauto.
  - intros r x Hin H. destruct (Hlook r x H) as (y & Hy & -> & _). eauto.
  - intros p x c m Hp Hin Hm.
    destruct (Hlook p x Hp) as (y & Hy & -> & Hn).
    destruct (Hlook c m Hm) as (m' & Hm' & -> & _).
    rewrite Hn in Hin. eauto.
Qed.

Lemma Typed_close_scopes (balance : Z) (line_num : nat) (roots : list nat) :
  forall stk h,
    Typed h roots -> Typed (fst (close_scopes h stk balance line_num)) roots.
Proof.
  induction stk as [|top rest IH]; intros h HT; cbn; [exact HT|].
  destruct (_ <=? _)%Z; [|exact HT].
  apply IH. apply Typed_alter; [|exact HT]. intros n. split; reflexivity.
Qed.

(** Appending a dict without children. *)
Lemma Typed_alloc la lo (h : list hnode) (roots : list nat) stk imp (n : hnode) :
  Inv la lo h roots stk imp -> Typed h roots ->
  kind_in (h_type n) kotlin_kinds = true -> h_nodes n = [] ->
  Typed (h ++ [n]) roots.
Proof.
  intros HI [Hk Hr Hc] Hkind Hnil. split.
  - intros a x H. apply lookup_snoc_Some in H as [[_ H]|[_ <-]]; eauto.
  - intros r x Hin H. apply lookup_snoc_Some in H as [[_ H]|[E _]]; [eauto|].
    pose proof (inv_roots _ _ _ _ _ _ HI) as Hroots.
    rewrite List.Forall_forall in Hroots. specialize (Hroots r Hin). lia.
  - intros p x c m Hp Hin Hm.
    apply lookup_snoc_Some in Hp as [[_ Hp]|[_ <-]].
    + pose proof (child_in_range _ _ _ _ _ _ _ _ _ HI Hp Hin) as Hlt.
      rewrite lookup_app_l in Hm by exact Hlt. eauto.
    + rewrite Hnil in Hin. destruct Hin.
Qed.

Lemma Typed_add_root (h : list hnode) (roots : list nat) (r : nat) :
  Typed h roots ->
  (forall n, h !! r = Some n -> h_type n <> method) ->
  Typed h (roots ++ [r]).
Proof.
  intros [Hk Hr Hc] Hnew. split; auto.
  intros r' x Hin H. apply in_app_or in Hin as [Hin|[<-|[]]]; eauto.
Qed.

Lemma Typed_flush la lo (st : state) :
  Inv la lo (heap st) (st_nodes st) (stack st) (import_lines st) ->
  Typed (heap st) (st_nodes st) ->
  Typed (heap (flush_imports st)) (st_nodes (flush_imports st)).
Proof.
  intros HI HT. unfold flush_imports.
  destruct (import_lines st) as [[s e]|]; [|exact HT]. cbn.
  apply Typed_add_root.
  - eapply Typed_alloc; eauto; reflexivity.
  - intros n Hn. rewrite list_lookup_middle in Hn by reflexivity.
    injection Hn as <-. discriminate.
Qed.

Lemma class_like_is_kotlin_kind (k : kind) :
  kind_in k kotlin_owners = true ->
  kind_in k kotlin_kinds = true /\ k <> method /\ k <> function.
Proof. destruct k; cbn; intros H; try discriminate; repeat split; discriminate. Qed.

(** The type [new_node] gives a dict, by the type of the innermost open
    dict. *)
Lemma new_node_typed mc mf line line_num top n :
  new_node mc mf line line_num top = Some n ->
  h_nodes n = []
  /\ kind_in (h_type n) kotlin_kinds = true
  /\ (h_type n = method ->
      exists k, top = Some k /\ kind_in k kotlin_owners = true)
  /\ (h_type n = function ->
      forall k, top = Some k -> kind_in k kotlin_owners = false).
Proof.
  unfold new_node. destruct mc as [m|].
  - intros H. injection H as <-. cbn.
    destruct (class_like_is_kotlin_kind _ (node_type_of_class_like (kind_type m)))
      as (Hk & Hm & Hf).
    repeat split; [exact Hk|contradiction|contradiction].
  - destruct mf as [name|]; [|discriminate].
    intros H. unfold kotlin_owners. destruct top as [k|].
    + destruct (kind_in k [class; interface; object; enum]) eqn:E;
        injection H as <-; cbn [h_nodes h_type];
        (split; [reflexivity|]); (split; [reflexivity|]).
      * split; [eauto|discriminate].
      * split; [discriminate|]. intros _ k' Hk'. congruence.
    + injection H as <-. cbn [h_nodes h_type].
      split; [reflexivity|]. split; [reflexivity|]. split; [discriminate|].
      intros _ k' Hk'. discriminate.
Qed.

Lemma Typed_push la lo (h : list hnode) (roots : list nat) (stk : list frame)
    imp (balance : Z) (line : string) mc mf line_num (n : hnode) :
  Inv la lo h roots stk imp -> Typed h roots ->
  new_node mc mf line line_num (top_type h stk) = Some n ->
  Typed (push_node h roots stk balance line n).1.1
        (push_node h roots stk balance line n).1.2.
Proof.
  intros HI HT Hn.
  destruct (new_node_typed _ _ _ _ _ _ Hn) as (Hnil & Hkind & Hmeth & Hfun).
  pose proof (Typed_alloc _ _ _ _ _ _ n HI HT Hkind Hnil) as HT1.
  assert (Hnew : (h ++ [n]) !! length h = Some n)
    by (apply list_lookup_middle; reflexivity).
  unfold push_node. destruct stk as [|top rest]; cbn [fst snd].
  - apply Typed_add_root; [exact HT1|].
    intros x Hx. rewrite Hnew in Hx. injection Hx as <-.
    intros H. destruct (Hmeth H) as (k & Hk & _). discriminate.
  - assert (Htop : f_node top < length h).
    { apply (stack_in_range _ _ _ _ _ _ _ HI). left. reflexivity. }
    rewrite <- alter_app_l by exact Htop.
    destruct HT1 as [Hk Hr Hc].
    assert (Hlook : forall p x,
              alter (fun m => add_child m (length h)) (f_node top) (h ++ [n]) !! p
              = Some x ->
              exists y, (h ++ [n]) !! p = Some y /\ h_type x = h_type y
                        /\ ((p <> f_node top /\ h_nodes x = h_nodes y)
                            \/ (p = f_node top
                                /\ h_nodes x = h_nodes y ++ [length h]))).
    { intros p x H. apply lookup_alter_Some in H as (y & Hy & [[Hne ->]|[-> ->]]);
        exists y; auto. }
    split.
    + intros p x H. destruct (Hlook p x H) as (y & Hy & -> & _). eauto.
    + intros r x Hin H. destruct (Hlook r x H) as (y & Hy & -> & _). eauto.
    + intros p x c m Hp Hin Hm.
      destruct (Hlook p x Hp) as (y & Hy & -> & Hnodes).
      destruct (Hlook c m Hm) as (m' & Hm' & -> & _).
      destruct Hnodes as [[_ E]|[-> E]]; rewrite E in Hin; [eauto|].
      apply in_app_or in Hin as [Hin|[<-|[]]]; [eauto|].
      rewrite Hnew in Hm'. injection Hm' as <-.
      rewrite lookup_app_l in Hy by exact Htop.
      cbn [top_type] in Hmeth, Hfun. rewrite Hy in Hmeth, Hfun.
      cbn in Hmeth, Hfun. split.
      * intros H. destruct (Hmeth H) as (k & Hk' & Hown).
        injection Hk' as <-. exact Hown.
      * intros H. apply (Hfun H). reflexivity.
Qed.

Lemma Typed_step L st line :
  Inv L L (heap st) (st_nodes st) (stack st) (import_lines st) ->
  Typed (heap st) (st_nodes st) ->
  Typed (heap (step st (S L) line)) (st_nodes (step st (S L) line)).
Proof.
  intros HI HT. unfold step. cbv zeta.
  destruct (is_import (py_strip line)); [exact HT|].
  match goal with
  | |- context [if ?c then flush_imports st else st] =>
      set (st1 := if c then flush_imports st else st)
  end.
  assert (H1 : Inv L L (heap st1) (st_nodes st1) (stack st1) (import_lines st1)
               /\ Typed (heap st1) (st_nodes st1)).
  { unfold st1. destruct (_ && _); [|auto].
    split; [apply Inv_flush; exact HI|eapply Typed_flush; eauto]. }
  destruct H1 as [HI1 HT1]. clearbody st1.
  set (b := (current_brace_balance st1 + count_braces line)%Z).
  pose proof (Inv_close_scopes (S L) b _ _ _ _ _ _ HI1 ltac:(lia) ltac:(lia)) as HI2.
  pose proof (Typed_close_scopes b (S L) (st_nodes st1) (stack st1) (heap st1) HT1)
    as HT2.
  destruct (close_scopes (heap st1) (stack st1) b (S L)) as [h stk].
  cbn [fst snd] in HI2, HT2.
  destruct (new_node _ _ _ _ _) as [n|] eqn:En.
  - pose proof (Typed_push _ _ _ _ _ _ b line _ _ _ n HI2 HT2 En) as HT3.
    destruct (push_node h (st_nodes st1) stk b line n) as [[h' roots'] stk'].
    exact HT3.
  - exact HT2.
Qed.

Lemma Typed_scan_from lines : forall L st,
  Inv L L (heap st) (st_nodes st) (stack st) (import_lines st) ->
  Typed (heap st) (st_nodes st) ->
  Typed (heap (scan_from st (S L) lines)) (st_nodes (scan_from st (S L) lines)).
Proof.
  induction lines as [|line rest IH]; intros L st HI HT; cbn; [exact HT|].
  apply IH; [apply Inv_step; exact HI|apply Typed_step; assumption].
Qed.

Lemma Typed_scan lines : Typed (heap (scan lines)) (st_nodes (scan lines)).
Proof.
  unfold scan.
  destruct (Inv_scan_from lines 0 initial Inv_initial) as (L & HI).
  eapply Typed_flush; [exact HI|].
  apply Typed_scan_from; [exact Inv_initial|].
  split.
  - intros a n H. cbn in H. rewrite lookup_nil in H. discriminate.
  - intros r n [].
  - intros p n c m H. cbn in H. rewrite lookup_nil in H. discriminate.
Qed.

(** The trees read back from a typed store are typed. *)
Lemma build_typed (h : list hnode) (roots : list nat) :
  Typed h roots ->
  forall fuel a t, In t (build fuel h a) ->
    typed_tree kotlin_kinds kotlin_owners t.
Proof.
  intros HT. induction fuel as [|fuel IH]; intros a t Ht; [destruct Ht|].
  destruct (in_build _ _ _ _ Ht) as (n & fuel' & En & Hf & ->).
  injection Hf as <-.
  apply typed_tree_node.
  - exact (typed_kinds _ _ HT a n En).
  - apply List.Forall_forall. intros c Hc.
    apply in_flat_map in Hc as (a' & Ha' & Hc).
    destruct (in_build _ _ _ _ Hc) as (m & fuel' & Em & _ & ->).
    exact (typed_child _ _ HT a n a' m En Ha' Em).
  - apply List.Forall_forall. intros c Hc.
    apply in_flat_map in Hc as (a' & Ha' & Hc). eapply IH; eauto.
Qed.

Lemma kotlin_typed (code_content : string) (lines : list string) :
  Forall (fun r => type (attrs r) <> method
                   /\ typed_tree kotlin_kinds kotlin_owners r)
         (extract_nodes_from_kotlin code_content lines).
Proof.
  unfold extract_nodes_from_kotlin, forest.
  pose proof (Typed_scan lines) as HT.
  apply List.Forall_forall. intros t Ht.
  apply in_flat_map in Ht as (a & Ha & Ht). split.
  - destruct (in_build _ _ _ _ Ht) as (n & fuel' & En & _ & ->).
    exact (typed_roots _ _ HT a n Ha En).
  - eapply build_typed; eauto.
Qed.

End KotlinTyping.

Section JavaTypes.
Import Java.

(** The dicts [process_node] builds are type declarations and methods. *)
Lemma java_process_kinds (m : member) : forall pt n,
  process_node m pt = Some n ->
  Forall (fun p => kind_in (type (attrs p)) [class; interface; enum; method] = true)
         (walk n).
Proof.
  induction m as [k name pos doc ann body IH|c name pos ps r doc ann body|]
    using member_ind'; intros pt n Hn; cbn in Hn; try discriminate.
  - injection Hn as <-. rewrite walk_eq. cbn [default]. constructor.
    + destruct k; reflexivity.
    + apply Forall_flat_map_walk. rewrite List.Forall_forall in IH.
      apply Forall_flat_map_option_list. intros x y Hx Hy. eapply IH; eauto.
  - injection Hn as <-. cbn. constructor; [reflexivity|constructor].
Qed.

Lemma java_types_kinds (pt : option kind) (types : list member) :
  Forall (fun p => kind_in (type (attrs p)) [class; interface; enum; method] = true)
         (walk_forest (flat_map (fun t => option_list (process_node t pt)) types)).
Proof.
  apply Forall_flat_map_walk. apply Forall_flat_map_option_list.
  intros x y _ Hy. eapply java_process_kinds; eauto.
Qed.

Lemma java_kinds_within (javalang_parse : string -> option compilation_unit)
    (code_content : string) (lines : list string) :
  kinds_within java_kinds
    (extract_nodes_from_java javalang_parse code_content lines).
Proof.
  unfold kinds_within, extract_nodes_from_java.
  destruct (javalang_parse code_content) as [tree|]; [|constructor].
  unfold nodes_of_unit. rewrite walk_forest_app. apply Forall_app. split.
  - destruct (cu_imports tree); cbn; [constructor|].
    constructor; [reflexivity|constructor].
  - eapply Forall_impl; [apply java_types_kinds|].
    intros p Hp. cbn beta in Hp. destruct (type (attrs p)); try discriminate;
      reflexivity.
Qed.

End JavaTypes.

(** X9.  Each extractor keeps to its own types, at every depth and for
    every input: the Python extractor returns dicts of type class,
    function, method, imports and import only; the Java extractor class,
    interface, enum, method and imports; the Kotlin scanner class,
    interface, enum, object, function, method and imports; the C/C++
    extractor class, struct, namespace, function and method.  None returns
    a file or a directory dict. *)
Theorem extractors_keep_to_their_types
    (ast_parse : string -> option (list Python.stmt))
    (javalang_parse : string -> option Java.compilation_unit)
    (ts_parse : string -> string -> option Cpp.ts_node)
    (code_content : string) (lines : list string) (lang : string) :
  kinds_within python_kinds
    (Python.extract_nodes_from_python ast_parse code_content lines)
  /\ kinds_within java_kinds
       (Java.extract_nodes_from_java javalang_parse code_content lines)
  /\ kinds_within kotlin_kinds
       (Kotlin.extract_nodes_from_kotlin code_content lines)
  /\ kinds_within cpp_kinds
       (Cpp.extract_nodes_from_cpp ts_parse code_content lines lang).
Proof.
  split; [|split; [|split]].
  - apply (typed_forest python_kinds [class]). apply python_typed.
  - apply java_kinds_within.
  - apply (typed_forest kotlin_kinds kotlin_owners). apply kotlin_typed.
  - apply (typed_forest cpp_kinds [class; struct]). apply cpp_typed.
Qed.

(** X10.  In what the Python extractor returns, a function is typed
    ['method'] exactly when it is a direct child of a class: no dict at the
    top level is a method, every method's parent is a class, and no
    function's parent is one.  A function nested in a method is a
    ['function']. *)
Theorem python_methods_are_children_of_classes
    (ast_parse : string -> option (list Python.stmt))
    (code_content : string) (lines : list string) :
  methods_belong_to [class]
    (Python.extract_nodes_from_python ast_parse code_content lines).
Proof.
  apply (typed_forest python_kinds [class]). apply python_typed.
Qed.

(** X11.  In what the C/C++ extractor returns, a function definition is
    typed ['method'] exactly when the nearest dict above it is a class or a
    struct, however many unmapped CST nodes lie between them: no dict at
    the top is a method, every method's parent is a class or a struct, and
    no function's parent is one (a function in a namespace inside a class
    is a ['function']). *)
Theorem cpp_methods_are_children_of_classes_and_structs
    (ts_parse : string -> string -> option Cpp.ts_node)
    (code_content : string) (lines : list string) (lang : string) :
  methods_belong_to [class; struct]
    (Cpp.extract_nodes_from_cpp ts_parse code_content lines lang).
Proof.
  apply (typed_forest cpp_kinds [class; struct]). apply cpp_typed.
Qed.

(** X12.  In what the Kotlin scanner returns, for any lines whatever, a
    function is typed ['method'] exactly when the dict it was attached to
    is a class, an interface, an object or an enum: no dict at the top
    level is a method, every method's parent has one of these four types,
    and no function's parent has. *)
Theorem kotlin_methods_are_children_of_class_likes
    (code_content : string) (lines : list string) :
  methods_belong_to kotlin_owners
    (Kotlin.extract_nodes_from_kotlin code_content lines).
Proof.
  apply (typed_forest kotlin_kinds kotlin_owners). apply kotlin_typed.
Qed.

(** ** Splitting into lines and joining again *)

Lemma py_join_cons (sep p q : string) (ps : list string) :
  py_join sep (p :: q :: ps) = (p ++ sep ++ py_join sep (q :: ps))%string.
Proof. reflexivity. Qed.

Lemma split_chars_nonempty (c : ascii) (l : list ascii) : split_chars c l <> [].
Proof.
  destruct (split_chars_head c l) as (w & ws & E & _). rewrite E. discriminate.
Qed.

Lemma str_cons (a : ascii) (l : list ascii) : str (a :: l) = String a (str l).
Proof. reflexivity. Qed.

Lemma append_cons (a : ascii) (s t : string) :
  (String a s ++ t)%string = String a (s ++ t).
Proof. reflexivity. Qed.

(** Joining the pieces of a split with the separator gives the text back. *)
Lemma join_split (c : ascii) (l : list ascii) :
  py_join (String c EmptyString) (List.map str (split_chars c l)) = str l.
Proof.
  induction l as [|a l IH]; [reflexivity|].
  cbn [split_chars]. destruct (Ascii.eqb a c) eqn:E.
  - apply Ascii.eqb_eq in E. subst a.
    destruct (split_chars c l) as [|w ws] eqn:Es;
      [exfalso; eapply split_chars_nonempty; eauto|].
    cbn [List.map] in *. rewrite py_join_cons, IH. reflexivity.
  - destruct (split_chars c l) as [|w ws] eqn:Es;
      [exfalso; eapply split_chars_nonempty; eauto|].
    cbn [List.map] in *. destruct ws as [|w' ws].
    + cbn [List.map py_join] in *. rewrite !str_cons, IH. reflexivity.
    + cbn [List.map] in *. rewrite py_join_cons in *.
      rewrite (str_cons a w), (str_cons a l), append_cons, IH. reflexivity.
Qed.

Lemma py_join_split (s : string) (c : ascii) :
  py_join (String c EmptyString) (py_split s c) = s.
Proof. unfold py_split. rewrite join_split. apply str_chars. Qed.

(** No piece of a split holds the separator. *)
Lemma split_chars_pieces (c : ascii) (l : list ascii) :
  Forall (fun w => ~ In c w) (split_chars c l).
Proof.
  induction l as [|a l IH]; cbn.
  - constructor; [intros []|constructor].
  - destruct (Ascii.eqb a c) eqn:E.
    + constructor; [intros []|exact IH].
    + destruct (split_chars c l) as [|w ws]; [constructor; [|constructor]|].
      * intros [->|[]]. rewrite Ascii.eqb_refl in E. discriminate.
      * apply Forall_cons_iff in IH as [Hw Hws]. constructor; [|exact Hws].
        intros [->|H]; [|contradiction].
        rewrite Ascii.eqb_refl in E. discriminate.
Qed.

Lemma split_chars_no_sep (c : ascii) (w : list ascii) :
  ~ In c w -> split_chars c w = [w].
Proof.
  induction w as [|a w IH]; intros H; [reflexivity|].
  cbn. destruct (Ascii.eqb a c) eqn:E.
  - apply Ascii.eqb_eq in E. subst a. exfalso. apply H. left. reflexivity.
  - rewrite IH; [reflexivity|]. intros Hin. apply H. right. exact Hin.
Qed.

Lemma split_chars_app (c : ascii) (w rest : list ascii) :
  ~ In c w ->
  split_chars c (w ++ c :: rest) = w :: split_chars c rest.
Proof.
  induction w as [|a w IH]; intros H; cbn.
  - rewrite Ascii.eqb_refl. reflexivity.
  - destruct (Ascii.eqb a c) eqn:E.
    + apply Ascii.eqb_eq in E. subst a. exfalso. apply H. left. reflexivity.
    + rewrite IH; [reflexivity|]. intros Hin. apply H. right. exact Hin.
Qed.

(** Splitting the join of pieces that hold no separator gives the pieces
    back, when there is at least one. *)
Lemma split_join (c : ascii) (parts : list string) :
  parts <> [] ->
  Forall (fun p => ~ In c (chars p)) parts ->
  py_split (py_join (String c EmptyString) parts) c = parts.
Proof.
  intros Hne Hall. induction Hall as [|p ps Hp Hps IH]; [contradiction|].
  destruct ps as [|q ps].
  - cbn [py_join]. unfold py_split. rewrite split_chars_no_sep by exact Hp.
    cbn. rewrite str_chars. reflexivity.
  - rewrite py_join_cons. unfold py_split in *.
    rewrite chars_app. cbn [String.append chars list_ascii_of_string].
    change (list_ascii_of_string (py_join (String c EmptyString) (q :: ps)))
      with (chars (py_join (String c EmptyString) (q :: ps))).
    rewrite split_chars_app by exact Hp.
    cbn [List.map]. rewrite str_chars, IH by discriminate. reflexivity.
Qed.

Lemma py_split_pieces (s : string) (c : ascii) :
  Forall (fun p => ~ In c (chars p)) (py_split s c).
Proof.
  unfold py_split. apply Forall_map.
  eapply Forall_impl; [apply split_chars_pieces|].
  intros w Hw. cbn beta. rewrite chars_str. exact Hw.
Qed.

(** ** The text of the dicts *)

Lemma add_text_to_node_eq (lines : list string) (f : fields)
    (ns : option (list node)) :
  add_text_to_node lines (Node f ns)
  = Node (set_text f (Some (slice_lines lines (default 0 (start_line f))
                                        (default 0 (end_line f)))))
         (option_map (List.map (add_text_to_node lines)) ns).
Proof. reflexivity. Qed.

(** After [add_text_to_node] every dict holds the lines of its range. *)
Lemma add_text_to_node_texts (lines : list string) (n : node) :
  Forall (fun p => text (attrs p)
                   = Some (slice_lines lines (start_of p) (end_of p)))
         (walk (add_text_to_node lines n)).
Proof.
  set (h := fun f => set_text f (Some (slice_lines lines
                                         (default 0 (start_line f))
                                         (default 0 (end_line f))))).
  destruct (walk_fieldwise (add_text_to_node lines) h
              (add_text_to_node_eq lines) n) as [H _].
  apply (Forall_map_attrs
           (fun f => text f = Some (slice_lines lines (default 0 (start_line f))
                                                (default 0 (end_line f))))
           h _ _ H).
  reflexivity.
Qed.

Lemma slice_lines_all (lines : list string) :
  slice_lines lines 1 (length lines) = py_join nl lines.
Proof.
  unfold slice_lines. cbn [Nat.sub skipn]. rewrite Nat.sub_0_r, firstn_all.
  reflexivity.
Qed.

(** X13.  In the dict [build_file_tree] returns for a readable file with a
    supported extension, every dict holds as text exactly the lines of its
    own range, joined by newlines; the file dict too, whose range is the
    whole file and whose text is the content as read: splitting the
    content into lines and joining them gives the content back. *)
Theorem file_tree_texts_are_the_lines_of_the_ranges
    (ast_parse : string -> option (list Python.stmt))
    (javalang_parse : string -> option Java.compilation_unit)
    (ts_parse : string -> string -> option Cpp.ts_node)
    (file_path code_content : string) :
  endswith_any file_path supported_extensions = true ->
  exists n,
    build_file_tree ast_parse javalang_parse ts_parse file_path
      (Some code_content) = Some n
    /\ Forall (fun p => text (attrs p)
                        = Some (slice_lines (py_split code_content newline)
                                            (start_of p) (end_of p)))
              (walk n)
    /\ slice_lines (py_split code_content newline) (start_of n) (end_of n)
       = code_content.
Proof.
  intros Hext.
  assert (Hall : py_join nl (py_split code_content newline) = code_content)
    by apply py_join_split.
  assert (Hnodes : forall nodes,
            Forall (fun p => text (attrs p)
                             = Some (slice_lines (py_split code_content newline)
                                                 (start_of p) (end_of p)))
                   (walk (file_node file_path code_content
                            (py_split code_content newline)
                            (extract_node_text_content nodes
                               (py_split code_content newline))))).
  { intros nodes. unfold file_node. rewrite walk_eq. cbn [default].
    constructor.
    - unfold start_of, end_of. cbn [attrs text start_line end_line default].
      rewrite slice_lines_all, Hall. reflexivity.
    - apply Forall_flat_map_walk. unfold extract_node_text_content.
      apply Forall_map. apply List.Forall_forall. intros c _.
      apply add_text_to_node_texts. }
  assert (Hroot : forall nodes,
            let n := file_node file_path code_content
                       (py_split code_content newline) nodes in
            slice_lines (py_split code_content newline) (start_of n) (end_of n)
            = code_content).
  { intros nodes. unfold start_of, end_of, file_node.
    cbn [attrs start_line end_line default].
    rewrite slice_lines_all. exact Hall. }
  revert Hext. rewrite supported_extensions_split. unfold build_file_tree.
  destruct (py_endswith file_path ".java");
    [intros _; eexists; split; [reflexivity|split; [apply Hnodes|apply Hroot]]|].
  destruct (py_endswith file_path ".kt");
    [intros _; eexists; split; [reflexivity|split; [apply Hnodes|apply Hroot]]|].
  destruct (endswith_any file_path cpp_extensions);
    [intros _; eexists; split; [reflexivity|split; [apply Hnodes|apply Hroot]]|].
  destruct (py_endswith file_path ".py");
    [intros _; eexists; split; [reflexivity|split; [apply Hnodes|apply Hroot]]|].
  discriminate.
Qed.

Lemma file_tree_texts_are_the_lines_of_the_ranges_witness :
  exists n,
    build_file_tree no_python no_java no_cst "src/Main.kt"
      (Some ("class Main {" ++ nl ++ "  fun run() {}" ++ nl ++ "}")%string)
    = Some n
    /\ Forall (fun p => text (attrs p)
                        = Some (slice_lines
                                  (py_split ("class Main {" ++ nl
                                             ++ "  fun run() {}" ++ nl ++ "}")
                                            newline)
                                  (start_of p) (end_of p)))
              (walk n)
    /\ slice_lines (py_split ("class Main {" ++ nl ++ "  fun run() {}" ++ nl ++ "}")
                             newline)
                   (start_of n) (end_of n)
       = ("class Main {" ++ nl ++ "  fun run() {}" ++ nl ++ "}")%string.
Proof.
  apply (file_tree_texts_are_the_lines_of_the_ranges no_python no_java no_cst
           "src/Main.kt").
  reflexivity.
Defined.

(** X14.  The text [add_text_to_node] gives a dict whose range starts
    within the file splits back, at the newlines, into the lines of the
    range: lines [start_line] to [end_line], or to the last line of the
    file when [end_line] lies beyond it.  No error is raised for such an
    [end_line]; the text is just shorter. *)
Theorem node_text_splits_into_the_lines_of_its_range
    (code_content : string) (n : node) (s e : nat) :
  let lines := py_split code_content newline in
  start_line (attrs n) = Some s -> end_line (attrs n) = Some e ->
  1 <= s -> s <= e -> s <= length lines ->
  exists t,
    text (attrs (add_text_to_node lines n)) = Some t
    /\ py_split t newline = firstn (e - (s - 1)) (skipn (s - 1) lines)
    /\ length (py_split t newline) = Nat.min e (length lines) - (s - 1).
Proof.
  intros lines Hs He H1 Hse Hlen. destruct n as [f ns]. cbn [attrs] in Hs, He.
  rewrite add_text_to_node_eq. cbn [attrs text set_text]. rewrite Hs, He.
  cbn [default]. unfold id. eexists. split; [reflexivity|].
  unfold slice_lines.
  assert (Hsplit : py_split (py_join nl (firstn (e - (s - 1)) (skipn (s - 1) lines)))
                            newline
                   = firstn (e - (s - 1)) (skipn (s - 1) lines)).
  { apply split_join.
    - intros Hnil. apply (f_equal (@length string)) in Hnil.
      rewrite length_firstn, length_skipn in Hnil. cbn in Hnil. lia.
    - apply Forall_take, Forall_drop. apply py_split_pieces. }
  split; [exact Hsplit|].
  rewrite Hsplit, length_firstn, length_skipn. lia.
Qed.

Lemma node_text_splits_into_the_lines_of_its_range_witness :
  exists t,
    text (attrs (add_text_to_node
                   (py_split ("class A:" ++ nl ++ "  def m(self):" ++ nl
                              ++ "    pass")%string newline)
                   sample_class)) = Some t
    /\ py_split t newline
       = firstn (3 - (1 - 1))
           (skipn (1 - 1)
              (py_split ("class A:" ++ nl ++ "  def m(self):" ++ nl
                         ++ "    pass")%string newline))
    /\ length (py_split t newline)
       = Nat.min 3 (length (py_split ("class A:" ++ nl ++ "  def m(self):" ++ nl
                                      ++ "    pass")%string newline))
         - (1 - 1).
Proof.
  apply (node_text_splits_into_the_lines_of_its_range
           ("class A:" ++ nl ++ "  def m(self):" ++ nl ++ "    pass")%string
           sample_class 1 3).
  - reflexivity.
  - reflexivity.
  - lia.
  - lia.
  - vm_compute. lia.
Defined.

Lemma slice_lines_clamped (lines : list string) (s e : nat) :
  slice_lines lines s (Nat.min e (length lines)) = slice_lines lines s e.
Proof.
  unfold slice_lines. f_equal.
  destruct (Nat.le_gt_cases e (length lines)) as [Hle|Hgt].
  - rewrite Nat.min_l by exact Hle. reflexivity.
  - rewrite Nat.min_r by lia.
    rewrite !firstn_all2; [reflexivity| |]; rewrite length_skipn; lia.
Qed.

(** X15.  The clamp [end = min(end, len(lines))] that the Java, Kotlin and
    C/C++ variants of [add_text_to_node] apply before slicing never changes
    a text: on every tree and every list of lines they compute what the
    Python variant, which has no clamp, computes. *)
Theorem clamping_the_end_line_changes_no_text (lines : list string) (n : node) :
  add_text_to_node_clamped lines n = add_text_to_node lines n.
Proof.
  induction n as [f|f l IH] using node_ind'.
  - cbn. rewrite slice_lines_clamped. reflexivity.
  - cbn [add_text_to_node_clamped add_text_to_node option_map].
    rewrite slice_lines_clamped. do 2 f_equal.
    induction IH as [|c l Hc _ IHl]; cbn; [reflexivity|]. now rewrite Hc, IHl.
Qed.

(** ** The children of a directory dict *)

Lemma fs_entry_ind' (P : fs_entry -> Prop) :
  (forall content, P (FsFile content)) ->
  P (FsDir None) ->
  (forall entries, Forall (fun x => P (snd x)) entries -> P (FsDir (Some entries))) ->
  forall e, P e.
Proof.
  intros Hf Hn Hd. fix IH 1. intros [content|[entries|]].
  - apply Hf.
  - apply Hd. induction entries as [|[item e] l IHl]; constructor.
    + apply IH.
    + exact IHl.
  - apply Hn.
Qed.

Lemma in_insert_sorted_rev {A : Type} (x y : string * A) (l : list (string * A)) :
  x = y \/ In x l -> In x (insert_sorted y l).
Proof.
  induction l as [|z l IH]; cbn.
  - intros [->|[]]. left. reflexivity.
  - destruct (String.leb (fst y) (fst z)); cbn.
    + intros [->|[->|H]]; auto.
    + intros [->|[->|H]]; auto.
Qed.

Lemma in_sorted_rev {A : Type} (x : string * A) (l : list (string * A)) :
  In x l -> In x (sorted l).
Proof.
  induction l as [|y l IH]; cbn; [auto|].
  intros [->|H]; apply in_insert_sorted_rev; auto.
Qed.

Section DirectoryChildren.
Variable ast_parse : string -> option (list Python.stmt).
Variable javalang_parse : string -> option Java.compilation_unit.
Variable ts_parse : string -> string -> option Cpp.ts_node.
Variable normpath : string -> string.

Local Abbreviation build_dir :=
  (build_directory_tree ast_parse javalang_parse ts_parse normpath).
Local Abbreviation build_file :=
  (build_file_tree ast_parse javalang_parse ts_parse).

Local Abbreviation visited :=
  (visited_entries ast_parse javalang_parse ts_parse normpath).

Lemma build_directory_tree_listed (dir_path : string)
    (entries : list (string * fs_entry)) :
  build_dir dir_path (FsDir (Some entries))
  = directory_node ast_parse javalang_parse ts_parse normpath dir_path
      (Some (visited dir_path entries)).
Proof. reflexivity. Qed.

Lemma in_visited (dir_path : string) (entries : list (string * fs_entry))
    (item : string) (e : fs_entry) (built : node) :
  In (item, (e, built)) (sorted (visited dir_path entries))
  <-> In (item, e) entries /\ built = build_dir (path_join dir_path item) e.
Proof.
  split.
  - intros H. apply in_sorted in H. apply in_map_iff in H as ([i0 e0] & Heq & Hin).
    injection Heq as -> -> <-. auto.
  - intros [Hin ->]. apply in_sorted_rev. apply in_map_iff.
    exists (item, e). auto.
Qed.

Lemma build_directory_tree_path (dir_path : string) (d : fs_entry) :
  path (attrs (build_dir dir_path d)) = Some dir_path.
Proof. destruct d as [c|[l|]]; reflexivity. Qed.

Lemma directory_children (dir_path : string) (entries : list (string * fs_entry)) :
  get_nodes (build_dir dir_path (FsDir (Some entries)))
  = flat_map (fun '(_, subdir_node) =>
                if has_code_content subdir_node then [subdir_node] else [])
             (subdirs_of dir_path (sorted (visited dir_path entries)))
    ++ flat_map (fun '(file_path, content) =>
                   option_list (build_file file_path content))
                (files_of dir_path (sorted (visited dir_path entries))).
Proof. reflexivity. Qed.

Lemma subdir_children (dir_path : string) (entries : list (string * fs_entry))
    (c : node) :
  In c (flat_map (fun '(_, subdir_node) =>
                    if has_code_content subdir_node then [subdir_node] else [])
                 (subdirs_of dir_path (sorted (visited dir_path entries)))) ->
  has_code_content c = true
  /\ exists item e, In (item, e) entries /\ is_dir e = true
                    /\ skipped item = false
                    /\ c = build_dir (path_join dir_path item) e.
Proof.
  intros H. apply in_flat_map in H as ([p sub] & Hsub & H).
  destruct (has_code_content sub) eqn:Ecode; [|destruct H].
  destruct H as [<-|[]]. split; [exact Ecode|].
  unfold subdirs_of in Hsub. apply in_flat_map in Hsub as ([item [e built]] & Hin & H).
  destruct (skipped item) eqn:Eskip; [destruct H|].
  destruct (is_dir e) eqn:Edir; [|destruct H].
  destruct H as [H|[]]. injection H as _ <-.
  apply in_visited in Hin as [Hin ->]. exists item, e. auto.
Qed.

Lemma file_children (dir_path : string) (entries : list (string * fs_entry))
    (c : node) :
  In c (flat_map (fun '(file_path, content) =>
                    option_list (build_file file_path content))
                 (files_of dir_path (sorted (visited dir_path entries)))) ->
  exists item code_content,
    In (item, FsFile (Some code_content)) entries /\ skipped item = false
    /\ endswith_any item supported_extensions = true
    /\ build_file (path_join dir_path item) (Some code_content) = Some c.
Proof.
  intros H. apply in_flat_map in H as ([p content] & Hf & H).
  destruct (build_file p content) as [n|] eqn:En; [|destruct H].
  destruct H as [<-|[]].
  unfold files_of in Hf. apply in_flat_map in Hf as ([item [e built]] & Hin & H).
  destruct (skipped item) eqn:Eskip; [destruct H|].
  destruct e as [content'|l]; [|destruct H].
  destruct (endswith_any item supported_extensions) eqn:Eext; [|destruct H].
  destruct H as [H|[]]. injection H as <- <-.
  apply in_visited in Hin as [Hin _].
  destruct content' as [code|].
  - exists item, code. auto.
  - assert (Hnone : build_file (path_join dir_path item) None = None)
      by (apply build_file_tree_none; auto).
    rewrite Hnone in En. discriminate.
Qed.

Lemma file_child_present (dir_path : string) (entries : list (string * fs_entry))
    (item code_content : string) :
  In (item, FsFile (Some code_content)) entries -> skipped item = false ->
  endswith_any item supported_extensions = true ->
  exists c,
    In c (flat_map (fun '(file_path, content) =>
                      option_list (build_file file_path content))
                   (files_of dir_path (sorted (visited dir_path entries))))
    /\ build_file (path_join dir_path item) (Some code_content) = Some c.
Proof.
  intros Hin Hskip Hext.
  destruct (build_file_tree_some ast_parse javalang_parse ts_parse
              (path_join dir_path item) code_content) as (children & E).
  { rewrite endswith_any_path_join. exact Hext. }
  eexists. split; [|exact E].
  apply in_flat_map. exists (path_join dir_path item, Some code_content).
  split; [|rewrite E; left; reflexivity].
  unfold files_of. apply in_flat_map.
  exists (item, (FsFile (Some code_content),
                 build_dir (path_join dir_path item) (FsFile (Some code_content)))).
  split; [apply in_visited; auto|].
  rewrite Hskip, Hext. left. reflexivity.
Qed.

End DirectoryChildren.

(** X17.  The children of a directory dict are the dicts of its
    subdirectories followed by the dicts of its files.  Each subdirectory
    child stands for a directory of the listing whose name is not skipped
    (no leading dot, none of the ten excluded names), and holds a file
    somewhere below; each file child stands for a file of the listing that
    was read, whose name is not skipped and has a supported extension; and
    every such file of the listing has its dict among the children. *)
Theorem directory_children_are_subdirectories_then_files
    (ast_parse : string -> option (list Python.stmt))
    (javalang_parse : string -> option Java.compilation_unit)
    (ts_parse : string -> string -> option Cpp.ts_node)
    (normpath : string -> string)
    (dir_path : string) (entries : list (string * fs_entry)) :
  exists dirs files,
    get_nodes (build_directory_tree ast_parse javalang_parse ts_parse normpath
                 dir_path (FsDir (Some entries)))
    = dirs ++ files
    /\ Forall (fun c => type (attrs c) = directory /\ has_code_content c = true
                        /\ listed_dir dir_path entries c) dirs
    /\ Forall (fun c => type (attrs c) = file /\ listed_file dir_path entries c)
              files
    /\ forall item code_content,
         In (item, FsFile (Some code_content)) entries ->
         skipped item = false ->
         endswith_any item supported_extensions = true ->
         exists c, In c files
                   /\ path (attrs c) = Some (path_join dir_path item).
Proof.
  eexists. eexists. split; [apply directory_children|].
  split; [|split].
  - apply List.Forall_forall. intros c Hc.
    apply subdir_children in Hc as (Hcode & item & e & Hin & Hdir & Hskip & ->).
    split; [apply build_directory_tree_type|]. split; [exact Hcode|].
    exists item, e. repeat split; auto. apply build_directory_tree_path.
  - apply List.Forall_forall. intros c Hc.
    apply file_children in Hc as (item & code & Hin & Hskip & Hext & Hc).
    destruct (build_file_tree_some ast_parse javalang_parse ts_parse
                (path_join dir_path item) code) as (children & E).
    { rewrite endswith_any_path_join. exact Hext. }
    rewrite E in Hc. injection Hc as <-.
    split; [reflexivity|]. exists item, code. repeat split; auto.
  - intros item code Hin Hskip Hext.
    destruct (file_child_present ast_parse javalang_parse ts_parse normpath
                dir_path entries item code Hin Hskip Hext) as (c & Hc & E).
    exists c. split; [exact Hc|].
    apply (build_file_tree_path _ _ _ _ _ _ E).
Qed.

Lemma kinds_exclude (ks : list kind) (k : kind) (forest : list node) :
  kind_in k ks = false -> kinds_within ks forest ->
  Forall (fun p => type (attrs p) <> k) (walk_forest forest).
Proof.
  intros Hk H. eapply Forall_impl; [exact H|].
  intros p Hp Heq. cbn beta in Hp. rewrite Heq in Hp. congruence.
Qed.

(** Adding the texts leaves the types as they are. *)
Lemma extract_node_text_content_types (P : kind -> Prop) (nodes : list node)
    (lines : list string) :
  Forall (fun p => P (type (attrs p))) (walk_forest nodes) ->
  Forall (fun p => P (type (attrs p)))
         (walk_forest (extract_node_text_content nodes lines)).
Proof.
  unfold walk_forest, extract_node_text_content.
  induction nodes as [|c l IH]; intros H; [constructor|].
  cbn [flat_map List.map] in *. apply Forall_app in H as [Hc Hl].
  apply Forall_app. split; [|apply IH; exact Hl].
  set (h := fun f => set_text f (Some (slice_lines lines
                                         (default 0 (start_line f))
                                         (default 0 (end_line f))))).
  destruct (walk_fieldwise (add_text_to_node lines) h
              (add_text_to_node_eq lines) c) as [Hw _].
  clear IH Hl. revert Hw Hc.
  generalize (walk (add_text_to_node lines c)) as l'.
  generalize (walk c) as l0. intros l0.
  induction l0 as [|q l0 IH]; intros [|p l'] Hw Hc; try discriminate;
    [constructor|].
  cbn in Hw. injection Hw as Hp Hl. apply Forall_cons_iff in Hc as [Hq Hl0].
  constructor; [|apply IH; assumption].
  rewrite Hp. exact Hq.
Qed.

Section FileTrees.
Variable ast_parse : string -> option (list Python.stmt).
Variable javalang_parse : string -> option Java.compilation_unit.
Variable ts_parse : string -> string -> option Cpp.ts_node.
Variable normpath : string -> string.

(** No dict below a file dict is a directory, and the file dict is none. *)
Lemma file_tree_has_no_directory (file_path : string) (content : option string)
    (n : node) :
  build_file_tree ast_parse javalang_parse ts_parse file_path content = Some n ->
  Forall (fun p => type (attrs p) <> directory) (walk n).
Proof.
  assert (Hnode : forall code lines nodes,
            Forall (fun p => type (attrs p) <> directory) (walk_forest nodes) ->
            Forall (fun p => type (attrs p) <> directory)
                   (walk (file_node file_path code lines
                            (extract_node_text_content nodes lines)))).
  { intros code lines nodes H. unfold file_node. rewrite walk_eq. cbn [default].
    constructor; [discriminate|].
    apply (extract_node_text_content_types (fun k => k <> directory)). exact H. }
  unfold build_file_tree.
  destruct (py_endswith file_path ".java").
  { destruct content as [c|]; [|discriminate]. intros H. injection H as <-.
    apply Hnode. apply (kinds_exclude java_kinds); [reflexivity|].
    apply java_kinds_within. }
  destruct (py_endswith file_path ".kt").
  { destruct content as [c|]; [|discriminate]. intros H. injection H as <-.
    apply Hnode. apply (kinds_exclude kotlin_kinds); [reflexivity|].
    apply (typed_forest kotlin_kinds kotlin_owners). apply kotlin_typed. }
  destruct (endswith_any file_path cpp_extensions).
  { destruct content as [c|]; [|discriminate]. intros H. injection H as <-.
    apply Hnode. apply (kinds_exclude cpp_kinds); [reflexivity|].
    apply (typed_forest cpp_kinds [class; struct]). apply cpp_typed. }
  destruct (py_endswith file_path ".py"); [|discriminate].
  destruct content as [c|]; [|discriminate]. intros H. injection H as <-.
  apply Hnode. apply (kinds_exclude python_kinds); [reflexivity|].
  apply (typed_forest python_kinds [class]). apply python_typed.
Qed.

Lemma pruned_below (d : fs_entry) : forall dir_path,
  Forall (fun c => Forall (fun p => type (attrs p) = directory ->
                                    has_code_content p = true) (walk c))
         (get_nodes (build_directory_tree ast_parse javalang_parse ts_parse
                       normpath dir_path d)).
Proof.
  induction d as [content| |entries IH] using fs_entry_ind'; intros dir_path;
    [constructor|constructor|].
  rewrite directory_children. apply Forall_app. split.
  - apply List.Forall_forall. intros c Hc.
    apply subdir_children in Hc as (Hcode & item & e & Hin & Hdir & Hskip & ->).
    rewrite List.Forall_forall in IH. specialize (IH (item, e) Hin). cbn in IH.
    specialize (IH (path_join dir_path item)).
    apply List.Forall_forall. intros p Hp.
    apply in_walk in Hp as [->|(c & Hc & Hp)]; [intros _; exact Hcode|].
    rewrite List.Forall_forall in IH. specialize (IH c Hc).
    rewrite List.Forall_forall in IH. exact (IH p Hp).
  - apply List.Forall_forall. intros c Hc.
    apply file_children in Hc as (item & code & Hin & Hskip & Hext & Hc).
    eapply Forall_impl; [apply (file_tree_has_no_directory _ _ _ Hc)|].
    intros p Hp Hdir. contradiction.
Qed.

End FileTrees.

(** X18.  Below the root of what [build_directory_tree] returns, at any
    depth, every directory dict holds a file dict somewhere beneath it: a
    directory without code files, directly or nested, never appears (the
    root alone may be empty). *)
Theorem no_directory_without_code_below_the_root
    (ast_parse : string -> option (list Python.stmt))
    (javalang_parse : string -> option Java.compilation_unit)
    (ts_parse : string -> string -> option Cpp.ts_node)
    (normpath : string -> string) (dir_path : string) (d : fs_entry) :
  Forall (fun c => Forall (fun p => type (attrs p) = directory ->
                                    has_code_content p = true) (walk c))
         (get_nodes (build_directory_tree ast_parse javalang_parse ts_parse
                       normpath dir_path d)).
Proof.
  apply pruned_below.
Qed.

(** ** Sorting by name *)

Lemma str_le_trans (a b c : string) : str_le a b -> str_le b c -> str_le a c.
Proof.
  unfold str_le, String.leb. intros Hab Hbc.
  destruct (String.compare a b) eqn:Eab; [|clear Hab|discriminate].
  - apply String.compare_eq_iff in Eab. subst b. exact Hbc.
  - destruct (String.compare b c) eqn:Ebc; [|clear Hbc|discriminate].
    + apply String.compare_eq_iff in Ebc. subst c. rewrite Eab. reflexivity.
    + assert (H : String.compare a c = Lt).
      { apply (@RelationClasses.StrictOrder_Transitive _ _
                 OrdersEx.String_as_OT.lt_strorder a b c); assumption. }
      rewrite H. reflexivity.
Qed.

Lemma str_le_total (a b : string) : String.leb a b = false -> str_le b a.
Proof.
  intros H. destruct (String.leb_total a b) as [H'|H']; [congruence|exact H'].
Qed.

Lemma insert_sorted_sorted {A : Type} (x : string * A) (l : list (string * A)) :
  StronglySorted str_le (List.map fst l) ->
  StronglySorted str_le (List.map fst (insert_sorted x l)).
Proof.
  induction l as [|y l IH]; intros Hs; cbn.
  - constructor; constructor.
  - apply StronglySorted_inv in Hs as [Hs Hy].
    destruct (String.leb (fst x) (fst y)) eqn:E; cbn.
    + constructor; [constructor; assumption|].
      constructor; [exact E|].
      eapply Forall_impl; [exact Hy|]. intros z Hz.
      eapply str_le_trans; [exact E|exact Hz].
    + constructor; [apply IH; exact Hs|].
      apply List.Forall_forall. intros z Hz.
      apply in_map_iff in Hz as (w & <- & Hw).
      apply in_insert_sorted in Hw as [->|Hw].
      * apply str_le_total. exact E.
      * rewrite List.Forall_forall in Hy. apply Hy. apply in_map. exact Hw.
Qed.

Lemma sorted_is_sorted {A : Type} (l : list (string * A)) :
  StronglySorted str_le (List.map fst (sorted l)).
Proof.
  induction l as [|x l IH]; cbn; [constructor|].
  apply insert_sorted_sorted. exact IH.
Qed.

Lemma in_sorted_strings (p : string) (l : list string) :
  In p (sorted_strings l) <-> In p l.
Proof.
  unfold sorted_strings. split.
  - intros H. apply in_map_iff in H as ([q u] & <- & H).
    apply in_sorted in H. apply in_map_iff in H as (q' & Heq & H).
    injection Heq as <- _. exact H.
  - intros H. apply in_map_iff. exists (p, tt). split; [reflexivity|].
    apply in_sorted_rev. apply in_map_iff. exists p. auto.
Qed.

(** ** [get_python_files] *)

Lemma walk_python_files_eq (root : string) (entries : list (string * fs_entry)) :
  walk_python_files root (FsDir (Some entries))
  = flat_map (fun '(file_name, e) =>
                if negb (is_dir e) && py_endswith file_name ".py"
                then [path_join root file_name] else []) entries
    ++ flat_map (fun '(name, e) =>
                   if is_dir e && negb (pruned_dir name)
                   then walk_python_files (path_join root name) e
                   else []) entries.
Proof. reflexivity. Qed.

Lemma walk_python_files_spec (d : fs_entry) : forall root p,
  In p (walk_python_files root d) <-> python_file_under root d p.
Proof.
  induction d as [content| |entries IH] using fs_entry_ind'; intros root p.
  - cbn. split; [intros []|intros H; inversion H].
  - cbn. split; [intros []|intros H; inversion H].
  - rewrite walk_python_files_eq, in_app_iff, !in_flat_map. split.
    + intros [([name e] & Hin & H)|([name e] & Hin & H)].
      * destruct e as [c|l]; cbn [is_dir negb andb] in H; [|destruct H].
        destruct (py_endswith name ".py") eqn:E; [|destruct H].
        destruct H as [<-|[]]. eapply python_file_here; eauto.
      * destruct (is_dir e) eqn:Ed; [|destruct H].
        destruct (pruned_dir name) eqn:Ep; [destruct H|].
        cbn [negb andb] in H.
        rewrite List.Forall_forall in IH.
        eapply python_file_below; eauto.
        apply (IH (name, e) Hin). exact H.
    + intros H. inversion H as [r es name c Hin Hext|r es name e q Hin Hd Hp Hq];
        subst.
      * left. exists (name, FsFile c). split; [exact Hin|].
        cbn [is_dir negb andb]. rewrite Hext. left. reflexivity.
      * right. exists (name, e). split; [exact Hin|].
        rewrite Hd, Hp. cbn [negb andb]. rewrite List.Forall_forall in IH.
        apply (IH (name, e) Hin). exact Hq.
Qed.

Lemma python_file_under_ext (root : string) (d : fs_entry) (p : string) :
  python_file_under root d p -> py_endswith p ".py" = true.
Proof.
  induction 1 as [root entries name c Hin Hext|root entries name e p _ _ _ _ IH];
    [|exact IH].
  rewrite endswith_path_join; [exact Hext| |reflexivity].
  cbn. intros H. repeat (destruct H as [H|H]; [discriminate|]). exact H.
Qed.


Lemma sorted_filter {A : Type} (keep : string * A -> bool) (l : list (string * A)) :
  StronglySorted str_le (List.map fst l) ->
  StronglySorted str_le (List.map fst (List.filter keep l)).
Proof.
  induction l as [|x l IH]; intros Hs; cbn; [constructor|].
  apply StronglySorted_inv in Hs as [Hs Hx].
  destruct (keep x); [|apply IH; exact Hs].
  cbn. constructor; [apply IH; exact Hs|].
  apply List.Forall_forall. intros z Hz.
  apply in_map_iff in Hz as (w & <- & Hw). apply filter_In in Hw as [Hw _].
  rewrite List.Forall_forall in Hx. apply Hx. apply in_map. exact Hw.
Qed.

(** X20.  The children of a directory dict are directory dicts followed
    by file dicts.  The directory dicts are those of names that the
    listing gives as directories, in ascending order of the names as
    [sorted] compares them; the file dicts are those of names that the
    listing gives as files, in ascending order too; the path of each is
    [dir_path] joined with its name.  The order in which the file system
    lists the directory plays no part. *)
Theorem directory_children_are_in_name_order
    (ast_parse : string -> option (list Python.stmt))
    (javalang_parse : string -> option Java.compilation_unit)
    (ts_parse : string -> string -> option Cpp.ts_node)
    (normpath : string -> string)
    (dir_path : string) (entries : list (string * fs_entry)) :
  exists dir_names file_names,
    List.map (fun c => (type (attrs c), path (attrs c)))
      (get_nodes (build_directory_tree ast_parse javalang_parse ts_parse
                    normpath dir_path (FsDir (Some entries))))
    = List.map (fun item => (directory, Some (path_join dir_path item)))
               dir_names
      ++ List.map (fun item => (file, Some (path_join dir_path item)))
                  file_names
    /\ StronglySorted str_le dir_names
    /\ StronglySorted str_le file_names
    /\ Forall (fun item => exists e, In (item, e) entries /\ is_dir e = true)
              dir_names
    /\ Forall (fun item => exists content, In (item, FsFile content) entries)
              file_names.
Proof.
  set (items := sorted (visited_entries ast_parse javalang_parse ts_parse
                          normpath dir_path entries)).
  set (keep_dir := fun x : string * (fs_entry * node) =>
                     negb (skipped (fst x)) && is_dir (fst (snd x))
                     && has_code_content (snd (snd x))).
  set (keep_file := fun x : string * (fs_entry * node) =>
                      negb (skipped (fst x))
                      && match fst (snd x) with
                         | FsFile content =>
                             endswith_any (fst x) supported_extensions
                             && match build_file_tree ast_parse javalang_parse
                                        ts_parse (path_join dir_path (fst x))
                                        content with
                                | Some _ => true
                                | None => false
                                end
                         | FsDir _ => false
                         end).
  exists (List.map fst (List.filter keep_dir items)),
         (List.map fst (List.filter keep_file items)).
  split; [|split; [|split; [|split]]].
  - rewrite directory_children. fold items. rewrite !map_app. f_equal.
    + assert (Hbuilt : forall item e built, In (item, (e, built)) items ->
                type (attrs built) = directory
                /\ path (attrs built) = Some (path_join dir_path item)).
      { intros item e built Hin. apply in_visited in Hin as [_ ->].
        split; [apply build_directory_tree_type
               |apply build_directory_tree_path]. }
      clearbody items. induction items as [|[item [e built]] l IH];
        [reflexivity|].
      cbn [subdirs_of flat_map List.filter]. unfold keep_dir at 1.
      cbn [fst snd]. rewrite flat_map_app, map_app.
      fold (subdirs_of dir_path l).
      rewrite IH by (intros; eapply Hbuilt; right; eauto).
      destruct (skipped item); [reflexivity|].
      destruct (is_dir e); [|reflexivity]. cbn [flat_map negb andb app].
      destruct (has_code_content built); [|reflexivity].
      cbn. destruct (Hbuilt item e built) as [-> ->]; [left; reflexivity|].
      reflexivity.
    + clearbody items. induction items as [|[item [e built]] l IH];
        [reflexivity|].
      cbn [files_of flat_map List.filter]. unfold keep_file at 1.
      cbn [fst snd]. rewrite flat_map_app, map_app.
      fold (files_of dir_path l). rewrite IH.
      destruct (skipped item); [reflexivity|].
      destruct e as [content|listing]; [|reflexivity].
      destruct (endswith_any item supported_extensions); [|reflexivity].
      cbn [flat_map negb andb app].
      destruct (build_file_tree ast_parse javalang_parse ts_parse
                  (path_join dir_path item) content) as [n|] eqn:En;
        [|reflexivity].
      cbn. destruct (build_file_tree_path _ _ _ _ _ _ En) as [-> ->].
      reflexivity.
  - apply sorted_filter. apply sorted_is_sorted.
  - apply sorted_filter. apply sorted_is_sorted.
  - apply List.Forall_forall. intros item Hin.
    apply in_map_iff in Hin as ([item0 [e built]] & <- & Hin).
    apply filter_In in Hin as [Hin Hkeep]. unfold keep_dir in Hkeep.
    cbn [fst snd] in *. apply in_visited in Hin as [Hin _].
    exists e. split; [exact Hin|].
    destruct (is_dir e); [reflexivity|].
    rewrite andb_false_r in Hkeep. discriminate.
  - apply List.Forall_forall. intros item Hin.
    apply in_map_iff in Hin as ([item0 [e built]] & <- & Hin).
    apply filter_In in Hin as [Hin Hkeep]. unfold keep_file in Hkeep.
    cbn [fst snd] in *. apply in_visited in Hin as [Hin _].
    destruct e as [content|listing];
      [exists content; exact Hin|].
    rewrite andb_false_r in Hkeep. discriminate.
Qed.

(** ** The entry point *)

Section EntryPointFacts.
Variable count_tokens : string -> string -> Z.
Variable ChatGPT_API_async : string -> string -> option string.
Variable ast_parse : string -> option (list Python.stmt).
Variable javalang_parse : string -> option Java.compilation_unit.
Variable ts_parse : string -> string -> option Cpp.ts_node.
Variable normpath : string -> string.
Variable abspath : string -> string.
Variable fs : string -> option fs_entry.
Variable write_node_id : node -> node.
Variable format_structure : node -> list string -> node.
Variable description_input : Type.
Variable create_clean_structure_for_description : node -> description_input.
Variable generate_doc_description : description_input -> string -> option string.

Local Abbreviation run :=
  (code_to_tree count_tokens ChatGPT_API_async ast_parse javalang_parse
     ts_parse normpath abspath fs write_node_id format_structure
     description_input create_clean_structure_for_description
     generate_doc_description).

(** The summary stage raises nothing but the failure of a request, and
    only when summaries were asked for. *)
Lemma summary_stage_raises (summary_token_threshold : Z) (model : string)
    (flag : bool) (structure : node) (e : exn) :
  snd (summary_stage count_tokens ChatGPT_API_async summary_token_threshold
         model flag structure) = Raise e ->
  e = RequestFailure /\ flag = true.
Proof.
  unfold summary_stage. destruct flag.
  - unfold generate_summaries_for_code_structure.
    destruct (gather _); cbn; [discriminate|].
    intros H. injection H as <-. auto.
  - cbn. discriminate.
Qed.

(** What the first block of [code_to_tree] raises. *)
Lemma build_structure_raises (path : string) (target : option fs_entry) (e : exn) :
  build_structure ast_parse javalang_parse ts_parse normpath path target = Raise e
  <-> (target = None /\ e = ValueError ("Path does not exist: " ++ path))
      \/ (exists content, target = Some (FsFile content)
            /\ endswith_any path supported_extensions = false
            /\ e = ValueError "File extension not supported")
      \/ (target = Some (FsFile None)
          /\ endswith_any path supported_extensions = true
          /\ e = ValueError ("Failed to process path: " ++ path)).
Proof.
  unfold build_structure. destruct target as [[content|listing]|].
  - destruct (endswith_any path supported_extensions) eqn:Eext; cbn [negb].
    + destruct content as [c|].
      * destruct (build_file_tree_some ast_parse javalang_parse ts_parse
                    path c Eext) as (children & ->).
        split; [discriminate|].
        intros [[H _]|[(c' & _ & H & _)|(H & _)]]; discriminate.
      * assert (Hnone : build_file_tree ast_parse javalang_parse ts_parse path
                          None = None) by (apply build_file_tree_none; auto).
        rewrite Hnone. split.
        -- intros H. injection H as <-. right. right. auto.
        -- intros [[H _]|[(c' & _ & H & _)|(_ & _ & ->)]];
             [discriminate|discriminate|reflexivity].
    + split.
      * intros H. injection H as <-. right. left. eauto.
      * intros [[H _]|[(c' & _ & _ & ->)|(_ & H & _)]];
          [discriminate|reflexivity|discriminate].
  - split; [discriminate|].
    intros [[H _]|[(c' & H & _)|(H & _)]]; discriminate.
  - split.
    + intros H. injection H as <-. left. auto.
    + intros [[_ ->]|[(c' & H & _)|(H & _)]];
        [reflexivity|discriminate|discriminate].
Qed.

Lemma code_to_tree_raises (path : string) (if_thinning : bool)
    (min_token_threshold : Z) (if_add_node_summary : string)
    (summary_token_threshold : Z) (model : string)
    (if_add_doc_description if_add_node_text if_add_node_id : string) (e : exn) :
  run path if_thinning min_token_threshold if_add_node_summary
      summary_token_threshold model if_add_doc_description if_add_node_text
      if_add_node_id = Raise e ->
  build_structure ast_parse javalang_parse ts_parse normpath (abspath path)
    (fs (abspath path)) = Raise e
  \/ (e = RequestFailure
      /\ (if_add_node_summary = "yes" \/ if_add_doc_description = "yes")).
Proof.
  unfold code_to_tree.
  destruct (build_structure _ _ _ _ _ _) as [structure|e0];
    [|intros H; injection H as <-; left; reflexivity].
  cbv zeta.
  destruct (snd (summary_stage _ _ _ _ _ _)) as [s|e1] eqn:Es.
  - destruct (String.eqb if_add_doc_description "yes") eqn:Ed; [|discriminate].
    destruct (generate_doc_description _ _); [discriminate|].
    intros H. injection H as <-. right. split; [reflexivity|].
    right. apply String.eqb_eq. exact Ed.
  - intros H. injection H as <-.
    apply summary_stage_raises in Es as [-> Hflag].
    right. split; [reflexivity|]. left. apply String.eqb_eq. exact Hflag.
Qed.

Lemma code_to_tree_output (path : string) (if_thinning : bool)
    (min_token_threshold : Z) (if_add_node_summary : string)
    (summary_token_threshold : Z) (model : string)
    (if_add_doc_description if_add_node_text if_add_node_id : string)
    (out : tree_output) :
  run path if_thinning min_token_threshold if_add_node_summary
      summary_token_threshold model if_add_doc_description if_add_node_text
      if_add_node_id = Ok out ->
  exists formatted,
    structure out
    = [remove_path_from_structure
         (if String.eqb if_add_node_text "no"
          then remove_text_from_structure formatted else formatted)]
    /\ (doc_description out = None <-> if_add_doc_description <> "yes").
Proof.
  unfold code_to_tree.
  destruct (build_structure _ _ _ _ _ _) as [structure|e0]; [|discriminate].
  cbv zeta.
  destruct (snd (summary_stage _ _ _ _ _ _)) as [s|e1]; [|discriminate].
  destruct (String.eqb if_add_doc_description "yes") eqn:Ed.
  - destruct (generate_doc_description _ _) as [d|]; [|discriminate].
    intros H. injection H as <-. eexists. split; [reflexivity|].
    cbn. apply String.eqb_eq in Ed. split; [discriminate|congruence].
  - intros H. injection H as <-. eexists. split; [reflexivity|].
    cbn. apply String.eqb_neq in Ed. split; auto.
Qed.

End EntryPointFacts.

Lemma Forall_map_attrs_rel (P Q : fields -> Prop) (h : fields -> fields)
    (l l' : list node) :
  List.map attrs l' = List.map (fun p => h (attrs p)) l ->
  Forall (fun p => Q (attrs p)) l ->
  (forall f, Q f -> P (h f)) ->
  Forall (fun p => P (attrs p)) l'.
Proof.
  revert l. induction l' as [|p l' IH]; intros [|q l] Heq HQ HP; try discriminate.
  - constructor.
  - cbn in Heq. injection Heq as Hp Hl. apply Forall_cons_iff in HQ as [Hq HQ].
    constructor.
    + rewrite Hp. apply HP. exact Hq.
    + eapply IH; eauto.
Qed.

(** X21.  Whatever [code_to_tree] returns, no dict of the returned tree
    has ['path'], and when [if_add_node_text] is ['no'] none has ['text']:
    both hold whatever [write_node_id] and [format_structure] do, since the
    removals come after them.  ['doc_description'] is present exactly when
    [if_add_doc_description] is ['yes'], and ['structure'] is a list of one
    tree. *)
Theorem code_to_tree_strips_path_and_unrequested_text
    (count_tokens : string -> string -> Z)
    (ChatGPT_API_async : string -> string -> option string)
    (ast_parse : string -> option (list Python.stmt))
    (javalang_parse : string -> option Java.compilation_unit)
    (ts_parse : string -> string -> option Cpp.ts_node)
    (normpath abspath : string -> string)
    (fs : string -> option fs_entry)
    (write_node_id : node -> node)
    (format_structure : node -> list string -> node)
    (description_input : Type)
    (create_clean_structure_for_description : node -> description_input)
    (generate_doc_description : description_input -> string -> option string)
    (entry_path : string) (if_thinning : bool) (min_token_threshold : Z)
    (if_add_node_summary : string) (summary_token_threshold : Z)
    (model if_add_doc_description if_add_node_text if_add_node_id : string) :
  match code_to_tree count_tokens ChatGPT_API_async ast_parse javalang_parse
          ts_parse normpath abspath fs write_node_id format_structure
          description_input create_clean_structure_for_description
          generate_doc_description entry_path if_thinning min_token_threshold
          if_add_node_summary summary_token_threshold model
          if_add_doc_description if_add_node_text if_add_node_id with
  | Ok out =>
      exists tree,
        structure out = [tree]
        /\ Forall (fun p => path (attrs p) = None) (walk tree)
        /\ (if_add_node_text = "no" ->
            Forall (fun p => text (attrs p) = None) (walk tree))
        /\ (doc_description out = None <-> if_add_doc_description <> "yes")
  | Raise _ => True
  end.
Proof.
  destruct (code_to_tree _ _ _ _ _ _ _ _ _ _ _ _ _ _ _ _ _ _ _ _ _ _)
    as [out|e] eqn:E; [|exact I].
  apply code_to_tree_output in E as (formatted & Hs & Hd).
  eexists. split; [exact Hs|]. split; [|split; [|exact Hd]].
  - destruct (walk_fieldwise remove_path_from_structure
                (fun f => set_path f None) remove_path_eq
                (if String.eqb if_add_node_text "no"
                 then remove_text_from_structure formatted else formatted))
      as [Hp _].
    apply (Forall_map_attrs (fun f => path f = None)
             (fun f => set_path f None) _ _ Hp). reflexivity.
  - intros ->. cbn [String.eqb Ascii.eqb Bool.eqb].
    destruct (walk_fieldwise remove_path_from_structure
                (fun f => set_path f None) remove_path_eq
                (remove_text_from_structure formatted)) as [Hp _].
    destruct (walk_fieldwise remove_text_from_structure
                (fun f => set_text f None) remove_text_eq formatted) as [Ht _].
    apply (Forall_map_attrs_rel (fun f => text f = None)
             (fun f => text f = None) (fun f => set_path f None) _ _ Hp).
    + apply (Forall_map_attrs (fun f => text f = None)
               (fun f => set_text f None) _ _ Ht). reflexivity.
    + intros f Hf. exact Hf.
Qed.

(** ** The checks on the command line *)

(** X23.  The command-line checks of the script accept the arguments
    exactly when one of the three paths was given, and only one, and it is
    a PDF or Markdown path with the extension asked for (in any letter
    case) that names a file, or a code path that exists, with a supported
    extension (in any letter case) when it names a file, or the empty
    string.  The job is the one of the path given; a path given as the
    empty string passes the checks, and the script then does nothing. *)
Theorem command_line_accepts_exactly_one_path
    (fs : string -> option fs_entry)
    (pdf_path md_path code_path : option string) (j : Cli.job) :
  Cli.check_arguments fs pdf_path md_path code_path = Ok j
  <->
  match j with
  | Cli.PdfJob p =>
      (pdf_path, md_path, code_path) = (Some p, None, None)
      /\ p <> EmptyString /\ py_endswith (Cli.py_lower p) ".pdf" = true
      /\ Cli.isfile fs p = true
  | Cli.MarkdownJob p =>
      (pdf_path, md_path, code_path) = (None, Some p, None)
      /\ p <> EmptyString
      /\ endswith_any (Cli.py_lower p) [".md"; ".markdown"] = true
      /\ Cli.isfile fs p = true
  | Cli.CodeJob p =>
      (pdf_path, md_path, code_path) = (None, None, Some p)
      /\ p <> EmptyString /\ Cli.exists_ fs p = true
      /\ (Cli.isfile fs p = true ->
          endswith_any (Cli.py_lower p) supported_extensions = true)
  | Cli.NoJob =>
      (pdf_path, md_path, code_path) = (Some EmptyString, None, None)
      \/ (pdf_path, md_path, code_path) = (None, Some EmptyString, None)
      \/ (pdf_path, md_path, code_path) = (None, None, Some EmptyString)
  end.
Proof.
  split.
  - unfold Cli.check_arguments. cbv zeta.
    destruct pdf_path as [pdf|], md_path as [md|], code_path as [cp|];
      cbn [List.filter Cli.is_given length Nat.eqb Nat.ltb Nat.leb];
      try discriminate.
    + cbn [truthy default]. unfold id. destruct (nonempty pdf) eqn:En.
      * destruct (negb (py_endswith _ _)) eqn:Ee; [discriminate|].
        destruct (negb (Cli.isfile fs pdf)) eqn:Ef; [discriminate|].
        intros H. injection H as <-. split; [reflexivity|].
        split; [intros ->; discriminate En|].
        split; [destruct (py_endswith _ _); [reflexivity|discriminate]|].
        destruct (Cli.isfile fs pdf); [reflexivity|discriminate].
      * intros H. injection H as <-. destruct pdf; [auto|discriminate].
    + cbn [truthy default]. unfold id. destruct (nonempty md) eqn:En.
      * destruct (negb (endswith_any _ _)) eqn:Ee; [discriminate|].
        destruct (negb (Cli.isfile fs md)) eqn:Ef; [discriminate|].
        intros H. injection H as <-. split; [reflexivity|].
        split; [intros ->; discriminate En|].
        split; [destruct (endswith_any _ _); [reflexivity|discriminate]|].
        destruct (Cli.isfile fs md); [reflexivity|discriminate].
      * intros H. injection H as <-. destruct md; [auto|discriminate].
    + cbn [truthy default]. unfold id. destruct (nonempty cp) eqn:En.
      * destruct (negb (Cli.exists_ fs cp)) eqn:Ee; [discriminate|].
        destruct (Cli.isfile fs cp && negb _) eqn:Ef; [discriminate|].
        intros H. injection H as <-. split; [reflexivity|].
        split; [intros ->; discriminate En|].
        split; [destruct (Cli.exists_ fs cp); [reflexivity|discriminate]|].
        intros Hfile. rewrite Hfile in Ef. cbn [andb] in Ef.
        apply negb_false_iff in Ef. exact Ef.
      * intros H. injection H as <-. destruct cp; [auto|discriminate].
  - unfold Cli.check_arguments. cbv zeta. destruct j as [p|p|p|].
    + intros (Heq & Hne & Hext & Hfile). injection Heq as -> -> ->.
      cbn [List.filter Cli.is_given length Nat.eqb Nat.ltb Nat.leb
           truthy default]. unfold id.
      destruct p as [|a p]; [contradiction|]. cbn [nonempty].
      rewrite Hext, Hfile. reflexivity.
    + intros (Heq & Hne & Hext & Hfile). injection Heq as -> -> ->.
      cbn [List.filter Cli.is_given length Nat.eqb Nat.ltb Nat.leb
           truthy default]. unfold id.
      destruct p as [|a p]; [contradiction|]. cbn [nonempty].
      rewrite Hext, Hfile. reflexivity.
    + intros (Heq & Hne & Hexists & Hext). injection Heq as -> -> ->.
      cbn [List.filter Cli.is_given length Nat.eqb Nat.ltb Nat.leb
           truthy default]. unfold id.
      destruct p as [|a p]; [contradiction|]. cbn [nonempty].
      rewrite Hexists. cbn [negb].
      destruct (Cli.isfile fs (String a p)) eqn:Hfile; [|reflexivity].
      rewrite (Hext eq_refl). reflexivity.
    + intros [H|[H|H]]; injection H as -> -> ->; reflexivity.
Qed.

Lemma command_line_accepts_exactly_one_path_witness :
  ((@None string, @None string, Some "src/Main.KT")
   = (None, None, Some "src/Main.KT")
   /\ "src/Main.KT" <> EmptyString
   /\ Cli.exists_ upper_case_file "src/Main.KT" = true
   /\ (Cli.isfile upper_case_file "src/Main.KT" = true ->
       endswith_any (Cli.py_lower "src/Main.KT") supported_extensions = true))
  /\ Cli.check_arguments upper_case_file None None (Some EmptyString)
     = Ok Cli.NoJob.
Proof.
  split.
  - apply (proj1 (command_line_accepts_exactly_one_path upper_case_file None
                    None (Some "src/Main.KT") (Cli.CodeJob "src/Main.KT"))).
    reflexivity.
  - apply (proj2 (command_line_accepts_exactly_one_path upper_case_file None
                    None (Some EmptyString) Cli.NoJob)).
    right. right. reflexivity.
Defined.

(** X24.  The command line and [code_to_tree] disagree on letter case.
    The script lower-cases the path before it looks for a supported
    extension, [code_to_tree] does not: a file whose extension is supported
    only once lower-cased is accepted by the checks of the script, and then
    makes [code_to_tree] raise "File extension not supported". *)
Theorem upper_case_extension_passes_the_command_line_only
    (count_tokens : string -> string -> Z)
    (ChatGPT_API_async : string -> string -> option string)
    (ast_parse : string -> option (list Python.stmt))
    (javalang_parse : string -> option Java.compilation_unit)
    (ts_parse : string -> string -> option Cpp.ts_node)
    (normpath abspath : string -> string)
    (fs : string -> option fs_entry)
    (write_node_id : node -> node)
    (format_structure : node -> list string -> node)
    (description_input : Type)
    (create_clean_structure_for_description : node -> description_input)
    (generate_doc_description : description_input -> string -> option string)
    (code_path : string) (content : option string)
    (if_thinning : bool) (min_token_threshold : Z)
    (if_add_node_summary : string) (summary_token_threshold : Z)
    (model if_add_doc_description if_add_node_text if_add_node_id : string) :
  code_path <> EmptyString ->
  fs code_path = Some (FsFile content) ->
  fs (abspath code_path) = Some (FsFile content) ->
  endswith_any (Cli.py_lower code_path) supported_extensions = true ->
  endswith_any (abspath code_path) supported_extensions = false ->
  Cli.check_arguments fs None None (Some code_path) = Ok (Cli.CodeJob code_path)
  /\ code_to_tree count_tokens ChatGPT_API_async ast_parse javalang_parse
       ts_parse normpath abspath fs write_node_id format_structure
       description_input create_clean_structure_for_description
       generate_doc_description code_path if_thinning min_token_threshold
       if_add_node_summary summary_token_threshold model
       if_add_doc_description if_add_node_text if_add_node_id
     = Raise (ValueError "File extension not supported").
Proof.
  intros Hne Hfs Habs Hlower Hext. split.
  - unfold Cli.check_arguments. cbv zeta.
    cbn [List.filter Cli.is_given length Nat.eqb Nat.ltb Nat.leb truthy default].
    unfold id, Cli.exists_, Cli.isfile. rewrite Hfs, Hlower.
    destruct code_path; [contradiction|reflexivity].
  - unfold code_to_tree, build_structure. rewrite Habs, Hext. reflexivity.
Qed.

Lemma upper_case_extension_passes_the_command_line_only_witness :
  Cli.check_arguments upper_case_file None None (Some "src/Main.KT")
  = Ok (Cli.CodeJob "src/Main.KT")
  /\ code_to_tree tokens_by_length model_answers no_python no_java no_cst
       (fun p => p) (fun p => p) upper_case_file keep_structure keep_order
       node (fun n => n) describe "src/Main.KT" false 5000 "no" 200 "gpt-4o"
       "no" "no" "yes"
     = Raise (ValueError "File extension not supported").
Proof.
  apply (upper_case_extension_passes_the_command_line_only tokens_by_length
           model_answers no_python no_java no_cst (fun p => p) (fun p => p)
           upper_case_file keep_structure keep_order node (fun n => n)
           describe "src/Main.KT" (Some "class Main")).
  - discriminate.
  - reflexivity.
  - reflexivity.
  - reflexivity.
  - reflexivity.
Defined.

(** ** The Python signature *)

Section PythonSignature.
Import Python.

Lemma skipn_nth_error {A : Type} (l : list A) : forall j d,
  nth_error l j = Some d -> skipn j l = d :: skipn (S j) l.
Proof.
  induction l as [|x l IH]; intros [|j] d; cbn; try discriminate.
  - intros H. injection H as ->. reflexivity.
  - apply IH.
Qed.

Lemma regular_args_app (off : Z) (ds : list string) (l1 l2 : list arg) :
  forall i,
    regular_args i off ds (l1 ++ l2)
    = regular_args i off ds l1
      ++ regular_args (i + Z.of_nat (length l1)) off ds l2.
Proof.
  induction l1 as [|a l1 IH]; intros i; cbn [regular_args app length].
  - rewrite Z.add_0_r. reflexivity.
  - rewrite IH. cbn [app]. do 3 f_equal. lia.
Qed.

(** Before the offset no parameter gets a default. *)
Lemma regular_args_plain (off : Z) (ds : list string) (l : list arg) :
  forall i, (i + Z.of_nat (length l) <= off)%Z ->
    regular_args i off ds l = List.map arg_str l.
Proof.
  induction l as [|a l IH]; intros i Hi; cbn [regular_args List.map length] in *;
    [reflexivity|].
  replace (0 <=? i - off)%Z with false by (symmetry; apply Z.leb_gt; lia).
  cbn [andb]. rewrite IH by lia. reflexivity.
Qed.

(** From the offset on, the parameters take the defaults in order. *)
Lemma regular_args_defaults (off : Z) (ds : list string) (l : list arg) :
  forall j, j + length l <= length ds ->
    regular_args (off + Z.of_nat j) off ds l
    = zip_with with_default l (skipn j ds).
Proof.
  induction l as [|a l IH]; intros j Hj; cbn [regular_args length] in *;
    [reflexivity|].
  replace (off + Z.of_nat j - off)%Z with (Z.of_nat j) by lia.
  replace (0 <=? Z.of_nat j)%Z with true by (symmetry; apply Z.leb_le; lia).
  replace (Z.of_nat j <? Z.of_nat (length ds))%Z with true
    by (symmetry; apply Z.ltb_lt; lia).
  cbn [andb]. rewrite Nat2Z.id.
  destruct (nth_error ds j) as [d|] eqn:Ed.
  - rewrite (skipn_nth_error ds j d Ed). cbn [zip_with].
    replace (off + Z.of_nat j + 1)%Z with (off + Z.of_nat (S j))%Z by lia.
    rewrite IH by lia. reflexivity.
  - apply nth_error_None in Ed. lia.
Qed.

End PythonSignature.

(** X25.  [extract_signature] aligns the defaults to the right: of [n]
    positional parameters with [d <= n] defaults, the first [n - d] are
    rendered without a default and the last [d] each with its default, in
    order.  For a function with positional parameters only the signature is
    the keyword, the name and the parameters so rendered, joined by commas
    in parentheses, followed by the return annotation when there is one. *)
Theorem signature_defaults_are_right_aligned
    (is_async : bool) (name : string) (args : list Python.arg)
    (defaults : list string) (returns : option string) :
  length defaults <= length args ->
  let plain := firstn (length args - length defaults) args in
  let defaulted := skipn (length args - length defaults) args in
  Python.regular_args 0
    (Z.of_nat (length args) - Z.of_nat (length defaults)) defaults args
  = List.map Python.arg_str plain ++ zip_with with_default defaulted defaults
  /\ let signature :=
       ((if is_async then "async def" else "def") ++ " " ++ name ++ "("
        ++ py_join ", " (List.map Python.arg_str plain
                         ++ zip_with with_default defaulted defaults)
        ++ ")")%string in
     Python.extract_signature is_async name (positional args defaults) returns
     = match returns with
       | Some r => (signature ++ " -> " ++ r)%string
       | None => signature
       end.
Proof.
  intros Hlen plain defaulted.
  assert (Hargs : Python.regular_args 0
                    (Z.of_nat (length args) - Z.of_nat (length defaults))
                    defaults args
                  = List.map Python.arg_str plain
                    ++ zip_with with_default defaulted defaults).
  { pose proof (firstn_skipn (length args - length defaults) args) as Hsplit.
    fold plain defaulted in Hsplit.
    set (off := (Z.of_nat (length args) - Z.of_nat (length defaults))%Z).
    assert (Hplain : Z.of_nat (length plain) = off).
    { unfold plain, off. rewrite length_firstn. lia. }
    replace (Python.regular_args 0 off defaults args)
      with (Python.regular_args 0 off defaults (plain ++ defaulted))
      by (f_equal; exact Hsplit).
    rewrite regular_args_app, regular_args_plain by lia.
    f_equal.
    replace (0 + Z.of_nat (length plain))%Z with (off + Z.of_nat 0)%Z by lia.
    apply (regular_args_defaults off defaults defaulted 0).
    unfold defaulted. rewrite length_skipn. lia. }
  split; [exact Hargs|].
  unfold Python.extract_signature, positional. cbn [Python.posonlyargs
    Python.args Python.defaults Python.vararg Python.kwonlyargs
    Python.kw_defaults Python.kwarg List.map Python.kwonly_args app].
  rewrite Hargs, app_nil_r. reflexivity.
Qed.

Lemma signature_defaults_are_right_aligned_witness :
  Python.regular_args 0 (2 - 1) ["1"] sample_args = ["x"; "y: int = 1"]
  /\ Python.extract_signature false "f" (positional sample_args ["1"]) (Some "int")
     = "def f(x, y: int = 1) -> int".
Proof.
  exact (signature_defaults_are_right_aligned false "f" sample_args ["1"]
           (Some "int") ltac:(cbn; lia)).
Defined.

(** ** The Kotlin signature *)

Lemma lstrip_chars_spec (l : list ascii) :
  exists ws, l = ws ++ lstrip_chars l /\ blank ws.
Proof.
  induction l as [|a l (ws & Hl & Hws)]; cbn.
  - exists []. split; [reflexivity|constructor].
  - destruct (is_space a) eqn:E.
    + exists (a :: ws). split; [cbn; f_equal; exact Hl|].
      constructor; assumption.
    + exists []. split; [reflexivity|constructor].
Qed.

Lemma lstrip_chars_fixed (l : list ascii) :
  match l with
  | a :: _ => is_space a = false
  | [] => True
  end -> lstrip_chars l = l.
Proof. destruct l as [|a l]; cbn; [reflexivity|]. intros ->. reflexivity. Qed.

Lemma lstrip_chars_stripped (l : list ascii) :
  match lstrip_chars l with
  | a :: _ => is_space a = false
  | [] => True
  end.
Proof.
  destruct (lstrip_chars l) as [|a r] eqn:E; [exact I|].
  eapply lstrip_chars_head; eauto.
Qed.

Lemma lstrip_chars_idempotent (l : list ascii) :
  lstrip_chars (lstrip_chars l) = lstrip_chars l.
Proof. apply lstrip_chars_fixed. apply lstrip_chars_stripped. Qed.

Lemma in_lstrip_chars (x : ascii) (l : list ascii) :
  In x (lstrip_chars l) -> In x l.
Proof.
  destruct (lstrip_chars_spec l) as (ws & Hl & _).
  intros H. rewrite Hl. apply in_or_app. right. exact H.
Qed.

Lemma in_rstrip_chars (x : ascii) (l : list ascii) :
  In x (rstrip_chars l) -> In x l.
Proof.
  unfold rstrip_chars. intros H. apply in_rev in H.
  apply in_lstrip_chars in H. apply in_rev. exact H.
Qed.

(** What [strip] returns has no white space at either end, so stripping it
    again changes nothing. *)
Lemma rstrip_chars_keeps_head (l : list ascii) :
  match l with
  | a :: _ => is_space a = false
  | [] => True
  end ->
  match rstrip_chars l with
  | a :: _ => is_space a = false
  | [] => True
  end.
Proof.
  unfold rstrip_chars. intros Hl.
  destruct (lstrip_chars_spec (rev l)) as (ws & Hrev & Hws).
  assert (Hsplit : l = rev (lstrip_chars (rev l)) ++ rev ws).
  { rewrite <- rev_app_distr, <- Hrev, rev_involutive. reflexivity. }
  destruct (rev (lstrip_chars (rev l))) as [|a r] eqn:E; [exact I|].
  rewrite Hsplit in Hl. exact Hl.
Qed.

Lemma strip_chars_idempotent (l : list ascii) :
  let s := rstrip_chars (lstrip_chars l) in
  rstrip_chars (lstrip_chars s) = s.
Proof.
  cbv zeta.
  rewrite (lstrip_chars_fixed (rstrip_chars (lstrip_chars l))).
  - unfold rstrip_chars. rewrite rev_involutive, lstrip_chars_idempotent.
    reflexivity.
  - apply rstrip_chars_keeps_head. apply lstrip_chars_stripped.
Qed.

Lemma py_strip_idempotent (s : string) : py_strip (py_strip s) = py_strip s.
Proof.
  unfold py_strip. rewrite chars_str.
  rewrite (strip_chars_idempotent (chars s)). reflexivity.
Qed.

Lemma in_py_strip (x : ascii) (s : string) :
  In x (chars (py_strip s)) -> In x (chars s).
Proof.
  unfold py_strip. rewrite chars_str. intros H.
  apply in_rstrip_chars in H. apply in_lstrip_chars in H. exact H.
Qed.

Lemma in_removelast {A : Type} (x : A) (l : list A) :
  In x (removelast l) -> In x l.
Proof.
  induction l as [|a l IH]; cbn; [auto|].
  destruct l as [|b l]; [intros []|].
  intros [->|H]; [left; reflexivity|right; apply IH; exact H].
Qed.

Lemma contains_one_char (c : ascii) (l : list ascii) :
  contains_chars [c] l = false <-> ~ In c l.
Proof.
  induction l as [|a l IH]; cbn.
  - split; [intros _ []|reflexivity].
  - rewrite andb_true_r. destruct (Ascii.eqb c a) eqn:E; cbn.
    + apply Ascii.eqb_eq in E. subst a. split; [discriminate|].
      intros H. exfalso. apply H. left. reflexivity.
    + rewrite IH. split.
      * intros H [->|Hin]; [rewrite Ascii.eqb_refl in E; discriminate|auto].
      * intros H Hin. apply H. right. exact Hin.
Qed.

(** X26.  The signature the Kotlin scanner records for a function never
    holds an opening brace and has no white space at either end, whatever
    the line; the text it is taken from, the part before the first brace,
    opens the line. *)
Theorem kotlin_signature_stops_before_the_brace (line : string) :
  py_in "{" (Kotlin.fun_signature line) = false
  /\ py_strip (Kotlin.fun_signature line) = Kotlin.fun_signature line
  /\ py_startswith line (py_split_head line "{"%char) = true.
Proof.
  assert (Hhead : ~ In "{"%char (chars (py_split_head line "{"%char))).
  { destruct (py_split_head_spec line "{"%char) as [Hcount _].
    unfold count_char in Hcount. intros Hin.
    assert (Hf : In "{"%char (List.filter (Ascii.eqb "{"%char)
                                (chars (py_split_head line "{"%char)))).
    { apply filter_In. split; [exact Hin|apply Ascii.eqb_refl]. }
    destruct (List.filter _ _); [destruct Hf|discriminate]. }
  split; [|split].
  - unfold py_in. change (chars "{") with ["{"%char].
    apply contains_one_char. intros Hin. apply Hhead.
    unfold Kotlin.fun_signature in Hin.
    destruct (py_endswith _ "=").
    + apply in_py_strip in Hin. unfold py_drop_last in Hin.
      rewrite chars_str in Hin. apply in_removelast in Hin.
      apply in_py_strip in Hin. exact Hin.
    + apply in_py_strip in Hin. exact Hin.
  - unfold Kotlin.fun_signature. destruct (py_endswith _ "=");
      apply py_strip_idempotent.
  - apply py_split_head_spec.
Qed.

(** ** No declaration of a Kotlin file is dropped *)

Section KotlinComplete.
Import Kotlin.

Lemma extends_refl (h : list hnode) : extends h h.
Proof. intros a n H. eauto. Qed.

Lemma extends_trans (h1 h2 h3 : list hnode) :
  extends h1 h2 -> extends h2 h3 -> extends h1 h3.
Proof.
  intros H12 H23 a n H. destruct (H12 a n H) as (n2 & H2 & E2).
  destruct (H23 a n2 H2) as (n3 & H3 & E3). exists n3. split; [exact H3|].
  congruence.
Qed.

Lemma extends_app (h : list hnode) (l : list hnode) : extends h (h ++ l).
Proof.
  intros a n H. exists n. split; [|reflexivity].
  rewrite lookup_app_l; [exact H|]. eapply lookup_lt_Some; eauto.
Qed.

Lemma extends_alter (g : hnode -> hnode) (a : nat) (h : list hnode) :
  (forall n, declared (g n) = declared n) -> extends h (alter g a h).
Proof.
  intros Hg p n H. destruct (decide (p = a)) as [->|Hne].
  - exists (g n). rewrite list_lookup_alter_eq, H. split; [reflexivity|apply Hg].
  - exists n. rewrite list_lookup_alter_ne by congruence. auto.
Qed.

Lemma extends_close_scopes (balance : Z) (line_num : nat) :
  forall stk h, extends h (fst (close_scopes h stk balance line_num)).
Proof.
  induction stk as [|top rest IH]; intros h; cbn; [apply extends_refl|].
  destruct (_ <=? _)%Z; [|apply extends_refl].
  eapply extends_trans; [|apply IH]. apply extends_alter. reflexivity.
Qed.

Lemma extends_flush (st : state) : extends (heap st) (heap (flush_imports st)).
Proof.
  unfold flush_imports. destruct (import_lines st) as [[s e]|];
    [apply extends_app|apply extends_refl].
Qed.

Lemma extends_push (h : list hnode) (roots : list nat) (stk : list frame)
    (balance : Z) (line : string) (n : hnode) :
  extends h (push_node h roots stk balance line n).1.1
  /\ exists a n', (push_node h roots stk balance line n).1.1 !! a = Some n'
                  /\ declared n' = declared n.
Proof.
  unfold push_node. destruct stk as [|top rest]; cbn [fst].
  - split; [apply extends_app|]. exists (length h), n.
    split; [apply list_lookup_middle; reflexivity|reflexivity].
  - split.
    + eapply extends_trans; [|apply extends_app].
      apply extends_alter. reflexivity.
    + exists (length h), n. split; [|reflexivity].
      rewrite lookup_app_r by (rewrite length_alter; lia).
      rewrite length_alter, Nat.sub_diag. reflexivity.
Qed.

Lemma extends_step (st : state) (line_num : nat) (line : string) :
  extends (heap st) (heap (step st line_num line)).
Proof.
  unfold step. cbv zeta.
  destruct (is_import (py_strip line)); [apply extends_refl|].
  match goal with
  | |- context [if ?c then flush_imports st else st] =>
      set (st1 := if c then flush_imports st else st)
  end.
  assert (H1 : extends (heap st) (heap st1)).
  { unfold st1. destruct (_ && _); [apply extends_flush|apply extends_refl]. }
  clearbody st1.
  set (b := (current_brace_balance st1 + count_braces line)%Z).
  pose proof (extends_close_scopes b line_num (stack st1) (heap st1)) as H2.
  destruct (close_scopes (heap st1) (stack st1) b line_num) as [h stk].
  cbn [fst] in H2.
  destruct (new_node _ _ _ _ _) as [n|].
  - destruct (extends_push h (st_nodes st1) stk b line n) as [H3 _].
    destruct (push_node h (st_nodes st1) stk b line n) as [[h' roots'] stk'].
    cbn [fst heap] in *.
    eapply extends_trans; [exact H1|]. eapply extends_trans; eauto.
  - cbn [heap]. eapply extends_trans; eauto.
Qed.

Lemma extends_scan_from (lines : list string) : forall st line_num,
  extends (heap st) (heap (scan_from st line_num lines)).
Proof.
  induction lines as [|line rest IH]; intros st line_num; cbn;
    [apply extends_refl|].
  eapply extends_trans; [apply extends_step|apply IH].
Qed.

(** The dict [new_node] returns is the one the line declares. *)
Lemma new_node_declares (line : string) (line_num : nat) (top : option kind)
    (n : hnode) :
  new_node (search_class line) (search_fun line) line line_num top = Some n ->
  declares line line_num (kfields n).
Proof.
  unfold new_node, declares.
  destruct (search_class line) as [m|].
  - intros H. injection H as <-. cbn. auto.
  - destruct (search_fun line) as [name|]; [|discriminate].
    intros H. injection H as <-.
    cbn [kfields code_fields title type start_line signature h_title h_type
         h_start_line h_signature].
    split; [reflexivity|]. split; [|split; reflexivity].
    destruct top as [k|]; [|auto]. destruct k; cbn; auto.
Qed.

Lemma declares_declared (line : string) (line_num : nat) (n n' : hnode) :
  declared n' = declared n ->
  declares line line_num (kfields n) -> declares line line_num (kfields n').
Proof.
  unfold declared, declares. intros H. injection H as Ht Hk Hs Hsig.
  cbn [kfields code_fields title type start_line signature].
  rewrite Ht, Hk, Hs, Hsig. auto.
Qed.

(** A declaration line that is no import puts its dict into the store. *)
Lemma step_declares (st : state) (line_num : nat) (line : string) :
  is_import (py_strip line) = false -> is_declaration line = true ->
  exists a n, heap (step st line_num line) !! a = Some n
              /\ declares line line_num (kfields n).
Proof.
  intros Himport Hdecl. unfold step. rewrite Himport. cbv zeta.
  match goal with
  | |- context [if ?c then flush_imports st else st] =>
      set (st1 := if c then flush_imports st else st)
  end.
  clearbody st1.
  set (b := (current_brace_balance st1 + count_braces line)%Z).
  destruct (close_scopes (heap st1) (stack st1) b line_num) as [h stk].
  destruct (new_node _ _ _ _ _) as [n|] eqn:En.
  - destruct (extends_push h (st_nodes st1) stk b line n)
      as (_ & a & n' & Ha & Hd).
    destruct (push_node h (st_nodes st1) stk b line n) as [[h' roots'] stk'].
    cbn [fst heap] in *. exists a, n'. split; [exact Ha|].
    eapply declares_declared; [exact Hd|].
    eapply new_node_declares; eauto.
  - exfalso. unfold new_node, is_declaration in *.
    destruct (search_class line); [discriminate|].
    destruct (search_fun line); discriminate.
Qed.

Lemma scan_from_app (l1 l2 : list string) : forall st line_num,
  scan_from st line_num (l1 ++ l2)
  = scan_from (scan_from st line_num l1) (line_num + length l1) l2.
Proof.
  induction l1 as [|line l1 IH]; intros st line_num; cbn.
  - rewrite Nat.add_0_r. reflexivity.
  - rewrite IH. f_equal. lia.
Qed.

(** Every dict of the store has a place in the forest. *)
Lemma Parented_alter (g : hnode -> hnode) (a : nat) (h : list hnode)
    (roots : list nat) :
  (forall n, forall c, In c (h_nodes n) -> In c (h_nodes (g n))) ->
  Parented h roots -> Parented (alter g a h) roots.
Proof.
  intros Hg HP x Hx. rewrite length_alter in Hx.
  destruct (HP x Hx) as [Hr|(p & n & Hp & Hin)]; [left; exact Hr|].
  right. destruct (decide (p = a)) as [->|Hne].
  - exists a, (g n). rewrite list_lookup_alter_eq, Hp. split; [reflexivity|].
    apply Hg. exact Hin.
  - exists p, n. rewrite list_lookup_alter_ne by congruence. auto.
Qed.

Lemma Parented_close_scopes (balance : Z) (line_num : nat) (roots : list nat) :
  forall stk h,
    Parented h roots ->
    Parented (fst (close_scopes h stk balance line_num)) roots.
Proof.
  induction stk as [|top rest IH]; intros h HP; cbn; [exact HP|].
  destruct (_ <=? _)%Z; [|exact HP].
  apply IH. apply Parented_alter; [|exact HP]. intros n c Hc. exact Hc.
Qed.

Lemma Parented_root (h : list hnode) (roots : list nat) (n : hnode) :
  Parented h roots -> Parented (h ++ [n]) (roots ++ [length h]).
Proof.
  intros HP x Hx. rewrite length_app in Hx. cbn in Hx.
  destruct (decide (x = length h)) as [->|Hne].
  - left. apply in_or_app. right. left. reflexivity.
  - destruct (HP x ltac:(lia)) as [Hr|(p & m & Hp & Hin)].
    + left. apply in_or_app. left. exact Hr.
    + right. exists p, m. split; [|exact Hin].
      rewrite lookup_app_l; [exact Hp|]. eapply lookup_lt_Some; eauto.
Qed.

Lemma Parented_flush (st : state) :
  Parented (heap st) (st_nodes st) ->
  Parented (heap (flush_imports st)) (st_nodes (flush_imports st)).
Proof.
  intros HP. unfold flush_imports.
  destruct (import_lines st) as [[s e]|]; [|exact HP]. cbn.
  apply Parented_root. exact HP.
Qed.

Lemma Parented_push la lo (h : list hnode) (roots : list nat)
    (stk : list frame) imp (balance : Z) (line : string) (n : hnode) :
  Inv la lo h roots stk imp -> Parented h roots ->
  Parented (push_node h roots stk balance line n).1.1
           (push_node h roots stk balance line n).1.2.
Proof.
  intros HI HP. unfold push_node. destruct stk as [|top rest]; cbn [fst snd].
  - apply Parented_root. exact HP.
  - assert (Htop : f_node top < length h).
    { apply (stack_in_range _ _ _ _ _ _ _ HI). left. reflexivity. }
    destruct (lookup_lt_is_Some_2 h (f_node top) Htop) as (nt & Ht).
    intros x Hx. rewrite length_app, length_alter in Hx. cbn in Hx.
    destruct (decide (x = length h)) as [->|Hne].
    + right. exists (f_node top), (add_child nt (length h)).
      split; [|cbn; apply in_or_app; right; left; reflexivity].
      rewrite lookup_app_l by (rewrite length_alter; exact Htop).
      rewrite list_lookup_alter_eq, Ht. reflexivity.
    + destruct (HP x ltac:(lia)) as [Hr|(p & m & Hp & Hin)];
        [left; exact Hr|].
      right. destruct (decide (p = f_node top)) as [->|Hpt].
      * exists (f_node top), (add_child nt (length h)). split.
        -- rewrite lookup_app_l by (rewrite length_alter; exact Htop).
           rewrite list_lookup_alter_eq, Ht. reflexivity.
        -- rewrite Ht in Hp. injection Hp as <-. cbn.
           apply in_or_app. left. exact Hin.
      * exists p, m. split; [|exact Hin].
        rewrite lookup_app_l
          by (rewrite length_alter; eapply lookup_lt_Some; eauto).
        rewrite list_lookup_alter_ne by congruence. exact Hp.
Qed.

Lemma Parented_step L st line :
  Inv L L (heap st) (st_nodes st) (stack st) (import_lines st) ->
  Parented (heap st) (st_nodes st) ->
  Parented (heap (step st (S L) line)) (st_nodes (step st (S L) line)).
Proof.
  intros HI HP. unfold step. cbv zeta.
  destruct (is_import (py_strip line)); [exact HP|].
  match goal with
  | |- context [if ?c then flush_imports st else st] =>
      set (st1 := if c then flush_imports st else st)
  end.
  assert (H1 : Inv L L (heap st1) (st_nodes st1) (stack st1) (import_lines st1)
               /\ Parented (heap st1) (st_nodes st1)).
  { unfold st1. destruct (_ && _); [|auto].
    split; [apply Inv_flush; exact HI|apply Parented_flush; exact HP]. }
  destruct H1 as [HI1 HP1]. clearbody st1.
  set (b := (current_brace_balance st1 + count_braces line)%Z).
  pose proof (Inv_close_scopes (S L) b _ _ _ _ _ _ HI1 ltac:(lia) ltac:(lia)) as HI2.
  pose proof (Parented_close_scopes b (S L) (st_nodes st1) (stack st1)
                (heap st1) HP1) as HP2.
  destruct (close_scopes (heap st1) (stack st1) b (S L)) as [h stk].
  cbn [fst snd] in HI2, HP2.
  destruct (new_node _ _ _ _ _) as [n|].
  - pose proof (Parented_push _ _ _ _ _ _ b line n HI2 HP2) as HP3.
    destruct (push_node h (st_nodes st1) stk b line n) as [[h' roots'] stk'].
    exact HP3.
  - exact HP2.
Qed.

Lemma Parented_scan_from lines : forall L st,
  Inv L L (heap st) (st_nodes st) (stack st) (import_lines st) ->
  Parented (heap st) (st_nodes st) ->
  Parented (heap (scan_from st (S L) lines))
           (st_nodes (scan_from st (S L) lines)).
Proof.
  induction lines as [|line rest IH]; intros L st HI HP; cbn; [exact HP|].
  apply IH; [apply Inv_step; exact HI|apply Parented_step; assumption].
Qed.

Lemma Parented_scan lines :
  Parented (heap (scan lines)) (st_nodes (scan lines)).
Proof.
  unfold scan. apply Parented_flush.
  apply Parented_scan_from; [exact Inv_initial|].
  intros a Ha. cbn in Ha. lia.
Qed.

Lemma walk_trans (p t r : node) :
  In p (walk t) -> In t (walk r) -> In p (walk r).
Proof.
  revert t p. induction r as [f|f l IH] using node_ind'; intros t p Hp Ht.
  - cbn in Ht. destruct Ht as [<-|[]]. exact Hp.
  - apply in_walk in Ht as [->|(c & Hc & Ht)]; [exact Hp|].
    apply in_walk. right. exists c. split; [exact Hc|].
    rewrite get_nodes_some in Hc. rewrite List.Forall_forall in IH.
    eapply IH; eauto.
Qed.

(** With the invariant of the scan, every dict of the store is read back
    into the forest. *)
Lemma store_is_read_back la lo (st : state) :
  Inv la lo (heap st) (st_nodes st) (stack st) (import_lines st) ->
  Parented (heap st) (st_nodes st) ->
  forall a n, heap st !! a = Some n ->
    exists fuel t,
      length (heap st) <= a + fuel /\ build fuel (heap st) a = [t]
      /\ In t (walk_forest (forest st)).
Proof.
  intros HI HP a. induction a as [a IH] using lt_wf_ind. intros n Ha.
  pose proof (lookup_lt_Some _ _ _ Ha) as Hlt.
  destruct (HP a Hlt) as [Hr|(p & np & Hp & Hin)].
  - exists (length (heap st)).
    destruct (length (heap st)) as [|k] eqn:Ek; [lia|].
    rewrite build_S, Ha. eexists. split; [lia|]. split; [reflexivity|].
    apply in_walk_forest. eexists. split; [|apply in_walk_self].
    unfold forest. apply in_flat_map. exists a. split; [exact Hr|].
    rewrite Ek, build_S, Ha. left. reflexivity.
  - destruct (inv_child _ _ _ _ _ _ HI p np a Hp Hin) as (Hpa & _).
    destruct (IH p Hpa np Hp) as (fuel & t & Hfuel & Ht & Hwalk).
    destruct fuel as [|fuel]; [cbn in Ht; discriminate|].
    rewrite build_S, Hp in Ht. injection Ht as <-.
    destruct fuel as [|fuel]; [lia|].
    exists (S fuel). rewrite build_S, Ha. eexists. split; [lia|].
    split; [reflexivity|].
    apply in_walk_forest in Hwalk as (r & Hr & Hwalk).
    apply in_walk_forest. exists r. split; [exact Hr|].
    eapply walk_trans; [|exact Hwalk].
    apply in_walk. right. eexists. split; [|apply in_walk_self].
    rewrite get_nodes_some. apply in_flat_map. exists a. split; [exact Hin|].
    rewrite build_S, Ha. left. reflexivity.
Qed.

End KotlinComplete.

(** X28.  The Kotlin scanner drops no declaration.  For every line of the
    input that is no import line and on which the class-like or the
    function pattern matches, the returned forest holds, at some depth, a
    dict that starts on that line: for a class-like match the dict of that
    name with the type of the keyword and no signature, otherwise the dict
    of the function, named with parentheses, typed function or method,
    with the signature taken from the line. *)
Theorem kotlin_declaration_line_yields_its_dict
    (code_content : string) (lines : list string) (i : nat) (line : string) :
  nth_error lines i = Some line ->
  Kotlin.is_import (py_strip line) = false ->
  is_declaration line = true ->
  Exists (fun p => declares line (S i) (attrs p))
         (walk_forest (Kotlin.extract_nodes_from_kotlin code_content lines)).
Proof.
  intros Hline Himport Hdecl.
  apply nth_error_split in Hline as (l1 & l2 & -> & <-).
  unfold Kotlin.extract_nodes_from_kotlin.
  set (st1 := Kotlin.scan_from Kotlin.initial 1 l1).
  destruct (step_declares st1 (S (length l1)) line Himport Hdecl)
    as (a & n & Ha & Hd).
  assert (Hext : extends (Kotlin.heap (Kotlin.step st1 (S (length l1)) line))
                         (Kotlin.heap (Kotlin.scan (l1 ++ line :: l2)))).
  { unfold Kotlin.scan. rewrite scan_from_app. fold st1. cbn [Kotlin.scan_from].
    eapply extends_trans; [apply extends_scan_from|apply extends_flush]. }
  destruct (Hext a n Ha) as (n' & Ha' & Hd').
  destruct (Inv_scan (l1 ++ line :: l2)) as (L & HI).
  destruct (store_is_read_back L L _ HI (Parented_scan _) a n' Ha')
    as (fuel & t & Hfuel & Ht & Hwalk).
  apply List.Exists_exists. exists t. split; [exact Hwalk|].
  destruct fuel as [|fuel]; [cbn in Ht; discriminate|].
  rewrite build_S, Ha' in Ht. injection Ht as <-. cbn [attrs].
  eapply declares_declared; eauto.
Qed.

Lemma kotlin_declaration_line_yields_its_dict_witness :
  Exists (fun p => declares "  fun bar() = 1" 4 (attrs p))
         (walk_forest (Kotlin.extract_nodes_from_kotlin EmptyString
                         kotlin_sample)).
Proof.
  apply (kotlin_declaration_line_yields_its_dict EmptyString kotlin_sample 3
           "  fun bar() = 1"); reflexivity.
Defined.

(** The forest of the sample: the single-expression method keeps its
    body in the signature and ends, like the class, on the line of the
    closing brace. *)
Example kotlin_sample_forest :
  List.map (fun p => (title (attrs p), type (attrs p), start_line (attrs p),
                      end_line (attrs p), signature (attrs p)))
           (walk_forest (Kotlin.extract_nodes_from_kotlin EmptyString
                           kotlin_sample))
  = [ ("main()", function, Some 1, Some 2, Some "fun main()");
      ("Foo", class, Some 3, Some 5, None);
      ("bar()", method, Some 4, Some 5, Some "fun bar() = 1") ].
Proof. vm_compute. reflexivity. Qed.

(** ** Comment and package lines match no pattern *)

Section QuietLines.
Import Re.

Lemma quiet_cons_space (a : ascii) (s : list ascii) :
  is_space a = true -> quiet (a :: s) = quiet s.
Proof. intros H. unfold quiet. cbn. rewrite H. reflexivity. Qed.

(** White space is matched within the white space that opens the text. *)
Lemma rmatch_spaces_quiet {A : Type} (s : list ascii) (c : caps)
    (k : list ascii -> caps -> option A) :
  quiet s = true ->
  (forall s' c', quiet s' = true -> k s' c' = None) ->
  rmatch (Star Space) s c k = None.
Proof.
  intros Hs Hk. cbn [rmatch]. generalize (length s) at 1. intros n.
  revert s c Hs. induction n as [|n IH]; intros s c Hs; [apply Hk; exact Hs|].
  destruct s as [|a s']; [cbn; apply Hk; exact Hs|].
  cbn [rmatch Space]. destruct (is_space a) eqn:Ea.
  - destruct (_ <? _)%nat.
    + rewrite IH; [apply Hk; exact Hs|].
      rewrite quiet_cons_space in Hs by exact Ea. exact Hs.
    + apply Hk. exact Hs.
  - apply Hk. exact Hs.
Qed.

(** A word that opens with another character than a quiet text does
    matches none: no white space, no slash, and not [pa]. *)
Lemma rmatch_word_quiet {A : Type} (x y : ascii) (w : list ascii)
    (s : list ascii) (c : caps) (k : list ascii -> caps -> option A) :
  is_space x = false -> x <> "/"%char -> (x = "p"%char -> y <> "a"%char) ->
  quiet s = true ->
  rmatch (LitChars (x :: y :: w)) s c k = None.
Proof.
  intros Hx Hslash Hp Hs. cbn [LitChars rmatch].
  destruct s as [|a s']; [reflexivity|].
  destruct (Ascii.eqb x a) eqn:E; [|reflexivity].
  apply Ascii.eqb_eq in E. subst a.
  unfold quiet in Hs. cbn [lstrip_chars] in Hs. rewrite Hx in Hs.
  destruct s' as [|b s'']; [reflexivity|].
  destruct (Ascii.eqb y b) eqn:E'; [|reflexivity].
  apply Ascii.eqb_eq in E'. subst b. exfalso.
  destruct x as [[] [] [] [] [] [] [] []]; try discriminate Hs;
    try (apply Hslash; reflexivity).
  destruct y as [[] [] [] [] [] [] [] []]; try discriminate Hs.
  apply (Hp eq_refl). reflexivity.
Qed.

Lemma rmatch_eps {A : Type} (s : list ascii) (c : caps)
    (k : list ascii -> caps -> option A) :
  rmatch Eps s c k = k s c.
Proof. reflexivity. Qed.

Lemma rmatch_Lit_quiet {A : Type} (x y : ascii) (w : string)
    (s : list ascii) (c : caps) (k : list ascii -> caps -> option A) :
  is_space x = false -> x <> "/"%char -> (x = "p"%char -> y <> "a"%char) ->
  quiet s = true ->
  rmatch (Lit (String x (String y w))) s c k = None.
Proof. apply rmatch_word_quiet. Qed.

Ltac quiet_word H :=
  first [rewrite rmatch_Lit_quiet | rewrite rmatch_word_quiet];
  [ | reflexivity | discriminate | intros ?; discriminate | exact H ].

Lemma class_pattern_quiet (s : list ascii) :
  quiet s = true ->
  rmatch Kotlin.class_pattern s [] (fun s' c' => Some (c', s')) = None.
Proof.
  intros H. unfold Kotlin.class_pattern, Opt, Lit. cbn [Seqs Words chars
    list_ascii_of_string].
  rewrite rmatch_seq. apply rmatch_spaces_quiet; [exact H|]. intros s1 c1 H1.
  rewrite rmatch_seq, rmatch_alt, rmatch_group, !rmatch_alt.
  do 4 quiet_word H1. cbv match. rewrite rmatch_eps, rmatch_seq.
  apply rmatch_spaces_quiet; [exact H1|]. intros s2 c2 H2.
  rewrite rmatch_seq, rmatch_alt, rmatch_group, !rmatch_alt.
  do 5 quiet_word H2. cbv match. rewrite rmatch_eps, rmatch_seq.
  apply rmatch_spaces_quiet; [exact H2|]. intros s3 c3 H3.
  rewrite rmatch_seq, rmatch_group, !rmatch_alt.
  do 3 quiet_word H3. rewrite rmatch_seq. quiet_word H3. reflexivity.
Qed.

Lemma rmatch_star_none {A : Type} (r : regex) (s : list ascii) (c : caps)
    (k : list ascii -> caps -> option A) :
  (forall k', rmatch r s c k' = None :> option A) ->
  rmatch (Star r) s c k = k s c.
Proof.
  intros H. cbn [rmatch]. destruct (length s) as [|n]; [reflexivity|].
  rewrite H. reflexivity.
Qed.

Lemma fun_pattern_quiet (s : list ascii) :
  quiet s = true ->
  rmatch Kotlin.fun_pattern s [] (fun s' c' => Some (c', s')) = None.
Proof.
  intros H. unfold Kotlin.fun_pattern, Lit. cbn [Seqs Words chars
    list_ascii_of_string].
  rewrite rmatch_seq. apply rmatch_spaces_quiet; [exact H|]. intros s1 c1 H1.
  rewrite rmatch_seq, rmatch_star_none.
  - rewrite rmatch_seq. apply rmatch_spaces_quiet; [exact H1|].
    intros s3 c3 H3. rewrite rmatch_seq. quiet_word H3. reflexivity.
  - intros k'. rewrite rmatch_group, !rmatch_alt.
    do 9 quiet_word H1. reflexivity.
Qed.

Lemma starts_with_app (p x y : list ascii) :
  starts_with p x = true -> starts_with p (x ++ y) = true.
Proof.
  revert x. induction p as [|a p IH]; intros [|b x]; cbn; try congruence.
  intros H. apply andb_true_iff in H as [-> H]. cbn. apply IH. exact H.
Qed.

Lemma rstrip_chars_prefix (l : list ascii) :
  exists ws, l = rstrip_chars l ++ ws.
Proof.
  unfold rstrip_chars.
  destruct (lstrip_chars_spec (rev l)) as (ws & E & _).
  exists (rev ws). rewrite <- rev_app_distr, <- E, rev_involutive. reflexivity.
Qed.

(** What opens the stripped line opens the line after its white space. *)
Lemma py_strip_startswith (line p : string) :
  py_startswith (py_strip line) p = true ->
  starts_with (chars p) (lstrip_chars (chars line)) = true.
Proof.
  unfold py_startswith, py_strip. rewrite chars_str. intros H.
  destruct (rstrip_chars_prefix (lstrip_chars (chars line))) as (ws & E).
  rewrite E. apply starts_with_app. exact H.
Qed.

(** A blank line, a comment line and a package line match neither
    pattern. *)
Lemma pending_line_declares_nothing (line : string) :
  keeps_imports_pending line = true ->
  Kotlin.search_class line = None /\ Kotlin.search_fun line = None.
Proof.
  unfold keeps_imports_pending. intros H.
  apply andb_true_iff in H as [_ H]. apply negb_true_iff in H.
  destruct (py_strip line) as [|a0 rest] eqn:Es.
  { split; [apply search_class_blank|apply search_fun_blank]; exact Es. }
  rewrite <- Es in H. rewrite Es in H at 1. cbn [nonempty andb] in H.
  assert (Hq : quiet (chars line) = true).
  { unfold quiet.
    destruct (py_startswith (py_strip line) "//") eqn:E1.
    - apply py_strip_startswith in E1.
      cbn [chars list_ascii_of_string starts_with] in E1.
      destruct (lstrip_chars (chars line)) as [|x l]; [discriminate|].
      apply andb_true_iff in E1 as [E1 _]. apply Ascii.eqb_eq in E1.
      subst x. reflexivity.
    - destruct (py_startswith (py_strip line) "package") eqn:E2;
        [|discriminate H].
      apply py_strip_startswith in E2.
      cbn [chars list_ascii_of_string starts_with] in E2.
      destruct (lstrip_chars (chars line)) as [|x [|y l]]; try discriminate.
      + rewrite andb_false_r in E2. discriminate.
      + apply andb_true_iff in E2 as [E2 E3]. apply Ascii.eqb_eq in E2.
        apply andb_true_iff in E3 as [E3 _]. apply Ascii.eqb_eq in E3.
        subst x y. reflexivity. }
  unfold Kotlin.search_class, Kotlin.search_fun, match_.
  rewrite class_pattern_quiet, fun_pattern_quiet by exact Hq. auto.
Qed.

End QuietLines.

(** ** The scanner lists the dicts in line order *)

Section KotlinOrder.
Import Kotlin.

Lemma StronglySorted_snoc (l : list nat) (x : nat) :
  StronglySorted lt l -> Forall (fun c => c < x) l ->
  StronglySorted lt (l ++ [x]).
Proof.
  induction 1 as [|a l Hs IH Ha]; intros Hx; cbn.
  - repeat constructor.
  - inversion Hx; subst. constructor; [auto|].
    apply Forall_app. split; [exact Ha|]. repeat constructor. assumption.
Qed.

Lemma Ordered_initial : Ordered 0 [] [] None.
Proof.
  split.
  - intros a b na nb _ H. cbn in H. discriminate.
  - intros a n H. cbn in H. discriminate.
  - intros a n H. cbn in H. discriminate.
  - constructor.
  - discriminate.
Qed.

Lemma Ordered_mono L L' h roots imp :
  Ordered L h roots imp -> L <= L' -> Ordered L' h roots imp.
Proof.
  intros [Hh Hb Hc Hr Hp] Hle. split; auto.
  intros a n H. specialize (Hb a n H). lia.
Qed.

(** An update that keeps start lines and child lists keeps the order. *)
Lemma Ordered_alter (g : hnode -> hnode) (a : nat) L h roots imp :
  (forall n, h_start_line (g n) = h_start_line n /\ h_nodes (g n) = h_nodes n) ->
  Ordered L h roots imp -> Ordered L (alter g a h) roots imp.
Proof.
  intros Hg [Hh Hb Hc Hr Hp].
  assert (Hlook : forall p x, alter g a h !! p = Some x ->
            exists y, h !! p = Some y /\ h_start_line x = h_start_line y
                      /\ h_nodes x = h_nodes y).
  { intros p x H. apply lookup_alter_Some in H as (y & Hy & [[_ ->]|[_ ->]]);
      exists y; [auto|]. destruct (Hg y). auto. }
  split.
  - intros p q x y Hlt Hx Hy.
    destruct (Hlook p x Hx) as (x' & Hx' & -> & _).
    destruct (Hlook q y Hy) as (y' & Hy' & -> & _). eauto.
  - intros p x Hx. destruct (Hlook p x Hx) as (x' & Hx' & -> & _). eauto.
  - intros p x Hx. destruct (Hlook p x Hx) as (x' & Hx' & _ & ->). eauto.
  - exact Hr.
  - intros s e E p x Hx. destruct (Hlook p x Hx) as (x' & Hx' & -> & _). eauto.
Qed.

Lemma Ordered_close_scopes (balance : Z) (line_num : nat) L roots imp :
  forall stk h,
    Ordered L h roots imp ->
    Ordered L (fst (close_scopes h stk balance line_num)) roots imp.
Proof.
  induction stk as [|top rest IH]; intros h HO; cbn; [exact HO|].
  destruct (_ <=? _)%Z; [|exact HO].
  apply IH. apply Ordered_alter; [|exact HO]. intros n. split; reflexivity.
Qed.

(** Appending a dict without children that starts after every other, as
    a dict that nothing lists yet and as a root. *)
Lemma Ordered_alloc la lo L L' h roots stk imp (n : hnode) :
  Inv la lo h roots stk imp -> Ordered L h roots imp ->
  (forall a m, h !! a = Some m -> h_start_line m < h_start_line n) ->
  h_start_line n <= L' -> L <= L' -> h_nodes n = [] ->
  Ordered L' (h ++ [n]) roots None
  /\ Ordered L' (h ++ [n]) (roots ++ [length h]) None.
Proof.
  intros HI [Hh Hb Hc Hr Hp] Hlt Hn HL Hnil.
  assert (Hheap : forall a b na nb, a < b -> (h ++ [n]) !! a = Some na ->
            (h ++ [n]) !! b = Some nb -> h_start_line na < h_start_line nb).
  { intros a b na nb Hab Ha Hb'.
    apply lookup_snoc_Some in Ha as [[Hla Ha]|[-> <-]];
      apply lookup_snoc_Some in Hb' as [[Hlb Hb']|[-> <-]]; eauto; lia. }
  assert (Hbound : forall a m, (h ++ [n]) !! a = Some m -> h_start_line m <= L').
  { intros a m Ha. apply lookup_snoc_Some in Ha as [[_ Ha]|[_ <-]]; [|exact Hn].
    specialize (Hb a m Ha). lia. }
  assert (Hchild : forall a m, (h ++ [n]) !! a = Some m ->
            StronglySorted lt (h_nodes m)).
  { intros a m Ha. apply lookup_snoc_Some in Ha as [[_ Ha]|[_ <-]]; [eauto|].
    rewrite Hnil. constructor. }
  split; split; auto; try discriminate.
  apply StronglySorted_snoc; [exact Hr|].
  exact (inv_roots _ _ _ _ _ _ HI).
Qed.

Lemma Ordered_flush la lo L (st : state) :
  Inv la lo (heap st) (st_nodes st) (stack st) (import_lines st) -> la <= L ->
  Ordered L (heap st) (st_nodes st) (import_lines st) ->
  Ordered L (heap (flush_imports st)) (st_nodes (flush_imports st)) None.
Proof.
  intros HI Hla HO. unfold flush_imports.
  destruct (import_lines st) as [[s e]|] eqn:E; [|exact HO].
  cbn. destruct (inv_imports _ _ _ _ _ _ HI s e eq_refl).
  eapply Ordered_alloc; eauto; cbn; try lia.
  exact (ord_pending _ _ _ _ HO s e eq_refl).
Qed.

Lemma flush_imports_none (st : state) :
  import_lines (flush_imports st) = None.
Proof.
  unfold flush_imports. destruct (import_lines st) as [[s e]|] eqn:E;
    [reflexivity|exact E].
Qed.

(** Listing a new last child with an address above the others. *)
Lemma Ordered_add_child L h roots imp (p c : nat) :
  Ordered L h roots imp ->
  (forall m, h !! p = Some m -> Forall (fun x => x < c) (h_nodes m)) ->
  Ordered L (alter (fun m => add_child m c) p h) roots imp.
Proof.
  intros [Hh Hb Hc Hr Hp] Hnew.
  assert (Hlook : forall q x,
            alter (fun m => add_child m c) p h !! q = Some x ->
            exists y, h !! q = Some y /\ h_start_line x = h_start_line y
                      /\ ((q <> p /\ h_nodes x = h_nodes y)
                          \/ (q = p /\ h_nodes x = h_nodes y ++ [c]))).
  { intros q x H. apply lookup_alter_Some in H as (y & Hy & [[Hne ->]|[-> ->]]);
      exists y; auto. }
  split.
  - intros a b x y Hlt Hx Hy.
    destruct (Hlook a x Hx) as (x' & Hx' & -> & _).
    destruct (Hlook b y Hy) as (y' & Hy' & -> & _). eauto.
  - intros a x Hx. destruct (Hlook a x Hx) as (x' & Hx' & -> & _). eauto.
  - intros a x Hx. destruct (Hlook a x Hx) as (x' & Hx' & _ & [[_ ->]|[-> ->]]);
      [eauto|].
    apply StronglySorted_snoc; eauto.
  - exact Hr.
  - intros s e E a x Hx. destruct (Hlook a x Hx) as (x' & Hx' & -> & _). eauto.
Qed.

Lemma Ordered_push la lo L L' (h : list hnode) (roots : list nat)
    (stk : list frame) imp (balance : Z) (line : string) (n : hnode) :
  Inv la lo h roots stk imp -> Ordered L h roots None ->
  L < h_start_line n -> h_start_line n <= L' -> h_nodes n = [] ->
  Ordered L' (push_node h roots stk balance line n).1.1
             (push_node h roots stk balance line n).1.2 None.
Proof.
  intros HI HO Hlt Hle Hnil.
  assert (Hroots : Inv la lo h roots stk None).
  { eapply Inv_no_imports. exact HI. }
  assert (Hstart : forall a m, h !! a = Some m -> h_start_line m < h_start_line n).
  { intros a m Ha. pose proof (ord_bound _ _ _ _ HO a m Ha). lia. }
  destruct (Ordered_alloc _ _ _ L' _ _ _ _ n Hroots HO Hstart Hle ltac:(lia) Hnil)
    as [HO1 HO2].
  unfold push_node. destruct stk as [|top rest]; cbn [fst snd]; [exact HO2|].
  assert (Htop : f_node top < length h).
  { apply (stack_in_range _ _ _ _ _ _ _ HI). left. reflexivity. }
  rewrite <- alter_app_l by exact Htop.
  apply Ordered_add_child; [exact HO1|].
  intros m Hm. rewrite lookup_app_l in Hm by exact Htop.
  apply List.Forall_forall. intros c Hc.
  exact (child_in_range _ _ _ _ _ _ _ _ _ HI Hm Hc).
Qed.

Lemma Ordered_note_import L (st : state) :
  Ordered L (heap st) (st_nodes st) (import_lines st) ->
  Ordered (S L) (heap (note_import st (S L))) (st_nodes (note_import st (S L)))
          (import_lines (note_import st (S L))).
Proof.
  intros [Hh Hb Hc Hr Hp]. cbn. split; auto.
  - intros a n H. specialize (Hb a n H). lia.
  - intros s e E a n H. destruct (import_lines st) as [[s0 e0]|].
    + injection E as <- _. eauto.
    + injection E as <- _. specialize (Hb a n H). lia.
Qed.

(** One line of the scan keeps the order: a line that leaves a run of
    imports pending creates no dict. *)
Lemma Ordered_step L st line :
  Inv L L (heap st) (st_nodes st) (stack st) (import_lines st) ->
  Ordered L (heap st) (st_nodes st) (import_lines st) ->
  let st' := step st (S L) line in
  Ordered (S L) (heap st') (st_nodes st') (import_lines st').
Proof.
  intros HI HO. unfold step. cbv zeta.
  destruct (is_import (py_strip line)) eqn:Ei;
    [apply Ordered_note_import; exact HO|].
  match goal with
  | |- context [if ?c then flush_imports st else st] =>
      set (st1 := if c then flush_imports st else st)
  end.
  assert (H1 : Inv L L (heap st1) (st_nodes st1) (stack st1) (import_lines st1)
               /\ Ordered L (heap st1) (st_nodes st1) (import_lines st1)
               /\ (import_lines st1 = None
                   \/ (search_class line = None /\ search_fun line = None))).
  { unfold st1. destruct (_ && _) eqn:Ec.
    - split; [apply Inv_flush; exact HI|]. rewrite flush_imports_none.
      split; [|left; reflexivity].
      eapply Ordered_flush; [exact HI|lia|exact HO].
    - split; [exact HI|]. split; [exact HO|]. right.
      apply pending_line_declares_nothing. unfold keeps_imports_pending.
      rewrite Ei, Ec. reflexivity. }
  destruct H1 as (HI1 & HO1 & Hcase). clearbody st1.
  set (b := (current_brace_balance st1 + count_braces line)%Z).
  pose proof (Inv_close_scopes (S L) b _ _ _ _ _ _ HI1 ltac:(lia) ltac:(lia)) as HI2.
  pose proof (Ordered_close_scopes b (S L) L (st_nodes st1) (import_lines st1)
                (stack st1) (heap st1) HO1) as HO2.
  destruct (close_scopes (heap st1) (stack st1) b (S L)) as [h stk].
  cbn [fst snd] in HI2, HO2.
  destruct (new_node _ _ _ _ _) as [n|] eqn:En.
  - destruct Hcase as [Himp|[Hc Hf]];
      [|rewrite Hc, Hf in En; discriminate En].
    rewrite Himp in HO2 |- *.
    assert (Hn : h_start_line n = S L /\ h_nodes n = []).
    { unfold new_node in En.
      destruct (search_class line); [injection En as <-; split; reflexivity|].
      destruct (search_fun line); [injection En as <-; split; reflexivity|].
      discriminate. }
    destruct Hn as [Hs Hnil].
    pose proof (Ordered_push _ _ L (S L) _ _ _ _ b line n HI2 HO2
                  ltac:(lia) ltac:(lia) Hnil) as HO3.
    destruct (push_node h (st_nodes st1) stk b line n) as [[h' roots'] stk'].
    exact HO3.
  - cbn. eapply Ordered_mono; [exact HO2|lia].
Qed.

Lemma Ordered_scan_from lines : forall L st,
  Inv L L (heap st) (st_nodes st) (stack st) (import_lines st) ->
  Ordered L (heap st) (st_nodes st) (import_lines st) ->
  let st' := scan_from st (S L) lines in
  exists L', Inv L' L' (heap st') (st_nodes st') (stack st') (import_lines st')
             /\ Ordered L' (heap st') (st_nodes st') (import_lines st').
Proof.
  induction lines as [|line rest IH]; intros L st HI HO; cbn.
  - exists L. auto.
  - apply IH; [apply Inv_step; exact HI|apply Ordered_step; assumption].
Qed.

Lemma Ordered_scan lines :
  exists L, Ordered L (heap (scan lines)) (st_nodes (scan lines)) None.
Proof.
  unfold scan.
  destruct (Ordered_scan_from lines 0 initial Inv_initial Ordered_initial)
    as (L & HI & HO).
  exists L. eapply Ordered_flush; [exact HI|lia|exact HO].
Qed.

(** The tree read back from an address starts where its dict does. *)
Lemma build_start (fuel : nat) (h : list hnode) (a : nat) (t : node) :
  In t (build fuel h a) ->
  exists n, h !! a = Some n /\ start_of t = h_start_line n.
Proof.
  intros Ht. destruct (in_build _ _ _ _ Ht) as (n & fuel' & En & _ & ->).
  exists n. split; [exact En|reflexivity].
Qed.

(** Addresses in ascending order are read back as trees in line order. *)
Lemma ascending_flat_build L (h : list hnode) roots imp (fuel : nat) :
  Ordered L h roots imp ->
  forall l, StronglySorted lt l -> ascending_lines (flat_map (build fuel h) l).
Proof.
  intros HO. unfold ascending_lines.
  induction 1 as [|a l Hs IH Ha]; cbn [flat_map]; [constructor|].
  destruct (build fuel h a) as [|t ts] eqn:Eb; [exact IH|].
  assert (Hts : ts = []).
  { destruct fuel as [|fuel]; [discriminate|]. rewrite build_S in Eb.
    destruct (h !! a); [|discriminate]. injection Eb as _ <-. reflexivity. }
  subst ts. cbn. constructor; [exact IH|].
  apply List.Forall_forall. intros y Hy.
  apply in_map_iff in Hy as (u & <- & Hu).
  apply in_flat_map in Hu as (b & Hb & Hu).
  destruct (build_start fuel h a t) as (n & En & ->); [rewrite Eb; left; reflexivity|].
  destruct (build_start _ _ _ _ Hu) as (m & Em & ->).
  rewrite List.Forall_forall in Ha.
  exact (ord_heap _ _ _ _ HO a b n m (Ha b Hb) En Em).
Qed.

Lemma build_in_line_order L (h : list hnode) roots imp :
  Ordered L h roots imp ->
  forall fuel a t p, In t (build fuel h a) -> In p (walk t) ->
    ascending_lines (get_nodes p).
Proof.
  intros HO. induction fuel as [|fuel IH]; intros a t p Ht Hp; [destruct Ht|].
  destruct (in_build _ _ _ _ Ht) as (n & fuel' & En & Hf & ->).
  injection Hf as <-.
  apply in_walk in Hp as [->|(c & Hc & Hp)].
  - rewrite get_nodes_some. eapply ascending_flat_build; [exact HO|].
    exact (ord_children _ _ _ _ HO a n En).
  - rewrite get_nodes_some in Hc.
    apply in_flat_map in Hc as (a' & _ & Hc). eauto.
Qed.

End KotlinOrder.

(** X29.  The dicts of a Kotlin file are listed in source order at every
    level: among the roots, the ['imports'] dicts included, and among the
    children of every dict, each starts on a later line than the ones
    before it. *)
Theorem kotlin_dicts_are_in_line_order (code_content : string)
    (lines : list string) :
  in_line_order (Kotlin.extract_nodes_from_kotlin code_content lines).
Proof.
  unfold Kotlin.extract_nodes_from_kotlin, Kotlin.forest.
  destruct (Ordered_scan lines) as (L & HO). split.
  - eapply ascending_flat_build; [exact HO|].
    exact (ord_roots _ _ _ _ HO).
  - apply List.Forall_forall. intros p Hp.
    apply in_walk_forest in Hp as (t & Ht & Hp).
    apply in_flat_map in Ht as (a & _ & Ht).
    eapply build_in_line_order; eauto.
Qed.

(** ** The two Kotlin patterns never match the same line *)

(** The cases of a word taken from one of the lists. *)
Ltac word_cases H :=
  cbn [In visibility_words class_modifier_words class_keywords
       fun_modifier_words] in H;
  repeat (destruct H as [<-|H]); [..|destruct H].

Section Exclusive.
Import Re.

Lemma rmatch_consumes {A : Type} (r : regex) :
  forall (s : list ascii) (c : caps) (k : list ascii -> caps -> option A) x,
    rmatch r s c k = Some x ->
    exists s' c', consumes r s s' /\ k s' c' = Some x.
Proof.
  induction r as [|p|r1 IH1 r2 IH2|r1 IH1 r2 IH2|r1 IH1|r1 IH1|i r1 IH1];
    intros s c k x; cbn [rmatch].
  - intros H. exists s, c. split; [constructor|exact H].
  - destruct s as [|a s]; [discriminate|].
    destruct (p a) eqn:E; [|discriminate].
    intros H. exists s, c. split; [constructor; exact E|exact H].
  - intros H. apply IH1 in H as (s1 & c1 & H1 & H).
    apply IH2 in H as (s2 & c2 & H2 & H).
    exists s2, c2. split; [econstructor; eauto|exact H].
  - destruct (rmatch r1 s c k) as [y|] eqn:E.
    + intros H. injection H as ->. apply IH1 in E as (s1 & c1 & H1 & H).
      exists s1, c1. split; [apply consumes_alt_l; exact H1|exact H].
    + intros H. apply IH2 in H as (s1 & c1 & H1 & H).
      exists s1, c1. split; [apply consumes_alt_r; exact H1|exact H].
  - generalize (length s). intros n. revert s c.
    induction n as [|n IHn]; intros s c H.
    + exists s, c. split; [constructor|exact H].
    + match type of H with
      | match ?m with _ => _ end = _ => destruct m as [y|] eqn:E
      end.
      * injection H as ->. apply IH1 in E as (s1 & c1 & H1 & H).
        destruct (_ <? _)%nat; [|discriminate].
        apply IHn in H as (s2 & c2 & H2 & H).
        exists s2, c2. split; [eapply consumes_star_step; eauto|exact H].
      * exists s, c. split; [constructor|exact H].
  - generalize (length s). intros n. revert s c.
    induction n as [|n IHn]; intros s c H.
    + exists s, c. split; [constructor|exact H].
    + destruct (k s c) as [y|] eqn:E.
      * injection H as ->. exists s, c. split; [constructor|exact E].
      * apply IH1 in H as (s1 & c1 & H1 & H).
        destruct (_ <? _)%nat; [|discriminate].
        apply IHn in H as (s2 & c2 & H2 & H).
        exists s2, c2. split; [eapply consumes_lazy_step; eauto|exact H].
  - intros H. apply IH1 in H as (s1 & c1 & H1 & H).
    eexists s1, _. split; [constructor; exact H1|exact H].
Qed.

Lemma consumes_lit (w : list ascii) (s s' : list ascii) :
  consumes (LitChars w) s s' -> s = w ++ s'.
Proof.
  revert s. induction w as [|a w IH]; intros s H; cbn [LitChars] in H.
  - inversion H. reflexivity.
  - inversion H as [| |r1 r2 s0 s1 s2 H1 H2| | | | | | |]; subst.
    inversion H1 as [|p b s0 Hb| | | | | | | |]; subst.
    apply Ascii.eqb_eq in Hb. subst b. cbn. f_equal. apply IH. exact H2.
Qed.

Lemma consumes_spaces (s s' : list ascii) :
  consumes (Star Space) s s' -> exists ws, blank ws /\ s = ws ++ s'.
Proof.
  intros H. remember (Star Space) as r eqn:Er.
  induction H as [| | | | |r s|r s s1 s2 H1 _ H2 IH| | |]; try discriminate.
  - exists []. split; [constructor|reflexivity].
  - injection Er as ->. destruct (IH eq_refl) as (ws & Hws & ->).
    inversion H1 as [|p a s0 Ha| | | | | | | |]; subst.
    exists (a :: ws). split; [constructor; assumption|reflexivity].
Qed.

Lemma consumes_words (l : list string) (s s' : list ascii) :
  consumes (Words l) s s' -> exists w, In w l /\ s = chars w ++ s'.
Proof.
  induction l as [|w l IH]; cbn [Words]; intros H.
  - inversion H; discriminate.
  - destruct l as [|w' l].
    + apply consumes_lit in H. exists w. split; [left; reflexivity|exact H].
    + inversion H as [| | |r1 r2 s0 s1 H1|r1 r2 s0 s1 H1| | | | |]; subst.
      * apply consumes_lit in H1. exists w. split; [left; reflexivity|exact H1].
      * destruct (IH H1) as (x & Hx & E). exists x. split; [right; exact Hx|exact E].
Qed.

(** Words repeated with nothing between them. *)
Lemma consumes_word_run (i : nat) (l : list string) (s s' : list ascii) :
  consumes (Star (Group i (Words l))) s s' ->
  exists ms, Forall (fun m => In m l) ms /\ s = concat (List.map chars ms) ++ s'.
Proof.
  intros H. remember (Star (Group i (Words l))) as r eqn:Er.
  induction H as [| | | | |r s|r s s1 s2 H1 _ H2 IH| | |]; try discriminate.
  - exists []. split; [constructor|reflexivity].
  - injection Er as ->. destruct (IH eq_refl) as (ms & Hms & ->).
    inversion H1 as [| | | | | | | | |j r0 s0 s3 H3]; subst.
    apply consumes_words in H3 as (m & Hm & ->).
    exists (m :: ms). split; [constructor; assumption|].
    cbn. rewrite <- app_assoc. reflexivity.
Qed.

Lemma consumes_seq_inv (r1 r2 : regex) (s s2 : list ascii) :
  consumes (Seq r1 r2) s s2 ->
  exists s1, consumes r1 s s1 /\ consumes r2 s1 s2.
Proof. intros H. inversion H; subst. eauto. Qed.

Lemma consumes_alt_inv (r1 r2 : regex) (s s' : list ascii) :
  consumes (Alt r1 r2) s s' -> consumes r1 s s' \/ consumes r2 s s'.
Proof. intros H. inversion H; subst; auto. Qed.

Lemma consumes_group_inv (i : nat) (r : regex) (s s' : list ascii) :
  consumes (Group i r) s s' -> consumes r s s'.
Proof. intros H. inversion H; subst; auto. Qed.

(** An optional group of words: one of the words, or nothing. *)
Lemma consumes_opt_words (i : nat) (l : list string) (s s' : list ascii) :
  consumes (Opt (Group i (Words l))) s s' ->
  s = s' \/ exists w, In w l /\ s = chars w ++ s'.
Proof.
  unfold Opt. intros H.
  inversion H as [| | |r1 r2 s0 s1 H1|r1 r2 s0 s1 H1| | | | |]; subst.
  - inversion H1 as [| | | | | | | | |j r0 s0 s3 H3]; subst.
    right. apply consumes_words. exact H3.
  - inversion H1. left. reflexivity.
Qed.

(** How a line that the function pattern matches reads. *)
Lemma fun_pattern_shape (s : list ascii) (x : caps * list ascii) :
  rmatch Kotlin.fun_pattern s [] (fun s' c' => Some (c', s')) = Some x ->
  exists ws0 ms ws1 rest,
    blank ws0 /\ Forall (fun m => In m fun_modifier_words) ms /\ blank ws1
    /\ s = ws0 ++ concat (List.map chars ms) ++ ws1 ++ chars "fun" ++ rest.
Proof.
  intros H. apply rmatch_consumes in H as (s' & c' & H & _).
  unfold Kotlin.fun_pattern in H. cbn [Seqs] in H.
  apply consumes_seq_inv in H as (s1 & H1 & H).
  apply consumes_seq_inv in H as (s2 & H2 & H).
  apply consumes_seq_inv in H as (s3 & H3 & H).
  apply consumes_seq_inv in H as (s4 & H4 & _).
  apply consumes_spaces in H1 as (ws0 & Hws0 & ->).
  apply consumes_word_run in H2 as (ms & Hms & ->).
  apply consumes_spaces in H3 as (ws1 & Hws1 & ->).
  apply consumes_lit in H4. subst s3.
  exists ws0, ms, ws1, s4. auto.
Qed.

(** How a line that the class pattern matches reads. *)
Lemma class_pattern_shape (s : list ascii) (x : caps * list ascii) :
  rmatch Kotlin.class_pattern s [] (fun s' c' => Some (c', s')) = Some x ->
  exists ws0 v ws1 k ws2 ck rest,
    blank ws0 /\ blank ws1 /\ blank ws2
    /\ (v = [] \/ exists w, In w visibility_words /\ v = chars w)
    /\ (k = [] \/ exists w, In w class_modifier_words /\ k = chars w)
    /\ In ck class_keywords
    /\ s = ws0 ++ v ++ ws1 ++ k ++ ws2 ++ chars ck ++ rest.
Proof.
  intros H. apply rmatch_consumes in H as (s' & c' & H & _).
  unfold Kotlin.class_pattern in H. cbn [Seqs] in H.
  apply consumes_seq_inv in H as (s1 & H1 & H).
  apply consumes_seq_inv in H as (s2 & H2 & H).
  apply consumes_seq_inv in H as (s3 & H3 & H).
  apply consumes_seq_inv in H as (s4 & H4 & H).
  apply consumes_seq_inv in H as (s5 & H5 & H).
  apply consumes_seq_inv in H as (s6 & H6 & _).
  apply consumes_spaces in H1 as (ws0 & Hws0 & ->).
  apply consumes_spaces in H3 as (ws1 & Hws1 & ->).
  apply consumes_spaces in H5 as (ws2 & Hws2 & ->).
  assert (Hck : exists ck rest, In ck class_keywords /\ s5 = chars ck ++ rest).
  { apply consumes_group_inv in H6.
    apply consumes_alt_inv in H6 as [H6|H6];
      [apply consumes_lit in H6; exists "class", s6; split; [cbn; auto|exact H6]|].
    apply consumes_alt_inv in H6 as [H6|H6];
      [apply consumes_lit in H6; exists "interface", s6;
       split; [cbn; auto|exact H6]|].
    apply consumes_alt_inv in H6 as [H6|H6];
      [apply consumes_lit in H6; exists "object", s6;
       split; [cbn; auto|exact H6]|].
    cbn [Seqs] in H6. apply consumes_seq_inv in H6 as (s7 & H6 & _).
    apply consumes_lit in H6. exists "enum", s7. split; [cbn; auto|exact H6]. }
  destruct Hck as (ck & rest & Hck & ->).
  apply consumes_opt_words in H2. apply consumes_opt_words in H4.
  destruct H2 as [->|(v & Hv & ->)]; destruct H4 as [->|(k & Hk & ->)].
  - exists ws0, [], ws1, [], ws2, ck, rest. repeat split; auto.
  - exists ws0, [], ws1, (chars k), ws2, ck, rest. repeat split; eauto.
  - exists ws0, (chars v), ws1, [], ws2, ck, rest. repeat split; eauto.
  - exists ws0, (chars v), ws1, (chars k), ws2, ck, rest. repeat split; eauto.
Qed.

Lemma lstrip_blank_app (ws l : list ascii) :
  blank ws -> lstrip_chars (ws ++ l) = lstrip_chars l.
Proof.
  induction 1 as [|a ws Ha _ IH]; [reflexivity|]. cbn. rewrite Ha. exact IH.
Qed.

(** After the modifiers the function pattern read, no class keyword
    follows. *)
Lemma no_keyword_in_fun_shape (ms : list string) (ws ck_rest ws0 ws1 rest : list ascii)
    (ck : string) :
  Forall (fun m => In m fun_modifier_words) ms ->
  blank ws -> blank ws0 -> blank ws1 -> In ck class_keywords ->
  ws ++ chars ck ++ ck_rest
  = ws0 ++ concat (List.map chars ms) ++ ws1 ++ chars "fun" ++ rest ->
  False.
Proof.
  intros Hms Hws Hws0 Hws1 Hck H.
  apply (f_equal lstrip_chars) in H.
  rewrite (lstrip_blank_app ws), (lstrip_blank_app ws0) in H by assumption.
  destruct Hms as [|m ms Hm _].
  - cbn [List.map concat app] in H.
    rewrite (lstrip_blank_app ws1) in H by assumption.
    word_cases Hck; cbn in H; discriminate H.
  - word_cases Hck; word_cases Hm; cbn in H; discriminate H.
Qed.

Lemma blank_app (l1 l2 : list ascii) : blank l1 -> blank l2 -> blank (l1 ++ l2).
Proof. intros H1 H2. apply Forall_app. split; assumption. Qed.

(** Nor does a class modifier followed by a class keyword: only [open] is
    a word of both patterns, and then the keyword is in the way. *)
Lemma no_class_modifier_in_fun_shape (ms : list string)
    (ws ws2 ck_rest ws0 ws1 rest : list ascii) (k ck : string) :
  Forall (fun m => In m fun_modifier_words) ms ->
  blank ws -> blank ws2 -> blank ws0 -> blank ws1 ->
  In k class_modifier_words -> In ck class_keywords ->
  ws ++ chars k ++ ws2 ++ chars ck ++ ck_rest
  = ws0 ++ concat (List.map chars ms) ++ ws1 ++ chars "fun" ++ rest ->
  False.
Proof.
  intros Hms Hws Hws2 Hws0 Hws1 Hk Hck H.
  apply (f_equal lstrip_chars) in H.
  rewrite (lstrip_blank_app ws), (lstrip_blank_app ws0) in H by assumption.
  destruct Hms as [|m ms Hm Hms].
  - cbn [List.map concat app] in H.
    rewrite (lstrip_blank_app ws1) in H by assumption.
    word_cases Hk; cbn in H; discriminate H.
  - word_cases Hk; word_cases Hm; cbn in H; try discriminate H.
    injection H as H.
    apply (no_keyword_in_fun_shape ms ws2 ck_rest [] ws1 rest ck);
      auto; constructor.
Qed.

(** Nor a visibility word followed by what the class pattern reads next. *)
Lemma no_visibility_in_fun_shape (ms : list string)
    (ws ws1' k ws2 ck_rest ws0 ws1 rest : list ascii) (v ck : string) :
  Forall (fun m => In m fun_modifier_words) ms ->
  blank ws -> blank ws1' -> blank ws2 -> blank ws0 -> blank ws1 ->
  In v visibility_words ->
  (k = [] \/ exists w, In w class_modifier_words /\ k = chars w) ->
  In ck class_keywords ->
  ws ++ chars v ++ ws1' ++ k ++ ws2 ++ chars ck ++ ck_rest
  = ws0 ++ concat (List.map chars ms) ++ ws1 ++ chars "fun" ++ rest ->
  False.
Proof.
  intros Hms Hws Hws1' Hws2 Hws0 Hws1 Hv Hk Hck H.
  apply (f_equal lstrip_chars) in H.
  rewrite (lstrip_blank_app ws), (lstrip_blank_app ws0) in H by assumption.
  destruct Hms as [|m ms Hm Hms].
  - cbn [List.map concat app] in H.
    rewrite (lstrip_blank_app ws1) in H by assumption.
    word_cases Hv; cbn in H; discriminate H.
  - assert (Hnext : ws1' ++ k ++ ws2 ++ chars ck ++ ck_rest
                    = [] ++ concat (List.map chars ms) ++ ws1
                      ++ chars "fun" ++ rest).
    { word_cases Hv; word_cases Hm; cbn in H; try discriminate H;
        injection H as H; exact H. }
    destruct Hk as [->|(w & Hw & ->)].
    + cbn [app] in Hnext. rewrite app_assoc in Hnext.
      apply (no_keyword_in_fun_shape ms (ws1' ++ ws2) ck_rest [] ws1 rest ck);
        auto using blank_app. constructor.
    + apply (no_class_modifier_in_fun_shape ms ws1' ws2 ck_rest [] ws1 rest w ck);
        auto. constructor.
Qed.

(** No text is matched by both patterns. *)
Lemma patterns_exclusive (s : list ascii) (x y : caps * list ascii) :
  rmatch Kotlin.class_pattern s [] (fun s' c' => Some (c', s')) = Some x ->
  rmatch Kotlin.fun_pattern s [] (fun s' c' => Some (c', s')) = Some y ->
  False.
Proof.
  intros Hc Hf.
  apply class_pattern_shape in Hc
    as (ws & v & ws1' & k & ws2 & ck & ck_rest & Hws & Hws1' & Hws2 & Hv & Hk
        & Hck & ->).
  apply fun_pattern_shape in Hf as (ws0 & ms & ws1 & rest & Hws0 & Hms & Hws1 & H).
  destruct Hv as [->|(v0 & Hv & ->)].
  - cbn [app] in H. rewrite app_assoc in H.
    destruct Hk as [->|(w & Hw & ->)].
    + cbn [app] in H. rewrite app_assoc in H.
      apply (no_keyword_in_fun_shape ms ((ws ++ ws1') ++ ws2) ck_rest ws0 ws1
               rest ck); auto using blank_app.
    + apply (no_class_modifier_in_fun_shape ms (ws ++ ws1') ws2 ck_rest ws0 ws1
               rest w ck); auto using blank_app.
  - apply (no_visibility_in_fun_shape ms ws ws1' k ws2 ck_rest ws0 ws1 rest v0 ck);
      auto.
Qed.

End Exclusive.

Lemma search_class_excludes_search_fun (line : string) :
  Kotlin.search_class line = None \/ Kotlin.search_fun line = None.
Proof.
  unfold Kotlin.search_class, Kotlin.search_fun, Re.match_.
  destruct (Re.rmatch Kotlin.class_pattern _ _ _) as [x|] eqn:Ec;
    [|left; reflexivity].
  destruct (Re.rmatch Kotlin.fun_pattern _ _ _) as [y|] eqn:Ef;
    [|right; reflexivity].
  destruct (patterns_exclusive _ _ _ Ec Ef).
Qed.

Section ClassLines.
Import Re.

(** A text the class pattern matches opens, after its white space, with
    one of the words of the pattern. *)
Lemma class_pattern_head (s : list ascii) (x : caps * list ascii) :
  rmatch Kotlin.class_pattern s [] (fun s' c' => Some (c', s')) = Some x ->
  exists w r,
    In w (visibility_words ++ class_modifier_words ++ class_keywords)
    /\ lstrip_chars s = chars w ++ r.
Proof.
  intros H.
  apply class_pattern_shape in H
    as (ws & v & ws1 & k & ws2 & ck & rest & Hws & Hws1 & Hws2 & Hv & Hk
        & Hck & ->).
  destruct Hv as [->|(v0 & Hv & ->)].
  - cbn [app]. rewrite (lstrip_blank_app ws), (lstrip_blank_app ws1) by assumption.
    destruct Hk as [->|(w & Hw & ->)].
    + cbn [app]. rewrite (lstrip_blank_app ws2) by assumption.
      exists ck, rest. split; [cbn; word_cases Hck; cbn; tauto|].
      word_cases Hck; reflexivity.
    + exists w, (ws2 ++ chars ck ++ rest).
      split; [cbn; word_cases Hw; cbn; tauto|].
      word_cases Hw; reflexivity.
  - rewrite (lstrip_blank_app ws) by assumption.
    exists v0, (ws1 ++ k ++ ws2 ++ chars ck ++ rest).
    split; [cbn; word_cases Hv; cbn; tauto|].
    word_cases Hv; reflexivity.
Qed.

(** A line the class pattern matches is no import line. *)
Lemma class_line_is_no_import (line : string) (m : Kotlin.class_match) :
  Kotlin.search_class line = Some m ->
  Kotlin.is_import (py_strip line) = false.
Proof.
  intros Hc. unfold Kotlin.search_class, match_ in Hc.
  destruct (rmatch Kotlin.class_pattern _ _ _) as [x|] eqn:Ec; [|discriminate].
  apply class_pattern_head in Ec as (w & r & Hw & Ehead).
  unfold Kotlin.is_import, match_.
  destruct (rmatch Kotlin.import_pattern _ _ _) as [y|] eqn:Ei; [|reflexivity].
  exfalso. apply rmatch_consumes in Ei as (s' & c' & Hi & _).
  unfold Kotlin.import_pattern in Hi. cbn [Seqs] in Hi.
  apply consumes_seq_inv in Hi as (s1 & H1 & Hi).
  apply consumes_seq_inv in Hi as (s2 & H2 & _).
  apply consumes_spaces in H1 as (ws & Hws & E1).
  apply consumes_lit in H2. subst s1.
  unfold py_strip in E1. rewrite chars_str in E1.
  destruct (rstrip_chars_prefix (lstrip_chars (chars line))) as (ws' & E2).
  rewrite E1 in E2. apply (f_equal lstrip_chars) in E2.
  rewrite lstrip_chars_idempotent, Ehead in E2.
  rewrite <- app_assoc, lstrip_blank_app in E2 by assumption.
  cbn [visibility_words class_modifier_words class_keywords app] in Hw.
  word_cases Hw; cbn in E2; discriminate E2.
Qed.

End ClassLines.




(** * The errors that leave the parsers *)

Section RaisingFiles.
Variable E : Type.
Variable ast_parse : string -> Raising.parsing (list Python.stmt) E.
Variable javalang_parse : string -> Raising.parsing Java.compilation_unit E.
Variable ts_parse : string -> string -> option Cpp.ts_node.

Local Abbreviation build_file :=
  (Raising.build_file_tree E ast_parse javalang_parse ts_parse).
Local Abbreviation handled_file :=
  (build_file_tree (fun c => Raising.handled (ast_parse c))
     (fun c => Raising.handled (javalang_parse c)) ts_parse).

(** A name has one extension: what ends in [.py] ends in no other. *)
Lemma py_extension_only (file_path : string) :
  py_endswith file_path ".py" = true ->
  py_endswith file_path ".java" = false
  /\ py_endswith file_path ".kt" = false
  /\ endswith_any file_path cpp_extensions = false.
Proof.
  unfold endswith_any, cpp_extensions, py_endswith.
  cbn [existsb chars list_ascii_of_string rev app].
  destruct (rev (chars file_path)) as [|a l]; cbn [starts_with];
    [intros H; discriminate H|].
  destruct (Ascii.eqb "y" a) eqn:Ea; [|intros H; discriminate H].
  apply Ascii.eqb_eq in Ea. subst a. intros _. cbn. auto.
Qed.

(** When no error leaves the parser of the file, the call returns what
    the function on the handled outcomes returns. *)
Lemma build_file_tree_handled (file_path : string) (content : option string) :
  (forall c e, content = Some c ->
     ~ escapes ast_parse javalang_parse file_path c e) ->
  build_file file_path content = Raising.Returns (handled_file file_path content).
Proof.
  intros Hno. unfold Raising.build_file_tree, build_file_tree.
  destruct (py_endswith file_path ".java") eqn:Ej.
  - destruct content as [c|]; [|reflexivity]. cbn [option_map].
    unfold Raising.build_java_file_tree, Java.build_java_file_tree,
      Raising.extract_nodes_from_java, Java.extract_nodes_from_java.
    destruct (javalang_parse c) as [tree| |e] eqn:Ep; try reflexivity.
    exfalso. apply (Hno c e eq_refl). left. auto.
  - destruct (py_endswith file_path ".kt"); [reflexivity|].
    destruct (endswith_any file_path cpp_extensions); [reflexivity|].
    destruct (py_endswith file_path ".py") eqn:Ey; [|reflexivity].
    destruct content as [c|]; [|reflexivity]. cbn [option_map].
    unfold Raising.build_python_file_tree, Python.build_python_file_tree,
      Raising.extract_nodes_from_python, Python.extract_nodes_from_python.
    destruct (ast_parse c) as [tree| |e] eqn:Ep; try reflexivity.
    exfalso. apply (Hno c e eq_refl). right. auto.
Qed.

(** And when one does, the call raises it. *)
Lemma build_file_tree_escapes (file_path code_content : string) (e : E) :
  escapes ast_parse javalang_parse file_path code_content e ->
  build_file file_path (Some code_content) = Raising.Raises (Raising.OfParser e).
Proof.
  unfold Raising.build_file_tree. intros [[Hj Hp]|[Hy Hp]].
  - rewrite Hj. unfold Raising.build_java_file_tree,
      Raising.extract_nodes_from_java. rewrite Hp. reflexivity.
  - destruct (py_extension_only _ Hy) as (-> & -> & ->). rewrite Hy.
    unfold Raising.build_python_file_tree,
      Raising.extract_nodes_from_python. rewrite Hp. reflexivity.
Qed.

Lemma build_file_tree_raises (file_path : string) (content : option string)
    (err : Raising.error E) :
  build_file file_path content = Raising.Raises err ->
  exists c e, content = Some c /\ err = Raising.OfParser e
              /\ escapes ast_parse javalang_parse file_path c e.
Proof.
  unfold Raising.build_file_tree. intros H.
  destruct (py_endswith file_path ".java") eqn:Ej.
  - destruct content as [c|]; [|discriminate].
    unfold Raising.build_java_file_tree,
      Raising.extract_nodes_from_java in H.
    destruct (javalang_parse c) as [tree| |e] eqn:Ep; try discriminate.
    injection H as <-. exists c, e. repeat split. left. auto.
  - destruct (py_endswith file_path ".kt"); [discriminate|].
    destruct (endswith_any file_path cpp_extensions); [discriminate|].
    destruct (py_endswith file_path ".py") eqn:Ey; [|discriminate].
    destruct content as [c|]; [|discriminate].
    unfold Raising.build_python_file_tree,
      Raising.extract_nodes_from_python in H.
    destruct (ast_parse c) as [tree| |e] eqn:Ep; try discriminate.
    injection H as <-. exists c, e. repeat split. right. auto.
Qed.

(** What the call returns is what the function on the handled outcomes
    returns. *)
Lemma build_file_tree_returns (file_path : string) (content : option string)
    (r : option node) :
  build_file file_path content = Raising.Returns r ->
  r = handled_file file_path content.
Proof.
  unfold Raising.build_file_tree, build_file_tree. intros H.
  destruct (py_endswith file_path ".java").
  - destruct content as [c|]; [|injection H as <-; reflexivity].
    cbn [option_map]. unfold Raising.build_java_file_tree,
      Java.build_java_file_tree, Raising.extract_nodes_from_java,
      Java.extract_nodes_from_java in *.
    destruct (javalang_parse c); cbn in H; try discriminate;
      injection H as <-; reflexivity.
  - destruct (py_endswith file_path ".kt"); [injection H as <-; reflexivity|].
    destruct (endswith_any file_path cpp_extensions);
      [injection H as <-; reflexivity|].
    destruct (py_endswith file_path ".py"); [|injection H as <-; reflexivity].
    destruct content as [c|]; [|injection H as <-; reflexivity].
    cbn [option_map]. unfold Raising.build_python_file_tree,
      Python.build_python_file_tree, Raising.extract_nodes_from_python,
      Python.extract_nodes_from_python in *.
    destruct (ast_parse c); cbn in H; try discriminate;
      injection H as <-; reflexivity.
Qed.

End RaisingFiles.




(** X27.  When the Java extractor returns, it returns at most one imports
    dict, however many imports the unit has: it comes first, spans from
    the line of the first import to the line of the last (line 1 for an
    import without a position), and has an empty child list; no dict
    built for a type or a method is an imports dict, and a unit on which
    the parser raises a caught error gives no dict.  The extractor raises
    only what the parser raised uncaught. *)
Theorem java_imports_dict_is_single_and_first (E : Type)
    (javalang_parse : string -> Raising.parsing Java.compilation_unit E)
    (code_content : string) (lines : list string) :
  match Raising.extract_nodes_from_java E javalang_parse code_content lines with
  | Raising.Returns forest =>
      let import_dicts :=
        match javalang_parse code_content with
        | Raising.Parsed tree =>
            match Java.cu_imports tree with
            | first_import :: rest =>
                [Node (code_fields "Imports" imports
                         (Java.get_line_range first_import)
                         (Java.get_line_range (List.last rest first_import))
                         None None None)
                      (Some [])]
            | [] => []
            end
        | _ => []
        end in
      imports_of forest = import_dicts
      /\ firstn (length import_dicts) forest = import_dicts
      /\ (javalang_parse code_content = Raising.Caught -> forest = [])
  | Raising.Raises err =>
      exists e, javalang_parse code_content = Raising.Uncaught e
                /\ err = Raising.OfParser e
  end.
Proof.
  unfold Raising.extract_nodes_from_java.
  destruct (javalang_parse code_content) as [tree| |e];
    [|repeat split; reflexivity|exists e; auto].
  cbv zeta. unfold Java.nodes_of_unit.
  assert (Htypes : imports_of (flat_map (fun t => option_list
                                           (Java.process_node t None))
                                        (Java.cu_types tree)) = []).
  { unfold imports_of. apply filter_none. intros p Hp.
    pose proof (java_types_kinds None (Java.cu_types tree)) as Hk.
    rewrite List.Forall_forall in Hk. specialize (Hk p Hp). cbn beta in Hk.
    destruct (type (attrs p)); try discriminate; reflexivity. }
  rewrite imports_of_app, Htypes, app_nil_r.
  destruct (Java.cu_imports tree) as [|first_import rest] eqn:Ei.
  - repeat split; [discriminate].
  - assert (Hlast : List.last (first_import :: rest) first_import
                    = List.last rest first_import).
    { destruct rest; reflexivity. }
    cbn [Java.imports_node]. rewrite Hlast.
    split; [reflexivity|]. split; [reflexivity|discriminate].
Qed.

(** ** Loops of calls *)

Lemma in_turn_raises {E A : Type} (calls : list (Raising.outcome E A))
    (err : Raising.error E) :
  Raising.in_turn calls = Raising.Raises err -> In (Raising.Raises err) calls.
Proof.
  induction calls as [|call rest IH]; cbn; [discriminate|].
  destruct call as [x|e]; cbn.
  - destruct (Raising.in_turn rest) as [xs|e]; cbn; [discriminate|].
    intros H. injection H as ->. right. apply IH. reflexivity.
  - intros H. injection H as ->. left. reflexivity.
Qed.

Lemma in_turn_raising {E A : Type} (calls : list (Raising.outcome E A))
    (err : Raising.error E) :
  In (Raising.Raises err) calls ->
  exists err', Raising.in_turn calls = Raising.Raises err'.
Proof.
  induction calls as [|call rest IH]; intros []; cbn.
  - subst call. cbn. eauto.
  - destruct call as [x|e0]; cbn; [|eauto].
    destruct (IH H) as (err' & ->). cbn. eauto.
Qed.

(** [sorted] looks at the names only. *)
Lemma insert_sorted_payload {A B : Type} (f : string -> A -> B)
    (x : string * A) (l : list (string * A)) :
  insert_sorted (fst x, f (fst x) (snd x))
    (List.map (fun y => (fst y, f (fst y) (snd y))) l)
  = List.map (fun y => (fst y, f (fst y) (snd y))) (insert_sorted x l).
Proof.
  induction l as [|y l IH]; cbn; [reflexivity|].
  destruct (String.leb (fst x) (fst y)); cbn; [reflexivity|].
  rewrite IH. reflexivity.
Qed.

Lemma sorted_payload {A B : Type} (f : string -> A -> B) (l : list (string * A)) :
  sorted (List.map (fun y => (fst y, f (fst y) (snd y))) l)
  = List.map (fun y => (fst y, f (fst y) (snd y))) (sorted l).
Proof.
  unfold sorted. induction l as [|x l IH]; [reflexivity|].
  cbn [List.map fold_right]. rewrite IH. apply insert_sorted_payload.
Qed.

Lemma filter_snd_flat_map {A : Type} (keep : node -> bool) (l : list (A * node)) :
  List.filter keep (List.map snd l)
  = flat_map (fun '(_, n) => if keep n then [n] else []) l.
Proof.
  induction l as [|[a n] l IH]; cbn; [reflexivity|].
  rewrite IH. destruct (keep n); reflexivity.
Qed.

Lemma flat_map_option_list_map {A B : Type} (f : A -> option B) (l : list A) :
  flat_map option_list (List.map f l) = flat_map (fun x => option_list (f x)) l.
Proof.
  induction l as [|x l IH]; cbn; [reflexivity|]. rewrite IH. reflexivity.
Qed.

Section RaisingDirectories.
Variable E : Type.
Variable ast_parse : string -> Raising.parsing (list Python.stmt) E.
Variable javalang_parse : string -> Raising.parsing Java.compilation_unit E.
Variable ts_parse : string -> string -> option Cpp.ts_node.
Variable normpath : string -> string.

Local Abbreviation build_file :=
  (Raising.build_file_tree E ast_parse javalang_parse ts_parse).
Local Abbreviation build_dir :=
  (Raising.build_directory_tree E ast_parse javalang_parse ts_parse normpath).
Local Abbreviation handled_file :=
  (build_file_tree (fun c => Raising.handled (ast_parse c))
     (fun c => Raising.handled (javalang_parse c)) ts_parse).
Local Abbreviation handled_dir :=
  (build_directory_tree (fun c => Raising.handled (ast_parse c))
     (fun c => Raising.handled (javalang_parse c)) ts_parse normpath).

(** An entry of the listing with the call on it, and with the dict of the
    functions on the handled outcomes. *)
Local Abbreviation with_call dir_path :=
  (fun y : string * fs_entry =>
     (fst y, (snd y, build_dir (path_join dir_path (fst y)) (snd y)))).
Local Abbreviation with_dict dir_path :=
  (fun y : string * fs_entry =>
     (fst y, (snd y, handled_dir (path_join dir_path (fst y)) (snd y)))).

Lemma sorted_with_call (dir_path : string) (entries : list (string * fs_entry)) :
  sorted (List.map (with_call dir_path) entries)
  = List.map (with_call dir_path) (sorted entries).
Proof.
  apply (sorted_payload
           (fun item e => (e, build_dir (path_join dir_path item) e))).
Qed.

Lemma sorted_with_dict (dir_path : string) (entries : list (string * fs_entry)) :
  sorted (List.map (with_dict dir_path) entries)
  = List.map (with_dict dir_path) (sorted entries).
Proof.
  apply (sorted_payload
           (fun item e => (e, handled_dir (path_join dir_path item) e))).
Qed.

Lemma raising_directory_listed (dir_path : string)
    (entries : list (string * fs_entry)) :
  build_dir dir_path (FsDir (Some entries))
  = Raising.directory_node E ast_parse javalang_parse ts_parse normpath
      dir_path (Some (List.map (with_call dir_path) entries)).
Proof.
  cbn [Raising.build_directory_tree]. f_equal. f_equal.
  apply map_ext. intros [item e]. reflexivity.
Qed.

Lemma handled_directory_listed (dir_path : string)
    (entries : list (string * fs_entry)) :
  handled_dir dir_path (FsDir (Some entries))
  = directory_node (fun c => Raising.handled (ast_parse c))
      (fun c => Raising.handled (javalang_parse c)) ts_parse normpath
      dir_path (Some (List.map (with_dict dir_path) entries)).
Proof.
  cbn [build_directory_tree]. f_equal. f_equal.
  apply map_ext. intros [item e]. reflexivity.
Qed.

(** The calls of the two loops are calls on entries of the listing. *)
Lemma subdir_loop_call (dir_path : string) (items : list (string * fs_entry))
    (call : Raising.outcome E node) :
  In call (List.map snd (Raising.subdirs_of E dir_path
                           (List.map (with_call dir_path) items)))
  <-> exists item e, In (item, e) items /\ skipped item = false
                     /\ is_dir e = true
                     /\ call = build_dir (path_join dir_path item) e.
Proof.
  rewrite in_map_iff. split.
  - intros ([p c] & <- & H). unfold Raising.subdirs_of in H.
    apply in_flat_map in H as ([item [e c']] & Hin & H).
    apply in_map_iff in Hin as ([item0 e0] & Heq & Hin).
    cbn in Heq. injection Heq as -> -> <-.
    destruct (skipped item) eqn:Es; [destruct H|].
    destruct (is_dir e) eqn:Ed; [|destruct H].
    destruct H as [H|[]]. injection H as _ <-.
    exists item, e. auto.
  - intros (item & e & Hin & Es & Ed & ->).
    exists (path_join dir_path item, build_dir (path_join dir_path item) e).
    split; [reflexivity|]. unfold Raising.subdirs_of. apply in_flat_map.
    exists (item, (e, build_dir (path_join dir_path item) e)).
    split; [apply in_map_iff; exists (item, e); auto|].
    rewrite Es, Ed. left. reflexivity.
Qed.

Lemma file_loop_call (dir_path : string) (items : list (string * fs_entry))
    (call : Raising.outcome E (option node)) :
  In call (List.map (fun '(file_path, content) => build_file file_path content)
             (Raising.files_of E dir_path (List.map (with_call dir_path) items)))
  <-> exists item content,
        In (item, FsFile content) items /\ skipped item = false
        /\ endswith_any item supported_extensions = true
        /\ call = build_file (path_join dir_path item) content.
Proof.
  rewrite in_map_iff. split.
  - intros ([p c] & <- & H). unfold Raising.files_of in H.
    apply in_flat_map in H as ([item [e c']] & Hin & H).
    apply in_map_iff in Hin as ([item0 e0] & Heq & Hin).
    cbn in Heq. injection Heq as -> -> <-.
    destruct (skipped item) eqn:Es; [destruct H|].
    destruct e as [content|listing]; [|destruct H].
    destruct (endswith_any item supported_extensions) eqn:Ex; [|destruct H].
    destruct H as [H|[]]. injection H as <- <-.
    exists item, content. auto.
  - intros (item & content & Hin & Es & Ex & ->).
    exists (path_join dir_path item, content).
    split; [reflexivity|]. unfold Raising.files_of. apply in_flat_map.
    exists (item, (FsFile content,
                   build_dir (path_join dir_path item) (FsFile content))).
    split; [apply in_map_iff; exists (item, FsFile content); auto|].
    rewrite Es, Ex. left. reflexivity.
Qed.

(** What [build_directory_tree] raises is an error that left the parser of
    a file it builds. *)
Lemma build_directory_tree_raises (d : fs_entry) :
  forall (dir_path : string) (err : Raising.error E),
    build_dir dir_path d = Raising.Raises err ->
    exists p c e, err = Raising.OfParser e /\ built_file dir_path d p c
                  /\ escapes ast_parse javalang_parse p c e.
Proof.
  induction d as [content| |entries IH] using fs_entry_ind';
    intros dir_path err H; try discriminate H.
  rewrite raising_directory_listed in H. unfold Raising.directory_node in H.
  cbv zeta in H. rewrite sorted_with_call in H.
  destruct (Raising.in_turn (List.map snd _)) as [subdir_nodes|e0] eqn:Hs;
    cbn [Raising.bind] in H.
  - destruct (Raising.in_turn (List.map _ (Raising.files_of _ _ _))) as [file_nodes|e0]
      eqn:Hf; cbn [Raising.bind] in H; [discriminate|].
    injection H as ->. apply in_turn_raises in Hf.
    apply file_loop_call in Hf as (item & content & Hin & Es & Ex & Hb).
    symmetry in Hb.
    apply build_file_tree_raises in Hb as (c & e & -> & -> & Hesc).
    exists (path_join dir_path item), c, e. split; [reflexivity|].
    split; [|exact Hesc]. apply built_file_here; auto.
    apply in_sorted. exact Hin.
  - injection H as ->. apply in_turn_raises in Hs.
    apply subdir_loop_call in Hs as (item & e & Hin & Es & Ed & Hb).
    apply in_sorted in Hin. rewrite List.Forall_forall in IH.
    symmetry in Hb.
    destruct (IH (item, e) Hin _ _ Hb) as (p & c & e' & -> & Hbuilt & Hesc).
    exists p, c, e'. split; [reflexivity|]. split; [|exact Hesc].
    eapply built_file_below; eauto.
Qed.

(** And when such an error leaves a parser, the call raises. *)
Lemma build_directory_tree_raising (dir_path : string) (d : fs_entry)
    (p c : string) (e : E) :
  built_file dir_path d p c -> escapes ast_parse javalang_parse p c e ->
  exists err, build_dir dir_path d = Raising.Raises err.
Proof.
  intros Hbuilt Hesc.
  induction Hbuilt
    as [dir_path entries item c Hin Es Ex
       |dir_path entries item e0 p c Hin Ed Es Hbuilt IH].
  - rewrite raising_directory_listed. unfold Raising.directory_node.
    cbv zeta. rewrite sorted_with_call.
    destruct (Raising.in_turn (List.map snd _)) as [subdir_nodes|e0];
      cbn [Raising.bind]; [|eauto].
    destruct (in_turn_raising
                (List.map (fun '(file_path, content) =>
                             build_file file_path content)
                   (Raising.files_of E dir_path
                      (List.map (with_call dir_path) (sorted entries))))
                (Raising.OfParser e)) as (err & ->); [|cbn; eauto].
    apply file_loop_call. exists item, (Some c).
    split; [apply in_sorted_rev; exact Hin|]. split; [exact Es|].
    split; [exact Ex|]. symmetry. apply build_file_tree_escapes. exact Hesc.
  - destruct (IH Hesc) as (err & Herr).
    rewrite raising_directory_listed. unfold Raising.directory_node.
    cbv zeta. rewrite sorted_with_call.
    destruct (in_turn_raising
                (List.map snd
                   (Raising.subdirs_of E dir_path
                      (List.map (with_call dir_path) (sorted entries))))
                err) as (err' & ->); [|cbn; eauto].
    apply subdir_loop_call. exists item, e0.
    split; [apply in_sorted_rev; exact Hin|]. auto.
Qed.

(** When every call of a loop returns what the functions on the handled
    outcomes build, so does the loop. *)
Lemma subdir_loop_handled (dir_path : string) (items : list (string * fs_entry)) :
  (forall item e, In (item, e) items -> skipped item = false ->
     is_dir e = true ->
     build_dir (path_join dir_path item) e
     = Raising.Returns (handled_dir (path_join dir_path item) e)) ->
  Raising.in_turn (List.map snd (Raising.subdirs_of E dir_path
                           (List.map (with_call dir_path) items)))
  = Raising.Returns (List.map snd (subdirs_of dir_path
                             (List.map (with_dict dir_path) items))).
Proof.
  unfold Raising.subdirs_of, subdirs_of.
  induction items as [|[item e] l IH]; intros H; [reflexivity|].
  cbn [List.map flat_map fst snd].
  assert (Hl : forall item e, In (item, e) l -> skipped item = false ->
            is_dir e = true ->
            build_dir (path_join dir_path item) e
            = Raising.Returns (handled_dir (path_join dir_path item) e))
    by (intros; apply H; auto; right; assumption).
  destruct (skipped item) eqn:Es; [cbn [app]; apply IH; exact Hl|].
  destruct (is_dir e) eqn:Ed; [|cbn [app]; apply IH; exact Hl].
  cbn [app List.map snd Raising.in_turn].
  rewrite (H item e) by (auto; left; reflexivity). cbn [Raising.bind].
  rewrite (IH Hl). reflexivity.
Qed.

Lemma file_loop_handled (dir_path : string) (items : list (string * fs_entry)) :
  (forall item content, In (item, FsFile content) items ->
     skipped item = false ->
     endswith_any item supported_extensions = true ->
     build_file (path_join dir_path item) content
     = Raising.Returns (handled_file (path_join dir_path item) content)) ->
  Raising.in_turn (List.map (fun '(file_path, content) => build_file file_path content)
             (Raising.files_of E dir_path (List.map (with_call dir_path) items)))
  = Raising.Returns (List.map (fun '(file_path, content) =>
                         handled_file file_path content)
               (files_of dir_path
                  (List.map (with_dict dir_path) items))).
Proof.
  unfold Raising.files_of, files_of.
  induction items as [|[item e] l IH]; intros H; [reflexivity|].
  cbn [List.map flat_map fst snd].
  assert (Hl : forall item content, In (item, FsFile content) l ->
            skipped item = false ->
            endswith_any item supported_extensions = true ->
            build_file (path_join dir_path item) content
            = Raising.Returns (handled_file (path_join dir_path item) content))
    by (intros; apply H; auto; right; assumption).
  destruct (skipped item) eqn:Es; [cbn [app]; apply IH; exact Hl|].
  destruct e as [content|listing]; [|cbn [app]; apply IH; exact Hl].
  destruct (endswith_any item supported_extensions) eqn:Ex;
    [|cbn [app]; apply IH; exact Hl].
  cbn [app List.map Raising.in_turn].
  rewrite (H item content) by (auto; left; reflexivity). cbn [Raising.bind].
  rewrite (IH Hl). reflexivity.
Qed.

(** When no error leaves the parser of a file it builds,
    [build_directory_tree] returns the dict that the function on the
    handled outcomes builds. *)
Lemma build_directory_tree_handled (d : fs_entry) :
  forall dir_path : string,
    (forall p c e, built_file dir_path d p c ->
       ~ escapes ast_parse javalang_parse p c e) ->
    build_dir dir_path d = Raising.Returns (handled_dir dir_path d).
Proof.
  induction d as [content| |entries IH] using fs_entry_ind';
    intros dir_path Hno; try reflexivity.
  rewrite raising_directory_listed, handled_directory_listed.
  unfold Raising.directory_node, directory_node. cbv zeta.
  rewrite sorted_with_call, sorted_with_dict.
  rewrite subdir_loop_handled.
  - cbn [Raising.bind]. rewrite file_loop_handled.
    + cbn [Raising.bind]. rewrite filter_snd_flat_map, flat_map_option_list_map.
      do 4 f_equal. apply flat_map_ext. intros [file_path content]. reflexivity.
    + intros item content Hin Es Ex. apply build_file_tree_handled.
      intros c e -> Hesc. apply (Hno (path_join dir_path item) c e); [|exact Hesc].
      apply built_file_here; auto. apply in_sorted. exact Hin.
  - intros item e Hin Es Ed. apply in_sorted in Hin.
    rewrite List.Forall_forall in IH. apply (IH (item, e) Hin).
    intros p c e' Hbuilt. apply Hno. eapply built_file_below; eauto.
Qed.

End RaisingDirectories.

(** ** The entry point with the errors of the parsers *)

Section RaisingEntryPoint.
Variable E : Type.
Variable count_tokens : string -> string -> Z.
Variable ChatGPT_API_async : string -> string -> option string.
Variable ast_parse : string -> Raising.parsing (list Python.stmt) E.
Variable javalang_parse : string -> Raising.parsing Java.compilation_unit E.
Variable ts_parse : string -> string -> option Cpp.ts_node.
Variable normpath : string -> string.
Variable abspath : string -> string.
Variable fs : string -> option fs_entry.
Variable write_node_id : node -> node.
Variable format_structure : node -> list string -> node.
Variable description_input : Type.
Variable create_clean_structure_for_description : node -> description_input.
Variable generate_doc_description : description_input -> string -> option string.

Local Abbreviation first_block :=
  (Raising.build_structure E ast_parse javalang_parse ts_parse normpath).
Local Abbreviation handled_first_block :=
  (build_structure (fun c => Raising.handled (ast_parse c))
     (fun c => Raising.handled (javalang_parse c)) ts_parse normpath).
Local Abbreviation run :=
  (Raising.code_to_tree E count_tokens ChatGPT_API_async ast_parse
     javalang_parse ts_parse normpath abspath fs write_node_id format_structure
     description_input create_clean_structure_for_description
     generate_doc_description).
(** An error of a parser that the first block raises is one that left
    the parser of a file it builds. *)
Lemma build_structure_of_parser (path : string) (target : option fs_entry)
    (e : E) :
  first_block path target = Raising.Raises (Raising.OfParser e) ->
  exists p c, built_from path target p c
              /\ escapes ast_parse javalang_parse p c e.
Proof.
  unfold Raising.build_structure. destruct target as [[content|listing]|].
  - destruct (endswith_any path supported_extensions) eqn:Ex; cbn [negb];
      [|discriminate].
    destruct (Raising.build_file_tree _ _ _ _ _ _) as [[n|]|err] eqn:Hb;
      cbn [Raising.bind]; try discriminate.
    intros H. injection H as ->.
    apply build_file_tree_raises in Hb as (c & e' & -> & He & Hesc).
    injection He as <-. exists path, c. split; [cbn; auto|exact Hesc].
  - intros H. apply build_directory_tree_raises in H
      as (p & c & e' & He & Hbuilt & Hesc).
    injection He as <-. exists p, c. split; [exact Hbuilt|exact Hesc].
  - discriminate.
Qed.

(** And when an error leaves the parser of such a file, the first block
    raises the error of a parser. *)
Lemma build_structure_raising (path : string) (target : option fs_entry)
    (p c : string) (e : E) :
  built_from path target p c -> escapes ast_parse javalang_parse p c e ->
  exists e', first_block path target = Raising.Raises (Raising.OfParser e').
Proof.
  unfold Raising.build_structure. destruct target as [[content|listing]|];
    cbn [built_from]; [| |intros []].
  - intros (-> & -> & Hx) Hesc. rewrite Hx. cbn [negb].
    rewrite (build_file_tree_escapes _ _ _ _ _ _ _ Hesc). cbn [Raising.bind]. eauto.
  - intros Hbuilt Hesc.
    destruct (build_directory_tree_raising E ast_parse javalang_parse ts_parse
                normpath _ _ _ _ _ Hbuilt Hesc) as (err & Herr).
    destruct (build_directory_tree_raises _ _ _ _ _ _ _ _ Herr)
      as (p' & c' & e' & -> & _). eauto.
Qed.

(** When none does, the first block does what it does on the handled
    outcomes. *)
Lemma build_structure_handled (path : string) (target : option fs_entry) :
  (forall p c e, built_from path target p c ->
     ~ escapes ast_parse javalang_parse p c e) ->
  first_block path target = as_outcome (handled_first_block path target).
Proof.
  unfold Raising.build_structure, build_structure.
  destruct target as [[content|listing]|]; cbn [built_from]; intros Hno;
    [| |reflexivity].
  - destruct (endswith_any path supported_extensions) eqn:Ex; cbn [negb];
      [|reflexivity].
    rewrite build_file_tree_handled.
    + cbn [Raising.bind]. destruct (build_file_tree _ _ _ _ _); reflexivity.
    + intros c e -> Hesc. apply (Hno path c e); auto.
  - apply build_directory_tree_handled. exact Hno.
Qed.

(** The errors of the first block that are the pipeline's own are those
    of the first block on the handled outcomes. *)
Lemma build_structure_own (path : string) (target : option fs_entry) (x : exn) :
  first_block path target = Raising.Raises (Raising.Own x)
  <-> handled_first_block path target = Raise x.
Proof.
  unfold Raising.build_structure, build_structure.
  destruct target as [[content|listing]|].
  - destruct (endswith_any path supported_extensions) eqn:Ex; cbn [negb].
    + destruct (Raising.build_file_tree _ _ _ _ _ _) as [r|err] eqn:Hb;
        cbn [Raising.bind].
      * apply build_file_tree_returns in Hb. rewrite <- Hb.
        destruct r; split; intros H; try discriminate;
          injection H as <-; reflexivity.
      * split; intros H.
        -- apply build_file_tree_raises in Hb as (c & e & _ & -> & _).
           discriminate.
        -- apply build_file_tree_raises in Hb as (c & e & -> & _ & _).
           destruct (build_file_tree_some (fun c => Raising.handled (ast_parse c))
                       (fun c => Raising.handled (javalang_parse c)) ts_parse
                       path c Ex) as (children & Hsome).
           rewrite Hsome in H. discriminate.
    + split; intros H; injection H as <-; reflexivity.
  - split; intros H; [|discriminate].
    apply build_directory_tree_raises in H as (p & c & e & H & _).
    discriminate.
  - split; intros H; injection H as <-; reflexivity.
Qed.

(** An error of [code_to_tree] is an error of its first block or the
    failure of a request that was asked for. *)
Lemma raising_code_to_tree_raises (path : string) (if_thinning : bool)
    (min_token_threshold : Z) (if_add_node_summary : string)
    (summary_token_threshold : Z) (model : string)
    (if_add_doc_description if_add_node_text if_add_node_id : string)
    (err : Raising.error E) :
  run path if_thinning min_token_threshold if_add_node_summary
      summary_token_threshold model if_add_doc_description if_add_node_text
      if_add_node_id = Raising.Raises err ->
  first_block (abspath path) (fs (abspath path)) = Raising.Raises err
  \/ (err = Raising.Own RequestFailure
      /\ (if_add_node_summary = "yes" \/ if_add_doc_description = "yes")).
Proof.
  unfold Raising.code_to_tree. cbv zeta.
  destruct (Raising.build_structure _ _ _ _ _ _ _) as [structure|e0];
    cbn [Raising.bind]; [|intros H; injection H as <-; left; reflexivity].
  destruct (snd (summary_stage _ _ _ _ _ _)) as [s|e1] eqn:Es.
  - destruct (String.eqb if_add_doc_description "yes") eqn:Ed; [|discriminate].
    destruct (generate_doc_description _ _); [discriminate|].
    intros H. injection H as <-. right. split; [reflexivity|].
    right. apply String.eqb_eq. exact Ed.
  - intros H. injection H as <-.
    apply summary_stage_raises in Es as [-> Hflag].
    right. split; [reflexivity|]. left. apply String.eqb_eq. exact Hflag.
Qed.

Lemma raising_code_to_tree_first_block (path : string) (if_thinning : bool)
    (min_token_threshold : Z) (if_add_node_summary : string)
    (summary_token_threshold : Z) (model : string)
    (if_add_doc_description if_add_node_text if_add_node_id : string)
    (err : Raising.error E) :
  first_block (abspath path) (fs (abspath path)) = Raising.Raises err ->
  run path if_thinning min_token_threshold if_add_node_summary
      summary_token_threshold model if_add_doc_description if_add_node_text
      if_add_node_id = Raising.Raises err.
Proof.
  intros H. unfold Raising.code_to_tree. cbv zeta. rewrite H. reflexivity.
Qed.

End RaisingEntryPoint.



